(** * Schema-driven data mapping, reshaping and slice partitioning

    A shallow embedding of [SchemaDefReShape.py] (classes [SliceValues] and
    [SchemaDefReShape]) and of [SchemaDefDataPrep.py] (class
    [SchemaDefDataPrep]), followed by the properties established about
    them.

    Conventions of the embedding:
    - a Python [dict] is an association list in insertion order
      ([dget], [dset]); assigning to an existing key keeps its position,
      as in Python;
    - a Python exception is a value [Raise e] of the error monad [Exc];
      [try ... except Exception] is a [match] on that value;
    - objects that Python shares by reference and mutates (the row lists
      built by the one-pass partitioner) live in an explicit heap;
    - the schema definition object handed to both classes is not part of
      the embedded sources; its accessor methods are record fields. *)

From Stdlib Require Import String Ascii List ZArith Bool Lia PeanoNat.
Import ListNotations.
Open Scope string_scope.
Open Scope list_scope.

Set Implicit Arguments.

(* ================================================================= *)
(** * Part I: the embedding *)
(* ================================================================= *)

(** ** Exceptions *)

Inductive PyErr : Type :=
| KeyError | IndexError | StopIteration | TypeError
| AttributeError | ValueError | UnboundLocalError.

Inductive Exc (A : Type) : Type :=
| Ok (a : A)
| Raise (e : PyErr).

Arguments Ok {A} a.
Arguments Raise {A} e.

Definition bind {A B : Type} (m : Exc A) (f : A -> Exc B) : Exc B :=
  match m with
  | Ok a => f a
  | Raise e => Raise e
  end.

Notation "x <- m ;; k" := (bind m (fun x => k))
  (at level 61, m at next level, right associativity).

Fixpoint foldM {A S : Type} (f : S -> A -> Exc S) (l : list A) (s : S) : Exc S :=
  match l with
  | [] => Ok s
  | x :: rest => s' <- f s x ;; foldM f rest s'
  end.

Fixpoint mapM {A B : Type} (f : A -> Exc B) (l : list A) : Exc (list B) :=
  match l with
  | [] => Ok []
  | x :: rest => y <- f x ;; ys <- mapM f rest ;; Ok (y :: ys)
  end.

Definition isOk {A : Type} (m : Exc A) : bool :=
  match m with Ok _ => true | Raise _ => false end.

(** ** Keys with a decidable equality *)

Class EqKey (K : Type) : Type := { keqb : K -> K -> bool }.

#[export] Instance EqKey_string : EqKey string := {| keqb := String.eqb |}.

Fixpoint list_eqb {A : Type} (eqb : A -> A -> bool) (l1 l2 : list A) : bool :=
  match l1, l2 with
  | [], [] => true
  | x :: r1, y :: r2 => eqb x y && list_eqb eqb r1 r2
  | _, _ => false
  end.

#[export] Instance EqKey_prod {A B : Type} `{EqKey A} `{EqKey B} : EqKey (A * B) :=
  {| keqb := fun p q => keqb (fst p) (fst q) && keqb (snd p) (snd q) |}.

#[export] Instance EqKey_list {A : Type} `{EqKey A} : EqKey (list A) :=
  {| keqb := list_eqb keqb |}.

(** ** Python dictionaries *)

Definition dict (K V : Type) : Type := list (K * V).

Section Dict.
Context {K V : Type} `{EqKey K}.

Fixpoint dget (k : K) (d : dict K V) : option V :=
  match d with
  | [] => None
  | (k', v) :: rest => if keqb k k' then Some v else dget k rest
  end.

(** [d[k] = v]: overwrite in place, or append a new entry. *)
Fixpoint dset (k : K) (v : V) (d : dict K V) : dict K V :=
  match d with
  | [] => [(k, v)]
  | (k', v') :: rest =>
      if keqb k k' then (k', v) :: rest else (k', v') :: dset k v rest
  end.

Definition dmem (k : K) (d : dict K V) : bool :=
  match dget k d with Some _ => true | None => false end.

Definition dkeys (d : dict K V) : list K := map fst d.
Definition dvalues (d : dict K V) : list V := map snd d.

(** [d[k]] as an expression: [KeyError] when the key is missing. *)
Definition dindex (k : K) (d : dict K V) : Exc V :=
  match dget k d with Some v => Ok v | None => Raise KeyError end.

(** [d.update(e)] *)
Definition dupdate (d e : dict K V) : dict K V :=
  fold_left (fun acc kv => dset (fst kv) (snd kv) acc) e d.

End Dict.

(** ** Cell values *)

Record DateTime : Type := mkDateTime {
  dt_year : nat; dt_month : nat; dt_day : nat;
  dt_hour : nat; dt_minute : nat; dt_second : nat
}.

Definition datetime_eqb (a b : DateTime) : bool :=
  Nat.eqb (dt_year a) (dt_year b) && Nat.eqb (dt_month a) (dt_month b) &&
  Nat.eqb (dt_day a) (dt_day b) && Nat.eqb (dt_hour a) (dt_hour b) &&
  Nat.eqb (dt_minute a) (dt_minute b) && Nat.eqb (dt_second a) (dt_second b).

(** What a cell of a mapped row can hold: [None], a string, a parsed date,
    or the list produced by splitting an iterable attribute. *)
Inductive Value : Type :=
| VNone
| VStr (s : string)
| VDate (d : DateTime)
| VList (l : list string).

Definition value_eqb (a b : Value) : bool :=
  match a, b with
  | VNone, VNone => true
  | VStr s, VStr t => String.eqb s t
  | VDate d, VDate e => datetime_eqb d e
  | VList l, VList m => list_eqb String.eqb l m
  | _, _ => false
  end.

#[export] Instance EqKey_Value : EqKey Value := {| keqb := value_eqb |}.

(** Python truth value ([if rv:]). *)
Definition truthy (v : Value) : bool :=
  match v with
  | VNone => false
  | VStr s => negb (String.eqb s "")
  | VDate _ => true
  | VList l => negb (Nat.eqb (length l) 0)
  end.

(** A list cannot be a dictionary key or a set element. *)
Definition hashable (v : Value) : bool :=
  match v with VList _ => false | _ => true end.

(** A row: attribute identifier (or name) to cell value. *)
Definition Row : Type := dict string Value.

(** The table data keyed by schema identifier, style [rowwise_by_id]. *)
Definition DataById : Type := dict string (list Row).

(** What a table key of an output document can hold under the four
    layouts, and the text stored under the reserved document keys. *)
Inductive Shaped : Type :=
| SRows (rows : list Row)
| SRow (row : Row)
| SCols (cols : dict string (list Value))
| SNoName (attributes : list string) (data : list (list Value))
| SText (s : string).

Definition Doc : Type := dict string Shaped.

(** The input mapping seen as an output document (returned as is by the
    [rowwise_by_id] style, by unknown styles and by the fallbacks). *)
Definition asById (data : DataById) : Doc :=
  map (fun kv => (fst kv, SRows (snd kv))) data.

(** ** Loops shared by the reshaping code of both classes *)

(** [for atId in iRowD: oRowD[name(atId)] = iRowD[atId]] *)
Definition renameKeys (name : string -> string) (iRowD : Row) : Row :=
  fold_left (fun oRowD kv => dset (name (fst kv)) (snd kv) oRowD) iRowD [].

(** [for atId in iRowD: atName = name(atId);
     if atName not in colD: colD[atName] = []; colD[atName].append(iRowD[atId])] *)
Definition appendColumns (name : string -> string) (colD : dict string (list Value))
  (iRowD : Row) : dict string (list Value) :=
  fold_left (fun c kv =>
    let atName := name (fst kv) in
    match dget atName c with
    | Some vs => dset atName (vs ++ [snd kv]) c
    | None => dset atName [snd kv] c
    end) iRowD colD.

(** [for atId in atIdList: oRowL.append(iRowD[atId])], for every row. *)
Definition positionalRows (atIdList : list string) (iRowDList : list Row)
  : Exc (list (list Value)) :=
  mapM (fun iRowD => mapM (fun atId => dindex atId iRowD) atIdList) iRowDList.

(** ** The schema definition object

    Both classes receive a schema definition access object ([self.__sD]).
    Its class is outside the embedded sources, so the accessor methods
    the code calls are the fields of these records.  Methods taking a
    slice filter name receive it as their first argument. *)

Definition PItem : Type := (string * string)%type.   (* (CATEGORY, ATTRIBUTE) *)
Definition PVal : Type := (PItem * Value)%type.      (* ((CATEGORY, ATTRIBUTE), value) *)

Record ParentFilter : Type := {
  pf_category : string;
  pf_attribute : string;
  pf_values : list Value
}.

Record SchemaObject : Type := {
  getAttributeName : string -> string;
  isSliceExtra : string -> bool;
  isMandatory : bool;
  hasSliceUnitCardinality : string -> bool
}.

Definition SliceIndex : Type := dict string (dict PItem (list string)).

Record SchemaDefAccess : Type := {
  getSliceParentItems : string -> list PItem;
  getSliceParentFilters : string -> list ParentFilter;
  getSliceIndex : string -> SliceIndex;
  getSliceExtraSchemaIds : string -> list string;
  getSchemaObject : string -> SchemaObject;
  getSchemaName : string -> string;
  hasUnitCardinality : string -> bool;
  getAttributeIdList : string -> list string;
  getAttributeNameList : string -> list string
}.

(** ** SchemaDefReShape.py *)

Module ReShape.

Section WithSchema.
Variable sD : SchemaDefAccess.

(** *** class SliceValues *)

(** [SliceValues.__testFilter] *)
Fixpoint testFilter (rowD : Row) (catId : string) (filters : list ParentFilter) : bool :=
  match filters with
  | [] => true
  | f :: rest =>
      if negb (String.eqb catId (pf_category f)) then false
      else match dget (pf_attribute f) rowD with
           | Some v =>
               if existsb (value_eqb v) (pf_values f)
               then testFilter rowD catId rest
               else false
           | None => false
           end
  end.

(** The inner loop of [SliceValues.__init__] over the rows of one parent
    category; [rowD[atId]] raises [KeyError] on a row without the
    attribute. *)
Fixpoint parentVals (catId atId : string) (spfL : list ParentFilter)
  (rows : list Row) : Exc (list PVal) :=
  match rows with
  | [] => Ok []
  | rowD :: rest =>
      if testFilter rowD catId spfL then
        v <- dindex atId rowD ;;
        vals <- parentVals catId atId spfL rest ;;
        Ok (((catId, atId), v) :: vals)
      else parentVals catId atId spfL rest
  end.

(** The outer loop of [SliceValues.__init__] building [vD]. *)
Fixpoint parentValueDict (data : DataById) (spfL : list ParentFilter)
  (spiL : list PItem) (vD : dict PItem (list PVal)) : Exc (dict PItem (list PVal)) :=
  match spiL with
  | [] => Ok vD
  | (catId, atId) :: rest =>
      vals <- match dget catId data with
              | Some rows => parentVals catId atId spfL rows
              | None => Ok []
              end ;;
      parentValueDict data spfL rest (dset (catId, atId) vals vD)
  end.

(** [itertools.product] applied to the lists of [valueL] *)
Fixpoint product {A : Type} (ls : list (list A)) : list (list A) :=
  match ls with
  | [] => [[]]
  | l :: rest => flat_map (fun x => map (cons x) (product rest)) l
  end.

(** [SliceValues(schemaDataDictById, schemaDefObj, sliceFilter).data] *)
Definition SliceValues (data : DataById) (sliceFilter : string) : Exc (list (list PVal)) :=
  vD <- parentValueDict data (getSliceParentFilters sD sliceFilter)
          (getSliceParentItems sD sliceFilter) [] ;;
  Ok (product (dvalues vD)).

(** [next()] on a freshly built iterator. *)
Definition next {A : Type} (data : list A) : Exc A :=
  match data with
  | [] => Raise StopIteration
  | x :: _ => Ok x
  end.

(** The iterator object: the attributes [self.data] and [self.index]. *)
Record SliceValuesObj : Type := {
  sv_data : list (list PVal);
  sv_index : Z
}.

(** The object as [__init__] leaves it. *)
Definition newSliceValues (data : list (list PVal)) : SliceValuesObj :=
  {| sv_data := data; sv_index := 0%Z |}.

(** [l[i]] on a Python list: a negative index counts from the end;
    [None] stands for [IndexError]. *)
Definition pyIndex {A : Type} (l : list A) (i : Z) : option A :=
  if (0 <=? i)%Z then nth_error l (Z.to_nat i)
  else if (- Z.of_nat (length l) <=? i)%Z
       then nth_error l (Z.to_nat (Z.of_nat (length l) + i))
       else None.

(** [SliceValues.__next__] (and [next], which calls it): the result and
    the object afterwards. *)
Definition __next__ (self : SliceValuesObj) : Exc (list PVal) * SliceValuesObj :=
  match pyIndex (sv_data self) (sv_index self) with
  | Some result =>
      (Ok result, {| sv_data := sv_data self; sv_index := (sv_index self + 1)%Z |})
  | None => (Raise StopIteration, self)
  end.

(** [SliceValues.__prev__]: the index is decremented before the test. *)
Definition __prev__ (self : SliceValuesObj) : Exc (list PVal) * SliceValuesObj :=
  let self' := {| sv_data := sv_data self; sv_index := (sv_index self - 1)%Z |} in
  if (sv_index self' <? 0)%Z then (Raise StopIteration, self')
  else match pyIndex (sv_data self') (sv_index self') with
       | Some result => (Ok result, self')
       | None => (Raise IndexError, self')
       end.

(** [for x in sliceValues: ...]: [__iter__] returns the object itself and
    [__next__] is called until it raises [StopIteration]; the values
    visited and the object afterwards.  [None] when [fuel] calls were not
    enough to reach the end of the loop. *)
Fixpoint forEach (fuel : nat) (self : SliceValuesObj)
  : option (Exc (list (list PVal)) * SliceValuesObj) :=
  match fuel with
  | O => None
  | S fuel' =>
      match __next__ self with
      | (Ok x, self') =>
          match forEach fuel' self' with
          | Some (Ok xs, self'') => Some (Ok (x :: xs), self'')
          | other => other
          end
      | (Raise StopIteration, self') => Some (Ok [], self')
      | (Raise e, self') => Some (Raise e, self')
      end
  end.

(** *** class SchemaDefReShape *)

(** The renaming loop [for atId in iRowD: oRowD[getAttributeName(atId)] = iRowD[atId]]. *)
Definition renameRow (schemaObj : SchemaObject) (iRowD : Row) : Row :=
  renameKeys (getAttributeName schemaObj) iRowD.

(** The test of one parent value inside [__inSlice]. *)
Definition childMatches (rowD : Row) (v : Value) (cAtIds : list string) : bool :=
  existsb (fun cAtId =>
             match dget cAtId rowD with
             | Some x => value_eqb x v
             | None => false
             end) cAtIds.

Fixpoint inSliceEntry (entry : dict PItem (list string)) (rowD : Row)
  (parentVals : list PVal) : bool :=
  match parentVals with
  | [] => true
  | (p, v) :: rest =>
      match dget p entry with
      | Some cAtIds =>
          if childMatches rowD v cAtIds then inSliceEntry entry rowD rest else false
      | None => false
      end
  end.

(** [__inSlice]; no statement of its [try] block can raise on these data. *)
Definition inSlice (schemaId : string) (sliceIndex : SliceIndex) (rowD : Row)
  (parentVals : list PVal) : bool :=
  match dget schemaId sliceIndex with
  | Some entry => inSliceEntry entry rowD parentVals
  | None => false
  end.

(** The rows one table contributes to the slice [sliceValues]. *)
Definition slicedRows (sliceFilter : string) (sliceValues : list PVal)
  (sliceIndex : SliceIndex) (schemaId : string) (iRowDList : list Row) : list Row :=
  let schemaObj := getSchemaObject sD schemaId in
  let lExtra := isSliceExtra schemaObj sliceFilter in
  map (renameRow schemaObj)
    (filter (fun iRowD => lExtra || inSlice schemaId sliceIndex iRowD sliceValues) iRowDList).

(** [__sliceRowwiseByNameWithCard] *)
Definition sliceRowwiseByNameWithCard (data : DataById) (sliceFilter : string)
  (sliceValues : list PVal) (sliceIndex : SliceIndex) : Doc :=
  fold_left (fun rD kv =>
    let schemaId := fst kv in
    let schemaObj := getSchemaObject sD schemaId in
    if negb (dmem schemaId sliceIndex) && negb (isSliceExtra schemaObj sliceFilter) then rD
    else
      let schemaObjName := getSchemaName sD schemaId in
      let oRowDList := slicedRows sliceFilter sliceValues sliceIndex schemaId (snd kv) in
      if (length oRowDList <? 1)%nat && negb (isMandatory schemaObj) then rD
      else
        match oRowDList with
        | [oRowD] =>
            if hasSliceUnitCardinality schemaObj sliceFilter
            then dset schemaObjName (SRow oRowD) rD
            else dset schemaObjName (SRows oRowDList) rD
        | _ => dset schemaObjName (SRows oRowDList) rD
        end) data [].

(** [__sliceRowwiseByName] *)
Definition sliceRowwiseByName (data : DataById) (sliceFilter : string)
  (sliceValues : list PVal) (sliceIndex : SliceIndex) : Doc :=
  fold_left (fun rD kv =>
    let schemaId := fst kv in
    let schemaObj := getSchemaObject sD schemaId in
    if negb (dmem schemaId sliceIndex) && negb (isSliceExtra schemaObj sliceFilter) then rD
    else
      let schemaObjName := getSchemaName sD schemaId in
      let oRowDList := slicedRows sliceFilter sliceValues sliceIndex schemaId (snd kv) in
      if (length oRowDList <? 1)%nat && negb (isMandatory schemaObj) then rD
      else dset schemaObjName (SRows oRowDList) rD) data [].

(** The column dictionary grown by one row. *)
Definition addColumns (schemaObj : SchemaObject) (colD : dict string (list Value))
  (iRowD : Row) : dict string (list Value) :=
  appendColumns (getAttributeName schemaObj) colD iRowD.

(** [__sliceColumnwise] *)
Definition sliceColumnwise (data : DataById) (sliceFilter : string)
  (sliceValues : list PVal) (sliceIndex : SliceIndex) : Doc :=
  fold_left (fun rD kv =>
    let schemaId := fst kv in
    let schemaObj := getSchemaObject sD schemaId in
    let lExtra := isSliceExtra schemaObj sliceFilter in
    if negb (dmem schemaId sliceIndex) && negb lExtra then rD
    else
      let schemaObjName := getSchemaName sD schemaId in
      let colD := fold_left (addColumns schemaObj)
                    (filter (fun iRowD => lExtra || inSlice schemaId sliceIndex iRowD sliceValues)
                       (snd kv)) [] in
      if (length colD <? 1)%nat && negb (isMandatory schemaObj) then rD
      else dset schemaObjName (SCols colD) rD) data [].

(** [__shapeRowwiseByName] *)
Definition shapeRowwiseByName (data : DataById) : Doc :=
  fold_left (fun rD kv =>
    let schemaObj := getSchemaObject sD (fst kv) in
    dset (getSchemaName sD (fst kv)) (SRows (map (renameRow schemaObj) (snd kv))) rD)
    data [].

(** [__shapeRowwiseByNameWithCard] *)
Definition shapeRowwiseByNameWithCard (data : DataById) : Doc :=
  fold_left (fun rD kv =>
    let schemaId := fst kv in
    let schemaObj := getSchemaObject sD schemaId in
    let schemaObjName := getSchemaName sD schemaId in
    let unitCard := hasUnitCardinality sD schemaId in
    match snd kv with
    | [iRowD] =>
        if unitCard
        then dset schemaObjName (SRow (renameRow schemaObj iRowD)) rD
        else dset schemaObjName (SRows (map (renameRow schemaObj) (snd kv))) rD
    | iRowDList => dset schemaObjName (SRows (map (renameRow schemaObj) iRowDList)) rD
    end) data [].

(** [__shapeColumnwise] *)
Definition shapeColumnwise (data : DataById) : Doc :=
  fold_left (fun rD kv =>
    let schemaObj := getSchemaObject sD (fst kv) in
    dset (getSchemaName sD (fst kv))
      (SCols (fold_left (addColumns schemaObj) (snd kv) [])) rD) data [].

(** [__shapeRowwiseNoName]; [iRowD[atId]] raises [KeyError] on a row that
    lacks one of the table's attributes. *)
Definition shapeRowwiseNoName (data : DataById) : Exc Doc :=
  foldM (fun rD kv =>
    let schemaId := fst kv in
    oRowList <- positionalRows (getAttributeIdList sD schemaId) (snd kv) ;;
    Ok (dset (getSchemaName sD schemaId)
          (SNoName (getAttributeNameList sD schemaId) oRowList) rD)) data [].

(** [__reshapeSchemaData]: the dispatch on the style and the
    [except Exception] that returns the input. *)
Definition reshapeSchemaData (data : DataById) (styleType : string) : Doc :=
  let attempt : Exc Doc :=
    if String.eqb styleType "rowwise_by_name" then Ok (shapeRowwiseByName data)
    else if String.eqb styleType "rowwise_by_name_with_cardinality"
    then Ok (shapeRowwiseByNameWithCard data)
    else if String.eqb styleType "columnwise_by_name" then Ok (shapeColumnwise data)
    else if String.eqb styleType "rowwise_no_name" then shapeRowwiseNoName data
    else Ok (asById data) in
  match attempt with
  | Ok rD => rD
  | Raise _ => asById data
  end.

(** [__reshapeSlicedSchemaData] *)
Definition reshapeSlicedSchemaData (data : DataById) (sliceFilter : string)
  (sliceValues : list PVal) (sliceIndex : SliceIndex) (styleType : string) : Doc :=
  let attempt : Exc Doc :=
    if String.eqb styleType "rowwise_by_name"
    then Ok (sliceRowwiseByName data sliceFilter sliceValues sliceIndex)
    else if String.eqb styleType "rowwise_by_name_with_cardinality"
    then Ok (sliceRowwiseByNameWithCard data sliceFilter sliceValues sliceIndex)
    else if String.eqb styleType "columnwise_by_name"
    then Ok (sliceColumnwise data sliceFilter sliceValues sliceIndex)
    else if String.eqb styleType "rowwise_no_name" then shapeRowwiseNoName data
    else Ok (asById data) in
  match attempt with
  | Ok rD => rD
  | Raise _ => asById data
  end.

(** [applyShape] *)
Definition applyShape (data : DataById) (styleType : string) : Doc :=
  reshapeSchemaData data styleType.

(** *** The one-pass partitioner and its object store

    [__sliceRowwiseByNameWithCardOnePass] stores the same list and row
    objects in several partition dictionaries ([copy.copy] is a shallow
    copy) and appends to lists it has stored.  Row dictionaries and row
    lists are therefore heap objects, and a partition dictionary maps a
    table name to a reference.  The partition dictionaries themselves are
    created one per key and are never shared. *)

Inductive Obj : Type :=
| ORow (row : Row)
| OList (refs : list nat).

Definition Heap : Type := list Obj.

Definition alloc (h : Heap) (o : Obj) : nat * Heap := (length h, h ++ [o]).

Fixpoint heapSet (h : Heap) (a : nat) (o : Obj) : Heap :=
  match h, a with
  | [], _ => []
  | _ :: rest, O => o :: rest
  | x :: rest, S a' => x :: heapSet rest a' o
  end.

Definition PartRef : Type := dict string nat.
Definition RetD : Type := dict Value PartRef.

(** Reading a stored table value back as a plain value. *)
Definition derefRows (h : Heap) (refs : list nat) : list Row :=
  flat_map (fun a => match nth_error h a with
                     | Some (ORow r) => [r]
                     | _ => []
                     end) refs.

Definition reify (h : Heap) (a : nat) : Shaped :=
  match nth_error h a with
  | Some (ORow r) => SRow r
  | Some (OList refs) => SRows (derefRows h refs)
  | None => SRows []
  end.

Definition reifyDoc (h : Heap) (p : PartRef) : Doc :=
  map (fun kv => (fst kv, reify h (snd kv))) p.

(** The values of the parent tuples, in order ([pVals]); building
    [pvD[tuple(vL)]] hashes every value. *)
Fixpoint collectPVals (tuples : list (list PVal)) : Exc (list Value) :=
  match tuples with
  | [] => Ok []
  | pvTupL :: rest =>
      if forallb (fun pv => hashable (snd pv)) pvTupL then
        more <- collectPVals rest ;;
        Ok (map snd pvTupL ++ more)
      else Raise TypeError
  end.

(** [singleKeyAtD], built by the double loop over the first parent tuple
    and the slice index. *)
Definition singleKeyStep (data : DataById) (p : PItem)
  (acc : dict string (list string)) (entry : string * dict PItem (list string))
  : dict string (list string) :=
  let schemaId := fst entry in
  match dmem schemaId data, dget p (snd entry) with
  | true, Some cAtIds =>
      match dget schemaId acc with
      | Some old => dset schemaId (old ++ cAtIds) acc
      | None => dset schemaId cAtIds acc
      end
  | _, _ => acc
  end.

Definition singleKeyAtD (data : DataById) (sliceIndex : SliceIndex)
  (pvTupL : list PVal) : dict string (list string) :=
  fold_left (fun acc pvTup => fold_left (singleKeyStep data (fst pvTup)) sliceIndex acc)
    pvTupL [].

(** Allocation of the renamed rows of one table. *)
Fixpoint allocRows (schemaObj : SchemaObject) (rows : list Row) (h : Heap)
  : list nat * Heap :=
  match rows with
  | [] => ([], h)
  | iRowD :: rest =>
      let (a, h1) := alloc h (ORow (renameRow schemaObj iRowD)) in
      let (refs, h2) := allocRows schemaObj rest h1 in
      (a :: refs, h2)
  end.

(** One turn of the loop over [schemaIdExtraL] that fills [rD]. *)
Definition extraStep (data : DataById) (sliceFilter : string)
  (st : Heap * PartRef) (schemaId : string) : Exc (Heap * PartRef) :=
  let schemaObj := getSchemaObject sD schemaId in
  let schemaObjName := getSchemaName sD schemaId in
  iRowDList <- dindex schemaId data ;;
  let (refs, h1) := allocRows schemaObj iRowDList (fst st) in
  if (length refs <? 1)%nat && negb (isMandatory schemaObj) then Ok (h1, snd st)
  else
    match refs with
    | [a] =>
        if hasSliceUnitCardinality schemaObj sliceFilter
        then Ok (h1, dset schemaObjName a (snd st))
        else let (l, h2) := alloc h1 (OList refs) in Ok (h2, dset schemaObjName l (snd st))
    | _ => let (l, h2) := alloc h1 (OList refs) in Ok (h2, dset schemaObjName l (snd st))
    end.

(** [set([...])]: hashing fails on a list; the elements are then visited
    once each, here in order of first occurrence. *)
Fixpoint dedup (l : list Value) : list Value :=
  match l with
  | [] => []
  | x :: rest => x :: filter (fun y => negb (value_eqb x y)) (dedup rest)
  end.

Definition pySet (l : list Value) : Exc (list Value) :=
  if forallb hashable l then Ok (dedup l) else Raise TypeError.

(** The body of [for rv in rvS]. *)
Definition placeRow (schemaObjName : string) (uFlag : bool) (rowRef : nat)
  (st : Heap * RetD) (rv : Value) : Exc (Heap * RetD) :=
  if truthy rv then
    part <- dindex rv (snd st) ;;
    if uFlag then Ok (fst st, dset rv (dset schemaObjName rowRef part) (snd st))
    else
      match dget schemaObjName part with
      | None =>
          let (l, h1) := alloc (fst st) (OList [rowRef]) in
          Ok (h1, dset rv (dset schemaObjName l part) (snd st))
      | Some l =>
          match nth_error (fst st) l with
          | Some (OList refs) => Ok (heapSet (fst st) l (OList (refs ++ [rowRef])), snd st)
          | _ => Raise AttributeError
          end
      end
  else Ok st.

(** The body of [for iRowD in iRowDList]. *)
Definition sliceRow (schemaObj : SchemaObject) (schemaObjName : string) (uFlag : bool)
  (atL : list string) (st : Heap * RetD) (iRowD : Row) : Exc (Heap * RetD) :=
  let (rowRef, h1) := alloc (fst st) (ORow (renameRow schemaObj iRowD)) in
  rvS <- pySet (map (fun at_ => match dget at_ iRowD with
                                | Some v => v
                                | None => VNone
                                end) atL) ;;
  foldM (placeRow schemaObjName uFlag rowRef) rvS (h1, snd st).

(** The body of [for schemaId, atL in singleKeyAtD.items()]. *)
Definition sliceTable (data : DataById) (sliceFilter : string)
  (st : Heap * RetD) (entry : string * list string) : Exc (Heap * RetD) :=
  let schemaId := fst entry in
  let schemaObj := getSchemaObject sD schemaId in
  let schemaObjName := getSchemaName sD schemaId in
  let uFlag := hasSliceUnitCardinality schemaObj sliceFilter in
  iRowDList <- dindex schemaId data ;;
  foldM (sliceRow schemaObj schemaObjName uFlag (snd entry)) iRowDList st.

(** The body of [__sliceRowwiseByNameWithCardOnePass] up to its [return]:
    the final heap and the dictionary [retD] of the partitions. *)
Definition onePassRetD (data : DataById) (sliceFilter : string)
  (sliceIndex : SliceIndex) : Exc (Heap * RetD) :=
  let schemaIdExtraL := getSliceExtraSchemaIds sD sliceFilter in
  sliceValues <- SliceValues data sliceFilter ;;
  pVals <- collectPVals sliceValues ;;
  let retD : RetD := fold_left (fun d k => dset k [] d) pVals [] in
  sliceValues2 <- SliceValues data sliceFilter ;;
  pvTupL <- next sliceValues2 ;;
  let skD := singleKeyAtD data sliceIndex pvTupL in
  st1 <- match schemaIdExtraL with
         | [] => Ok ([], retD)
         | _ =>
             ex <- foldM (extraStep data sliceFilter) schemaIdExtraL ([], []) ;;
             Ok (fst ex, fold_left (fun d pv => dset pv (snd ex) d) pVals retD)
         end ;;
  foldM (sliceTable data sliceFilter) skD st1.

(** [__sliceRowwiseByNameWithCardOnePass]: the final heap and the list of
    partition dictionaries [list(retD.values())]. *)
Definition sliceRowwiseByNameWithCardOnePass (data : DataById) (sliceFilter : string)
  (sliceIndex : SliceIndex) : Exc (Heap * list PartRef) :=
  st <- onePassRetD data sliceFilter sliceIndex ;;
  Ok (fst st, dvalues (snd st)).

(** The partitions of the one-pass partitioner read back as documents. *)
Definition onePassDocs (data : DataById) (sliceFilter : string)
  (sliceIndex : SliceIndex) : Exc (list Doc) :=
  r <- sliceRowwiseByNameWithCardOnePass data sliceFilter sliceIndex ;;
  Ok (map (reifyDoc (fst r)) (snd r)).

(** The algorithm the one-pass partitioner replaces: one call of
    [__sliceRowwiseByNameWithCard] per enumerated parent tuple. *)
Definition naiveDocs (data : DataById) (sliceFilter : string)
  (sliceIndex : SliceIndex) : Exc (list Doc) :=
  sliceValues <- SliceValues data sliceFilter ;;
  Ok (map (fun sliceValue =>
             sliceRowwiseByNameWithCard data sliceFilter sliceValue sliceIndex)
        sliceValues).

(** [applySlicedShape]; [sliceFilter] is [None] or a string, and the empty
    string is false as a condition. *)
Definition applySlicedShape (data : DataById) (styleType : string)
  (sliceFilter : option string) : Exc (list Doc) :=
  match sliceFilter with
  | Some sf =>
      if String.eqb sf "" then Ok [reshapeSchemaData data styleType]
      else
        let sliceIndex := getSliceIndex sD sf in
        sliceValues <- SliceValues data sf ;;
        if String.eqb styleType "rowwise_by_name_with_cardinality"
        then onePassDocs data sf sliceIndex
        else Ok (map (fun sliceValue =>
                        reshapeSlicedSchemaData data sf sliceValue sliceIndex styleType)
                   sliceValues)
  | None => Ok [reshapeSchemaData data styleType]
  end.

(** *** The one-pass partitioner on plain values

    The same loops with every reference replaced by the value it denotes.
    This rendering is exact as long as no list object shared between
    partitions is appended to; it is the intermediate step of the proofs
    below, which relate it to [onePassRetD]. *)

Definition RetV : Type := dict Value Doc.

Definition viewRet (h : Heap) (retD : RetD) : RetV :=
  map (fun vp => (fst vp, reifyDoc h (snd vp))) retD.

Definition extraStepV (data : DataById) (sliceFilter : string)
  (rD : Doc) (schemaId : string) : Exc Doc :=
  let schemaObj := getSchemaObject sD schemaId in
  let schemaObjName := getSchemaName sD schemaId in
  iRowDList <- dindex schemaId data ;;
  let oRowDList := map (renameRow schemaObj) iRowDList in
  if (length oRowDList <? 1)%nat && negb (isMandatory schemaObj) then Ok rD
  else
    match oRowDList with
    | [oRowD] =>
        if hasSliceUnitCardinality schemaObj sliceFilter
        then Ok (dset schemaObjName (SRow oRowD) rD)
        else Ok (dset schemaObjName (SRows oRowDList) rD)
    | _ => Ok (dset schemaObjName (SRows oRowDList) rD)
    end.

Definition placeInDoc (schemaObjName : string) (uFlag : bool) (oRowD : Row)
  (part : Doc) : Exc Doc :=
  if uFlag then Ok (dset schemaObjName (SRow oRowD) part)
  else
    match dget schemaObjName part with
    | None => Ok (dset schemaObjName (SRows [oRowD]) part)
    | Some (SRows rows) => Ok (dset schemaObjName (SRows (rows ++ [oRowD])) part)
    | Some _ => Raise AttributeError
    end.

Definition placeRowV (schemaObjName : string) (uFlag : bool) (oRowD : Row)
  (retD : RetV) (rv : Value) : Exc RetV :=
  if truthy rv then
    part <- dindex rv retD ;;
    part' <- placeInDoc schemaObjName uFlag oRowD part ;;
    Ok (dset rv part' retD)
  else Ok retD.

(** The child values of a row: [iRowD[at] if at in iRowD else None]. *)
Definition childValues (atL : list string) (iRowD : Row) : list Value :=
  map (fun at_ => match dget at_ iRowD with
                  | Some v => v
                  | None => VNone
                  end) atL.

Definition sliceRowV (schemaObj : SchemaObject) (schemaObjName : string) (uFlag : bool)
  (atL : list string) (retD : RetV) (iRowD : Row) : Exc RetV :=
  rvS <- pySet (childValues atL iRowD) ;;
  foldM (placeRowV schemaObjName uFlag (renameRow schemaObj iRowD)) rvS retD.

Definition sliceTableV (data : DataById) (sliceFilter : string)
  (retD : RetV) (entry : string * list string) : Exc RetV :=
  let schemaId := fst entry in
  let schemaObj := getSchemaObject sD schemaId in
  let schemaObjName := getSchemaName sD schemaId in
  let uFlag := hasSliceUnitCardinality schemaObj sliceFilter in
  iRowDList <- dindex schemaId data ;;
  foldM (sliceRowV schemaObj schemaObjName uFlag (snd entry)) iRowDList retD.

Definition onePassRetV (data : DataById) (sliceFilter : string)
  (sliceIndex : SliceIndex) : Exc RetV :=
  let schemaIdExtraL := getSliceExtraSchemaIds sD sliceFilter in
  sliceValues <- SliceValues data sliceFilter ;;
  pVals <- collectPVals sliceValues ;;
  let retD : RetV := fold_left (fun d k => dset k [] d) pVals [] in
  pvTupL <- next sliceValues ;;
  let skD := singleKeyAtD data sliceIndex pvTupL in
  retD1 <- match schemaIdExtraL with
           | [] => Ok retD
           | _ =>
               rD <- foldM (extraStepV data sliceFilter) schemaIdExtraL [] ;;
               Ok (fold_left (fun d pv => dset pv rD d) pVals retD)
           end ;;
  foldM (sliceTableV data sliceFilter) skD retD1.

End WithSchema.

End ReShape.

(** ** String operations used by the mapper *)

(** [needle in hay] for strings (the tests on [filterType]). *)
Fixpoint strContains (needle hay : string) : bool :=
  String.prefix needle hay ||
  match hay with
  | EmptyString => false
  | String _ rest => strContains needle rest
  end.

(** [value.replace(":", " ", 1)] *)
Fixpoint replaceFirstColon (s : string) : string :=
  match s with
  | EmptyString => EmptyString
  | String c rest =>
      if Ascii.eqb c ":"%char then String " "%char rest
      else String c (replaceFirstColon rest)
  end.

(** [val.split(sep)] for a non-empty separator: [skip] counts the
    characters of a separator still to be consumed, [cur] is the piece
    being read. *)
Fixpoint splitFrom (sep s : string) (skip : nat) (cur : string) : list string :=
  match s with
  | EmptyString => [cur]
  | String c rest =>
      match skip with
      | S k => splitFrom sep rest k cur
      | O =>
          if String.prefix sep s
          then cur :: splitFrom sep rest (String.length sep - 1) EmptyString
          else splitFrom sep rest 0 (cur ++ String c EmptyString)
      end
  end.

Definition pySplit (sep s : string) : Exc (list string) :=
  if String.eqb sep "" then Raise ValueError else Ok (splitFrom sep s 0 "").

(** [str.isspace] on one character.  The characters of a [string] have
    the codes 0 to 255; among these Python counts as white space the
    space, the codes 9 to 13, the separators 28 to 31, the next-line
    character 133 and the no-break space 160. *)
Definition isSpace (c : ascii) : bool :=
  let n := nat_of_ascii c in
  Nat.eqb n 32 || (Nat.leb 9 n && Nat.leb n 13) || (Nat.leb 28 n && Nat.leb n 31)
  || Nat.eqb n 133 || Nat.eqb n 160.

Fixpoint lstrip (s : string) : string :=
  match s with
  | EmptyString => EmptyString
  | String c rest => if isSpace c then lstrip rest else s
  end.

Fixpoint rstrip (s : string) : string :=
  match s with
  | EmptyString => EmptyString
  | String c rest =>
      let r := rstrip rest in
      if String.eqb r "" && isSpace c then EmptyString else String c r
  end.

Definition strip (s : string) : string := rstrip (lstrip s).

(** ** SchemaDefDataPrep.py *)

Module DataPrep.

(** A data category of an input container: the column index of each
    attribute name and the rows of string values. *)
Record Category : Type := {
  cat_name : string;
  getAttributeIndexDict : dict string nat;
  getRowList : list (list string)
}.

Record Container : Type := {
  getName : string;
  categories : list Category
}.

(** [container.getObj(name)]: the category, or [None]. *)
Definition getObj (c : Container) (name : string) : option Category :=
  find (fun cat => String.eqb (cat_name cat) name) (categories c).

(** The table definition object [tObj]. *)
Record TableDef : Type := {
  getId : string;
  getMapInstanceCategoryList : list string;
  getMapOtherAttributeIdList : list string;
  getMapAttributeFunction : string -> string;
  getMapAttributeDict : dict string string;
  getAttributeIdList : list string;
  getSqlNullValueDict : dict string Value;
  getStringWidthDict : dict string Z;
  getMapInstanceAttributeIdList : string -> list string;
  getMapMergeIndexAttributes : string -> list string;
  isAttributeDateType : string -> bool;
  isIterable : string -> bool;
  getIterableSeparator : string -> string;
  getAttributeName : string -> string
}.

Record ContentSelector : Type := {
  cs_table_name : string;
  cs_attribute_name : string;
  cs_values : list string
}.

(** The schema definition object of the mapper. *)
Record SchemaDef : Type := {
  getTableIdList : list string;
  getTable : string -> TableDef;
  getTableName : string -> string;
  hasUnitCardinality : string -> bool;
  getTableAttributeIdList : string -> list string;   (* [sD.getAttributeIdList(tableId)] *)
  getAttributeNameList : string -> list string;
  getContentSelector : string -> list ContentSelector
}.

(** The overflow accumulator [self.__overWrite]. *)
Definition OverWrite : Type := dict (string * string) nat.

Record Flags : Type := {
  dropEmptyFlag : bool;
  skipMaxWidthFlag : bool;
  assignDateFlag : bool;
  convertIterables : bool
}.

Definition flagsOf (filterType : string) : Flags :=
  {| dropEmptyFlag := strContains "drop-empty-attributes" filterType;
     skipMaxWidthFlag := strContains "skip-max-width" filterType;
     assignDateFlag := strContains "assign-dates" filterType;
     convertIterables := strContains "convert-iterables" filterType |}.

(** [(lenVal == 0) or (val == '?') or (val == '.')] *)
Definition isEmptyValue (val : string) : bool :=
  Nat.eqb (String.length val) 0 || String.eqb val "?" || String.eqb val ".".

Definition isNullToken (val : string) : bool :=
  String.eqb val "?" || String.eqb val ".".

Section WithParser.

(** [dateutil.parser.parse]: a third-party function; [None] stands for
    the exception it raises on a string it cannot read. *)
Variable dateutilParse : string -> option DateTime.

(** [__assignDateType] *)
Definition assignDateType (atId : string) (value : string) : Value :=
  let value := replaceFirstColon value in
  match dateutilParse value with
  | Some d => VDate d
  | None => VStr value
  end.

(** The initial row [d] of both extraction loops; [nullValueDict[atId]]
    is outside any [try]. *)
Definition initRow (tObj : TableDef) (fl : Flags) : Exc Row :=
  if dropEmptyFlag fl then Ok []
  else foldM (fun d atId =>
                nv <- dindex atId (getSqlNullValueDict tObj) ;;
                Ok (dset atId nv d)) (getAttributeIdList tObj) [].

(** [val if ((val != '?') and (val != '.')) else nullValueDict[atId]]
    assigned to [d[atId]]; the [KeyError] of the lookup is caught by the
    enclosing [try] and leaves [d] as it was. *)
Definition assignOrNull (tObj : TableDef) (atId : string) (val : string)
  (kept : string) (d : Row) : Row :=
  if negb (isNullToken val) then dset atId (VStr kept) d
  else match dget atId (getSqlNullValueDict tObj) with
       | Some nv => dset atId nv d
       | None => d
       end.

(** [self.__overWrite[tup] = max(self.__overWrite[tup], lenVal)], or the
    first assignment. *)
Definition recordOverflow (tup : string * string) (lenVal : nat) (ow : OverWrite)
  : OverWrite :=
  match dget tup ow with
  | Some old => dset tup (Nat.max old lenVal) ow
  | None => dset tup lenVal ow
  end.

(** The steps of the [try] block that follow the reading of [val] and
    [maxW]; [track] tells whether an overflow is recorded in the
    accumulator (the single-category loop) or only logged (the merging
    loop). *)
Definition storeValue (tObj : TableDef) (fl : Flags) (track : bool)
  (atId val : string) (maxW : Z) (st : Row * OverWrite) : Row * OverWrite :=
  let d := fst st in
  let ow := snd st in
  let lenVal := String.length val in
  if dropEmptyFlag fl && isEmptyValue val then st
  else if assignDateFlag fl && isAttributeDateType tObj atId && negb (isEmptyValue val)
  then (dset atId (assignDateType atId val) d, ow)
  else if convertIterables fl && isIterable tObj atId && negb (isEmptyValue val)
  then match pySplit (getIterableSeparator tObj atId) val with
       | Ok parts => (dset atId (VList (map strip parts)) d, ow)
       | Raise _ => st
       end
  else if (0 <? maxW)%Z then
    let ow' := if track && (maxW <? Z.of_nat lenVal)%Z
               then recordOverflow (getId tObj, atId) lenVal ow else ow in
    (assignOrNull tObj atId val (substring 0 (Z.to_nat maxW) val) d, ow')
  else (assignOrNull tObj atId val val d, ow).

(** [maxW]: zero under [skip-max-width], else [maxWidthDict[atId]]. *)
Definition widthOf (tObj : TableDef) (fl : Flags) (atId : string) : option Z :=
  if skipMaxWidthFlag fl then Some 0%Z else dget atId (getStringWidthDict tObj).

(** The body of [for atId in curAttributeIdList] in [__mapInstanceCategory];
    every exception of the [try] block is caught and logged. *)
Definition mapAttribute (tObj : TableDef) (fl : Flags) (catObj : Category)
  (row : list string) (st : Row * OverWrite) (atId : string) : Row * OverWrite :=
  match dget atId (getMapAttributeDict tObj) with
  | None => st
  | Some atName =>
      match dget atName (getAttributeIndexDict catObj) with
      | None => st
      | Some idx =>
          match nth_error row idx with
          | None => st
          | Some val =>
              match widthOf tObj fl atId with
              | None => st
              | Some maxW => storeValue tObj fl true atId val maxW st
              end
          end
      end
  end.

(** The body of [for row in catObj.getRowList()] in [__mapInstanceCategory]. *)
Definition mapRow (tObj : TableDef) (fl : Flags) (catObj : Category)
  (categoryName : string) (st : list Row * OverWrite) (row : list string)
  : Exc (list Row * OverWrite) :=
  d0 <- initRow tObj fl ;;
  let r := fold_left (mapAttribute tObj fl catObj row)
             (getMapInstanceAttributeIdList tObj categoryName) (d0, snd st) in
  Ok (fst st ++ [fst r], snd r).

(** [__mapInstanceCategory] *)
Definition mapInstanceCategory (tObj : TableDef) (categoryName : string)
  (myContainer : Container) (filterType : string) (ow : OverWrite)
  : Exc (list Row * OverWrite) :=
  match getObj myContainer categoryName with
  | None => Ok ([], ow)
  | Some catObj =>
      foldM (mapRow tObj (flagsOf filterType) catObj categoryName)
        (getRowList catObj) ([], ow)
  end.

(** The merge key [mK] of a row; a failing lookup is skipped. *)
Definition mergeKey (catObj : Category) (indL : list string) (row : list string)
  : list string :=
  flat_map (fun atName =>
              match dget atName (getAttributeIndexDict catObj) with
              | Some idx => match nth_error row idx with
                            | Some v => [v]
                            | None => []
                            end
              | None => []
              end) indL.

(** The body of [for atId in curAttributeIdList] in
    [__mapInstanceCategoryList]; it does not touch the accumulator. *)
Definition mapAttributeMerge (tObj : TableDef) (fl : Flags) (catObj : Category)
  (row : list string) (d : Row) (atId : string) : Row :=
  match dget atId (getMapAttributeDict tObj) with
  | None => d
  | Some atName =>
      match dget atName (getAttributeIndexDict catObj) with
      | None => d
      | Some idx =>
          match nth_error row idx with
          | None => d
          | Some val =>
              match widthOf tObj fl atId with
              | None => d
              | Some maxW => fst (storeValue tObj fl false atId val maxW (d, []))
              end
          end
      end
  end.

(** The body of [for row in catObj.getRowList()] in
    [__mapInstanceCategoryList], ending in [mD[tk].update(d)]. *)
Definition mergeRow (tObj : TableDef) (fl : Flags) (catObj : Category)
  (categoryName : string) (mD : dict (list string) Row) (row : list string)
  : Exc (dict (list string) Row) :=
  d0 <- initRow tObj fl ;;
  let tk := mergeKey catObj (getMapMergeIndexAttributes tObj categoryName) row in
  let d := fold_left (mapAttributeMerge tObj fl catObj row)
             (getMapInstanceAttributeIdList tObj categoryName) d0 in
  match dget tk mD with
  | Some old => Ok (dset tk (dupdate old d) mD)
  | None => Ok (dset tk (dupdate [] d) mD)
  end.

(** The body of [for categoryName in categoryNameList]. *)
Definition mergeCategory (tObj : TableDef) (fl : Flags) (myContainer : Container)
  (mD : dict (list string) Row) (categoryName : string)
  : Exc (dict (list string) Row) :=
  match getObj myContainer categoryName with
  | None => Ok mD
  | Some catObj => foldM (mergeRow tObj fl catObj categoryName) (getRowList catObj) mD
  end.

(** [__mapInstanceCategoryList] *)
Definition mapInstanceCategoryList (tObj : TableDef) (categoryNameList : list string)
  (myContainer : Container) (filterType : string) : Exc (list Row) :=
  mD <- foldM (mergeCategory tObj (flagsOf filterType) myContainer) categoryNameList [] ;;
  Ok (dvalues mD).

(** [__evalMapFunction]: the rows of [rowList] are objects that the table
    lists of [tableDataDict] may already hold, so rows live in a heap and
    lists hold references. *)
Fixpoint rowHeapSet (h : list Row) (a : nat) (atId : string) (v : Value) : list Row :=
  match h, a with
  | [], _ => []
  | r :: rest, O => dset atId v r :: rest
  | r :: rest, S a' => r :: rowHeapSet rest a' atId v
  end.

Definition evalMapFunction (dataContainer : Container) (rowList : list nat)
  (attributeId functionName : string) (h : list Row) : list Row :=
  if String.eqb functionName "datablockid()"
  then fold_left (fun h' a => rowHeapSet h' a attributeId (VStr (getName dataContainer)))
         rowList h
  else h.

Record MapState : Type := {
  ms_heap : list Row;
  ms_tables : dict string (list nat);
  ms_rowList : option (list nat);
  ms_overWrite : OverWrite
}.

Definition allocAll (rows : list Row) (h : list Row) : list nat * list Row :=
  (seq (length h) (length rows), h ++ rows).

Variable sD : SchemaDef.

(** The body of [for tableId in tableIdList] in [__mapData].  With no
    mapped category neither branch assigns [rowList]: the name is unbound
    on the first turn and keeps the previous table's list afterwards. *)
Definition mapTable (excluded : list string) (myContainer : Container)
  (filterType : string) (st : MapState) (tableId : string) : Exc MapState :=
  if existsb (String.eqb tableId) excluded then Ok st
  else
    let tables := if dmem tableId (ms_tables st) then ms_tables st
                  else dset tableId [] (ms_tables st) in
    let tObj := getTable sD tableId in
    r <- match getMapInstanceCategoryList tObj with
         | [] => Ok (ms_heap st, ms_rowList st, ms_overWrite st)
         | [categoryName] =>
             m <- mapInstanceCategory tObj categoryName myContainer filterType
                    (ms_overWrite st) ;;
             let (refs, h) := allocAll (fst m) (ms_heap st) in
             Ok (h, Some refs, snd m)
         | mapCategoryNameList =>
             rows <- mapInstanceCategoryList tObj mapCategoryNameList myContainer
                       filterType ;;
             let (refs, h) := allocAll rows (ms_heap st) in
             Ok (h, Some refs, ms_overWrite st)
         end ;;
    match snd (fst r) with
    | None => Raise UnboundLocalError
    | Some rowList =>
        let h := fold_left (fun h' atId =>
                   evalMapFunction myContainer rowList atId
                     (getMapAttributeFunction tObj atId) h')
                   (getMapOtherAttributeIdList tObj) (fst (fst r)) in
        let old := match dget tableId tables with Some l => l | None => [] end in
        Ok {| ms_heap := h;
              ms_tables := dset tableId (old ++ rowList) tables;
              ms_rowList := Some rowList;
              ms_overWrite := snd r |}
    end.

(** [__mapData]; [rowList] is a local variable of each call. *)
Definition mapData (excluded : list string) (containerList : list Container)
  (tableIdList : list string) (filterType : string)
  (h : list Row) (tableDataDict : dict string (list nat)) (ow : OverWrite)
  : Exc MapState :=
  foldM (fun st myContainer =>
           foldM (mapTable excluded myContainer filterType) tableIdList st)
    containerList
    {| ms_heap := h; ms_tables := tableDataDict; ms_rowList := None;
       ms_overWrite := ow |}.

(** The table data read back from the heap. *)
Definition readTables (h : list Row) (tables : dict string (list nat)) : DataById :=
  map (fun kv => (fst kv,
                  flat_map (fun a => match nth_error h a with
                                     | Some r => [r]
                                     | None => []
                                     end) (snd kv))) tables.

(** [__testContentSelectors]; a missing category or value raises inside
    the [try], which also answers [False]. *)
Definition testContentSelectors (container : Container)
  (contentSelectors : option (list string)) : bool :=
  match contentSelectors with
  | None => true
  | Some [] => true
  | Some sel =>
      forallb (fun cs =>
        forallb (fun csD =>
          match getObj container (cs_table_name csD) with
          | None => false
          | Some catObj =>
              match getRowList catObj with
              | [] => false
              | rows =>
                  forallb (fun row =>
                    match dget (cs_attribute_name csD) (getAttributeIndexDict catObj) with
                    | Some idx =>
                        match nth_error row idx with
                        | Some v => existsb (String.eqb v) (cs_values csD)
                        | None => false
                        end
                    | None => false
                    end) rows
              end
          end) (getContentSelector sD cs)) sel
  end.

(** The [drop-empty-tables] filter that ends [__fetch] and [__process]. *)
Definition dropEmptyTables (filterType : string) (tableDataDict : DataById) : DataById :=
  if strContains "drop-empty-tables" filterType
  then filter (fun kv => Nat.ltb 0 (length (snd kv))) tableDataDict
  else tableDataDict.

(** [__process] *)
Definition process_ (excluded : list string) (containerList : list Container)
  (filterType : string) (contentSelectors : option (list string)) (ow : OverWrite)
  : Exc (DataById * list string * OverWrite) :=
  let cL := filter (fun c => testContentSelectors c contentSelectors) containerList in
  st <- mapData excluded cL (getTableIdList sD) filterType [] [] ow ;;
  Ok (dropEmptyTables filterType (readTables (ms_heap st) (ms_tables st)),
      map getName containerList, ms_overWrite st).

(** [self.__ioObj.readFile]: the file reader, an input/output collaborator. *)
Variable readFile : string -> list Container.

(** [__fetch] *)
Definition fetch_ (excluded : list string) (loadPathList : list string)
  (filterType : string) (contentSelectors : option (list string)) (ow : OverWrite)
  : Exc (DataById * list string * OverWrite) :=
  r <- foldM (fun acc lPath =>
         let myContainerList := readFile lPath in
         let cL := filter (fun c => testContentSelectors c contentSelectors)
                     myContainerList in
         st <- mapData excluded cL (getTableIdList sD) filterType
                 (fst (fst (fst acc))) (snd (fst (fst acc))) (snd acc) ;;
         Ok (ms_heap st, ms_tables st, snd (fst acc) ++ map getName myContainerList,
             ms_overWrite st))
       loadPathList ([], [], [], ow) ;;
  Ok (dropEmptyTables filterType (readTables (fst (fst (fst r))) (snd (fst (fst r)))),
      snd (fst r), snd r).

(** [__transformTableData]: the four layouts, and the [except Exception]
    that returns the input. *)
Definition transformTableData (tableDataDictById : DataById) (styleType : string) : Doc :=
  let attempt : Exc Doc :=
    if String.eqb styleType "rowwise_by_name" then
      Ok (fold_left (fun rD kv =>
            let tableDef := getTable sD (fst kv) in
            dset (getTableName sD (fst kv))
              (SRows (map (renameKeys (getAttributeName tableDef)) (snd kv))) rD)
            tableDataDictById [])
    else if String.eqb styleType "rowwise_by_name_with_cardinality" then
      Ok (fold_left (fun rD kv =>
            let tableId := fst kv in
            let tableDef := getTable sD tableId in
            let tableName := getTableName sD tableId in
            let unitCard := hasUnitCardinality sD tableId in
            match snd kv with
            | [iRowD] =>
                if unitCard
                then dset tableName (SRow (renameKeys (getAttributeName tableDef) iRowD)) rD
                else dset tableName
                       (SRows (map (renameKeys (getAttributeName tableDef)) (snd kv))) rD
            | iRowDList =>
                dset tableName
                  (SRows (map (renameKeys (getAttributeName tableDef)) iRowDList)) rD
            end) tableDataDictById [])
    else if String.eqb styleType "columnwise_by_name" then
      Ok (fold_left (fun rD kv =>
            let tableDef := getTable sD (fst kv) in
            dset (getTableName sD (fst kv))
              (SCols (fold_left (appendColumns (getAttributeName tableDef)) (snd kv) []))
              rD) tableDataDictById [])
    else if String.eqb styleType "rowwise_no_name" then
      foldM (fun rD kv =>
        let tableId := fst kv in
        oRowList <- positionalRows (getTableAttributeIdList sD tableId) (snd kv) ;;
        Ok (dset (getTableName sD tableId)
              (SNoName (getAttributeNameList sD tableId) oRowList) rD))
        tableDataDictById []
    else Ok (asById tableDataDictById) in
  match attempt with
  | Ok rD => rD
  | Raise _ => asById tableDataDictById
  end.

(** [processDocuments]: one document per container. *)
Definition processDocuments (excluded : list string) (containerList : list Container)
  (styleType filterType : string) (contentSelectors : option (list string))
  (ow : OverWrite) : Exc (list Doc * list string * OverWrite) :=
  foldM (fun acc container =>
    r <- process_ excluded [container] filterType contentSelectors (snd acc) ;;
    let tableDataDict := transformTableData (fst (fst r)) styleType in
    let tableDataDict := dset "__CONTAINER_NAME__" (SText (getName container))
                           tableDataDict in
    Ok (fst (fst acc) ++ [tableDataDict], snd (fst acc) ++ snd (fst r), snd r))
    containerList ([], [], ow).

(** [fetchDocuments]: one document per input file. *)
Definition fetchDocuments (excluded : list string) (inputPathList : list string)
  (styleType filterType : string) (contentSelectors : option (list string))
  (ow : OverWrite) : Exc (list Doc * list string * OverWrite) :=
  foldM (fun acc inputPath =>
    r <- fetch_ excluded [inputPath] filterType contentSelectors (snd acc) ;;
    let tableDataDict := transformTableData (fst (fst r)) styleType in
    let tableDataDict := dset "__INPUT_PATH__" (SText inputPath) tableDataDict in
    Ok (fst (fst acc) ++ [tableDataDict], snd (fst acc) ++ snd (fst r), snd r))
    inputPathList ([], [], ow).

(** [process]: all containers into one collection of tables. *)
Definition process (excluded : list string) (containerList : list Container)
  (styleType filterType : string) (contentSelectors : option (list string))
  (ow : OverWrite) : Exc (Doc * list string * OverWrite) :=
  r <- process_ excluded containerList filterType contentSelectors ow ;;
  Ok (transformTableData (fst (fst r)) styleType, snd (fst r), snd r).

(** [fetch]: all input files into one collection of tables. *)
Definition fetch (excluded : list string) (inputPathList : list string)
  (styleType filterType : string) (contentSelectors : option (list string))
  (ow : OverWrite) : Exc (Doc * list string * OverWrite) :=
  r <- fetch_ excluded inputPathList filterType contentSelectors ow ;;
  Ok (transformTableData (fst (fst r)) styleType, snd (fst r), snd r).

End WithParser.

End DataPrep.

(** ** What a caller can do with a returned partition

    [part[name][key] = v] on a stored row object and
    [part[name][i][key] = v] on the [i]-th row of a stored list. *)

Definition setField (h : ReShape.Heap) (a : nat) (key : string) (v : Value)
  : ReShape.Heap :=
  match nth_error h a with
  | Some (ReShape.ORow r) => ReShape.heapSet h a (ReShape.ORow (dset key v r))
  | _ => h
  end.

Definition setFieldOfItem (h : ReShape.Heap) (a i : nat) (key : string) (v : Value)
  : ReShape.Heap :=
  match nth_error h a with
  | Some (ReShape.OList refs) =>
      match nth_error refs i with
      | Some b => setField h b key v
      | None => h
      end
  | _ => h
  end.

(** ** Vocabulary of the statements *)

(** No other entry of the table data carries the same table name. *)
Definition soleName (name : string -> string) (data : DataById)
  (schemaId : string) (rows : list Row) : Prop :=
  forall id' rows', In (id', rows') data -> name id' = name schemaId ->
    id' = schemaId /\ rows' = rows.

(** The cardinality rule in the words of the specification: the value is a
    single row object exactly when the table has unit cardinality and one
    row; it is otherwise the list of the renamed rows. *)
Definition collapseRule (unitCard : bool) (rename : Row -> Row) (rows : list Row)
  (v : Shaped) : Prop :=
  ((exists r, v = SRow r) <-> (unitCard = true /\ length rows = 1)) /\
  (forall r, v = SRow r -> exists iRowD, rows = [iRowD] /\ r = rename iRowD) /\
  ((exists r, v = SRow r) \/ v = SRows (map rename rows)).


(** ** Concrete inputs

    The record set of the specification's slicing example (tables ENTITY,
    ENTITY_POLY and ENTRY) under several schema configurations, used to
    run the embedded code. *)

Module Ex.

Definition lowerChar (c : ascii) : ascii :=
  let n := nat_of_ascii c in
  if Nat.leb 65 n && Nat.leb n 90 then ascii_of_nat (n + 32) else c.

Fixpoint lower (s : string) : string :=
  match s with
  | EmptyString => EmptyString
  | String c rest => String (lowerChar c) (lower rest)
  end.

Definition among (x : string) (l : list string) : bool := existsb (String.eqb x) l.

(** A schema whose table and attribute names are the lower-case
    identifiers; [extra], [mandatory] and [unit] list the tables carrying
    each flag. *)
Definition schema (items : list PItem) (filters : list ParentFilter)
  (index : SliceIndex) (extra mandatory unit : list string) : SchemaDefAccess :=
  {| getSliceParentItems := fun _ => items;
     getSliceParentFilters := fun _ => filters;
     getSliceIndex := fun _ => index;
     getSliceExtraSchemaIds := fun _ => extra;
     getSchemaObject := fun schemaId =>
       {| getAttributeName := lower;
          isSliceExtra := fun _ => among schemaId extra;
          isMandatory := among schemaId mandatory;
          hasSliceUnitCardinality := fun _ => among schemaId unit |};
     getSchemaName := lower;
     hasUnitCardinality := fun schemaId => among schemaId unit;
     getAttributeIdList := fun _ => ["ID"];
     getAttributeNameList := fun _ => ["id"] |}.

Definition entityId : PItem := ("ENTITY", "ID").

Definition polyIndex : SliceIndex := [("ENTITY_POLY", [(entityId, ["ENTITY_ID"])])].

(** Slicing by entity, ENTRY replicated into every slice. *)
Definition sD : SchemaDefAccess :=
  schema [entityId] [] polyIndex ["ENTRY"] [] ["ENTRY"].

Definition entryRows : list Row := [[("ID", VStr "1ABC")]].

Definition entityRows : list Row :=
  [[("ID", VStr "1"); ("TYPE", VStr "polymer")];
   [("ID", VStr "2"); ("TYPE", VStr "water")]].

Definition polyRows : list Row := [[("ENTITY_ID", VStr "1"); ("SEQ", VStr "ACD")]].

Definition data : DataById :=
  [("ENTRY", entryRows); ("ENTITY", entityRows); ("ENTITY_POLY", polyRows)].

(** The configuration of the specification's slicing example: ENTITY is
    the slice-extra table. *)
Definition sDextra : SchemaDefAccess :=
  schema [entityId] [] polyIndex ["ENTITY"] [] [].

(** A record set without the parent category. *)
Definition dataNoParent : DataById := [("ENTRY", entryRows); ("ENTITY_POLY", polyRows)].

(** A record set in which a child row names an entity that is not among
    the parent rows. *)
Definition dataOrphan : DataById :=
  [("ENTRY", entryRows);
   ("ENTITY", [[("ID", VStr "1"); ("TYPE", VStr "polymer")]]);
   ("ENTITY_POLY", [[("ENTITY_ID", VStr "1"); ("SEQ", VStr "ACD")];
                    [("ENTITY_ID", VStr "3"); ("SEQ", VStr "GG")]])].

(** A record set in which a row lacks the attribute ID. *)
Definition dataNoId : DataById :=
  [("ENTRY", [[("TITLE", VStr "t")]]);
   ("ENTITY", entityRows)].

(** A record set in which two parent rows carry the same identifier. *)
Definition dataTwice : DataById :=
  [("ENTITY", [[("ID", VStr "1"); ("TYPE", VStr "polymer")];
               [("ID", VStr "1"); ("TYPE", VStr "water")]])].


(** ENTITY_POLY mandatory and of unit cardinality in every slice. *)
Definition sDmandatory : SchemaDefAccess :=
  schema [entityId] [] polyIndex ["ENTRY"] ["ENTITY_POLY"] ["ENTRY"; "ENTITY_POLY"].

(** A record set with one ENTITY_POLY row for each entity. *)
Definition dataFull : DataById :=
  [("ENTRY", entryRows); ("ENTITY", entityRows);
   ("ENTITY_POLY", [[("ENTITY_ID", VStr "1"); ("SEQ", VStr "ACD")];
                    [("ENTITY_ID", VStr "2"); ("SEQ", VStr "GG")]])].

(** A parent filter on ENTRY, a category other than that of the parent
    item. *)
Definition sDforeign : SchemaDefAccess :=
  schema [entityId]
    [{| pf_category := "ENTRY"; pf_attribute := "ID"; pf_values := [VStr "1ABC"] |}]
    polyIndex ["ENTRY"] [] ["ENTRY"].

(** A parent filter on the parent category itself: only the polymer
    entities are enumerated. *)
Definition sDfiltered : SchemaDefAccess :=
  schema [entityId]
    [{| pf_category := "ENTITY"; pf_attribute := "TYPE"; pf_values := [VStr "polymer"] |}]
    polyIndex ["ENTRY"] [] ["ENTRY"].

(** Two parent items of the same category, with the filter of
    [sDfiltered]. *)
Definition sDtwoItems : SchemaDefAccess :=
  schema [entityId; ("ENTITY", "TYPE")]
    [{| pf_category := "ENTITY"; pf_attribute := "TYPE"; pf_values := [VStr "polymer"] |}]
    polyIndex ["ENTRY"] [] ["ENTRY"].

(** Three entities, the first and the third being polymers. *)
Definition dataThree : DataById :=
  [("ENTRY", entryRows);
   ("ENTITY", [[("ID", VStr "1"); ("TYPE", VStr "polymer")];
               [("ID", VStr "2"); ("TYPE", VStr "water")];
               [("ID", VStr "3"); ("TYPE", VStr "polymer")]])].

(** A slice filter without parent items. *)
Definition sDnoItems : SchemaDefAccess :=
  schema [] [] polyIndex ["ENTRY"] [] ["ENTRY"].

(** *** Inputs of the mapper *)

(** Modelled from the spec: the date reader.  [dateutil] is a third-party
    library; the specification names the accepted forms, yyyy-mm-dd and
    yyyy-mm-dd hh:mm:ss (the colon between date and time already replaced
    by a space).  This reader accepts exactly these two forms. *)
Definition digit (c : ascii) : option nat :=
  let n := nat_of_ascii c in
  if Nat.leb 48 n && Nat.leb n 57 then Some (n - 48) else None.

Fixpoint number (cs : list ascii) (acc : nat) : option nat :=
  match cs with
  | [] => Some acc
  | c :: rest => match digit c with
                 | Some d => number rest (10 * acc + d)
                 | None => None
                 end
  end.

Definition isoDate (cs : list ascii) : option (nat * nat * nat) :=
  match cs with
  | [y1; y2; y3; y4; "-"%char; m1; m2; "-"%char; d1; d2] =>
      match number [y1; y2; y3; y4] 0, number [m1; m2] 0, number [d1; d2] 0 with
      | Some y, Some m, Some d =>
          if Nat.leb 1 m && Nat.leb m 12 && Nat.leb 1 d && Nat.leb d 31
          then Some (y, m, d) else None
      | _, _, _ => None
      end
  | _ => None
  end.

Definition isoTime (cs : list ascii) : option (nat * nat * nat) :=
  match cs with
  | [h1; h2; ":"%char; m1; m2; ":"%char; s1; s2] =>
      match number [h1; h2] 0, number [m1; m2] 0, number [s1; s2] 0 with
      | Some h, Some m, Some sec =>
          if Nat.leb h 23 && Nat.leb m 59 && Nat.leb sec 59
          then Some (h, m, sec) else None
      | _, _, _ => None
      end
  | _ => None
  end.

Definition isoParse (s : string) : option DateTime :=
  let cs := list_ascii_of_string s in
  match isoDate (firstn 10 cs), skipn 10 cs with
  | Some (y, m, d), [] => Some (mkDateTime y m d 0 0 0)
  | Some (y, m, d), " "%char :: t =>
      match isoTime t with
      | Some (h, mi, sec) => Some (mkDateTime y m d h mi sec)
      | None => None
      end
  | _, _ => None
  end.

Definition nullValue : Value := VStr "\N".

(** A table definition whose attribute [A] is read from the source
    attribute [lower A]. *)
Definition tableDef (tableId : string) (attributes : list string)
  (mapping : list (string * list string)) (mergeIndex : list (string * list string))
  (widths : list (string * Z)) (dates : list string) : DataPrep.TableDef :=
  {| DataPrep.getId := tableId;
     DataPrep.getMapInstanceCategoryList := map fst mapping;
     DataPrep.getMapOtherAttributeIdList := [];
     DataPrep.getMapAttributeFunction := fun _ => "";
     DataPrep.getMapAttributeDict := map (fun a => (a, lower a)) attributes;
     DataPrep.getAttributeIdList := attributes;
     DataPrep.getSqlNullValueDict := map (fun a => (a, nullValue)) attributes;
     DataPrep.getStringWidthDict :=
       map (fun a => (a, match dget a widths with Some w => w | None => 0%Z end))
         attributes;
     DataPrep.getMapInstanceAttributeIdList := fun c =>
       match dget c mapping with Some l => l | None => [] end;
     DataPrep.getMapMergeIndexAttributes := fun c =>
       match dget c mergeIndex with Some l => l | None => [] end;
     DataPrep.isAttributeDateType := fun a => among a dates;
     DataPrep.isIterable := fun _ => false;
     DataPrep.getIterableSeparator := fun _ => ",";
     DataPrep.getAttributeName := lower |}.

(** The table definition [t] with another null-value dictionary. *)
Definition withNullValues (t : DataPrep.TableDef) (nulls : dict string Value)
  : DataPrep.TableDef :=
  {| DataPrep.getId := DataPrep.getId t;
     DataPrep.getMapInstanceCategoryList := DataPrep.getMapInstanceCategoryList t;
     DataPrep.getMapOtherAttributeIdList := DataPrep.getMapOtherAttributeIdList t;
     DataPrep.getMapAttributeFunction := DataPrep.getMapAttributeFunction t;
     DataPrep.getMapAttributeDict := DataPrep.getMapAttributeDict t;
     DataPrep.getAttributeIdList := DataPrep.getAttributeIdList t;
     DataPrep.getSqlNullValueDict := nulls;
     DataPrep.getStringWidthDict := DataPrep.getStringWidthDict t;
     DataPrep.getMapInstanceAttributeIdList := DataPrep.getMapInstanceAttributeIdList t;
     DataPrep.getMapMergeIndexAttributes := DataPrep.getMapMergeIndexAttributes t;
     DataPrep.isAttributeDateType := DataPrep.isAttributeDateType t;
     DataPrep.isIterable := DataPrep.isIterable t;
     DataPrep.getIterableSeparator := DataPrep.getIterableSeparator t;
     DataPrep.getAttributeName := DataPrep.getAttributeName t |}.

(** The table definition [t] with the attributes [others] computed by the
    function [fName]. *)
Definition withOtherAttributes (t : DataPrep.TableDef) (others : list string)
  (fName : string) : DataPrep.TableDef :=
  {| DataPrep.getId := DataPrep.getId t;
     DataPrep.getMapInstanceCategoryList := DataPrep.getMapInstanceCategoryList t;
     DataPrep.getMapOtherAttributeIdList := others;
     DataPrep.getMapAttributeFunction := fun _ => fName;
     DataPrep.getMapAttributeDict := DataPrep.getMapAttributeDict t;
     DataPrep.getAttributeIdList := DataPrep.getAttributeIdList t;
     DataPrep.getSqlNullValueDict := DataPrep.getSqlNullValueDict t;
     DataPrep.getStringWidthDict := DataPrep.getStringWidthDict t;
     DataPrep.getMapInstanceAttributeIdList := DataPrep.getMapInstanceAttributeIdList t;
     DataPrep.getMapMergeIndexAttributes := DataPrep.getMapMergeIndexAttributes t;
     DataPrep.isAttributeDateType := DataPrep.isAttributeDateType t;
     DataPrep.isIterable := DataPrep.isIterable t;
     DataPrep.getIterableSeparator := DataPrep.getIterableSeparator t;
     DataPrep.getAttributeName := DataPrep.getAttributeName t |}.

Definition entryDef : DataPrep.TableDef :=
  tableDef "ENTRY" ["ID"; "DATE"] [("entry", ["ID"; "DATE"])] [] [] ["DATE"].

Definition entityDef : DataPrep.TableDef :=
  tableDef "ENTITY" ["ID"; "TYPE"] [("entity", ["ID"; "TYPE"])] [] [("TYPE", 5%Z)] [].

(** The table of the specification's merge scenario: category [a] maps
    A1 and A2, category [b] maps A2 and A3, rows are matched on [id]. *)
Definition mergedDef : DataPrep.TableDef :=
  tableDef "MERGED" ["A1"; "A2"; "A3"]
    [("a", ["A1"; "A2"]); ("b", ["A2"; "A3"])]
    [("a", ["id"]); ("b", ["id"])] [("A3", 3%Z)] [].

Definition pD : DataPrep.SchemaDef :=
  {| DataPrep.getTableIdList := ["ENTRY"; "ENTITY"; "MERGED"];
     DataPrep.getTable := fun tableId =>
       if String.eqb tableId "ENTRY" then entryDef
       else if String.eqb tableId "ENTITY" then entityDef
       else mergedDef;
     DataPrep.getTableName := lower;
     DataPrep.hasUnitCardinality := fun tableId => String.eqb tableId "ENTRY";
     DataPrep.getTableAttributeIdList := fun tableId =>
       if String.eqb tableId "ENTRY" then ["ID"; "DATE"]
       else if String.eqb tableId "ENTITY" then ["ID"; "TYPE"]
       else ["A1"; "A2"; "A3"];
     DataPrep.getAttributeNameList := fun tableId =>
       if String.eqb tableId "ENTRY" then ["id"; "date"]
       else if String.eqb tableId "ENTITY" then ["id"; "type"]
       else ["a1"; "a2"; "a3"];
     DataPrep.getContentSelector := fun _ => [] |}.

Definition category (name : string) (attributes : list string)
  (rows : list (list string)) : DataPrep.Category :=
  {| DataPrep.cat_name := name;
     DataPrep.getAttributeIndexDict := combine attributes (seq 0 (length attributes));
     DataPrep.getRowList := rows |}.

Definition container : DataPrep.Container :=
  {| DataPrep.getName := "1ABC";
     DataPrep.categories :=
       [category "entry" ["id"; "date"] [["1ABC"; "see:remark"]];
        category "entity" ["id"; "type"] [["1"; "polymer"]; ["2"; "water"]];
        category "a" ["id"; "a1"; "a2"] [["1"; "p"; "q"]];
        category "b" ["id"; "a2"; "a3"] [["1"; "r"; "stuvwx"]]] |}.

(** The file reader of the examples: every path holds [container]. *)
Definition readFile (path : string) : list DataPrep.Container := [container].

(** A schema made of the listed tables, with the content selectors [sel]. *)
Definition schemaOf (tables : list (string * DataPrep.TableDef))
  (sel : string -> list DataPrep.ContentSelector) : DataPrep.SchemaDef :=
  {| DataPrep.getTableIdList := map fst tables;
     DataPrep.getTable := fun tableId =>
       match dget tableId tables with Some t => t | None => entryDef end;
     DataPrep.getTableName := lower;
     DataPrep.hasUnitCardinality := fun _ => false;
     DataPrep.getTableAttributeIdList := fun tableId =>
       match dget tableId tables with
       | Some t => DataPrep.getAttributeIdList t
       | None => []
       end;
     DataPrep.getAttributeNameList := fun tableId =>
       match dget tableId tables with
       | Some t => map lower (DataPrep.getAttributeIdList t)
       | None => []
       end;
     DataPrep.getContentSelector := sel |}.

(** A table that no category is mapped to. *)
Definition auditDef : DataPrep.TableDef := tableDef "AUDIT" ["ENTRY_ID"] [] [] [] [].

(** The selector that accepts the entries 2XYZ only. *)
Definition entrySelector : DataPrep.ContentSelector :=
  {| DataPrep.cs_table_name := "entry";
     DataPrep.cs_attribute_name := "id";
     DataPrep.cs_values := ["2XYZ"] |}.

(** A second container, and a reader with two files. *)
Definition container2 : DataPrep.Container :=
  {| DataPrep.getName := "2XYZ";
     DataPrep.categories :=
       [category "entry" ["id"; "date"] [["2XYZ"; "2018-03-19"]];
        category "entity" ["id"; "type"] [["1"; "polymer"]]] |}.

Definition readFiles (path : string) : list DataPrep.Container :=
  if String.eqb path "1abc.cif" then [container]
  else if String.eqb path "both.cif" then [container; container2]
  else [].

End Ex.

(** A document carries the reserved key [key] with the text [text] next
    to the table keys of [tables]. *)
Definition carriesReserved (key text : string) (tables : Doc) (doc : Doc) : Prop :=
  dget key doc = Some (SText text) /\
  forall k, k <> key -> dget k doc = dget k tables.

Section DocumentVocabulary.
Variable parse : string -> option DateTime.
Variable pD : DataPrep.SchemaDef.
Variable readFile : string -> list DataPrep.Container.
Variable excluded : list string.
Variables styleType filterType : string.
Variable selectors : option (list string).

(** What [processDocuments] promises about the document of one container. *)
Definition containerDoc (container : DataPrep.Container) (doc : Doc) : Prop :=
  exists tables names ow0 ow1,
    DataPrep.process_ parse pD excluded [container] filterType selectors ow0
      = Ok (tables, names, ow1) /\
    carriesReserved "__CONTAINER_NAME__" (DataPrep.getName container)
      (DataPrep.transformTableData pD tables styleType) doc.

(** What [fetchDocuments] promises about the document of one input file. *)
Definition pathDoc (inputPath : string) (doc : Doc) : Prop :=
  exists tables names ow0 ow1,
    DataPrep.fetch_ parse pD readFile excluded [inputPath] filterType selectors ow0
      = Ok (tables, names, ow1) /\
    carriesReserved "__INPUT_PATH__" inputPath
      (DataPrep.transformTableData pD tables styleType) doc.

End DocumentVocabulary.

(** The enumerator in the words of the specification.  A row of category
    [catId] takes part when it satisfies every parent filter: the filter
    is on that category and the row's value of the filtered attribute is
    among the allowed values. *)
Definition satisfiesFilter (rowD : Row) (catId : string) (f : ParentFilter) : bool :=
  String.eqb catId (pf_category f) &&
  match dget (pf_attribute f) rowD with
  | Some v => existsb (value_eqb v) (pf_values f)
  | None => false
  end.

Definition takesPart (rowD : Row) (catId : string) (filters : list ParentFilter) : bool :=
  forallb (satisfiesFilter rowD catId) filters.

(** The values of one parent item: one entry per participating row, in
    row order. *)
Definition parentValuesOf (data : DataById) (filters : list ParentFilter)
  (item : PItem) : list PVal :=
  match dget (fst item) data with
  | Some rows =>
      flat_map (fun rowD =>
                  match dget (snd item) rowD with
                  | Some v => [(item, v)]
                  | None => []
                  end)
        (filter (fun rowD => takesPart rowD (fst item) filters) rows)
  | None => []
  end.

(** Every participating parent row carries the parent attribute. *)
Definition parentRowsComplete (data : DataById) (filters : list ParentFilter)
  (items : list PItem) : Prop :=
  forall item rows rowD,
    In item items -> dget (fst item) data = Some rows -> In rowD rows ->
    takesPart rowD (fst item) filters = true -> dmem (snd item) rowD = true.

Unset Implicit Arguments.

(** The state of the second loop of the one-pass partitioner is well
    formed with respect to the table names [E] stored by the first loop:
    keys are unique, references are allocated, and a list object stored
    under a name outside [E] is referenced from one place only. *)
Record Inv (E : list string) (h : ReShape.Heap) (retD : ReShape.RetD) : Prop := {
  inv_keys : NoDup (dkeys retD);
  inv_pkeys : forall v p, In (v, p) retD -> NoDup (dkeys p);
  inv_refs : forall v p n a, In (v, p) retD -> In (n, a) p -> a < length h;
  inv_inner : forall a refs, nth_error h a = Some (ReShape.OList refs) ->
              Forall (fun r => r < length h) refs;
  inv_own : forall v p n a refs v' p' n',
      In (v, p) retD -> In (n, a) p -> ~ In n E ->
      nth_error h a = Some (ReShape.OList refs) ->
      In (v', p') retD -> In (n', a) p' -> v' = v /\ n' = n
}.

(** The heap state and the plain state of the second loop agree. *)
Definition simulates {A : Type} (E : list string)
  (run : Exc (ReShape.Heap * ReShape.RetD)) (runV : Exc ReShape.RetV)
  (keep : ReShape.Heap -> Prop) : Prop :=
  match run with
  | Ok st => Inv E (fst st) (snd st) /\ keep (fst st) /\
             runV = Ok (ReShape.viewRet (fst st) (snd st))
  | Raise e => runV = Raise e
  end.

(** The state of the first loop: allocated references only. *)
Definition extrasOk (h : ReShape.Heap) (rD : ReShape.PartRef) : Prop :=
  NoDup (dkeys rD) /\
  (forall n a, In (n, a) rD -> a < length h) /\
  (forall a refs, nth_error h a = Some (ReShape.OList refs) ->
                  Forall (fun r => r < length h) refs).

(** No slice-indexed table of the record set shares its name with a
    slice-extra table. *)
Definition namesApart (sD : SchemaDefAccess) (data : DataById) (sliceFilter : string)
  (sliceIndex : SliceIndex) : Prop :=
  forall T T', In T (dkeys sliceIndex) -> dmem T data = true ->
    In T' (getSliceExtraSchemaIds sD sliceFilter) ->
    getSchemaName sD T <> getSchemaName sD T'.








(** *** Comparing the one-pass partitioner with the per-tuple partitioner *)

(** Two documents hold the same value under every table name (equality of
    Python dictionaries, which ignores insertion order). *)
Definition docEquiv (d1 d2 : Doc) : Prop := forall n, dget n d1 = dget n d2.

(** The value stored for a table by the per-tuple partitioner, if any. *)
Definition collapseOpt (mandatory unitCard : bool) (oRowDList : list Row) : option Shaped :=
  if (length oRowDList <? 1)%nat && negb mandatory then None
  else Some (match oRowDList with
             | [oRowD] => if unitCard then SRow oRowD else SRows oRowDList
             | _ => SRows oRowDList
             end).

(** What the per-tuple partitioner stores under the name [n] for the
    parent tuple [sliceValue]. *)
Definition expectedEntry (sD : SchemaDefAccess) (data : DataById) (sliceFilter : string)
  (sliceIndex : SliceIndex) (sliceValue : list PVal) (n : string) : option Shaped :=
  match find (fun kv : string * list Row => String.eqb (getSchemaName sD (fst kv)) n) data with
  | None => None
  | Some kv =>
      let schemaObj := getSchemaObject sD (fst kv) in
      if negb (dmem (fst kv) sliceIndex) && negb (isSliceExtra schemaObj sliceFilter)
      then None
      else collapseOpt (isMandatory schemaObj)
             (hasSliceUnitCardinality schemaObj sliceFilter)
             (ReShape.slicedRows sD sliceFilter sliceValue sliceIndex (fst kv) (snd kv))
  end.

(** The content of the partitions during the second loop of the one-pass
    partitioner: the keys are [vs], and the partition of [v] holds [g v n]
    under the name [n]. *)
Definition Rep (vs : list Value) (retV : ReShape.RetV)
  (g : Value -> string -> option Shaped) : Prop :=
  dkeys retV = vs /\
  forall v, In v vs -> exists doc, dget v retV = Some doc /\ forall n, dget n doc = g v n.

(** The value stored by one placement of [oRowD] over the current value. *)
Definition placeVal (uFlag : bool) (oRowD : Row) (cur : option Shaped) : Shaped :=
  if uFlag then SRow oRowD
  else match cur with
       | Some (SRows rows) => SRows (rows ++ [oRowD])
       | _ => SRows [oRowD]
       end.

Definition placeAll (uFlag : bool) (oRowDList : list Row) (cur : option Shaped)
  : option Shaped :=
  fold_left (fun c oRowD => Some (placeVal uFlag oRowD c)) oRowDList cur.

(** A current value over which a placement cannot fail. *)
Definition compat (uFlag : bool) (cur : option Shaped) : Prop :=
  uFlag = true \/ cur = None \/ exists rows, cur = Some (SRows rows).

(** The row [iRowD] is placed into the partition of [v]. *)
Definition hit (atL : list string) (v : Value) (iRowD : Row) : bool :=
  truthy v && existsb (value_eqb v) (ReShape.childValues atL iRowD).

(** The rows of a table of the record set. *)
Definition rowsOfTable (data : DataById) (schemaId : string) : list Row :=
  match dget schemaId data with Some rows => rows | None => [] end.

(** What the second loop stores for one table in the partition of [v]. *)
Definition tableContent (sD : SchemaDefAccess) (data : DataById) (sliceFilter : string)
  (e : string * list string) (v : Value) : option Shaped :=
  let schemaObj := getSchemaObject sD (fst e) in
  placeAll (hasSliceUnitCardinality schemaObj sliceFilter)
    (map (ReShape.renameRow schemaObj) (filter (hit (snd e) v) (rowsOfTable data (fst e))))
    None.

(** The content of the partitions once the tables [done] are processed,
    over the replicated content [g0]. *)
Definition contentAfter (sD : SchemaDefAccess) (data : DataById) (sliceFilter : string)
  (g0 : Value -> string -> option Shaped) (done : list (string * list string))
  (v : Value) (n : string) : option Shaped :=
  match find (fun e : string * list string => String.eqb (getSchemaName sD (fst e)) n) done with
  | Some e => tableContent sD data sliceFilter e v
  | None => g0 v n
  end.

(** The child values of the rows are hashable, and those that count as
    true are partition keys. *)
Definition childValuesClosed (vs : list Value) (atL : list string) (rows : list Row)
  : Prop :=
  forall iRowD, In iRowD rows ->
    forallb hashable (ReShape.childValues atL iRowD) = true /\
    forall rv, In rv (ReShape.childValues atL iRowD) -> truthy rv = true -> In rv vs.

(** [singleKeyAtD] for a single parent item [p]: the slice-indexed tables
    of the record set whose entry lists [p], with the child attributes. *)
Definition skDOf (data : DataById) (sliceIndex : SliceIndex) (p : PItem)
  : list (string * list string) :=
  flat_map (fun e : string * dict PItem (list string) =>
              if dmem (fst e) data
              then match dget p (snd e) with
                   | Some cAtIds => [(fst e, cAtIds)]
                   | None => []
                   end
              else []) sliceIndex.

(** The setting in which the one-pass partitioner is meant to be used: a
    slice filter with the single parent item [p], whose enumerated values
    are [vs]. *)
Record singleKeySlicing (sD : SchemaDefAccess) (data : DataById) (sliceFilter : string)
  (sliceIndex : SliceIndex) (p : PItem) (vs : list Value) : Prop := {
  (** one parent item, and its enumerated values *)
  sk_item : getSliceParentItems sD sliceFilter = [p];
  sk_values : ReShape.SliceValues sD data sliceFilter = Ok (map (fun v => [(p, v)]) vs);
  (** there is a parent value; the values are pairwise distinct, count as
      true and can be dictionary keys *)
  sk_some : vs <> [];
  sk_distinct : NoDup vs;
  sk_truthy : forall v, In v vs -> truthy v = true /\ hashable v = true;
  (** the tables of the record set have pairwise distinct names, the slice
      index has one entry per table *)
  sk_names : NoDup (map (getSchemaName sD) (dkeys data));
  sk_index : NoDup (dkeys sliceIndex);
  (** the list of slice-extra tables names exactly the tables of the
      record set flagged slice-extra, none of which is slice-indexed *)
  sk_extra_listed : forall T,
      In T (getSliceExtraSchemaIds sD sliceFilter) <->
      (dmem T data = true /\ isSliceExtra (getSchemaObject sD T) sliceFilter = true);
  sk_extra_unindexed : forall T,
      In T (getSliceExtraSchemaIds sD sliceFilter) -> dget T sliceIndex = None;
  (** child values are hashable and, when they count as true, are parent
      values *)
  sk_children : forall T entry cAtIds,
      dget T sliceIndex = Some entry -> dget p entry = Some cAtIds ->
      childValuesClosed vs cAtIds (rowsOfTable data T);
  (** in every slice, a mandatory slice-indexed table has a row and a
      unit-cardinality one has at most one *)
  sk_shape : forall T entry v,
      dget T sliceIndex = Some entry -> dmem T data = true -> In v vs ->
      let kept := filter (fun iRowD => ReShape.inSlice T sliceIndex iRowD [(p, v)])
                    (rowsOfTable data T) in
      (isMandatory (getSchemaObject sD T) = true -> kept <> []) /\
      (hasSliceUnitCardinality (getSchemaObject sD T) sliceFilter = true ->
       length kept <= 1)
}.

(** What the first loop of the one-pass partitioner replicates under the
    name [n]. *)
Definition extraEntry (sD : SchemaDefAccess) (data : DataById) (sliceFilter : string)
  (n : string) : option Shaped :=
  match find (fun kv : string * list Row => String.eqb (getSchemaName sD (fst kv)) n) data with
  | None => None
  | Some kv =>
      let schemaObj := getSchemaObject sD (fst kv) in
      if isSliceExtra schemaObj sliceFilter
      then collapseOpt (isMandatory schemaObj)
             (hasSliceUnitCardinality schemaObj sliceFilter)
             (map (ReShape.renameRow schemaObj) (snd kv))
      else None
  end.

(** *** Vocabulary of the layouts *)

(** The row [iRowD] as a list of cells in the order of [atIdList]. *)
Definition cellsInOrder (atIdList : list string) (iRowD : Row) : list Value :=
  map (fun atId => match dget atId iRowD with Some v => v | None => VNone end) atIdList.

(** The cells of the rows stored under an attribute named [c], in row
    order and, within a row, in attribute order. *)
Definition columnCells (name : string -> string) (c : string) (rows : list Row)
  : list Value :=
  flat_map (fun iRowD : Row =>
              map snd (filter (fun kv : string * Value => String.eqb (name (fst kv)) c) iRowD))
    rows.

(** A column dictionary holds, under every name, the cells of that name,
    and no empty column. *)
Definition columnsOf (name : string -> string) (rows : list Row)
  (colD : dict string (list Value)) : Prop :=
  forall c, dget c colD = match columnCells name c rows with
                          | [] => None
                          | cells => Some cells
                          end.

(** *** Vocabulary of the mapper *)

(** A cell that respects the width [W] declared for the attribute
    [atId]: the attribute's null value, or a string of at most [W]
    characters. *)
Definition withinWidth (tObj : DataPrep.TableDef) (atId : string) (W : Z) (v : Value)
  : Prop :=
  dget atId (DataPrep.getSqlNullValueDict tObj) = Some v \/
  exists s, v = VStr s /\ (Z.of_nat (String.length s) <= W)%Z.

(** The attribute [atId] is stored as plain text under the flags [fl]:
    neither read as a date nor split as an iterable. *)
Definition storedAsText (tObj : DataPrep.TableDef) (fl : DataPrep.Flags) (atId : string)
  : Prop :=
  DataPrep.assignDateFlag fl && DataPrep.isAttributeDateType tObj atId = false /\
  DataPrep.convertIterables fl && DataPrep.isIterable tObj atId = false.
(** The overflow accumulator [ow'] holds every entry of [ow], with a
    length that is not smaller. *)
Definition owGrows (ow ow' : DataPrep.OverWrite) : Prop :=
  forall tup n, dget tup ow = Some n -> exists n', dget tup ow' = Some n' /\ n <= n'.

(** The raw value [val] read for the attribute [atId] from the row [row]
    of the category [catObj]. *)
Definition rawValue (tObj : DataPrep.TableDef) (catObj : DataPrep.Category)
  (row : list string) (atId val : string) : Prop :=
  exists atName idx,
    dget atId (DataPrep.getMapAttributeDict tObj) = Some atName /\
    dget atName (DataPrep.getAttributeIndexDict catObj) = Some idx /\
    nth_error row idx = Some val.
(** The dictionary [d] that the merging loop builds from one input row
    alone, before it is merged. *)
Definition rowFields (parse : string -> option DateTime) (tObj : DataPrep.TableDef)
  (fl : DataPrep.Flags) (catObj : DataPrep.Category) (categoryName : string)
  (row : list string) : Exc Row :=
  d0 <- DataPrep.initRow tObj fl ;;
  Ok (fold_left (DataPrep.mapAttributeMerge parse tObj fl catObj row)
        (DataPrep.getMapInstanceAttributeIdList tObj categoryName) d0).

(** The merge keys of all rows of the contributing categories, in the
    order of the merging loop. *)
Definition mergeKeys (tObj : DataPrep.TableDef) (myContainer : DataPrep.Container)
  (categoryNameList : list string) : list (list string) :=
  flat_map (fun categoryName =>
              match DataPrep.getObj myContainer categoryName with
              | Some catObj =>
                  map (DataPrep.mergeKey catObj
                         (DataPrep.getMapMergeIndexAttributes tObj categoryName))
                    (DataPrep.getRowList catObj)
              | None => []
              end) categoryNameList.

(** ** Vocabulary of the mapping run *)

(** The rows that the references [refs] stand for in the heap [h]. *)
Definition rowsOfRefs (h : list Row) (refs : list nat) : list Row :=
  flat_map (fun a => match nth_error h a with
                     | Some r => [r]
                     | None => []
                     end) refs.

(** The references that the table [tableId] holds in the state [st]. *)
Definition tableRefs (tableId : string) (st : DataPrep.MapState) : list nat :=
  match dget tableId (DataPrep.ms_tables st) with Some l => l | None => [] end.

(** Two states of the mapping run that differ at most in the local
    variable [rowList]. *)
Definition sameTables (st1 st2 : DataPrep.MapState) : Prop :=
  DataPrep.ms_heap st1 = DataPrep.ms_heap st2 /\
  DataPrep.ms_tables st1 = DataPrep.ms_tables st2 /\
  DataPrep.ms_overWrite st1 = DataPrep.ms_overWrite st2.

(** Two results of the mapping run: the same exception, or states that
    differ at most in [rowList]. *)
Definition sameOutcome (r1 r2 : Exc DataPrep.MapState) : Prop :=
  match r1, r2 with
  | Ok a, Ok b => sameTables a b
  | Raise e1, Raise e2 => e1 = e2
  | _, _ => False
  end.

(** The state at the start of a new call of [__mapData]. *)
Definition forgetRowList (st : DataPrep.MapState) : DataPrep.MapState :=
  {| DataPrep.ms_heap := DataPrep.ms_heap st;
     DataPrep.ms_tables := DataPrep.ms_tables st;
     DataPrep.ms_rowList := None;
     DataPrep.ms_overWrite := DataPrep.ms_overWrite st |}.

(* ================================================================= *)
(** * Part II: properties *)
(* ================================================================= *)

Unset Implicit Arguments.

(** ** Equality tests and dictionaries *)

Class EqKeyLaws (K : Type) `{EqKey K} : Prop := {
  keqb_eq : forall x y : K, keqb x y = true <-> x = y
}.

Arguments EqKeyLaws K {_}.

Lemma list_eqb_eq {A : Type} (eqb : A -> A -> bool)
  (Heq : forall x y, eqb x y = true <-> x = y) (l1 l2 : list A) :
  list_eqb eqb l1 l2 = true <-> l1 = l2.
Proof.
  revert l2; induction l1 as [|x r1 IH]; intros [|y r2]; simpl;
    try (split; [discriminate | discriminate]); try tauto.
  rewrite andb_true_iff, Heq, IH. split.
  - intros [-> ->]; reflexivity.
  - intros E; inversion E; auto.
Qed.

Lemma datetime_eqb_eq (a b : DateTime) : datetime_eqb a b = true <-> a = b.
Proof.
  unfold datetime_eqb. destruct a, b; simpl.
  rewrite !andb_true_iff, !Nat.eqb_eq. split.
  - intros [[[[[-> ->] ->] ->] ->] ->]; reflexivity.
  - intros E; inversion E; tauto.
Qed.

Lemma value_eqb_eq (a b : Value) : value_eqb a b = true <-> a = b.
Proof.
  destruct a, b; simpl; try (split; [discriminate | discriminate]); try tauto.
  - rewrite String.eqb_eq. split; [intros -> | intros E; inversion E]; auto.
  - rewrite datetime_eqb_eq. split; [intros -> | intros E; inversion E]; auto.
  - rewrite (list_eqb_eq String.eqb String.eqb_eq).
    split; [intros -> | intros E; inversion E]; auto.
Qed.

#[export] Instance EqKeyLaws_string : EqKeyLaws string.
Proof. constructor. exact String.eqb_eq. Qed.

#[export] Instance EqKeyLaws_Value : EqKeyLaws Value.
Proof. constructor. exact value_eqb_eq. Qed.

#[export] Instance EqKeyLaws_prod {A B : Type} `{EqKeyLaws A} `{EqKeyLaws B} :
  EqKeyLaws (A * B).
Proof.
  constructor. intros [a b] [c d]; simpl.
  rewrite andb_true_iff, !keqb_eq. split.
  - intros [-> ->]; reflexivity.
  - intros E; inversion E; auto.
Qed.

#[export] Instance EqKeyLaws_list {A : Type} `{EqKeyLaws A} : EqKeyLaws (list A).
Proof. constructor. apply list_eqb_eq. apply keqb_eq. Qed.

Section DictFacts.
Context {K V : Type} `{EqKeyLaws K}.

Lemma keqb_refl (k : K) : keqb k k = true.
Proof. apply keqb_eq; reflexivity. Qed.

Lemma keqb_neq (k k' : K) : k <> k' -> keqb k k' = false.
Proof.
  intros Hne. destruct (keqb k k') eqn:E; [|reflexivity].
  apply keqb_eq in E. contradiction.
Qed.

Lemma keqb_false (k k' : K) : keqb k k' = false -> k <> k'.
Proof. intros E ->. rewrite keqb_refl in E. discriminate. Qed.

Lemma dget_dset_eq (k : K) (v : V) (d : dict K V) : dget k (dset k v d) = Some v.
Proof.
  induction d as [|[k' v'] rest IH]; simpl.
  - now rewrite keqb_refl.
  - destruct (keqb k k') eqn:E; simpl; rewrite E; auto.
Qed.

Lemma dget_dset_neq (k k' : K) (v : V) (d : dict K V) :
  k <> k' -> dget k' (dset k v d) = dget k' d.
Proof.
  intros Hne. induction d as [|[k0 v0] rest IH]; simpl.
  - rewrite (keqb_neq k' k); auto.
  - destruct (keqb k k0) eqn:E; simpl.
    + apply keqb_eq in E; subst k0.
      rewrite (keqb_neq k' k); auto.
    + destruct (keqb k' k0); auto.
Qed.

Lemma dget_dset (k k' : K) (v : V) (d : dict K V) :
  dget k' (dset k v d) = if keqb k' k then Some v else dget k' d.
Proof.
  destruct (keqb k' k) eqn:E.
  - apply keqb_eq in E; subst. apply dget_dset_eq.
  - apply dget_dset_neq. intros ->. rewrite keqb_refl in E. discriminate.
Qed.

Lemma dget_Some_In (k : K) (v : V) (d : dict K V) :
  dget k d = Some v -> In (k, v) d.
Proof.
  induction d as [|[k' v'] rest IH]; simpl; [discriminate|].
  destruct (keqb k k') eqn:E.
  - apply keqb_eq in E; subst. intros [= ->]. now left.
  - intros Hg; right; auto.
Qed.

Lemma dget_None_notin (k : K) (d : dict K V) :
  dget k d = None <-> ~ In k (dkeys d).
Proof.
  unfold dkeys. induction d as [|[k' v'] rest IH]; simpl; [tauto|].
  destruct (keqb k k') eqn:E.
  - apply keqb_eq in E; subst. split; [discriminate | intros Hn; exfalso; auto].
  - apply keqb_false in E. rewrite IH. split.
    + intros Hn [He | Hi]; [subst; auto | auto].
    + intros Hn Hi; auto.
Qed.

Lemma In_dget_NoDup (k : K) (v : V) (d : dict K V) :
  NoDup (dkeys d) -> In (k, v) d -> dget k d = Some v.
Proof.
  unfold dkeys. induction d as [|[k' v'] rest IH]; simpl; [tauto|].
  intros Hnd [He | Hi].
  - inversion He; subst. now rewrite keqb_refl.
  - inversion Hnd as [|? ? Hni Hnd']; subst.
    destruct (keqb k k') eqn:E.
    + apply keqb_eq in E; subst. exfalso. apply Hni.
      change k' with (fst (k', v)). now apply in_map.
    + auto.
Qed.

Lemma dkeys_dset (k : K) (v : V) (d : dict K V) :
  dkeys (dset k v d) = if dmem k d then dkeys d else dkeys d ++ [k].
Proof.
  unfold dmem, dkeys. induction d as [|[k' v'] rest IH]; simpl; [reflexivity|].
  destruct (keqb k k') eqn:E; simpl; [reflexivity|].
  rewrite IH. destruct (dget k rest); reflexivity.
Qed.

Lemma dkeys_dset_In (k k' : K) (v : V) (d : dict K V) :
  In k' (dkeys (dset k v d)) <-> k' = k \/ In k' (dkeys d).
Proof.
  rewrite dkeys_dset. unfold dmem. destruct (dget k d) eqn:E.
  - split; [tauto|]. intros [-> | Hi]; auto.
    apply dget_Some_In in E. change k with (fst (k, v0)). now apply in_map.
  - rewrite in_app_iff. simpl. split; [intros [?|[?|[]]]; auto | intros [?|?]; auto].
Qed.

Lemma NoDup_dkeys_dset (k : K) (v : V) (d : dict K V) :
  NoDup (dkeys d) -> NoDup (dkeys (dset k v d)).
Proof.
  intros Hnd. rewrite dkeys_dset. unfold dmem.
  destruct (dget k d) eqn:E; [assumption|].
  apply dget_None_notin in E.
  apply NoDup_rev in Hnd. rewrite <- (rev_involutive (dkeys d ++ [k])).
  apply NoDup_rev. rewrite rev_app_distr. simpl. constructor; [|assumption].
  now rewrite <- in_rev.
Qed.

End DictFacts.

Lemma find_append {A : Type} (f : A -> bool) (l1 l2 : list A) :
  find f (l1 ++ l2) =
  match find f l1 with Some x => Some x | None => find f l2 end.
Proof.
  induction l1 as [|x r IH]; simpl; [reflexivity|].
  destruct (f x); auto.
Qed.

(** Reading a key of a dictionary built by a loop of assignments: the last
    assignment to that key, or the initial content. *)
Lemma dget_fold_dset {A V : Type} (key : A -> string) (val : A -> V)
  (l : list A) (init : dict string V) (n : string) :
  dget n (fold_left (fun rD x => dset (key x) (val x) rD) l init) =
  match find (fun x => String.eqb (key x) n) (rev l) with
  | Some x => Some (val x)
  | None => dget n init
  end.
Proof.
  revert init. induction l as [|x rest IH]; intros init; simpl; [reflexivity|].
  rewrite IH. rewrite find_append.
  destruct (find (fun x0 => String.eqb (key x0) n) (rev rest)); [reflexivity|].
  simpl. rewrite dget_dset. simpl. rewrite String.eqb_sym.
  destruct (String.eqb (key x) n); reflexivity.
Qed.

Lemma fold_left_ext {A B : Type} (f g : A -> B -> A) (l : list B) (a : A) :
  (forall x y, f x y = g x y) -> fold_left f l a = fold_left g l a.
Proof.
  intros Hfg. revert a. induction l as [|y rest IH]; intros a; simpl; [reflexivity|].
  rewrite Hfg. apply IH.
Qed.

Lemma find_sole {A : Type} (p : A -> bool) (l : list A) (x : A) :
  In x l -> p x = true -> (forall y, In y l -> p y = true -> y = x) ->
  find p l = Some x.
Proof.
  induction l as [|y rest IH]; simpl; [tauto|].
  intros Hin Hpx Hsole. destruct (p y) eqn:Epy.
  - f_equal. apply Hsole; auto.
  - destruct Hin as [-> | Hin]; [congruence|]. apply IH; auto.
Qed.

(** ** Cardinality collapse ([rowwise_by_name_with_cardinality]) *)

(** The value chosen for one table by both copies of the reshaping loop. *)
Lemma collapse_choice (unitCard : bool) (rename : Row -> Row) (rows : list Row) :
  collapseRule unitCard rename rows
    (match rows with
     | [iRowD] => if unitCard then SRow (rename iRowD) else SRows (map rename rows)
     | _ => SRows (map rename rows)
     end).
Proof.
  unfold collapseRule.
  destruct rows as [|r0 [|r1 rest]]; [| destruct unitCard |]; simpl.
  - split; [|split]; [split | | right; reflexivity].
    + intros [r Hr]; discriminate.
    + intros [_ Hl]; discriminate.
    + intros r Hr; discriminate.
  - split; [|split]; [split | | left; eauto].
    + auto.
    + eauto.
    + intros r [= <-]. eauto.
  - split; [|split]; [split | | right; reflexivity].
    + intros [r Hr]; discriminate.
    + intros [Hu _]; discriminate.
    + intros r Hr; discriminate.
  - split; [|split]; [split | | right; reflexivity].
    + intros [r Hr]; discriminate.
    + intros [_ Hl]; discriminate.
    + intros r Hr; discriminate.
Qed.

Lemma soleName_find (name : string -> string) (data : DataById)
  (schemaId : string) (rows : list Row) :
  In (schemaId, rows) data -> soleName name data schemaId rows ->
  find (fun kv : string * list Row => String.eqb (name (fst kv)) (name schemaId))
    (rev data) = Some (schemaId, rows).
Proof.
  intros Hin Hsole. apply find_sole.
  - now apply -> in_rev.
  - simpl. apply String.eqb_refl.
  - intros [id' rows'] Hin' Heq. simpl in Heq. apply String.eqb_eq in Heq.
    apply in_rev in Hin'. destruct (Hsole id' rows' Hin' Heq) as [-> ->]. reflexivity.
Qed.

Lemma shapeRowwiseByNameWithCard_lookup (sD : SchemaDefAccess) (data : DataById)
  (schemaId : string) (rows : list Row) :
  In (schemaId, rows) data -> soleName (getSchemaName sD) data schemaId rows ->
  exists v,
    dget (getSchemaName sD schemaId) (ReShape.shapeRowwiseByNameWithCard sD data) = Some v /\
    collapseRule (hasUnitCardinality sD schemaId)
      (ReShape.renameRow (getSchemaObject sD schemaId)) rows v.
Proof.
  intros Hin Hsole. unfold ReShape.shapeRowwiseByNameWithCard.
  rewrite (fold_left_ext _
    (fun rD (kv : string * list Row) =>
       dset (getSchemaName sD (fst kv))
         (match snd kv with
          | [iRowD] =>
              if hasUnitCardinality sD (fst kv)
              then SRow (ReShape.renameRow (getSchemaObject sD (fst kv)) iRowD)
              else SRows (map (ReShape.renameRow (getSchemaObject sD (fst kv))) (snd kv))
          | _ => SRows (map (ReShape.renameRow (getSchemaObject sD (fst kv))) (snd kv))
          end) rD)).
  2:{ intros rD [k [|r0 [|r1 rest]]]; simpl; try reflexivity.
      destruct (hasUnitCardinality sD k); reflexivity. }
  rewrite dget_fold_dset, (soleName_find _ _ _ _ Hin Hsole). simpl.
  eexists; split; [reflexivity|]. apply collapse_choice.
Qed.

Lemma transformTableData_card_lookup (sD : DataPrep.SchemaDef) (data : DataById) (tableId : string) (rows : list Row) :
  In (tableId, rows) data -> soleName (DataPrep.getTableName sD) data tableId rows ->
  exists v,
    dget (DataPrep.getTableName sD tableId)
      (DataPrep.transformTableData sD data "rowwise_by_name_with_cardinality") = Some v /\
    collapseRule (DataPrep.hasUnitCardinality sD tableId)
      (renameKeys (DataPrep.getAttributeName (DataPrep.getTable sD tableId))) rows v.
Proof.
  intros Hin Hsole. unfold DataPrep.transformTableData. simpl.
  rewrite (fold_left_ext _
    (fun rD (kv : string * list Row) =>
       dset (DataPrep.getTableName sD (fst kv))
         (match snd kv with
          | [iRowD] =>
              if DataPrep.hasUnitCardinality sD (fst kv)
              then SRow (renameKeys (DataPrep.getAttributeName (DataPrep.getTable sD (fst kv))) iRowD)
              else SRows (map (renameKeys (DataPrep.getAttributeName (DataPrep.getTable sD (fst kv)))) (snd kv))
          | _ => SRows (map (renameKeys (DataPrep.getAttributeName (DataPrep.getTable sD (fst kv)))) (snd kv))
          end) rD)).
  2:{ intros rD [k [|r0 [|r1 rest]]]; simpl; try reflexivity.
      destruct (DataPrep.hasUnitCardinality sD k); reflexivity. }
  rewrite dget_fold_dset, (soleName_find _ _ _ _ Hin Hsole). simpl.
  eexists; split; [reflexivity|]. apply collapse_choice.
Qed.

(** C9. Reshaping with [rowwise_by_name_with_cardinality], by [applyShape]
    and by the mapper's own [__transformTableData]: the value stored under
    a table's name is the single renamed row object if and only if the
    table is declared unit-cardinality and holds exactly one row; in every
    other case it is the list of the renamed rows.  (The table's name is
    borne by no other table of the record set.) *)
Theorem C9_cardinality_collapse
  (sD : SchemaDefAccess) (pD : DataPrep.SchemaDef) (data : DataById)
  (schemaId : string) (rows : list Row) :
  In (schemaId, rows) data ->
  (soleName (getSchemaName sD) data schemaId rows ->
   exists v,
     dget (getSchemaName sD schemaId)
       (ReShape.applyShape sD data "rowwise_by_name_with_cardinality") = Some v /\
     collapseRule (hasUnitCardinality sD schemaId)
       (ReShape.renameRow (getSchemaObject sD schemaId)) rows v) /\
  (soleName (DataPrep.getTableName pD) data schemaId rows ->
   exists v,
     dget (DataPrep.getTableName pD schemaId)
       (DataPrep.transformTableData pD data "rowwise_by_name_with_cardinality") = Some v /\
     collapseRule (DataPrep.hasUnitCardinality pD schemaId)
       (renameKeys (DataPrep.getAttributeName (DataPrep.getTable pD schemaId))) rows v).
Proof.
  intros Hin. split; intros Hsole.
  - unfold ReShape.applyShape, ReShape.reshapeSchemaData. simpl.
    now apply shapeRowwiseByNameWithCard_lookup.
  - now apply transformTableData_card_lookup.
Qed.

Lemma C9_cardinality_collapse_witness :
  (exists v,
     dget "entry" (ReShape.applyShape Ex.sD Ex.data "rowwise_by_name_with_cardinality")
       = Some v /\
     collapseRule true (ReShape.renameRow (getSchemaObject Ex.sD "ENTRY")) Ex.entryRows v) /\
  (exists v,
     dget "entry"
       (DataPrep.transformTableData Ex.pD Ex.data "rowwise_by_name_with_cardinality")
       = Some v /\
     collapseRule true
       (renameKeys (DataPrep.getAttributeName (DataPrep.getTable Ex.pD "ENTRY")))
       Ex.entryRows v).
Proof.
  assert (Hin : In ("ENTRY", Ex.entryRows) Ex.data) by (simpl; auto).
  assert (Hsole : forall name : string -> string, name = Ex.lower ->
            soleName name Ex.data "ENTRY" Ex.entryRows).
  { intros name -> id' rows' Hi Hname. simpl in Hi.
    destruct Hi as [E | [E | [E | []]]]; inversion E; subst; auto;
      vm_compute in Hname; discriminate. }
  destruct (C9_cardinality_collapse Ex.sD Ex.pD _ _ _ Hin) as [H1 H2].
  split; [apply H1 | apply H2]; apply Hsole; reflexivity.
Defined.

(** ** Reserved document keys *)

Lemma carriesReserved_dset (key text : string) (tables : Doc) :
  carriesReserved key text tables (dset key (SText text) tables).
Proof.
  split.
  - apply dget_dset_eq.
  - intros k Hk. apply dget_dset_neq. congruence.
Qed.

Section DocumentLoops.
Variable parse : string -> option DateTime.
Variable pD : DataPrep.SchemaDef.
Variable readFile : string -> list DataPrep.Container.
Variable excluded : list string.
Variables styleType filterType : string.
Variable selectors : option (list string).

Lemma Forall2_snoc {A B : Type} (P : A -> B -> Prop) (l : list A) (m : list B)
  (x : A) (y : B) :
  Forall2 P l m -> P x y -> Forall2 P (l ++ [x]) (m ++ [y]).
Proof. intros H1 H2. apply Forall2_app; auto. Qed.

Lemma processDocuments_loop (containerList done : list DataPrep.Container)
  (acc : list Doc) (accNames : list string) (ow : DataPrep.OverWrite)
  (docs : list Doc) (names : list string) (ow' : DataPrep.OverWrite) :
  Forall2 (containerDoc parse pD excluded styleType filterType selectors) done acc ->
  foldM (fun acc container =>
    r <- DataPrep.process_ parse pD excluded [container] filterType selectors (snd acc) ;;
    Ok (fst (fst acc) ++
          [dset "__CONTAINER_NAME__" (SText (DataPrep.getName container))
             (DataPrep.transformTableData pD (fst (fst r)) styleType)],
        snd (fst acc) ++ snd (fst r), snd r))
    containerList (acc, accNames, ow) = Ok (docs, names, ow') ->
  Forall2 (containerDoc parse pD excluded styleType filterType selectors) (done ++ containerList) docs.
Proof.
  revert done acc accNames ow.
  induction containerList as [|c rest IH]; intros done acc accNames ow Hdone; simpl.
  - intros [= <- <- <-]. now rewrite app_nil_r.
  - destruct (DataPrep.process_ parse pD excluded [c] filterType selectors ow)
      as [[[tables nm] ow1]|e] eqn:Ep; simpl; [|discriminate].
    intros Hrest.
    replace (done ++ c :: rest) with ((done ++ [c]) ++ rest)
      by (rewrite <- app_assoc; reflexivity).
    eapply IH; [|exact Hrest].
    apply Forall2_snoc; [assumption|].
    exists tables, nm, ow, ow1. split; [exact Ep|]. apply carriesReserved_dset.
Qed.

Lemma fetchDocuments_loop (inputPathList done : list string)
  (acc : list Doc) (accNames : list string) (ow : DataPrep.OverWrite)
  (docs : list Doc) (names : list string) (ow' : DataPrep.OverWrite) :
  Forall2 (pathDoc parse pD readFile excluded styleType filterType selectors) done acc ->
  foldM (fun acc inputPath =>
    r <- DataPrep.fetch_ parse pD readFile excluded [inputPath] filterType selectors
           (snd acc) ;;
    Ok (fst (fst acc) ++
          [dset "__INPUT_PATH__" (SText inputPath)
             (DataPrep.transformTableData pD (fst (fst r)) styleType)],
        snd (fst acc) ++ snd (fst r), snd r))
    inputPathList (acc, accNames, ow) = Ok (docs, names, ow') ->
  Forall2 (pathDoc parse pD readFile excluded styleType filterType selectors) (done ++ inputPathList) docs.
Proof.
  revert done acc accNames ow.
  induction inputPathList as [|c rest IH]; intros done acc accNames ow Hdone; simpl.
  - intros [= <- <- <-]. now rewrite app_nil_r.
  - destruct (DataPrep.fetch_ parse pD readFile excluded [c] filterType selectors ow)
      as [[[tables nm] ow1]|e] eqn:Ep; simpl; [|discriminate].
    intros Hrest.
    replace (done ++ c :: rest) with ((done ++ [c]) ++ rest)
      by (rewrite <- app_assoc; reflexivity).
    eapply IH; [|exact Hrest].
    apply Forall2_snoc; [assumption|].
    exists tables, nm, ow, ow1. split; [exact Ep|]. apply carriesReserved_dset.
Qed.

End DocumentLoops.

(** C10. Whatever the style and the filters, the list returned by
    [processDocuments] holds one document per container, in order, and
    each document has the key [__CONTAINER_NAME__] bound to the container's
    name beside the table keys produced for that container; likewise the
    list returned by [fetchDocuments] holds one document per input path
    with the key [__INPUT_PATH__] bound to that path. *)
Theorem C10_reserved_document_keys
  (parse : string -> option DateTime) (pD : DataPrep.SchemaDef)
  (readFile : string -> list DataPrep.Container) (excluded : list string)
  (styleType filterType : string) (selectors : option (list string))
  (ow : DataPrep.OverWrite) :
  (forall containerList docs names ow',
     DataPrep.processDocuments parse pD excluded containerList styleType filterType
       selectors ow = Ok (docs, names, ow') ->
     Forall2 (containerDoc parse pD excluded styleType filterType selectors)
       containerList docs) /\
  (forall inputPathList docs names ow',
     DataPrep.fetchDocuments parse pD readFile excluded inputPathList styleType
       filterType selectors ow = Ok (docs, names, ow') ->
     Forall2 (pathDoc parse pD readFile excluded styleType filterType selectors)
       inputPathList docs).
Proof.
  split.
  - intros containerList docs names ow' Hrun.
    apply (processDocuments_loop parse pD excluded styleType filterType selectors
             containerList [] [] [] ow docs names ow'); [constructor | exact Hrun].
  - intros inputPathList docs names ow' Hrun.
    apply (fetchDocuments_loop parse pD readFile excluded styleType filterType selectors
             inputPathList [] [] [] ow docs names ow'); [constructor | exact Hrun].
Qed.

Lemma C10_reserved_document_keys_witness :
  (exists docs,
     Forall2 (containerDoc Ex.isoParse Ex.pD [] "rowwise_by_name" "none" None)
       [Ex.container] docs) /\
  (exists docs,
     Forall2 (pathDoc Ex.isoParse Ex.pD Ex.readFile [] "rowwise_by_id" "none" None)
       ["1abc.cif"] docs).
Proof.
  destruct (C10_reserved_document_keys Ex.isoParse Ex.pD Ex.readFile []
              "rowwise_by_name" "none" None []) as [Hp _].
  destruct (C10_reserved_document_keys Ex.isoParse Ex.pD Ex.readFile []
              "rowwise_by_id" "none" None []) as [_ Hf].
  split.
  - eexists. eapply Hp. vm_compute. reflexivity.
  - eexists. eapply Hf. vm_compute. reflexivity.
Defined.

(** ** Closed runs of the code on the example inputs *)

(** C8. With [assign-dates] active, the date attribute of the example
    entry holds the text [see:remark], which is not a date.  The call is
    not fatal, but the value assigned is the text after
    [replace(":", " ", 1)], [see remark], not the raw text. *)
Theorem C8_parse_failure_assigns_replaced_text :
  Ex.isoParse "see remark" = None /\
  DataPrep.assignDateType Ex.isoParse "DATE" "see:remark" = VStr "see remark" /\
  DataPrep.mapInstanceCategory Ex.isoParse Ex.entryDef "entry" Ex.container
    "assign-dates" []
    = Ok ([[("ID", VStr "1ABC"); ("DATE", VStr "see remark")]], []).
Proof. repeat split; vm_compute; reflexivity. Qed.

(** C1. The merge scenario of the specification: category [a] maps A1 and
    A2, category [b] maps A2 and A3, and the two rows share the merge key.
    Without [drop-empty-attributes] the merged row holds the null default
    for A1, the value [p] read from [a] being overwritten by the full
    initial row built for [b]; with [drop-empty-attributes] the row is the
    union of the fields. *)
Theorem C1_merge_overwrites_earlier_fields :
  DataPrep.mapInstanceCategoryList Ex.isoParse Ex.mergedDef ["a"; "b"] Ex.container
    "none"
    = Ok [[("A1", Ex.nullValue); ("A2", VStr "r"); ("A3", VStr "stu")]] /\
  DataPrep.mapInstanceCategoryList Ex.isoParse Ex.mergedDef ["a"; "b"] Ex.container
    "drop-empty-attributes"
    = Ok [[("A1", VStr "p"); ("A2", VStr "r"); ("A3", VStr "stu")]].
Proof. split; vm_compute; reflexivity. Qed.

(** C6. One mapping run over the example container.  The value [polymer]
    of the single-category table ENTITY (width 5) is cut to [polym] and
    its raw length 7 is recorded; the value [stuvwx] of the merged table
    MERGED (width 3) is cut to [stu] but nothing is recorded for it. *)
Theorem C6_merged_overflow_not_recorded :
  DataPrep.process_ Ex.isoParse Ex.pD [] [Ex.container] "none" None []
  = Ok ([("ENTRY", [[("ID", VStr "1ABC"); ("DATE", VStr "see:remark")]]);
         ("ENTITY", [[("ID", VStr "1"); ("TYPE", VStr "polym")];
                     [("ID", VStr "2"); ("TYPE", VStr "water")]]);
         ("MERGED", [[("A1", Ex.nullValue); ("A2", VStr "r"); ("A3", VStr "stu")]])],
        ["1ABC"],
        [(("ENTITY", "TYPE"), 7)]).
Proof. vm_compute. reflexivity. Qed.

(** C5. [applySlicedShape] lets exceptions reach its caller: with the
    one-pass style, [StopIteration] when the record set has no parent row
    and [KeyError] when a child row names a value that is no parent value;
    with any style, [KeyError] from the enumerator when a parent row lacks
    the parent attribute.  Where the per-slice reshaping does catch an
    exception ([rowwise_no_name] on a row lacking an attribute), each
    slice is the input mapping, not an empty result. *)
Theorem C5_sliced_shape_raises :
  ReShape.applySlicedShape Ex.sD Ex.dataNoParent "rowwise_by_name_with_cardinality"
    (Some "ENTITY") = Raise StopIteration /\
  ReShape.applySlicedShape Ex.sD Ex.dataOrphan "rowwise_by_name_with_cardinality"
    (Some "ENTITY") = Raise KeyError /\
  ReShape.applySlicedShape Ex.sD [("ENTITY", [[("TYPE", VStr "water")]])]
    "rowwise_by_name" (Some "ENTITY") = Raise KeyError /\
  ReShape.applySlicedShape Ex.sD Ex.dataNoId "rowwise_no_name" (Some "ENTITY")
    = Ok [asById Ex.dataNoId; asById Ex.dataNoId].
Proof. repeat split; vm_compute; reflexivity. Qed.

(** C4. The slicing example with ENTITY as the slice-extra table: the two
    partitions hold the same list object under [entity], so the
    assignment [part0["entity"][0]["type"] = "changed"] made through
    the first partition also changes what the second partition holds. *)
Theorem C4_slice_extra_copies_are_shared :
  exists (h : ReShape.Heap) (part0 part1 : ReShape.PartRef) (a : nat),
    ReShape.sliceRowwiseByNameWithCardOnePass Ex.sDextra Ex.data "ENTITY" Ex.polyIndex
      = Ok (h, [part0; part1]) /\
    dget "entity" part0 = Some a /\
    dget "entity" part1 = Some a /\
    ReShape.reify h a = SRows (map (ReShape.renameRow (getSchemaObject Ex.sDextra "ENTITY"))
                                 Ex.entityRows) /\
    ReShape.reifyDoc (setFieldOfItem h a 0 "type" (VStr "changed")) part1
      <> ReShape.reifyDoc h part1.
Proof.
  eexists _, _, _, _. split; [vm_compute; reflexivity|].
  repeat split; try (vm_compute; reflexivity).
  vm_compute. discriminate.
Qed.

(** ** The slice value enumerator *)

Lemma testFilter_takesPart (rowD : Row) (catId : string) (filters : list ParentFilter) :
  ReShape.testFilter rowD catId filters = takesPart rowD catId filters.
Proof.
  induction filters as [|f rest IH]; simpl; [reflexivity|].
  unfold satisfiesFilter at 1.
  destruct (String.eqb catId (pf_category f)); simpl; [|reflexivity].
  destruct (dget (pf_attribute f) rowD) as [v|]; [|reflexivity].
  destruct (existsb (value_eqb v) (pf_values f)); simpl; auto.
Qed.

Lemma In_product {A : Type} (ls : list (list A)) (t : list A) :
  In t (ReShape.product ls) <-> Forall2 (fun x l => In x l) t ls.
Proof.
  revert t. induction ls as [|l rest IH]; intros t; simpl.
  - split.
    + intros [<- | []]. constructor.
    + intros Hf. inversion Hf. now left.
  - rewrite in_flat_map. split.
    + intros [x [Hx Ht]]. apply in_map_iff in Ht. destruct Ht as [t' [<- Ht']].
      constructor; [assumption|]. now apply IH.
    + intros Hf. inversion Hf as [|x l' t' rest' Hx Hrest]; subst.
      exists x. split; [assumption|]. apply in_map. now apply IH.
Qed.

Lemma length_product {A : Type} (ls : list (list A)) :
  length (ReShape.product ls) = fold_right (fun l n => length l * n) 1 ls.
Proof.
  induction ls as [|l rest IH]; simpl; [reflexivity|].
  rewrite <- IH. induction l as [|x l' IHl]; simpl; [reflexivity|].
  rewrite length_app, length_map, IHl. reflexivity.
Qed.

Lemma parentVals_complete (catId atId : string) (filters : list ParentFilter)
  (rows : list Row) :
  (forall rowD, In rowD rows -> takesPart rowD catId filters = true ->
                dmem atId rowD = true) ->
  ReShape.parentVals catId atId filters rows =
  Ok (flat_map (fun rowD => match dget atId rowD with
                            | Some v => [((catId, atId), v)]
                            | None => []
                            end)
        (filter (fun rowD => takesPart rowD catId filters) rows)).
Proof.
  induction rows as [|rowD rest IH]; intros Hc; simpl; [reflexivity|].
  rewrite testFilter_takesPart.
  destruct (takesPart rowD catId filters) eqn:Et.
  - assert (Hm : dmem atId rowD = true) by (apply Hc; simpl; auto).
    unfold dmem in Hm. unfold dindex. simpl.
    destruct (dget atId rowD) as [v|]; [|discriminate]. simpl.
    rewrite IH by (intros r Hr; apply Hc; simpl; auto). reflexivity.
  - apply IH. intros r Hr; apply Hc; simpl; auto.
Qed.

Lemma dset_fresh {K V : Type} `{EqKeyLaws K} (k : K) (v : V) (d : dict K V) :
  ~ In k (dkeys d) -> dset k v d = d ++ [(k, v)].
Proof.
  unfold dkeys. induction d as [|[k' v'] rest IH]; simpl; intros Hn; [reflexivity|].
  rewrite keqb_neq by (intros ->; apply Hn; auto).
  rewrite IH by (intros Hi; apply Hn; auto). reflexivity.
Qed.

Lemma parentValueDict_complete (data : DataById) (filters : list ParentFilter)
  (items : list PItem) (vD : dict PItem (list PVal)) :
  NoDup (dkeys vD ++ items) ->
  parentRowsComplete data filters items ->
  ReShape.parentValueDict data filters items vD =
  Ok (vD ++ map (fun item => (item, parentValuesOf data filters item)) items).
Proof.
  revert vD. induction items as [|[catId atId] rest IH]; intros vD Hnd Hc; simpl.
  - now rewrite app_nil_r.
  - assert (Hvals :
      match dget catId data with
      | Some rows => ReShape.parentVals catId atId filters rows
      | None => Ok []
      end = Ok (parentValuesOf data filters (catId, atId))).
    { unfold parentValuesOf. simpl. destruct (dget catId data) as [rows|] eqn:Ed;
        [|reflexivity].
      apply parentVals_complete. intros rowD Hin Ht.
      apply (Hc (catId, atId) rows rowD); simpl; auto. }
    rewrite Hvals. simpl.
    assert (Hfresh : ~ In (catId, atId) (dkeys vD)).
    { intros Hi. apply NoDup_remove_2 in Hnd. apply Hnd. apply in_or_app. now left. }
    rewrite (dset_fresh _ _ _ Hfresh).
    rewrite IH.
    + rewrite <- app_assoc. reflexivity.
    + unfold dkeys in *. rewrite map_app. simpl. rewrite <- app_assoc. exact Hnd.
    + intros item rows rowD Hi. apply Hc. simpl; auto.
Qed.

(** C7 (amended). For a slice filter whose parent items are pairwise
    distinct, and a record set in which every participating parent row
    carries the parent attribute, the enumerator returns the cartesian
    product, in declared parent-item order, of the per-item value lists;
    the list of an item holds one entry per row of the parent category
    that satisfies every parent filter, in row order, so a value carried
    by several rows is enumerated several times.  A tuple is enumerated
    exactly when its components are, item by item, such entries. *)
Theorem C7_slice_values_product (sD : SchemaDefAccess) (data : DataById)
  (sliceFilter : string) :
  let items := getSliceParentItems sD sliceFilter in
  let filters := getSliceParentFilters sD sliceFilter in
  NoDup items ->
  parentRowsComplete data filters items ->
  ReShape.SliceValues sD data sliceFilter
    = Ok (ReShape.product (map (parentValuesOf data filters) items)) /\
  (forall t, In t (ReShape.product (map (parentValuesOf data filters) items)) <->
             Forall2 (fun pv item => In pv (parentValuesOf data filters item)) t items) /\
  length (ReShape.product (map (parentValuesOf data filters) items))
    = fold_right (fun item n => length (parentValuesOf data filters item) * n) 1 items.
Proof.
  intros items filters Hnd Hc. split; [|split].
  - unfold ReShape.SliceValues. fold items filters.
    rewrite (parentValueDict_complete data filters items []) by (simpl; auto).
    simpl. unfold dvalues. rewrite map_map. simpl. reflexivity.
  - intros t. rewrite In_product. clear.
    revert t. induction items as [|item rest IH]; intros t; simpl.
    + split; intros Hf; inversion Hf; constructor.
    + split; intros Hf; inversion Hf; subst; constructor; auto; now apply IH.
  - rewrite length_product. clear. induction items as [|item rest IH]; simpl; auto.
Qed.

Lemma C7_slice_values_product_witness :
  ReShape.SliceValues Ex.sD Ex.data "ENTITY"
    = Ok [[(Ex.entityId, VStr "1")]; [(Ex.entityId, VStr "2")]] /\
  ReShape.SliceValues Ex.sDtwoItems Ex.dataThree "ENTITY"
    = Ok [[(Ex.entityId, VStr "1"); (("ENTITY", "TYPE"), VStr "polymer")];
          [(Ex.entityId, VStr "1"); (("ENTITY", "TYPE"), VStr "polymer")];
          [(Ex.entityId, VStr "3"); (("ENTITY", "TYPE"), VStr "polymer")];
          [(Ex.entityId, VStr "3"); (("ENTITY", "TYPE"), VStr "polymer")]].
Proof.
  split.
  - destruct (C7_slice_values_product Ex.sD Ex.data "ENTITY") as [Heq _].
    + simpl. repeat constructor; simpl; tauto.
    + intros item rows rowD Hi Hd Hr _. simpl in Hi. destruct Hi as [<- | []].
      vm_compute in Hd. injection Hd as <-.
      simpl in Hr. destruct Hr as [<- | [<- | []]]; reflexivity.
    + exact Heq.
  - destruct (C7_slice_values_product Ex.sDtwoItems Ex.dataThree "ENTITY") as [Heq _].
    + simpl. constructor; [intros [H | []]; discriminate H|].
      constructor; [intros []|constructor].
    + intros item rows rowD Hi Hd Hr _. simpl in Hi.
      destruct Hi as [<- | [<- | []]]; vm_compute in Hd; injection Hd as <-;
        simpl in Hr; destruct Hr as [<- | [<- | [<- | []]]]; reflexivity.
    + exact Heq.
Defined.

(** C7, as stated, fails: two parent rows with the same identifier yield
    the same tuple twice, so the enumerated tuples are not distinct. *)
Lemma C7_counterexample_repeated_tuple :
  exists tuples,
    ReShape.SliceValues Ex.sD Ex.dataTwice "ENTITY" = Ok tuples /\ ~ NoDup tuples.
Proof.
  eexists. split; [vm_compute; reflexivity|].
  intros Hnd. inversion Hnd as [|x l Hni _]; subst. apply Hni. simpl; auto.
Qed.

(** ** The object store of the one-pass partitioner *)

Section DictMore.
Context {K V : Type} `{EqKeyLaws K}.

Lemma In_dset (k k' : K) (v v' : V) (d : dict K V) :
  In (k', v') (dset k v d) -> (k', v') = (k, v) \/ In (k', v') d.
Proof.
  induction d as [|[k0 v0] rest IH]; simpl.
  - intros [E | []]. left; congruence.
  - destruct (keqb k k0) eqn:Ek.
    + apply keqb_eq in Ek; subst k0. intros [E | Hi]; [left; congruence | right; auto].
    + intros [E | Hi]; [right; left; exact E|].
      destruct (IH Hi); auto.
Qed.

Lemma dget_In_NoDup_eq (k : K) (v v' : V) (d : dict K V) :
  NoDup (dkeys d) -> dget k d = Some v -> In (k, v') d -> v' = v.
Proof.
  intros Hnd Hg Hi. apply (In_dget_NoDup _ _ _ Hnd) in Hi. congruence.
Qed.

Lemma map_values_dset {W : Type} (f : V -> W) (k : K) (v : V) (d : dict K V) :
  map (fun kv => (fst kv, f (snd kv))) (dset k v d) =
  dset k (f v) (map (fun kv => (fst kv, f (snd kv))) d).
Proof.
  induction d as [|[k0 v0] rest IH]; simpl; [reflexivity|].
  destruct (keqb k k0); simpl; [reflexivity|]. now rewrite IH.
Qed.

Lemma dget_map_values {W : Type} (f : V -> W) (k : K) (d : dict K V) :
  dget k (map (fun kv => (fst kv, f (snd kv))) d) = option_map f (dget k d).
Proof.
  induction d as [|[k0 v0] rest IH]; simpl; [reflexivity|].
  destruct (keqb k k0); simpl; auto.
Qed.

Lemma dkeys_map_values {W : Type} (f : V -> W) (d : dict K V) :
  dkeys (map (fun kv => (fst kv, f (snd kv))) d) = dkeys d.
Proof. unfold dkeys. rewrite map_map. reflexivity. Qed.

(** Changing the reading of one entry only is an assignment to its key. *)
Lemma map_values_change {W : Type} (f f' : V -> W) (k : K) (v : V) (d : dict K V) :
  NoDup (dkeys d) ->
  dget k d = Some v ->
  (forall k' v', In (k', v') d -> k' <> k -> f' v' = f v') ->
  map (fun kv => (fst kv, f' (snd kv))) d =
  dset k (f' v) (map (fun kv => (fst kv, f (snd kv))) d).
Proof.
  unfold dkeys.
  induction d as [|[k0 v0] rest IH]; simpl; [discriminate|].
  intros Hnd Hg Hother. inversion Hnd as [|? ? Hni Hnd']; subst.
  destruct (keqb k k0) eqn:Ek.
  - apply keqb_eq in Ek; subst k0. injection Hg as ->. f_equal.
    apply map_ext_in. intros [k1 v1] Hi. simpl. f_equal.
    apply (Hother k1 v1); [right; exact Hi|].
    intros ->. apply Hni. change k with (fst (k, v1)). now apply in_map.
  - f_equal.
    + f_equal. apply (Hother k0 v0); [left; reflexivity|].
      intros ->. rewrite keqb_refl in Ek. discriminate.
    + apply IH; [exact Hnd' | exact Hg |].
      intros k' v' Hi Hne. apply (Hother k' v'); [right; exact Hi | exact Hne].
Qed.

End DictMore.

Lemma nth_error_heapSet (h : ReShape.Heap) (a b : nat) (o : ReShape.Obj) :
  nth_error (ReShape.heapSet h a o) b =
  if Nat.eqb a b then match nth_error h b with Some _ => Some o | None => None end
  else nth_error h b.
Proof.
  revert a b. induction h as [|x rest IH]; intros a b; simpl.
  - destruct b; simpl; destruct (Nat.eqb a _); reflexivity.
  - destruct a, b; simpl; try reflexivity. apply IH.
Qed.

Lemma length_heapSet (h : ReShape.Heap) (a : nat) (o : ReShape.Obj) :
  length (ReShape.heapSet h a o) = length h.
Proof.
  revert a. induction h as [|x rest IH]; intros a; simpl; [reflexivity|].
  destruct a; simpl; auto.
Qed.

(** Reading rows depends only on which addresses hold which row. *)
Lemma derefRows_ext (h h' : ReShape.Heap) (refs : list nat) :
  (forall a, In a refs ->
     match nth_error h' a with Some (ReShape.ORow r) => Some r | _ => None end =
     match nth_error h a with Some (ReShape.ORow r) => Some r | _ => None end) ->
  ReShape.derefRows h' refs = ReShape.derefRows h refs.
Proof.
  unfold ReShape.derefRows. induction refs as [|a rest IH]; intros Hx; simpl; [reflexivity|].
  rewrite IH by (intros b Hb; apply Hx; right; exact Hb). f_equal.
  specialize (Hx a (or_introl eq_refl)).
  destruct (nth_error h' a) as [[r'|l']|], (nth_error h a) as [[r|l]|];
    try reflexivity; try discriminate. now injection Hx as ->.
Qed.

Lemma derefRows_app (h : ReShape.Heap) (refs refs' : list nat) :
  ReShape.derefRows h (refs ++ refs') = ReShape.derefRows h refs ++ ReShape.derefRows h refs'.
Proof. unfold ReShape.derefRows. apply flat_map_app. Qed.

Lemma reify_alloc (h : ReShape.Heap) (o : ReShape.Obj) (a : nat) :
  a < length h ->
  (forall refs, nth_error h a = Some (ReShape.OList refs) ->
                Forall (fun r => r < length h) refs) ->
  ReShape.reify (h ++ [o]) a = ReShape.reify h a.
Proof.
  intros Ha Hin. unfold ReShape.reify. rewrite nth_error_app1 by exact Ha.
  destruct (nth_error h a) as [[r|refs]|] eqn:E; try reflexivity.
  f_equal. apply derefRows_ext. intros b Hb.
  specialize (Hin refs eq_refl). rewrite Forall_forall in Hin.
  rewrite nth_error_app1 by (apply Hin; exact Hb). reflexivity.
Qed.

Lemma reify_heapSet_other (h : ReShape.Heap) (l a : nat) (refs refs' : list nat) :
  nth_error h l = Some (ReShape.OList refs) -> a <> l ->
  ReShape.reify (ReShape.heapSet h l (ReShape.OList refs')) a = ReShape.reify h a.
Proof.
  intros Hl Hne. unfold ReShape.reify. rewrite nth_error_heapSet.
  destruct (Nat.eqb l a) eqn:E; [apply Nat.eqb_eq in E; congruence|].
  destruct (nth_error h a) as [[r|rs]|]; try reflexivity.
  f_equal. apply derefRows_ext. intros b _. rewrite nth_error_heapSet.
  destruct (Nat.eqb l b) eqn:Eb; [|reflexivity].
  apply Nat.eqb_eq in Eb; subst b. rewrite Hl. reflexivity.
Qed.

Lemma reify_heapSet_append (h : ReShape.Heap) (l rowRef : nat) (refs : list nat)
  (r : Row) :
  nth_error h l = Some (ReShape.OList refs) ->
  nth_error h rowRef = Some (ReShape.ORow r) ->
  ReShape.reify (ReShape.heapSet h l (ReShape.OList (refs ++ [rowRef]))) l =
  SRows (ReShape.derefRows h refs ++ [r]).
Proof.
  intros Hl Hr. unfold ReShape.reify. rewrite nth_error_heapSet, Nat.eqb_refl, Hl.
  f_equal. rewrite derefRows_app. f_equal.
  - apply derefRows_ext. intros b _. rewrite nth_error_heapSet.
    destruct (Nat.eqb l b) eqn:Eb; [|reflexivity].
    apply Nat.eqb_eq in Eb; subst b. rewrite Hl. reflexivity.
  - unfold ReShape.derefRows. simpl. rewrite nth_error_heapSet.
    destruct (Nat.eqb l rowRef) eqn:Eb.
    + apply Nat.eqb_eq in Eb; subst. congruence.
    + rewrite Hr. reflexivity.
Qed.

Lemma Inv_alloc (E : list string) (h : ReShape.Heap) (retD : ReShape.RetD)
  (o : ReShape.Obj) :
  Inv E h retD ->
  (forall refs, o = ReShape.OList refs -> Forall (fun r => r < S (length h)) refs) ->
  Inv E (h ++ [o]) retD.
Proof.
  intros [Hk Hpk Hr Hi Ho] Hnew. constructor; auto.
  - intros v p n a Hv Hn. rewrite length_app. simpl. specialize (Hr v p n a Hv Hn). lia.
  - intros a refs Ha. rewrite length_app. simpl.
    destruct (Nat.lt_ge_cases a (length h)) as [Hlt | Hge].
    + rewrite nth_error_app1 in Ha by exact Hlt.
      eapply Forall_impl; [|exact (Hi a refs Ha)]. simpl. intros; lia.
    + rewrite nth_error_app2 in Ha by exact Hge.
      destruct (a - length h) as [|k] eqn:Ek; simpl in Ha.
      * injection Ha as ->. eapply Forall_impl; [|exact (Hnew refs eq_refl)].
        simpl. intros; lia.
      * destruct k; discriminate.
  - intros v p n a refs v' p' n' Hv Hn HnE Ha Hv' Hn'.
    assert (Hlt : a < length h) by (eapply Hr; eauto).
    rewrite nth_error_app1 in Ha by exact Hlt. eapply Ho; eauto.
Qed.

Lemma Inv_assign (E : list string) (h : ReShape.Heap) (retD : ReShape.RetD)
  (rv : Value) (part : ReShape.PartRef) (name : string) (x : nat) :
  Inv E h retD ->
  dget rv retD = Some part ->
  x < length h ->
  (forall v p n refs, In (v, p) retD -> In (n, x) p ->
                      nth_error h x = Some (ReShape.OList refs) -> False) ->
  Inv E h (dset rv (dset name x part) retD).
Proof.
  intros [Hk Hpk Hr Hi Ho] Hg Hx Hfresh.
  assert (Hpart : In (rv, part) retD) by (apply dget_Some_In; exact Hg).
  assert (Hcase : forall v p n a, In (v, p) (dset rv (dset name x part) retD) ->
            In (n, a) p ->
            (v = rv /\ n = name /\ a = x) \/ (exists p0, In (v, p0) retD /\ In (n, a) p0)).
  { intros v p n a Hv Hn. destruct (In_dset _ _ _ _ _ Hv) as [E1 | Hold].
    - injection E1 as -> ->. destruct (In_dset _ _ _ _ _ Hn) as [E2 | Hold2].
      + injection E2 as -> ->. left; auto.
      + right. exists part; auto.
    - right. exists p; auto. }
  constructor.
  - now apply NoDup_dkeys_dset.
  - intros v p Hv. destruct (In_dset _ _ _ _ _ Hv) as [E1 | Hold].
    + injection E1 as -> ->. apply NoDup_dkeys_dset. eapply Hpk; eauto.
    + eapply Hpk; eauto.
  - intros v p n a Hv Hn. destruct (Hcase v p n a Hv Hn) as [[_ [_ ->]] | [p0 [H1 H2]]];
      [exact Hx | eapply Hr; eauto].
  - exact Hi.
  - intros v p n a refs v' p' n' Hv Hn HnE Ha Hv' Hn'.
    destruct (Hcase v p n a Hv Hn) as [[Ev [En Ea]] | [p0 [H1 H2]]];
      destruct (Hcase v' p' n' a Hv' Hn') as [[Ev' [En' Ea']] | [p1 [H3 H4]]].
    + subst; auto.
    + exfalso. subst a. eapply Hfresh; eauto.
    + exfalso. subst a. eapply Hfresh; eauto.
    + eapply Ho; eauto.
Qed.

Lemma Inv_append (E : list string) (h : ReShape.Heap) (retD : ReShape.RetD)
  (l rowRef : nat) (refs : list nat) :
  Inv E h retD ->
  nth_error h l = Some (ReShape.OList refs) -> rowRef < length h ->
  Inv E (ReShape.heapSet h l (ReShape.OList (refs ++ [rowRef]))) retD.
Proof.
  intros [Hk Hpk Hr Hi Ho] Hl Hrow. constructor; auto.
  - intros v p n a Hv Hn. rewrite length_heapSet. eapply Hr; eauto.
  - intros a refs' Ha. rewrite length_heapSet. rewrite nth_error_heapSet in Ha.
    destruct (Nat.eqb l a) eqn:El.
    + apply Nat.eqb_eq in El; subst a. rewrite Hl in Ha. injection Ha as <-.
      apply Forall_app. split; [eapply Hi; eauto | constructor; auto].
    + eapply Hi; eauto.
  - intros v p n a refs' v' p' n' Hv Hn HnE Ha Hv' Hn'.
    rewrite nth_error_heapSet in Ha. destruct (Nat.eqb l a) eqn:El.
    + apply Nat.eqb_eq in El; subst a. eapply Ho; eauto.
    + eapply Ho; eauto.
Qed.

Lemma viewRet_alloc (E : list string) (h : ReShape.Heap) (retD : ReShape.RetD)
  (o : ReShape.Obj) :
  Inv E h retD -> ReShape.viewRet (h ++ [o]) retD = ReShape.viewRet h retD.
Proof.
  intros [Hk Hpk Hr Hi Ho]. unfold ReShape.viewRet.
  apply map_ext_in. intros [v p] Hv. simpl. f_equal.
  unfold ReShape.reifyDoc. apply map_ext_in. intros [n a] Hn. simpl. f_equal.
  apply reify_alloc; [eapply Hr; eauto | intros refs; apply Hi].
Qed.

Lemma reifyDoc_alloc (E : list string) (h : ReShape.Heap) (retD : ReShape.RetD)
  (o : ReShape.Obj) (v : Value) (p : ReShape.PartRef) :
  Inv E h retD -> In (v, p) retD ->
  ReShape.reifyDoc (h ++ [o]) p = ReShape.reifyDoc h p.
Proof.
  intros [Hk Hpk Hr Hi Ho] Hv.
  unfold ReShape.reifyDoc. apply map_ext_in. intros [n a] Hn. simpl. f_equal.
  apply reify_alloc; [eapply Hr; eauto | intros refs; apply Hi].
Qed.

Lemma viewRet_dset (h : ReShape.Heap) (retD : ReShape.RetD) (rv : Value)
  (p : ReShape.PartRef) :
  ReShape.viewRet h (dset rv p retD) = dset rv (ReShape.reifyDoc h p) (ReShape.viewRet h retD).
Proof. unfold ReShape.viewRet. apply (map_values_dset (ReShape.reifyDoc h)). Qed.

Lemma reifyDoc_dset (h : ReShape.Heap) (p : ReShape.PartRef) (name : string) (a : nat) :
  ReShape.reifyDoc h (dset name a p) = dset name (ReShape.reify h a) (ReShape.reifyDoc h p).
Proof. unfold ReShape.reifyDoc. apply (map_values_dset (ReShape.reify h)). Qed.

Lemma dget_viewRet (h : ReShape.Heap) (retD : ReShape.RetD) (rv : Value) :
  dget rv (ReShape.viewRet h retD) = option_map (ReShape.reifyDoc h) (dget rv retD).
Proof. unfold ReShape.viewRet. apply (dget_map_values (ReShape.reifyDoc h)). Qed.

Lemma dget_reifyDoc (h : ReShape.Heap) (p : ReShape.PartRef) (name : string) :
  dget name (ReShape.reifyDoc h p) = option_map (ReShape.reify h) (dget name p).
Proof. unfold ReShape.reifyDoc. apply (dget_map_values (ReShape.reify h)). Qed.

(** Appending to a list object that one entry owns changes that entry only. *)
Lemma viewRet_append (E : list string) (h : ReShape.Heap) (retD : ReShape.RetD)
  (rv : Value) (part : ReShape.PartRef) (name : string) (l rowRef : nat)
  (refs : list nat) (r : Row) :
  Inv E h retD -> ~ In name E ->
  dget rv retD = Some part -> dget name part = Some l ->
  nth_error h l = Some (ReShape.OList refs) ->
  nth_error h rowRef = Some (ReShape.ORow r) ->
  ReShape.viewRet (ReShape.heapSet h l (ReShape.OList (refs ++ [rowRef]))) retD =
  dset rv (dset name (SRows (ReShape.derefRows h refs ++ [r])) (ReShape.reifyDoc h part))
    (ReShape.viewRet h retD).
Proof.
  intros HI HnE Hrv Hname Hl Hrow.
  pose proof HI as [Hk Hpk Hr Hi Ho].
  assert (Hpart : In (rv, part) retD) by (apply dget_Some_In; exact Hrv).
  assert (Hent : In (name, l) part) by (apply dget_Some_In; exact Hname).
  set (h' := ReShape.heapSet h l (ReShape.OList (refs ++ [rowRef]))).
  unfold ReShape.viewRet.
  rewrite (map_values_change (ReShape.reifyDoc h) (ReShape.reifyDoc h') rv part retD Hk Hrv).
  - f_equal. unfold ReShape.reifyDoc.
    rewrite (map_values_change (ReShape.reify h) (ReShape.reify h') name l part
               (Hpk rv part Hpart) Hname).
    + f_equal. unfold h'. now apply reify_heapSet_append.
    + intros n' a' Hn' Hne. unfold h'. eapply reify_heapSet_other; [exact Hl|].
      intros ->. destruct (Ho rv part name l refs rv part n' Hpart Hent HnE Hl Hpart Hn').
      congruence.
  - intros v' p' Hv' Hne. unfold ReShape.reifyDoc. apply map_ext_in.
    intros [n' a'] Hn'. simpl. f_equal. unfold h'.
    eapply reify_heapSet_other; [exact Hl|].
    intros ->. destruct (Ho rv part name l refs v' p' n' Hpart Hent HnE Hl Hv' Hn').
    congruence.
Qed.

Lemma placeRow_sim (E : list string) (name : string) (uFlag : bool) (rowRef : nat)
  (r : Row) (h : ReShape.Heap) (retD : ReShape.RetD) (rv : Value) :
  Inv E h retD -> ~ In name E -> nth_error h rowRef = Some (ReShape.ORow r) ->
  simulates (A:=unit) E (ReShape.placeRow name uFlag rowRef (h, retD) rv)
    (ReShape.placeRowV name uFlag r (ReShape.viewRet h retD) rv)
    (fun h' => nth_error h' rowRef = Some (ReShape.ORow r)).
Proof.
  intros HI HnE Hrow. unfold simulates, ReShape.placeRow, ReShape.placeRowV.
  destruct (truthy rv); [|simpl; auto].
  unfold dindex. rewrite dget_viewRet. simpl.
  destruct (dget rv retD) as [part|] eqn:Hrv; simpl; [|reflexivity].
  assert (Hlt : rowRef < length h) by (apply nth_error_Some; congruence).
  assert (Hpart : In (rv, part) retD) by (apply dget_Some_In; exact Hrv).
  unfold ReShape.placeInDoc.
  destruct uFlag; simpl.
  - split; [|split; [exact Hrow|]].
    + apply Inv_assign; auto. intros v p n refs _ _ Hl. congruence.
    + rewrite viewRet_dset, reifyDoc_dset. unfold ReShape.reify at 1. rewrite Hrow.
      reflexivity.
  - rewrite dget_reifyDoc.
    destruct (dget name part) as [l|] eqn:Hname; simpl.
    + assert (Hent : In (name, l) part) by (apply dget_Some_In; exact Hname).
      assert (Hl : l < length h) by (eapply (inv_refs E h retD HI); eauto).
      unfold ReShape.reify.
      destruct (nth_error h l) as [[r0|refs]|] eqn:El; simpl.
      * reflexivity.
      * split; [|split].
        -- eapply Inv_append; eauto.
        -- rewrite nth_error_heapSet. destruct (Nat.eqb l rowRef) eqn:Eb.
           ++ apply Nat.eqb_eq in Eb. subst. congruence.
           ++ exact Hrow.
        -- f_equal. symmetry. eapply viewRet_append; eauto.
      * apply nth_error_None in El. lia.
    + split; [|split].
      * apply Inv_assign.
        -- apply Inv_alloc; auto. intros refs [= <-]. constructor; [lia | constructor].
        -- exact Hrv.
        -- rewrite length_app. simpl. lia.
        -- intros v p n refs Hv Hn _.
           pose proof (inv_refs E h retD HI v p n (length h) Hv Hn). lia.
      * rewrite nth_error_app1 by exact Hlt. exact Hrow.
      * rewrite viewRet_dset, reifyDoc_dset.
        rewrite (viewRet_alloc E h retD _ HI), (reifyDoc_alloc E h retD _ rv part HI Hpart).
        f_equal. f_equal. f_equal.
        unfold ReShape.reify. rewrite nth_error_app2 by lia.
        rewrite Nat.sub_diag. simpl. unfold ReShape.derefRows. simpl.
        rewrite nth_error_app1 by exact Hlt. rewrite Hrow. reflexivity.
Qed.

Lemma placeRows_sim (E : list string) (name : string) (uFlag : bool) (rowRef : nat)
  (r : Row) (rvS : list Value) (h : ReShape.Heap) (retD : ReShape.RetD) :
  Inv E h retD -> ~ In name E -> nth_error h rowRef = Some (ReShape.ORow r) ->
  simulates (A:=unit) E (foldM (ReShape.placeRow name uFlag rowRef) rvS (h, retD))
    (foldM (ReShape.placeRowV name uFlag r) rvS (ReShape.viewRet h retD))
    (fun h' => True).
Proof.
  revert h retD. induction rvS as [|rv rest IH]; intros h retD HI HnE Hrow; simpl.
  - unfold simulates. simpl. auto.
  - pose proof (placeRow_sim E name uFlag rowRef r h retD rv HI HnE Hrow) as Hs.
    unfold simulates in Hs.
    destruct (ReShape.placeRow name uFlag rowRef (h, retD) rv) as [[h1 retD1]|e]; simpl in *.
    + destruct Hs as [HI1 [Hrow1 ->]]. simpl. apply IH; auto.
    + rewrite Hs. reflexivity.
Qed.

Lemma sliceRow_sim (E : list string) (schemaObj : SchemaObject) (name : string)
  (uFlag : bool) (atL : list string) (h : ReShape.Heap) (retD : ReShape.RetD)
  (iRowD : Row) :
  Inv E h retD -> ~ In name E ->
  simulates (A:=unit) E (ReShape.sliceRow schemaObj name uFlag atL (h, retD) iRowD)
    (ReShape.sliceRowV schemaObj name uFlag atL (ReShape.viewRet h retD) iRowD)
    (fun h' => True).
Proof.
  intros HI HnE. unfold ReShape.sliceRow, ReShape.sliceRowV, ReShape.childValues. simpl.
  destruct (ReShape.pySet _) as [rvS|e]; simpl; [|reflexivity].
  rewrite <- (viewRet_alloc E h retD (ReShape.ORow (ReShape.renameRow schemaObj iRowD)) HI).
  apply placeRows_sim; auto.
  - apply Inv_alloc; auto. intros refs [=].
  - rewrite nth_error_app2 by lia. rewrite Nat.sub_diag. reflexivity.
Qed.

Lemma foldM_sim {A : Type} (E : list string)
  (step : ReShape.Heap * ReShape.RetD -> A -> Exc (ReShape.Heap * ReShape.RetD))
  (stepV : ReShape.RetV -> A -> Exc ReShape.RetV) (l : list A) :
  (forall x h retD, In x l -> Inv E h retD ->
     simulates (A:=unit) E (step (h, retD) x) (stepV (ReShape.viewRet h retD) x)
       (fun _ => True)) ->
  forall h retD, Inv E h retD ->
    simulates (A:=unit) E (foldM step l (h, retD)) (foldM stepV l (ReShape.viewRet h retD))
      (fun _ => True).
Proof.
  induction l as [|x rest IH]; intros Hstep h retD HI; simpl.
  - unfold simulates. simpl. auto.
  - pose proof (Hstep x h retD (or_introl eq_refl) HI) as Hs. unfold simulates in Hs.
    destruct (step (h, retD) x) as [[h1 retD1]|e]; simpl in *.
    + destruct Hs as [HI1 [_ ->]]. simpl. apply IH; [|exact HI1].
      intros y h' retD' Hy. apply Hstep. right; exact Hy.
    + rewrite Hs. reflexivity.
Qed.

Lemma sliceTable_sim (sD : SchemaDefAccess) (E : list string) (data : DataById)
  (sliceFilter : string) (entry : string * list string) (h : ReShape.Heap)
  (retD : ReShape.RetD) :
  Inv E h retD -> ~ In (getSchemaName sD (fst entry)) E ->
  simulates (A:=unit) E (ReShape.sliceTable sD data sliceFilter (h, retD) entry)
    (ReShape.sliceTableV sD data sliceFilter (ReShape.viewRet h retD) entry)
    (fun _ => True).
Proof.
  intros HI HnE. unfold ReShape.sliceTable, ReShape.sliceTableV.
  destruct (dindex (fst entry) data) as [rows|e]; simpl; [|reflexivity].
  apply (foldM_sim E); auto.
  intros x h' retD' _ HI'. apply sliceRow_sim; auto.
Qed.

(** *** The replication loop *)

Lemma reify_extend (h ext : ReShape.Heap) (a : nat) :
  a < length h ->
  (forall refs, nth_error h a = Some (ReShape.OList refs) ->
                Forall (fun r => r < length h) refs) ->
  ReShape.reify (h ++ ext) a = ReShape.reify h a.
Proof.
  intros Ha Hin. unfold ReShape.reify. rewrite nth_error_app1 by exact Ha.
  destruct (nth_error h a) as [[r|refs]|] eqn:E; try reflexivity.
  f_equal. apply derefRows_ext. intros b Hb.
  specialize (Hin refs eq_refl). rewrite Forall_forall in Hin.
  rewrite nth_error_app1 by (apply Hin; exact Hb). reflexivity.
Qed.

Lemma allocRows_spec (schemaObj : SchemaObject) (rows : list Row) (h : ReShape.Heap) :
  ReShape.allocRows schemaObj rows h =
  (seq (length h) (length rows),
   h ++ map (fun r => ReShape.ORow (ReShape.renameRow schemaObj r)) rows).
Proof.
  revert h. induction rows as [|r rest IH]; intros h; simpl.
  - now rewrite app_nil_r.
  - rewrite IH. rewrite length_app. simpl. rewrite Nat.add_1_r.
    rewrite <- app_assoc. reflexivity.
Qed.

Lemma derefRows_fresh (h : ReShape.Heap) (rows : list Row) (tail : ReShape.Heap) :
  ReShape.derefRows (h ++ map ReShape.ORow rows ++ tail) (seq (length h) (length rows))
  = rows.
Proof.
  revert h. induction rows as [|r rest IH]; intros h; simpl; [reflexivity|].
  unfold ReShape.derefRows in *. simpl.
  rewrite nth_error_app2 by lia. rewrite Nat.sub_diag. simpl. f_equal.
  specialize (IH (h ++ [ReShape.ORow r])).
  rewrite length_app in IH. simpl in IH. rewrite Nat.add_1_r in IH.
  rewrite <- app_assoc in IH. simpl in IH. exact IH.
Qed.

Lemma extrasOk_extend (h ext : ReShape.Heap) (rD : ReShape.PartRef) :
  extrasOk h rD ->
  (forall a refs, nth_error ext a = Some (ReShape.OList refs) ->
                  Forall (fun r => r < length h + length ext) refs) ->
  extrasOk (h ++ ext) rD.
Proof.
  intros [Hk [Hr Hi]] Hext. split; [exact Hk|split].
  - intros n a Hn. rewrite length_app. specialize (Hr n a Hn). lia.
  - intros a refs Ha. rewrite length_app.
    destruct (Nat.lt_ge_cases a (length h)) as [Hlt | Hge].
    + rewrite nth_error_app1 in Ha by exact Hlt.
      eapply Forall_impl; [|exact (Hi a refs Ha)]. simpl. intros; lia.
    + rewrite nth_error_app2 in Ha by exact Hge. eapply Hext; eauto.
Qed.

Lemma reifyDoc_extend (h ext : ReShape.Heap) (rD : ReShape.PartRef) :
  extrasOk h rD -> ReShape.reifyDoc (h ++ ext) rD = ReShape.reifyDoc h rD.
Proof.
  intros [Hk [Hr Hi]]. unfold ReShape.reifyDoc. apply map_ext_in.
  intros [n a] Hn. simpl. f_equal.
  apply reify_extend; [eapply Hr; eauto | intros refs; apply Hi].
Qed.

Lemma extrasOk_dset (h : ReShape.Heap) (rD : ReShape.PartRef) (name : string) (a : nat) :
  extrasOk h rD -> a < length h -> extrasOk h (dset name a rD).
Proof.
  intros [Hk [Hr Hi]] Ha. split; [now apply NoDup_dkeys_dset | split; [|exact Hi]].
  intros n b Hn. destruct (In_dset _ _ _ _ _ Hn) as [E | Hold].
  - injection E as -> ->. exact Ha.
  - eapply Hr; eauto.
Qed.

Lemma nth_error_rowObjs (rows : list Row) (a : nat) (refs : list nat) :
  nth_error (map ReShape.ORow rows) a = Some (ReShape.OList refs) -> False.
Proof.
  revert a. induction rows as [|r rest IH]; intros [|a]; simpl; try discriminate.
  apply IH.
Qed.

Lemma extraStep_sim (sD : SchemaDefAccess) (data : DataById) (sliceFilter : string)
  (h : ReShape.Heap) (rD : ReShape.PartRef) (schemaId : string) :
  extrasOk h rD ->
  match ReShape.extraStep sD data sliceFilter (h, rD) schemaId with
  | Ok st =>
      extrasOk (fst st) (snd st) /\
      ReShape.extraStepV sD data sliceFilter (ReShape.reifyDoc h rD) schemaId
        = Ok (ReShape.reifyDoc (fst st) (snd st)) /\
      (forall n, In n (dkeys (snd st)) -> n = getSchemaName sD schemaId \/ In n (dkeys rD))
  | Raise e =>
      ReShape.extraStepV sD data sliceFilter (ReShape.reifyDoc h rD) schemaId = Raise e
  end.
Proof.
  intros Hok. unfold ReShape.extraStep, ReShape.extraStepV.
  destruct (dindex schemaId data) as [rows|e]; simpl; [|reflexivity].
  rewrite allocRows_spec. simpl. rewrite length_seq, length_map.
  set (so := getSchemaObject sD schemaId).
  set (objs := map (fun r => ReShape.ORow (ReShape.renameRow so r)) rows).
  assert (Hobjs : objs = map ReShape.ORow (map (ReShape.renameRow so) rows))
    by (unfold objs; now rewrite map_map).
  assert (Hok1 : extrasOk (h ++ objs) rD).
  { apply extrasOk_extend; auto. intros a refs Ha. rewrite Hobjs in Ha.
    exfalso. eapply nth_error_rowObjs; eauto. }
  assert (Hlen : length objs = length rows) by (unfold objs; now rewrite length_map).
  destruct ((length rows <? 1)%nat && negb (isMandatory so)) eqn:Eskip.
  - simpl. split; [exact Hok1|]. split; [|auto].
    now rewrite reifyDoc_extend.
  - (* the list case, shared by two branches *)
    assert (Hlist :
      let st := (h ++ objs ++ [ReShape.OList (seq (length h) (length rows))],
                 dset (getSchemaName sD schemaId) (length (h ++ objs)) rD) in
      extrasOk (fst st) (snd st) /\
      Ok (dset (getSchemaName sD schemaId) (SRows (map (ReShape.renameRow so) rows))
            (ReShape.reifyDoc h rD)) = Ok (ReShape.reifyDoc (fst st) (snd st)) /\
      (forall n, In n (dkeys (snd st)) -> n = getSchemaName sD schemaId \/ In n (dkeys rD))).
    { simpl. split; [|split].
      - apply extrasOk_dset.
        + rewrite app_assoc. apply extrasOk_extend; [exact Hok1|].
          intros [|[|a]] refs Ha; simpl in Ha; try discriminate.
          injection Ha as <-. apply Forall_forall. intros x Hx. apply in_seq in Hx.
          rewrite length_app. simpl. lia.
        + rewrite !length_app. simpl. lia.
      - f_equal. rewrite reifyDoc_dset. f_equal.
        + unfold ReShape.reify. rewrite app_assoc.
          rewrite nth_error_app2 by lia. rewrite Nat.sub_diag. simpl. f_equal.
          rewrite <- app_assoc. rewrite Hobjs.
          rewrite <- (length_map (ReShape.renameRow so) rows).
          symmetry. apply derefRows_fresh.
        + rewrite app_assoc. symmetry. rewrite reifyDoc_extend by exact Hok1.
          now apply reifyDoc_extend.
      - intros n Hn. apply dkeys_dset_In in Hn. exact Hn. }
    destruct rows as [|r0 [|r1 rest]]; simpl seq; simpl length; simpl map.
    + simpl in *. rewrite <- app_assoc. exact Hlist.
    + destruct (hasSliceUnitCardinality so sliceFilter).
      * simpl. split; [|split].
        -- apply extrasOk_dset; [exact Hok1|]. rewrite length_app. simpl. lia.
        -- f_equal. rewrite reifyDoc_dset. f_equal.
           ++ unfold ReShape.reify. rewrite nth_error_app2 by lia.
              rewrite Nat.sub_diag. reflexivity.
           ++ symmetry. now apply reifyDoc_extend.
        -- intros n Hn. apply dkeys_dset_In in Hn. exact Hn.
      * simpl in *. rewrite <- app_assoc. exact Hlist.
    + simpl in *. rewrite <- app_assoc. exact Hlist.
Qed.

Lemma extras_sim (sD : SchemaDefAccess) (data : DataById) (sliceFilter : string)
  (extraL : list string) (h : ReShape.Heap) (rD : ReShape.PartRef) :
  extrasOk h rD ->
  match foldM (ReShape.extraStep sD data sliceFilter) extraL (h, rD) with
  | Ok st =>
      extrasOk (fst st) (snd st) /\
      foldM (ReShape.extraStepV sD data sliceFilter) extraL (ReShape.reifyDoc h rD)
        = Ok (ReShape.reifyDoc (fst st) (snd st)) /\
      (forall n, In n (dkeys (snd st)) ->
                 In n (map (getSchemaName sD) extraL) \/ In n (dkeys rD))
  | Raise e =>
      foldM (ReShape.extraStepV sD data sliceFilter) extraL (ReShape.reifyDoc h rD)
        = Raise e
  end.
Proof.
  revert h rD. induction extraL as [|T rest IH]; intros h rD Hok; simpl.
  - auto.
  - pose proof (extraStep_sim sD data sliceFilter h rD T Hok) as Hs.
    destruct (ReShape.extraStep sD data sliceFilter (h, rD) T) as [[h1 rD1]|e]; simpl in *.
    + destruct Hs as [Hok1 [-> Hkeys]]. simpl.
      specialize (IH h1 rD1 Hok1).
      destruct (foldM (ReShape.extraStep sD data sliceFilter) rest (h1, rD1))
        as [[h2 rD2]|e]; simpl in *; [|exact IH].
      destruct IH as [Hok2 [-> Hkeys2]]. split; [exact Hok2|split; [reflexivity|]].
      intros n Hn. destruct (Hkeys2 n Hn) as [Hin | Hin]; [auto|].
      destruct (Hkeys n Hin); auto.
    + rewrite Hs. reflexivity.
Qed.

Lemma In_fold_dset_const {K V : Type} `{EqKeyLaws K} (x : V) (l : list K)
  (d : dict K V) (k : K) (v : V) :
  In (k, v) (fold_left (fun d pv => dset pv x d) l d) -> v = x \/ In (k, v) d.
Proof.
  revert d. induction l as [|pv rest IH]; intros d; simpl; [auto|].
  intros Hi. destruct (IH _ Hi) as [-> | Hd]; [auto|].
  destruct (In_dset _ _ _ _ _ Hd) as [E | Hold]; [left; congruence | auto].
Qed.

Lemma NoDup_fold_dset_const {K V : Type} `{EqKeyLaws K} (x : V) (l : list K)
  (d : dict K V) :
  NoDup (dkeys d) -> NoDup (dkeys (fold_left (fun d pv => dset pv x d) l d)).
Proof.
  revert d. induction l as [|pv rest IH]; intros d Hd; simpl; [exact Hd|].
  apply IH. now apply NoDup_dkeys_dset.
Qed.

Lemma viewRet_fold_dset (h : ReShape.Heap) (p : ReShape.PartRef) (l : list Value)
  (retD : ReShape.RetD) :
  ReShape.viewRet h (fold_left (fun d pv => dset pv p d) l retD) =
  fold_left (fun d pv => dset pv (ReShape.reifyDoc h p) d) l (ReShape.viewRet h retD).
Proof.
  revert retD. induction l as [|pv rest IH]; intros retD; simpl; [reflexivity|].
  rewrite IH, viewRet_dset. reflexivity.
Qed.

Lemma dkeys_singleKeyStep (data : DataById) (p : PItem)
  (sliceIndex : SliceIndex) (acc : dict string (list string)) (T : string) :
  In T (dkeys (fold_left (ReShape.singleKeyStep data p) sliceIndex acc)) ->
  (In T (dkeys sliceIndex) /\ dmem T data = true) \/ In T (dkeys acc).
Proof.
  revert acc. induction sliceIndex as [|[T0 mD] rest IH]; intros acc; simpl; [auto|].
  intros Hi. destruct (IH _ Hi) as [[Hr Hm] | Hacc]; [auto|].
  unfold ReShape.singleKeyStep in Hacc. simpl in Hacc.
  destruct (dmem T0 data) eqn:Em; [|auto].
  destruct (dget p mD); [|auto].
  destruct (dget T0 acc); apply dkeys_dset_In in Hacc; destruct Hacc as [-> | Hacc]; auto.
Qed.

Lemma dkeys_singleKeyAtD (data : DataById) (sliceIndex : SliceIndex)
  (pvTupL : list PVal) (T : string) :
  In T (dkeys (ReShape.singleKeyAtD data sliceIndex pvTupL)) ->
  In T (dkeys sliceIndex) /\ dmem T data = true.
Proof.
  unfold ReShape.singleKeyAtD.
  assert (Hgen : forall acc,
    In T (dkeys (fold_left
       (fun acc pvTup => fold_left (ReShape.singleKeyStep data (fst pvTup)) sliceIndex acc)
       pvTupL acc)) ->
    (In T (dkeys sliceIndex) /\ dmem T data = true) \/ In T (dkeys acc)).
  { induction pvTupL as [|pv rest IH]; intros acc; simpl; [auto|].
    intros Hi. destruct (IH _ Hi) as [Hr | Hacc]; [auto|].
    now apply dkeys_singleKeyStep in Hacc. }
  intros Hi. destruct (Hgen [] Hi) as [Hr | []]. exact Hr.
Qed.

(** When no slice-indexed table shares its name with a slice-extra table,
    the partitions built in the heap, read back, are those of the loops on
    plain values, and both raise the same exceptions. *)
Theorem onePass_simulation (sD : SchemaDefAccess) (data : DataById)
  (sliceFilter : string) (sliceIndex : SliceIndex) :
  namesApart sD data sliceFilter sliceIndex ->
  match ReShape.onePassRetD sD data sliceFilter sliceIndex with
  | Ok st => ReShape.onePassRetV sD data sliceFilter sliceIndex
             = Ok (ReShape.viewRet (fst st) (snd st))
  | Raise e => ReShape.onePassRetV sD data sliceFilter sliceIndex = Raise e
  end.
Proof.
  intros Hapart. unfold ReShape.onePassRetD, ReShape.onePassRetV.
  destruct (ReShape.SliceValues sD data sliceFilter) as [svs|e]; simpl; [|reflexivity].
  destruct (ReShape.collectPVals svs) as [pVals|e]; simpl; [|reflexivity].
  destruct (ReShape.next svs) as [pvTupL|e]; simpl; [|reflexivity].
  set (retD0 := fold_left (fun d k => dset k ([] : ReShape.PartRef) d) pVals []).
  set (skD := ReShape.singleKeyAtD data sliceIndex pvTupL).
  assert (Hview0 : forall h, ReShape.viewRet h retD0 =
                    fold_left (fun d k => dset k ([] : Doc) d) pVals []).
  { intros h. unfold retD0. rewrite viewRet_fold_dset. reflexivity. }
  assert (Hret0 : forall v p, In (v, p) retD0 -> p = []).
  { intros v p Hi. unfold retD0 in Hi.
    destruct (In_fold_dset_const _ _ _ _ _ Hi) as [-> | []]. reflexivity. }
  assert (Hnd0 : NoDup (dkeys retD0)).
  { unfold retD0. apply NoDup_fold_dset_const. constructor. }
  (* the second loop, from any well-formed start *)
  assert (Hloop : forall E h retD,
            Inv E h retD ->
            (forall n, In n E -> In n (map (getSchemaName sD)
                                         (getSliceExtraSchemaIds sD sliceFilter))) ->
            match foldM (ReShape.sliceTable sD data sliceFilter) skD (h, retD) with
            | Ok st => foldM (ReShape.sliceTableV sD data sliceFilter) skD
                         (ReShape.viewRet h retD)
                       = Ok (ReShape.viewRet (fst st) (snd st))
            | Raise e => foldM (ReShape.sliceTableV sD data sliceFilter) skD
                           (ReShape.viewRet h retD) = Raise e
            end).
  { intros E h retD HI HE.
    pose proof (foldM_sim E (ReShape.sliceTable sD data sliceFilter)
                  (ReShape.sliceTableV sD data sliceFilter) skD) as Hs.
    assert (Hstep : forall x h0 retD1, In x skD -> Inv E h0 retD1 ->
              simulates (A:=unit) E (ReShape.sliceTable sD data sliceFilter (h0, retD1) x)
                (ReShape.sliceTableV sD data sliceFilter (ReShape.viewRet h0 retD1) x)
                (fun _ => True)).
    { intros x h0 retD1 Hx HI0. apply sliceTable_sim; [exact HI0|].
      intros Hin. apply HE in Hin. apply in_map_iff in Hin.
      destruct Hin as [T' [Hname HT']].
      assert (Hx' : In (fst x) (dkeys sliceIndex) /\ dmem (fst x) data = true).
      { apply (dkeys_singleKeyAtD data sliceIndex pvTupL).
        fold skD. unfold dkeys. now apply in_map. }
      destruct Hx' as [Hx1 Hx2].
      apply (Hapart (fst x) T'); [exact Hx1 | exact Hx2 | exact HT' | congruence]. }
    specialize (Hs Hstep h retD HI). unfold simulates in Hs.
    destruct (foldM (ReShape.sliceTable sD data sliceFilter) skD (h, retD)) as [st|e].
    - destruct Hs as [_ [_ Hs]]. exact Hs.
    - exact Hs. }
  destruct (getSliceExtraSchemaIds sD sliceFilter) as [|T0 extraL] eqn:Eextra.
  - simpl. assert (HI0 : Inv [] [] retD0).
    { constructor; auto.
      * intros v p Hv. rewrite (Hret0 v p Hv). constructor.
      * intros v p n a Hv Hn. rewrite (Hret0 v p Hv) in Hn. destruct Hn.
      * intros a refs Ha. destruct a; discriminate.
      * intros v p n a refs v' p' n' Hv Hn. rewrite (Hret0 v p Hv) in Hn. destruct Hn. }
    pose proof (Hloop [] [] retD0 HI0 (fun n (Hn : In n []) => match Hn with end)) as HL.
    rewrite Hview0 in HL. exact HL.
  - pose proof (extras_sim sD data sliceFilter (T0 :: extraL) [] []) as Hex.
    assert (Hok0 : extrasOk [] []).
    { split; [constructor|split].
      - intros n a [].
      - intros a refs Ha. destruct a; discriminate. }
    specialize (Hex Hok0).
    set (run := foldM (ReShape.extraStep sD data sliceFilter) (T0 :: extraL)
                  (@pair ReShape.Heap ReShape.PartRef [] [])) in Hex.
    match goal with
    | |- context C [@foldM string ?S (ReShape.extraStep sD data sliceFilter) ?l ?s] =>
        let G := context C [run] in change G
    end.
    destruct run as [[h1 rD]|e]; cbn beta iota in Hex;
      change (ReShape.reifyDoc [] []) with ([] : Doc) in Hex;
      [|rewrite Hex; reflexivity].
    destruct Hex as [[Hk [Hr Hi]] [Hex Hkeys]]. rewrite Hex.
    cbn [bind fst snd].
    assert (HI1 : Inv (dkeys rD) h1 (fold_left (fun d pv => dset pv rD d) pVals retD0)).
    { constructor.
      * apply NoDup_fold_dset_const. exact Hnd0.
      * intros v p Hv. destruct (In_fold_dset_const _ _ _ _ _ Hv) as [-> | Hold];
          [exact Hk | rewrite (Hret0 v p Hold); constructor].
      * intros v p n a Hv Hn. destruct (In_fold_dset_const _ _ _ _ _ Hv) as [-> | Hold];
          [eapply Hr; eauto | rewrite (Hret0 v p Hold) in Hn; destruct Hn].
      * exact Hi.
      * intros v p n a refs v' p' n' Hv Hn HnE. exfalso.
        destruct (In_fold_dset_const _ _ _ _ _ Hv) as [-> | Hold].
        -- apply HnE. unfold dkeys. change n with (fst (n, a)). now apply in_map.
        -- rewrite (Hret0 v p Hold) in Hn. destruct Hn. }
    assert (HE : forall n, In n (dkeys rD) ->
              In n (map (getSchemaName sD) (T0 :: extraL))).
    { intros n Hn. destruct (Hkeys n Hn) as [Hin | []]. exact Hin. }
    pose proof (Hloop (dkeys rD) h1 _ HI1 HE) as HL.
    rewrite viewRet_fold_dset, Hview0 in HL. exact HL.
Qed.

(** ** Slice membership of the rows of a partition *)








Lemma foldM_invariant {A S : Type} (I : S -> Prop) (f : S -> A -> Exc S) (l : list A) :
  (forall s x s', In x l -> I s -> f s x = Ok s' -> I s') ->
  forall s s', I s -> foldM f l s = Ok s' -> I s'.
Proof.
  induction l as [|x rest IH]; intros Hstep s s' Hs; simpl.
  - intros [= <-]. exact Hs.
  - destruct (f s x) as [s1|e] eqn:Ef; simpl; [|discriminate].
    apply IH.
    + intros s0 y s0' Hy. apply Hstep. now right.
    + eapply Hstep; eauto. now left.
Qed.

Lemma In_dedup (l : list Value) (v : Value) : In v (ReShape.dedup l) -> In v l.
Proof.
  induction l as [|x rest IH]; simpl; [auto|].
  intros [E | Hf]; [auto|]. apply filter_In in Hf. right. apply IH. apply Hf.
Qed.

Lemma parentVals_fst (catId atId : string) (filters : list ParentFilter)
  (rows : list Row) (vals : list PVal) :
  ReShape.parentVals catId atId filters rows = Ok vals ->
  forall pv, In pv vals -> fst pv = (catId, atId).
Proof.
  revert vals. induction rows as [|rowD rest IH]; intros vals; simpl.
  - intros [= <-] pv [].
  - destruct (ReShape.testFilter rowD catId filters).
    + destruct (dindex atId rowD) as [v|e]; simpl; [|discriminate].
      destruct (ReShape.parentVals catId atId filters rest) as [more|e]; simpl;
        [|discriminate].
      intros [= <-] pv [<- | Hi]; [reflexivity|]. now apply (IH more).
    + apply IH.
Qed.












(** *** The keys of the partitions *)








(** ** Agreement of the one-pass partitioner with the per-tuple partitioner *)

Lemma dget_fold_guarded {A V : Type} (skip : A -> bool) (key : A -> string)
  (val : A -> V) (l : list A) (init : dict string V) (n : string) :
  dget n (fold_left (fun rD x => if skip x then rD else dset (key x) (val x) rD) l init) =
  match find (fun x => String.eqb (key x) n && negb (skip x)) (rev l) with
  | Some x => Some (val x)
  | None => dget n init
  end.
Proof.
  revert init. induction l as [|x rest IH]; intros init; simpl; [reflexivity|].
  rewrite IH, find_append.
  destruct (find (fun x0 => String.eqb (key x0) n && negb (skip x0)) (rev rest));
    [reflexivity|].
  simpl. destruct (skip x); simpl.
  - rewrite andb_false_r. reflexivity.
  - rewrite andb_true_r. rewrite dget_dset. simpl. rewrite String.eqb_sym.
    destruct (String.eqb (key x) n); reflexivity.
Qed.

Lemma find_none_iff {A : Type} (p : A -> bool) (l : list A) :
  find p l = None <-> forall x, In x l -> p x = false.
Proof.
  induction l as [|y rest IH]; simpl.
  - split; [intros _ x [] | reflexivity].
  - destruct (p y) eqn:E.
    + split; [discriminate|]. intros Hall. specialize (Hall y (or_introl eq_refl)). congruence.
    + rewrite IH. split.
      * intros Hall x [<- | Hx]; auto.
      * intros Hall x Hx. apply Hall. now right.
Qed.

Lemma find_rev_sole {A : Type} (p : A -> bool) (l : list A) (x : A) :
  In x l -> p x = true -> (forall y, In y l -> p y = true -> y = x) ->
  find p (rev l) = Some x.
Proof.
  intros Hin Hp Hsole. apply find_sole; auto.
  - now apply -> in_rev.
  - intros y Hy. apply Hsole. now apply in_rev.
Qed.

(** Names are borne by one table of the record set each. *)
Lemma name_sole (sD : SchemaDefAccess) (data : DataById) (T T' : string)
  (rows rows' : list Row) :
  NoDup (map (getSchemaName sD) (dkeys data)) ->
  In (T, rows) data -> In (T', rows') data ->
  getSchemaName sD T = getSchemaName sD T' -> T = T' /\ rows = rows'.
Proof.
  unfold dkeys. induction data as [|[T0 rows0] rest IH]; simpl; [tauto|].
  intros Hnd H1 H2 Hname. inversion Hnd as [|? ? Hni Hnd']; subst.
  assert (Hrest : forall U rowsU, In (U, rowsU) rest ->
            In (getSchemaName sD U) (map (getSchemaName sD) (map fst rest))).
  { intros U rowsU HU. apply in_map. change U with (fst (U, rowsU)). now apply in_map. }
  destruct H1 as [E1 | H1], H2 as [E2 | H2].
  - injection E1 as <- <-. injection E2 as <- <-. auto.
  - injection E1 as <- <-. exfalso. apply Hni. rewrite Hname. eapply Hrest; eauto.
  - injection E2 as <- <-. exfalso. apply Hni. rewrite <- Hname. eapply Hrest; eauto.
  - apply IH; auto.
Qed.

Lemma find_by_name (sD : SchemaDefAccess) (data : DataById) (T : string)
  (rows : list Row) :
  NoDup (map (getSchemaName sD) (dkeys data)) -> In (T, rows) data ->
  find (fun kv : string * list Row =>
          String.eqb (getSchemaName sD (fst kv)) (getSchemaName sD T)) data
  = Some (T, rows).
Proof.
  intros Hnd Hin. apply find_sole; auto.
  - simpl. apply String.eqb_refl.
  - intros [T' rows'] Hin' Hp. simpl in Hp. apply String.eqb_eq in Hp.
    destruct (name_sole sD data T' T rows' rows Hnd Hin' Hin Hp) as [-> ->]. reflexivity.
Qed.

(** The per-tuple partitioner, read by table name. *)
Lemma sliceRowwiseByNameWithCard_lookup (sD : SchemaDefAccess) (data : DataById)
  (sliceFilter : string) (sliceIndex : SliceIndex) (sliceValue : list PVal) (n : string) :
  NoDup (map (getSchemaName sD) (dkeys data)) ->
  dget n (ReShape.sliceRowwiseByNameWithCard sD data sliceFilter sliceValue sliceIndex)
  = expectedEntry sD data sliceFilter sliceIndex sliceValue n.
Proof.
  intros Hnd. unfold ReShape.sliceRowwiseByNameWithCard.
  set (skip := fun kv : string * list Row =>
         (negb (dmem (fst kv) sliceIndex) &&
          negb (isSliceExtra (getSchemaObject sD (fst kv)) sliceFilter)) ||
         ((length (ReShape.slicedRows sD sliceFilter sliceValue sliceIndex (fst kv) (snd kv))
             <? 1)%nat && negb (isMandatory (getSchemaObject sD (fst kv))))).
  set (val := fun kv : string * list Row =>
         match ReShape.slicedRows sD sliceFilter sliceValue sliceIndex (fst kv) (snd kv) with
         | [r] => if hasSliceUnitCardinality (getSchemaObject sD (fst kv)) sliceFilter
                  then SRow r
                  else SRows (ReShape.slicedRows sD sliceFilter sliceValue sliceIndex
                                (fst kv) (snd kv))
         | _ => SRows (ReShape.slicedRows sD sliceFilter sliceValue sliceIndex
                         (fst kv) (snd kv))
         end).
  rewrite (fold_left_ext _
    (fun rD kv => if skip kv then rD else dset (getSchemaName sD (fst kv)) (val kv) rD)).
  2:{ intros rD [T rows]. unfold skip, val. simpl.
      destruct (negb (dmem T sliceIndex) &&
                negb (isSliceExtra (getSchemaObject sD T) sliceFilter)); simpl; [reflexivity|].
      destruct ((length (ReShape.slicedRows sD sliceFilter sliceValue sliceIndex T rows) <? 1)%nat &&
                negb (isMandatory (getSchemaObject sD T))); [reflexivity|].
      destruct (ReShape.slicedRows sD sliceFilter sliceValue sliceIndex T rows)
        as [|r0 [|r1 rest]]; try reflexivity.
      destruct (hasSliceUnitCardinality (getSchemaObject sD T) sliceFilter); reflexivity. }
  rewrite dget_fold_guarded. unfold expectedEntry. simpl.
  destruct (find (fun kv : string * list Row => String.eqb (getSchemaName sD (fst kv)) n) data)
    as [[T rows]|] eqn:Ef.
  - pose proof (find_some _ _ Ef) as [Hin Hname]. simpl in Hname.
    apply String.eqb_eq in Hname. subst n. simpl.
    destruct (skip (T, rows)) eqn:Es.
    + replace (find _ (rev data)) with (@None (string * list Row)).
      * unfold skip in Es. simpl in Es. unfold collapseOpt.
        destruct (negb (dmem T sliceIndex) &&
                  negb (isSliceExtra (getSchemaObject sD T) sliceFilter)); simpl in *;
          [reflexivity|]. rewrite Es. reflexivity.
      * symmetry. apply find_none_iff. intros [T' rows'] Hin'. simpl.
        destruct (String.eqb (getSchemaName sD T') (getSchemaName sD T)) eqn:En;
          [|reflexivity].
        apply String.eqb_eq in En. apply in_rev in Hin'.
        destruct (name_sole sD data T' T rows' rows Hnd Hin' Hin En) as [-> ->].
        rewrite Es. reflexivity.
    + rewrite (find_rev_sole _ data (T, rows)); auto.
      * unfold skip in Es. simpl in Es. unfold collapseOpt, val. simpl.
        destruct (negb (dmem T sliceIndex) &&
                  negb (isSliceExtra (getSchemaObject sD T) sliceFilter)); simpl in *;
          [discriminate|]. rewrite Es. reflexivity.
      * simpl. rewrite String.eqb_refl, Es. reflexivity.
      * intros [T' rows'] Hin' Hp. simpl in Hp. apply andb_true_iff in Hp.
        destruct Hp as [Hp _]. apply String.eqb_eq in Hp.
        destruct (name_sole sD data T' T rows' rows Hnd Hin' Hin Hp) as [-> ->].
        reflexivity.
  - replace (find _ (rev data)) with (@None (string * list Row)); [reflexivity|].
    symmetry. apply find_none_iff. intros kv Hin. apply in_rev in Hin.
    rewrite find_none_iff in Ef. rewrite (Ef kv Hin). reflexivity.
Qed.

Lemma Rep_ext (vs : list Value) (retV : ReShape.RetV)
  (g g' : Value -> string -> option Shaped) :
  (forall v n, In v vs -> g v n = g' v n) -> Rep vs retV g -> Rep vs retV g'.
Proof.
  intros Hext [Hk Hg]. split; [exact Hk|].
  intros v Hv. destruct (Hg v Hv) as [doc [Hd Hn]]. exists doc. split; [exact Hd|].
  intros n. rewrite Hn. now apply Hext.
Qed.

Lemma compat_placeVal (uFlag : bool) (oRowD : Row) (cur : option Shaped) :
  compat uFlag (Some (placeVal uFlag oRowD cur)).
Proof.
  unfold compat, placeVal. destruct uFlag; [now left|]. right. right.
  destruct cur as [[rows| | | |]|]; eauto.
Qed.

Lemma placeInDoc_compat (name : string) (uFlag : bool) (oRowD : Row) (doc : Doc) :
  compat uFlag (dget name doc) ->
  ReShape.placeInDoc name uFlag oRowD doc
  = Ok (dset name (placeVal uFlag oRowD (dget name doc)) doc).
Proof.
  unfold compat, ReShape.placeInDoc, placeVal. intros [-> | [Hn | [rows Hr]]].
  - reflexivity.
  - destruct uFlag; [reflexivity|]. rewrite Hn. reflexivity.
  - destruct uFlag; [reflexivity|]. rewrite Hr. reflexivity.
Qed.

Lemma Value_eq_dec_b (v w : Value) : value_eqb v w = false -> v <> w.
Proof. intros E ->. assert (value_eqb w w = true) by now apply value_eqb_eq. congruence. Qed.

Lemma place_Rep (vs : list Value) (name : string) (uFlag : bool) (oRowD : Row)
  (retV : ReShape.RetV) (g : Value -> string -> option Shaped) (rv : Value) :
  Rep vs retV g -> In rv vs -> truthy rv = true -> compat uFlag (g rv name) ->
  exists retV',
    ReShape.placeRowV name uFlag oRowD retV rv = Ok retV' /\
    Rep vs retV'
      (fun v n => if value_eqb v rv && String.eqb n name
                  then Some (placeVal uFlag oRowD (g rv name)) else g v n).
Proof.
  intros [Hk Hg] Hrv Ht Hc. unfold ReShape.placeRowV. rewrite Ht.
  destruct (Hg rv Hrv) as [doc [Hd Hn]]. unfold dindex. rewrite Hd. simpl.
  rewrite <- Hn in Hc. rewrite (placeInDoc_compat name uFlag oRowD doc Hc). simpl.
  eexists. split; [reflexivity|]. split.
  - rewrite dkeys_dset. unfold dmem. rewrite Hd. exact Hk.
  - intros v Hv. rewrite dget_dset.
    change (keqb v rv) with (value_eqb v rv).
    destruct (value_eqb v rv) eqn:Ev.
    + apply value_eqb_eq in Ev. subst v. eexists. split; [reflexivity|].
      intros n. rewrite dget_dset. change (keqb n name) with (String.eqb n name).
      simpl. rewrite (Hn name). destruct (String.eqb n name); [reflexivity | apply Hn].
    + destruct (Hg v Hv) as [doc' [Hd' Hn']]. exists doc'. split; [exact Hd'|].
      intros n. simpl. apply Hn'.
Qed.

Lemma NoDup_dedup (l : list Value) : NoDup (ReShape.dedup l).
Proof.
  induction l as [|x rest IH]; simpl; [constructor|].
  constructor.
  - intros Hin. apply filter_In in Hin. destruct Hin as [_ Hne].
    assert (value_eqb x x = true) by now apply value_eqb_eq.
    rewrite H in Hne. discriminate.
  - now apply NoDup_filter.
Qed.

Lemma In_dedup_iff (l : list Value) (v : Value) : In v (ReShape.dedup l) <-> In v l.
Proof.
  split; [apply In_dedup|].
  induction l as [|x rest IH]; simpl; [auto|].
  intros [-> | Hin]; [now left|].
  destruct (value_eqb x v) eqn:E.
  - apply value_eqb_eq in E. now left.
  - right. apply filter_In. split; [now apply IH|]. rewrite E. reflexivity.
Qed.

Lemma existsb_value_In (v : Value) (l : list Value) :
  existsb (value_eqb v) l = true <-> In v l.
Proof.
  rewrite existsb_exists. split.
  - intros [x [Hx He]]. apply value_eqb_eq in He. now subst.
  - intros Hin. exists v. split; [exact Hin | now apply value_eqb_eq].
Qed.

Lemma existsb_value_ext (v : Value) (l l' : list Value) :
  (In v l <-> In v l') -> existsb (value_eqb v) l = existsb (value_eqb v) l'.
Proof.
  intros H. destruct (existsb (value_eqb v) l) eqn:E1, (existsb (value_eqb v) l') eqn:E2;
    try reflexivity.
  - apply existsb_value_In in E1. apply H in E1. apply existsb_value_In in E1. congruence.
  - apply existsb_value_In in E2. apply H in E2. apply existsb_value_In in E2. congruence.
Qed.

Lemma places_Rep (vs : list Value) (name : string) (uFlag : bool) (oRowD : Row)
  (L : list Value) :
  NoDup L -> (forall rv, In rv L -> truthy rv = true -> In rv vs) ->
  forall (retV : ReShape.RetV) (g : Value -> string -> option Shaped),
    Rep vs retV g -> (forall v, In v vs -> compat uFlag (g v name)) ->
    exists retV',
      foldM (ReShape.placeRowV name uFlag oRowD) L retV = Ok retV' /\
      Rep vs retV'
        (fun v n => if String.eqb n name && (truthy v && existsb (value_eqb v) L)
                    then Some (placeVal uFlag oRowD (g v name)) else g v n).
Proof.
  induction L as [|rv rest IH]; intros Hnd Hin retV g HR Hc; simpl.
  - exists retV. split; [reflexivity|]. eapply Rep_ext; [|exact HR].
    intros v n _. now rewrite andb_false_r, andb_false_r.
  - inversion Hnd as [|? ? Hni Hnd']; subst.
    destruct (truthy rv) eqn:Et.
    + destruct (place_Rep vs name uFlag oRowD retV g rv HR
                  (Hin rv (or_introl eq_refl) Et) Et
                  (Hc rv (Hin rv (or_introl eq_refl) Et))) as [retV1 [Hp HR1]].
      rewrite Hp. simpl.
      destruct (IH Hnd' (fun x Hx => Hin x (or_intror Hx)) retV1 _ HR1) as [retV2 [Hf HR2]].
      * intros v Hv. simpl. rewrite String.eqb_refl, andb_true_r.
        destruct (value_eqb v rv); [apply compat_placeVal | now apply Hc].
      * exists retV2. split; [exact Hf|]. eapply Rep_ext; [|exact HR2].
        intros v n Hv. simpl.
        destruct (String.eqb n name) eqn:En; simpl.
        -- rewrite andb_true_r.
           destruct (value_eqb v rv) eqn:Ev.
           ++ apply value_eqb_eq in Ev. subst v. rewrite Et. simpl.
              assert (Hr : existsb (value_eqb rv) rest = false).
              { destruct (existsb (value_eqb rv) rest) eqn:Ee; [|reflexivity].
                apply existsb_value_In in Ee. contradiction. }
              rewrite Hr. reflexivity.
           ++ simpl. apply String.eqb_eq in En. subst n.
              destruct (truthy v && existsb (value_eqb v) rest); reflexivity.
        -- rewrite andb_false_r. reflexivity.
    + unfold ReShape.placeRowV at 1. rewrite Et. simpl.
      destruct (IH Hnd' (fun x Hx => Hin x (or_intror Hx)) retV g HR Hc) as [retV2 [Hf HR2]].
      exists retV2. split; [exact Hf|]. eapply Rep_ext; [|exact HR2].
      intros v n Hv. simpl.
      destruct (value_eqb v rv) eqn:Ev; [|reflexivity].
      apply value_eqb_eq in Ev. subst v. rewrite Et. reflexivity.
Qed.

Lemma row_Rep (vs : list Value) (schemaObj : SchemaObject) (name : string)
  (uFlag : bool) (atL : list string) (iRowD : Row)
  (retV : ReShape.RetV) (g : Value -> string -> option Shaped) :
  forallb hashable (ReShape.childValues atL iRowD) = true ->
  (forall rv, In rv (ReShape.childValues atL iRowD) -> truthy rv = true -> In rv vs) ->
  Rep vs retV g -> (forall v, In v vs -> compat uFlag (g v name)) ->
  exists retV',
    ReShape.sliceRowV schemaObj name uFlag atL retV iRowD = Ok retV' /\
    Rep vs retV'
      (fun v n => if String.eqb n name && hit atL v iRowD
                  then Some (placeVal uFlag (ReShape.renameRow schemaObj iRowD) (g v name))
                  else g v n).
Proof.
  intros Hh Hin HR Hc. unfold ReShape.sliceRowV, ReShape.pySet. rewrite Hh. simpl.
  destruct (places_Rep vs name uFlag (ReShape.renameRow schemaObj iRowD)
              (ReShape.dedup (ReShape.childValues atL iRowD)) (NoDup_dedup _)
              (fun rv Hrv => Hin rv (In_dedup _ _ Hrv)) retV g HR Hc) as [retV' [Hf HR']].
  exists retV'. split; [exact Hf|]. eapply Rep_ext; [|exact HR'].
  intros v n _. simpl. unfold hit.
  rewrite (existsb_value_ext v (ReShape.dedup (ReShape.childValues atL iRowD))
             (ReShape.childValues atL iRowD) (In_dedup_iff _ v)).
  reflexivity.
Qed.

Lemma rows_Rep (vs : list Value) (schemaObj : SchemaObject) (name : string)
  (uFlag : bool) (atL : list string) (rows : list Row) :
  (forall iRowD, In iRowD rows ->
     forallb hashable (ReShape.childValues atL iRowD) = true /\
     forall rv, In rv (ReShape.childValues atL iRowD) -> truthy rv = true -> In rv vs) ->
  forall (retV : ReShape.RetV) (g : Value -> string -> option Shaped),
    Rep vs retV g -> (forall v, In v vs -> compat uFlag (g v name)) ->
    exists retV',
      foldM (ReShape.sliceRowV schemaObj name uFlag atL) rows retV = Ok retV' /\
      Rep vs retV'
        (fun v n => if String.eqb n name
                    then placeAll uFlag
                           (map (ReShape.renameRow schemaObj) (filter (hit atL v) rows))
                           (g v name)
                    else g v n).
Proof.
  induction rows as [|iRowD rest IH]; intros Hrows retV g HR Hc; simpl.
  - exists retV. split; [reflexivity|]. eapply Rep_ext; [|exact HR].
    intros v n _. simpl. destruct (String.eqb n name) eqn:En; [|reflexivity].
    apply String.eqb_eq in En. now subst.
  - destruct (Hrows iRowD (or_introl eq_refl)) as [Hh Hin].
    destruct (row_Rep vs schemaObj name uFlag atL iRowD retV g Hh Hin HR Hc)
      as [retV1 [Hr HR1]].
    rewrite Hr. simpl.
    destruct (IH (fun r Hr0 => Hrows r (or_intror Hr0)) retV1 _ HR1) as [retV2 [Hf HR2]].
    + intros v Hv. simpl. rewrite String.eqb_refl. simpl.
      destruct (hit atL v iRowD); [apply compat_placeVal | now apply Hc].
    + exists retV2. split; [exact Hf|]. eapply Rep_ext; [|exact HR2].
      intros v n Hv. simpl. destruct (String.eqb n name) eqn:En; [|reflexivity].
      rewrite String.eqb_refl. simpl.
      destruct (hit atL v iRowD); reflexivity.
Qed.

Lemma tables_Rep (sD : SchemaDefAccess) (data : DataById) (sliceFilter : string)
  (vs : list Value) (g0 : Value -> string -> option Shaped)
  (todo : list (string * list string)) :
  forall (done : list (string * list string)) (retV : ReShape.RetV),
    NoDup (map (fun e => getSchemaName sD (fst e)) (done ++ todo)) ->
    (forall e, In e todo ->
       dmem (fst e) data = true /\
       childValuesClosed vs (snd e) (rowsOfTable data (fst e)) /\
       forall v, In v vs -> g0 v (getSchemaName sD (fst e)) = None) ->
    Rep vs retV (contentAfter sD data sliceFilter g0 done) ->
    exists retV',
      foldM (ReShape.sliceTableV sD data sliceFilter) todo retV = Ok retV' /\
      Rep vs retV' (contentAfter sD data sliceFilter g0 (done ++ todo)).
Proof.
  induction todo as [|e rest IH]; intros done retV Hnd Htodo HR; simpl.
  - exists retV. split; [reflexivity|]. now rewrite app_nil_r.
  - destruct (Htodo e (or_introl eq_refl)) as [Hmem [Hclosed Hg0]].
    unfold ReShape.sliceTableV at 1. unfold dindex.
    unfold dmem in Hmem. unfold childValuesClosed, rowsOfTable in Hclosed.
    destruct (dget (fst e) data) as [rows|] eqn:Ed; [|discriminate]. simpl.
    assert (Hfresh : find (fun e0 : string * list string =>
                        String.eqb (getSchemaName sD (fst e0)) (getSchemaName sD (fst e)))
                      done = None).
    { apply find_none_iff. intros e0 He0.
      destruct (String.eqb (getSchemaName sD (fst e0)) (getSchemaName sD (fst e))) eqn:En;
        [|reflexivity].
      apply String.eqb_eq in En. exfalso.
      rewrite map_app in Hnd. simpl in Hnd. apply NoDup_remove_2 in Hnd. apply Hnd.
      apply in_or_app. left. rewrite <- En.
      apply (in_map (fun e1 : string * list string => getSchemaName sD (fst e1))).
      exact He0. }
    destruct (rows_Rep vs (getSchemaObject sD (fst e)) (getSchemaName sD (fst e))
                (hasSliceUnitCardinality (getSchemaObject sD (fst e)) sliceFilter)
                (snd e) rows Hclosed retV _ HR) as [retV1 [Hf HR1]].
    { intros v Hv. right. left. unfold contentAfter. rewrite Hfresh. now apply Hg0. }
    rewrite Hf. simpl.
    destruct (IH (done ++ [e]) retV1) as [retV2 [Hf2 HR2]].
    + rewrite <- app_assoc. exact Hnd.
    + intros e0 He0. apply Htodo. now right.
    + eapply Rep_ext; [|exact HR1]. intros v n Hv. simpl.
      unfold contentAfter. rewrite find_append.
      destruct (String.eqb n (getSchemaName sD (fst e))) eqn:En.
      * apply String.eqb_eq in En. subst n. rewrite Hfresh. simpl.
        rewrite String.eqb_refl. unfold tableContent, rowsOfTable. rewrite Ed.
        now rewrite Hg0.
      * destruct (find (fun e0 : string * list string =>
                          String.eqb (getSchemaName sD (fst e0)) n) done);
          [reflexivity|]. simpl.
        rewrite String.eqb_sym, En. reflexivity.
    + exists retV2. split; [exact Hf2|]. rewrite <- app_assoc in HR2. exact HR2.
Qed.

Lemma product_single {A : Type} (l : list A) :
  ReShape.product [l] = map (fun x => [x]) l.
Proof.
  simpl. induction l as [|x rest IH]; simpl; [reflexivity|]. now rewrite IH.
Qed.

Lemma SliceValues_single (sD : SchemaDefAccess) (data : DataById) (sliceFilter : string)
  (p : PItem) (svs : list (list PVal)) :
  getSliceParentItems sD sliceFilter = [p] ->
  ReShape.SliceValues sD data sliceFilter = Ok svs ->
  exists vs, svs = map (fun v => [(p, v)]) vs.
Proof.
  intros Hitem. unfold ReShape.SliceValues. rewrite Hitem. destruct p as [catId atId].
  cbn [ReShape.parentValueDict].
  destruct (match dget catId data with
            | Some rows => ReShape.parentVals catId atId
                             (getSliceParentFilters sD sliceFilter) rows
            | None => Ok []
            end) as [vals|e] eqn:Ev; cbn [bind]; [|discriminate].
  intros [= <-]. exists (map snd vals).
  assert (Hfst : forall pv, In pv vals -> fst pv = (catId, atId)).
  { destruct (dget catId data) as [rows|].
    - eapply parentVals_fst; eauto.
    - injection Ev as <-. intros pv []. }
  clear Ev.
  induction vals as [|[q v] rest IH]; simpl; [reflexivity|].
  rewrite IH by (intros pv Hpv; apply Hfst; now right).
  specialize (Hfst (q, v) (or_introl eq_refl)). simpl in Hfst. now subst q.
Qed.

Lemma collectPVals_single (p : PItem) (vs : list Value) :
  (forall v, In v vs -> hashable v = true) ->
  ReShape.collectPVals (map (fun v => [(p, v)]) vs) = Ok vs.
Proof.
  induction vs as [|v rest IH]; intros Hh; simpl; [reflexivity|].
  rewrite (Hh v (or_introl eq_refl)). simpl.
  rewrite IH by (intros x Hx; apply Hh; now right). reflexivity.
Qed.

Lemma singleKeyStep_fresh (data : DataById) (p : PItem) (sliceIndex : SliceIndex)
  (acc : dict string (list string)) :
  NoDup (dkeys acc ++ dkeys sliceIndex) ->
  fold_left (ReShape.singleKeyStep data p) sliceIndex acc = acc ++ skDOf data sliceIndex p.
Proof.
  revert acc. induction sliceIndex as [|[T mD] rest IH]; intros acc Hnd; simpl.
  - now rewrite app_nil_r.
  - assert (Hfresh : ~ In T (dkeys acc)).
    { intros Hin. apply NoDup_remove_2 in Hnd. apply Hnd. apply in_or_app. now left. }
    assert (Hnd' : NoDup (dkeys acc ++ dkeys rest)).
    { simpl in Hnd. now apply NoDup_remove_1 in Hnd. }
    unfold ReShape.singleKeyStep at 2. simpl.
    destruct (dmem T data); [|now apply IH].
    destruct (dget p mD) as [cAtIds|]; [|now apply IH].
    pose proof Hfresh as Hnone. apply dget_None_notin in Hnone. rewrite Hnone.
    rewrite (dset_fresh T cAtIds acc Hfresh). rewrite IH.
    + rewrite <- app_assoc. reflexivity.
    + unfold dkeys in *. rewrite map_app. simpl. rewrite <- app_assoc. simpl.
      simpl in Hnd. exact Hnd.
Qed.

Lemma In_skDOf (data : DataById) (sliceIndex : SliceIndex) (p : PItem)
  (T : string) (cAtIds : list string) :
  In (T, cAtIds) (skDOf data sliceIndex p) <->
  exists entry, In (T, entry) sliceIndex /\ dmem T data = true /\
                dget p entry = Some cAtIds.
Proof.
  unfold skDOf. rewrite in_flat_map. split.
  - intros [[T0 mD] [Hin He]]. simpl in He.
    destruct (dmem T0 data) eqn:Em; [|destruct He].
    destruct (dget p mD) as [cL|] eqn:Ep; [|destruct He].
    destruct He as [E | []]. injection E as -> ->. exists mD. auto.
  - intros [entry [Hin [Hm Hp]]]. exists (T, entry). split; [exact Hin|].
    simpl. rewrite Hm, Hp. now left.
Qed.

Lemma NoDup_dkeys_skDOf (data : DataById) (sliceIndex : SliceIndex) (p : PItem) :
  NoDup (dkeys sliceIndex) -> NoDup (dkeys (skDOf data sliceIndex p)).
Proof.
  unfold dkeys. induction sliceIndex as [|[T mD] rest IH]; simpl; intros Hnd;
    [constructor|].
  inversion Hnd as [|? ? Hni Hnd']; subst. specialize (IH Hnd').
  rewrite map_app. destruct (dmem T data); [|exact IH].
  destruct (dget p mD) as [cL|]; [|exact IH]. simpl. constructor; [|exact IH].
  intros Hin. apply Hni. apply in_map_iff in Hin. destruct Hin as [[T' cL'] [E Hin]].
  simpl in E. subst T'. apply In_skDOf in Hin. destruct Hin as [entry [Hin _]].
  change T with (fst (T, entry)). now apply in_map.
Qed.

Lemma NoDup_map_on {A B : Type} (f : A -> B) (l : list A) :
  NoDup l -> (forall x y, In x l -> In y l -> f x = f y -> x = y) -> NoDup (map f l).
Proof.
  induction l as [|x rest IH]; simpl; intros Hnd Hinj; [constructor|].
  inversion Hnd as [|? ? Hni Hnd']; subst. constructor.
  - intros Hin. apply in_map_iff in Hin. destruct Hin as [y [Hy Hin]].
    assert (y = x) by (apply Hinj; auto). subst. contradiction.
  - apply IH; auto.
Qed.

Lemma NoDup_map_inj_inv {A B : Type} (f : A -> B) (l : list A) :
  NoDup (map f l) -> forall x y, In x l -> In y l -> f x = f y -> x = y.
Proof.
  induction l as [|a rest IH]; simpl; intros Hnd x y Hx Hy Hf; [destruct Hx|].
  inversion Hnd as [|? ? Hni Hnd']; subst.
  destruct Hx as [-> | Hx], Hy as [-> | Hy]; auto.
  - exfalso. apply Hni. rewrite Hf. now apply in_map.
  - exfalso. apply Hni. rewrite <- Hf. now apply in_map.
Qed.

Lemma NoDup_map_fst_inv {A B : Type} (f : A -> B) (l : list A) :
  NoDup (map f l) -> NoDup l.
Proof.
  induction l as [|a rest IH]; simpl; intros Hnd; [constructor|].
  inversion Hnd as [|? ? Hni Hnd']; subst. constructor; auto.
  intros Hin. apply Hni. now apply in_map.
Qed.

(** *** The replicated content on plain values *)

Lemma extrasV_fold (sD : SchemaDefAccess) (data : DataById) (sliceFilter : string)
  (extraL : list string) (rD : Doc) :
  (forall T, In T extraL -> dmem T data = true) ->
  foldM (ReShape.extraStepV sD data sliceFilter) extraL rD =
  Ok (fold_left
        (fun rD T =>
           if (length (map (ReShape.renameRow (getSchemaObject sD T)) (rowsOfTable data T))
                 <? 1)%nat && negb (isMandatory (getSchemaObject sD T))
           then rD
           else dset (getSchemaName sD T)
                  (match map (ReShape.renameRow (getSchemaObject sD T))
                           (rowsOfTable data T) with
                   | [r] => if hasSliceUnitCardinality (getSchemaObject sD T) sliceFilter
                            then SRow r
                            else SRows (map (ReShape.renameRow (getSchemaObject sD T))
                                          (rowsOfTable data T))
                   | _ => SRows (map (ReShape.renameRow (getSchemaObject sD T))
                                   (rowsOfTable data T))
                   end) rD) extraL rD).
Proof.
  revert rD. induction extraL as [|T rest IH]; intros rD Hmem; simpl; [reflexivity|].
  assert (HT : dmem T data = true) by (apply Hmem; now left).
  unfold ReShape.extraStepV at 1. unfold dindex, rowsOfTable. unfold dmem in HT.
  destruct (dget T data) as [rows|]; [|discriminate]. simpl.
  destruct ((length (map (ReShape.renameRow (getSchemaObject sD T)) rows) <? 1)%nat &&
            negb (isMandatory (getSchemaObject sD T))).
  - simpl. apply IH. intros U HU. apply Hmem. now right.
  - destruct (map (ReShape.renameRow (getSchemaObject sD T)) rows) as [|r0 [|r1 more]];
      simpl; try (apply IH; intros U HU; apply Hmem; now right).
    destruct (hasSliceUnitCardinality (getSchemaObject sD T) sliceFilter); simpl;
      apply IH; intros U HU; apply Hmem; now right.
Qed.

(** *** The initial partitions *)

Lemma fold_dset_const_new {K V : Type} `{EqKeyLaws K} (x : V) (l : list K)
  (d : dict K V) :
  NoDup (dkeys d ++ l) ->
  fold_left (fun d k => dset k x d) l d = d ++ map (fun k => (k, x)) l.
Proof.
  revert d. induction l as [|k rest IH]; intros d Hnd; simpl.
  - now rewrite app_nil_r.
  - assert (Hfresh : ~ In k (dkeys d)).
    { intros Hin. apply NoDup_remove_2 in Hnd. apply Hnd. apply in_or_app. now left. }
    rewrite (dset_fresh k x d Hfresh). rewrite IH.
    + rewrite <- app_assoc. reflexivity.
    + unfold dkeys in *. rewrite map_app. simpl. rewrite <- app_assoc. exact Hnd.
Qed.

Lemma dget_const_map (vs : list Value) (x : Doc) (v : Value) :
  In v vs -> dget v (map (fun k => (k, x)) vs) = Some x.
Proof.
  induction vs as [|w rest IH]; simpl; [tauto|].
  intros Hin. change (keqb v w) with (value_eqb v w).
  destruct (value_eqb v w) eqn:E; [reflexivity|].
  destruct Hin as [-> | Hin]; [|now apply IH].
  assert (value_eqb v v = true) by now apply value_eqb_eq. congruence.
Qed.

Lemma dget_fold_dset_const {K V : Type} `{EqKeyLaws K} (y : V) (l : list K)
  (d : dict K V) (v : K) :
  dget v (fold_left (fun d pv => dset pv y d) l d) =
  if existsb (keqb v) l then Some y else dget v d.
Proof.
  revert d. induction l as [|k rest IH]; intros d; simpl; [reflexivity|].
  rewrite IH, dget_dset. destruct (keqb v k); simpl.
  - destruct (existsb (keqb v) rest); reflexivity.
  - reflexivity.
Qed.

Lemma dkeys_fold_dset_const_mem {K V : Type} `{EqKeyLaws K} (y : V) (l : list K)
  (d : dict K V) :
  (forall k, In k l -> In k (dkeys d)) ->
  dkeys (fold_left (fun d pv => dset pv y d) l d) = dkeys d.
Proof.
  revert d. induction l as [|k rest IH]; intros d Hin; simpl; [reflexivity|].
  assert (Hk : dkeys (dset k y d) = dkeys d).
  { rewrite dkeys_dset. unfold dmem. destruct (dget k d) eqn:E; [reflexivity|].
    apply dget_None_notin in E. exfalso. apply E. apply Hin. now left. }
  rewrite IH; [exact Hk|]. intros k' Hk'. rewrite Hk. apply Hin. now right.
Qed.

Lemma retV0_shape (vs : list Value) :
  NoDup vs ->
  fold_left (fun d k => dset k ([] : Doc) d) vs [] = map (fun k => (k, ([] : Doc))) vs.
Proof.
  intros Hnd. rewrite (fold_dset_const_new ([] : Doc) vs []); [reflexivity|exact Hnd].
Qed.

Lemma dkeys_const_map (vs : list Value) (x : Doc) :
  dkeys (map (fun k => (k, x)) vs) = vs.
Proof. unfold dkeys. rewrite map_map. simpl. apply map_id. Qed.

Lemma Rep_start (vs : list Value) (rD : Doc) (replicate : bool) :
  NoDup vs ->
  Rep vs
    (if replicate
     then fold_left (fun d pv => dset pv rD d) vs
            (fold_left (fun d k => dset k ([] : Doc) d) vs [])
     else fold_left (fun d k => dset k ([] : Doc) d) vs [])
    (fun _ n => if replicate then dget n rD else None).
Proof.
  intros Hnd. rewrite (retV0_shape vs Hnd). destruct replicate.
  - split.
    + rewrite dkeys_fold_dset_const_mem; [apply dkeys_const_map|].
      intros k Hk. now rewrite dkeys_const_map.
    + intros v Hv. exists rD. split; [|reflexivity].
      rewrite dget_fold_dset_const.
      change (existsb (keqb v) vs) with (existsb (value_eqb v) vs).
      assert (He : existsb (value_eqb v) vs = true) by now apply existsb_value_In.
      rewrite He. reflexivity.
  - split; [apply dkeys_const_map|].
    intros v Hv. exists []. split; [now apply dget_const_map | reflexivity].
Qed.

Lemma placeAll_rows (l l0 : list Row) :
  placeAll false l (Some (SRows l0)) = Some (SRows (l0 ++ l)).
Proof.
  revert l0. induction l as [|r rest IH]; intros l0; simpl.
  - now rewrite app_nil_r.
  - unfold placeAll in *. simpl. rewrite IH. rewrite <- app_assoc. reflexivity.
Qed.

Lemma placeAll_collapse (mandatory unitCard : bool) (l : list Row) :
  (mandatory = true -> l <> []) -> (unitCard = true -> length l <= 1) ->
  placeAll unitCard l None = collapseOpt mandatory unitCard l.
Proof.
  intros Hm Hu. unfold collapseOpt. destruct l as [|r0 [|r1 rest]].
  - simpl. destruct mandatory; [exfalso; now apply Hm|]. reflexivity.
  - simpl. unfold placeAll, placeVal. simpl. destruct unitCard; reflexivity.
  - destruct unitCard; [specialize (Hu eq_refl); simpl in Hu; lia|].
    change (placeAll false (r0 :: r1 :: rest) None)
      with (placeAll false (r1 :: rest) (Some (SRows [r0]))).
    rewrite placeAll_rows. simpl. reflexivity.
Qed.

Lemma hit_inSlice (sliceIndex : SliceIndex) (T : string)
  (entry : dict PItem (list string)) (p : PItem) (cAtIds : list string)
  (v : Value) (iRowD : Row) :
  dget T sliceIndex = Some entry -> dget p entry = Some cAtIds -> truthy v = true ->
  hit cAtIds v iRowD = ReShape.inSlice T sliceIndex iRowD [(p, v)].
Proof.
  intros HT Hp Ht. unfold hit, ReShape.inSlice. rewrite HT, Ht. simpl. rewrite Hp.
  assert (Hsym : forall x, value_eqb v x = value_eqb x v).
  { intros x. destruct (value_eqb v x) eqn:E1, (value_eqb x v) eqn:E2; try reflexivity.
    - apply value_eqb_eq in E1. subst.
      assert (value_eqb x x = true) by now apply value_eqb_eq. congruence.
    - apply value_eqb_eq in E2. subst.
      assert (value_eqb v v = true) by now apply value_eqb_eq. congruence. }
  assert (Heq : existsb (value_eqb v) (ReShape.childValues cAtIds iRowD)
                = ReShape.childMatches iRowD v cAtIds).
  { unfold ReShape.childValues, ReShape.childMatches. clear Hp.
    induction cAtIds as [|c rest IH]; simpl; [reflexivity|]. rewrite IH. f_equal.
    destruct (dget c iRowD) as [x|]; [apply Hsym|].
    destruct v; try reflexivity. discriminate. }
  rewrite Heq. destruct (ReShape.childMatches iRowD v cAtIds); reflexivity.
Qed.

Lemma dmem_In (data : DataById) (T : string) :
  dmem T data = true -> exists rows, dget T data = Some rows /\ In (T, rows) data.
Proof.
  unfold dmem. destruct (dget T data) as [rows|] eqn:E; [|discriminate].
  intros _. exists rows. split; [reflexivity | now apply dget_Some_In].
Qed.

Lemma extras_lookup (sD : SchemaDefAccess) (data : DataById) (sliceFilter : string)
  (extraL : list string) :
  NoDup (map (getSchemaName sD) (dkeys data)) ->
  (forall T, In T extraL <->
             (dmem T data = true /\ isSliceExtra (getSchemaObject sD T) sliceFilter = true)) ->
  exists rD,
    foldM (ReShape.extraStepV sD data sliceFilter) extraL [] = Ok rD /\
    forall n, dget n rD = extraEntry sD data sliceFilter n.
Proof.
  intros Hnames Hex.
  assert (Hkeys : NoDup (dkeys data)) by exact (NoDup_map_fst_inv _ _ Hnames).
  rewrite extrasV_fold by (intros T HT; now apply Hex).
  eexists; split; [reflexivity|]. intros n.
  etransitivity.
  { apply (dget_fold_guarded
             (fun T => (length (map (ReShape.renameRow (getSchemaObject sD T))
                                  (rowsOfTable data T)) <? 1)%nat
                       && negb (isMandatory (getSchemaObject sD T)))
             (getSchemaName sD)
             (fun T => match map (ReShape.renameRow (getSchemaObject sD T))
                               (rowsOfTable data T) with
                       | [r] => if hasSliceUnitCardinality (getSchemaObject sD T) sliceFilter
                                then SRow r
                                else SRows (map (ReShape.renameRow (getSchemaObject sD T))
                                              (rowsOfTable data T))
                       | _ => SRows (map (ReShape.renameRow (getSchemaObject sD T))
                                       (rowsOfTable data T))
                       end) extraL [] n). }
  unfold extraEntry. cbn [dget find].
  assert (Hsame : forall T rows T', In (T, rows) data -> getSchemaName sD T = n ->
                    In T' (rev extraL) -> getSchemaName sD T' = n -> T' = T).
  { intros T rows T' Hin Hn HT' Hn'. apply in_rev in HT'. apply Hex in HT' as [Hm _].
    destruct (dmem_In data T' Hm) as [rows' [_ Hin']].
    destruct (name_sole sD data T' T rows' rows Hnames Hin' Hin) as [-> _]; congruence. }
  destruct (find (fun kv : string * list Row => String.eqb (getSchemaName sD (fst kv)) n) data)
    as [[T rows]|] eqn:Ef.
  - apply find_some in Ef as [Hin Hn]. simpl in Hn. apply String.eqb_eq in Hn.
    assert (Hrows : rowsOfTable data T = rows).
    { unfold rowsOfTable. now rewrite (In_dget_NoDup _ _ _ Hkeys Hin). }
    cbn [fst snd].
    destruct (isSliceExtra (getSchemaObject sD T) sliceFilter) eqn:Ee.
    + assert (HT : In T extraL).
      { apply Hex. split; [|exact Ee]. unfold dmem.
        now rewrite (In_dget_NoDup _ _ _ Hkeys Hin). }
      unfold collapseOpt.
      destruct ((length (map (ReShape.renameRow (getSchemaObject sD T)) rows) <? 1)%nat
                && negb (isMandatory (getSchemaObject sD T))) eqn:Es.
      * match goal with |- match find ?p ?l with _ => _ end = _ =>
          assert (Hnone : find p l = None) end.
        { apply find_none_iff. intros T' HT'.
          destruct (String.eqb (getSchemaName sD T') n) eqn:En; [|reflexivity].
          apply String.eqb_eq in En.
          rewrite (Hsame T rows T' Hin Hn HT' En), Hrows, Es. reflexivity. }
        rewrite Hnone. reflexivity.
      * match goal with |- match find ?p ?l with _ => _ end = _ =>
          assert (Hsome : find p l = Some T) end.
        { apply find_rev_sole.
          - exact HT.
          - rewrite Hrows, Es. rewrite Hn, String.eqb_refl. reflexivity.
          - intros T' HT' Hp. apply andb_prop in Hp as [Hp _].
            apply String.eqb_eq in Hp. apply (Hsame T rows T'); auto.
            now apply -> in_rev. }
        rewrite Hsome, Hrows. reflexivity.
    + match goal with |- match find ?p ?l with _ => _ end = _ =>
        assert (Hnone : find p l = None) end.
      { apply find_none_iff. intros T' HT'.
        destruct (String.eqb (getSchemaName sD T') n) eqn:En; [|reflexivity].
        apply String.eqb_eq in En. exfalso.
        pose proof (Hsame T rows T' Hin Hn HT' En) as ->.
        apply in_rev in HT'. apply Hex in HT' as [_ HT']. congruence. }
      rewrite Hnone. reflexivity.
  - match goal with |- match find ?p ?l with _ => _ end = _ =>
      assert (Hnone : find p l = None) end.
    { apply find_none_iff. intros T' HT'. apply in_rev in HT'.
      apply Hex in HT' as [Hm _]. destruct (dmem_In data T' Hm) as [rows' [_ Hin']].
      pose proof (proj1 (find_none_iff _ _) Ef (T', rows') Hin') as Hf. simpl in Hf.
      rewrite Hf. reflexivity. }
    rewrite Hnone. reflexivity.
Qed.

Lemma skD_member (sD : SchemaDefAccess) (data : DataById) (sliceFilter : string)
  (sliceIndex : SliceIndex) (p : PItem) (vs : list Value) (T : string)
  (cAtIds : list string) :
  singleKeySlicing sD data sliceFilter sliceIndex p vs ->
  In (T, cAtIds) (skDOf data sliceIndex p) ->
  exists entry rows,
    dget T sliceIndex = Some entry /\ dget p entry = Some cAtIds /\
    dmem T data = true /\ In (T, rows) data /\ rowsOfTable data T = rows /\
    isSliceExtra (getSchemaObject sD T) sliceFilter = false.
Proof.
  intros HS Hin. apply In_skDOf in Hin as [entry [Hi [Hm Hp]]].
  assert (HT : dget T sliceIndex = Some entry)
    by exact (In_dget_NoDup _ _ _ (sk_index _ _ _ _ _ _ HS) Hi).
  destruct (dmem_In data T Hm) as [rows [Hg Hr]].
  exists entry, rows. repeat split; auto.
  - unfold rowsOfTable. now rewrite Hg.
  - destruct (isSliceExtra (getSchemaObject sD T) sliceFilter) eqn:Ee; [|reflexivity].
    assert (Hx : In T (getSliceExtraSchemaIds sD sliceFilter))
      by (apply (sk_extra_listed _ _ _ _ _ _ HS); now split).
    apply (sk_extra_unindexed _ _ _ _ _ _ HS) in Hx. congruence.
Qed.

Lemma skD_names (sD : SchemaDefAccess) (data : DataById) (sliceFilter : string)
  (sliceIndex : SliceIndex) (p : PItem) (vs : list Value) :
  singleKeySlicing sD data sliceFilter sliceIndex p vs ->
  NoDup (map (fun e : string * list string => getSchemaName sD (fst e))
           (skDOf data sliceIndex p)).
Proof.
  intros HS.
  assert (Hk : NoDup (dkeys (skDOf data sliceIndex p)))
    by exact (NoDup_dkeys_skDOf _ _ _ (sk_index _ _ _ _ _ _ HS)).
  replace (map (fun e : string * list string => getSchemaName sD (fst e))
             (skDOf data sliceIndex p))
    with (map (getSchemaName sD) (dkeys (skDOf data sliceIndex p)))
    by (unfold dkeys; now rewrite map_map).
  apply NoDup_map_on; [exact Hk|].
  intros T T' HT HT' Hn. unfold dkeys in HT, HT'.
  apply in_map_iff in HT as [[T1 c1] [<- H1]]. apply in_map_iff in HT' as [[T2 c2] [<- H2]].
  simpl in *.
  destruct (skD_member _ _ _ _ _ _ _ _ HS H1) as [_ [r1 [_ [_ [_ [Hd1 _]]]]]].
  destruct (skD_member _ _ _ _ _ _ _ _ HS H2) as [_ [r2 [_ [_ [_ [Hd2 _]]]]]].
  exact (proj1 (name_sole sD data T1 T2 r1 r2 (sk_names _ _ _ _ _ _ HS) Hd1 Hd2 Hn)).
Qed.

Lemma content_expected (sD : SchemaDefAccess) (data : DataById) (sliceFilter : string)
  (sliceIndex : SliceIndex) (p : PItem) (vs : list Value) :
  singleKeySlicing sD data sliceFilter sliceIndex p vs ->
  forall v n, In v vs ->
    contentAfter sD data sliceFilter (fun _ m => extraEntry sD data sliceFilter m)
      (skDOf data sliceIndex p) v n
    = expectedEntry sD data sliceFilter sliceIndex [(p, v)] n.
Proof.
  intros HS v n Hv.
  pose proof (sk_names _ _ _ _ _ _ HS) as Hnames.
  assert (Hkeys : NoDup (dkeys data)) by exact (NoDup_map_fst_inv _ _ Hnames).
  destruct (sk_truthy _ _ _ _ _ _ HS v Hv) as [Htr _].
  unfold contentAfter.
  destruct (find (fun e : string * list string => String.eqb (getSchemaName sD (fst e)) n)
              (skDOf data sliceIndex p)) as [[T cL]|] eqn:Ef.
  - apply find_some in Ef as [Hin Hn]. simpl in Hn. apply String.eqb_eq in Hn.
    destruct (skD_member _ _ _ _ _ _ _ _ HS Hin)
      as [entry [rows [HT [Hp [Hm [Hd [Hrows Hne]]]]]]].
    unfold expectedEntry. rewrite <- Hn, (find_by_name sD data T rows Hnames Hd).
    cbn [fst snd]. unfold dmem at 1. rewrite HT. cbn [negb andb].
    unfold tableContent. cbn [fst snd]. rewrite Hrows.
    unfold ReShape.slicedRows. rewrite Hne. cbn [orb].
    rewrite (filter_ext (hit cL v) (fun iRowD => ReShape.inSlice T sliceIndex iRowD [(p, v)]))
      by (intros r; now apply (hit_inSlice sliceIndex T entry p cL v r)).
    destruct (sk_shape _ _ _ _ _ _ HS T entry v HT Hm Hv) as [Hmand Hunit].
    rewrite Hrows in Hmand, Hunit.
    apply placeAll_collapse.
    + intros Hx Hnil. apply map_eq_nil in Hnil. now apply Hmand.
    + intros Hx. rewrite length_map. now apply Hunit.
  - unfold extraEntry, expectedEntry.
    destruct (find (fun kv : string * list Row => String.eqb (getSchemaName sD (fst kv)) n) data)
      as [[T rows]|] eqn:Ed; [|reflexivity].
    apply find_some in Ed as [Hd Hn]. simpl in Hn. apply String.eqb_eq in Hn.
    cbn [fst snd].
    assert (Hg : dget T data = Some rows) by exact (In_dget_NoDup _ _ _ Hkeys Hd).
    assert (Hm : dmem T data = true) by (unfold dmem; now rewrite Hg).
    assert (Hrows : rowsOfTable data T = rows) by (unfold rowsOfTable; now rewrite Hg).
    destruct (isSliceExtra (getSchemaObject sD T) sliceFilter) eqn:Ee.
    + rewrite andb_false_r. unfold ReShape.slicedRows. rewrite Ee. cbn [orb].
      replace (filter (fun _ : Row => true) rows) with rows; [reflexivity|].
      clear. induction rows as [|r rest IH]; simpl; [reflexivity|]. now rewrite <- IH.
    + rewrite andb_true_r. unfold dmem at 1.
      destruct (dget T sliceIndex) as [entry|] eqn:HT; cbn [negb]; [|reflexivity].
      assert (Hp : dget p entry = None).
      { destruct (dget p entry) as [cL|] eqn:Hp; [|reflexivity]. exfalso.
        assert (Hin : In (T, cL) (skDOf data sliceIndex p)).
        { apply In_skDOf. exists entry. repeat split; auto. now apply dget_Some_In. }
        pose proof (proj1 (find_none_iff _ _) Ef (T, cL) Hin) as Hf. simpl in Hf.
        rewrite Hn, String.eqb_refl in Hf. discriminate. }
      assert (Hkept : filter (fun iRowD => ReShape.inSlice T sliceIndex iRowD [(p, v)]) rows
                      = []).
      { clear -HT Hp. induction rows as [|r rest IH]; simpl; [reflexivity|].
        unfold ReShape.inSlice at 1. rewrite HT. simpl. rewrite Hp. exact IH. }
      destruct (sk_shape _ _ _ _ _ _ HS T entry v HT Hm Hv) as [Hmand _].
      rewrite Hrows, Hkept in Hmand.
      unfold ReShape.slicedRows. rewrite Ee. cbn [orb]. rewrite Hkept. simpl.
      unfold collapseOpt. simpl.
      destruct (isMandatory (getSchemaObject sD T)); [|reflexivity].
      exfalso. now apply Hmand.
Qed.

Lemma onePassRetV_expected (sD : SchemaDefAccess) (data : DataById) (sliceFilter : string)
  (sliceIndex : SliceIndex) (p : PItem) (vs : list Value) :
  singleKeySlicing sD data sliceFilter sliceIndex p vs ->
  exists retV,
    ReShape.onePassRetV sD data sliceFilter sliceIndex = Ok retV /\
    Rep vs retV (fun v n => expectedEntry sD data sliceFilter sliceIndex [(p, v)] n).
Proof.
  intros HS.
  pose proof (sk_names _ _ _ _ _ _ HS) as Hnames.
  pose proof (sk_distinct _ _ _ _ _ _ HS) as Hnd.
  unfold ReShape.onePassRetV. rewrite (sk_values _ _ _ _ _ _ HS). cbn [bind].
  rewrite collectPVals_single by (intros v Hv; apply (sk_truthy _ _ _ _ _ _ HS v Hv)).
  cbn [bind].
  assert (Hnext : exists v0, @ReShape.next (list PVal) (map (fun v => [(p, v)]) vs)
                             = Ok [(p, v0)]).
  { pose proof (sk_some _ _ _ _ _ _ HS) as Hne. destruct vs as [|v0 rest]; [congruence|].
    exists v0. reflexivity. }
  destruct Hnext as [v0 Hnext]. rewrite Hnext. cbn [bind].
  assert (Hsk : ReShape.singleKeyAtD data sliceIndex [(p, v0)] = skDOf data sliceIndex p).
  { unfold ReShape.singleKeyAtD. cbn [fold_left fst].
    rewrite singleKeyStep_fresh; [reflexivity|]. exact (sk_index _ _ _ _ _ _ HS). }
  rewrite Hsk.
  pose proof (sk_extra_listed _ _ _ _ _ _ HS) as Hex.
  remember (getSliceExtraSchemaIds sD sliceFilter) as extraL eqn:El.
  destruct (extras_lookup sD data sliceFilter extraL Hnames Hex) as [rD [Hfold Hlook]].
  assert (Hstart : exists retV1,
             match extraL with
             | [] => Ok (fold_left (fun d k => dset k ([] : Doc) d) vs [])
             | _ :: _ =>
                 rD0 <- foldM (ReShape.extraStepV sD data sliceFilter) extraL [] ;;
                 Ok (fold_left (fun d pv => dset pv rD0 d) vs
                       (fold_left (fun d k => dset k ([] : Doc) d) vs []))
             end = Ok retV1 /\
             Rep vs retV1 (fun _ m => extraEntry sD data sliceFilter m)).
  { rewrite Hfold. cbn [bind]. clear El Hex.
    destruct extraL as [|T0 more].
    - eexists; split; [reflexivity|]. simpl in Hfold. injection Hfold as <-.
      apply (Rep_ext vs _ (fun _ _ => None)); [|exact (Rep_start vs [] false Hnd)].
      intros v n _. rewrite <- Hlook. reflexivity.
    - eexists; split; [reflexivity|].
      apply (Rep_ext vs _ (fun _ n => dget n rD)); [|exact (Rep_start vs rD true Hnd)].
      intros v n _. apply Hlook. }
  destruct Hstart as [retV1 [Hret1 Hrep1]].
  match goal with
  | |- exists retV, bind ?m _ = _ /\ _ =>
      replace m with (@Ok ReShape.RetV retV1) by (symmetry; exact Hret1)
  end.
  cbn [bind].
  destruct (tables_Rep sD data sliceFilter vs (fun _ m => extraEntry sD data sliceFilter m)
              (skDOf data sliceIndex p) [] retV1) as [retV [Hrun Hrep]].
  - exact (skD_names _ _ _ _ _ _ HS).
  - intros [T cL] Hin. cbn [fst snd].
    destruct (skD_member _ _ _ _ _ _ _ _ HS Hin)
      as [entry [rows [HT [Hp [Hm [Hd [Hrows Hne]]]]]]].
    split; [exact Hm|]. split; [exact (sk_children _ _ _ _ _ _ HS T entry cL HT Hp)|].
    intros v _. unfold extraEntry. rewrite (find_by_name sD data T rows Hnames Hd).
    cbn [fst]. rewrite Hne. reflexivity.
  - exact Hrep1.
  - exists retV. split; [exact Hrun|].
    apply (Rep_ext vs retV _ _ (content_expected _ _ _ _ _ _ HS) Hrep).
Qed.

Lemma Forall2_items {K V : Type} (d : dict K V) :
  Forall2 (fun x k => In (k, x) d) (dvalues d) (dkeys d).
Proof.
  unfold dvalues, dkeys. induction d as [|[k x] rest IH]; simpl; constructor.
  - now left.
  - eapply Forall2_impl; [|exact IH]. intros a b Hab. now right.
Qed.

Lemma Forall2_map_right {A B C : Type} (R : A -> C -> Prop) (f : B -> C)
  (l : list A) (l' : list B) :
  Forall2 (fun a b => R a (f b)) l l' -> Forall2 R l (map f l').
Proof. induction 1; simpl; constructor; auto. Qed.

Lemma namesApart_of_slicing (sD : SchemaDefAccess) (data : DataById) (sliceFilter : string)
  (sliceIndex : SliceIndex) (p : PItem) (vs : list Value) :
  singleKeySlicing sD data sliceFilter sliceIndex p vs ->
  namesApart sD data sliceFilter sliceIndex.
Proof.
  intros HS T T' HT Hm HT' Hn.
  pose proof (sk_extra_unindexed _ _ _ _ _ _ HS T' HT') as Hnone.
  apply (sk_extra_listed _ _ _ _ _ _ HS) in HT' as [Hm' _].
  destruct (dmem_In data T Hm) as [rows [_ Hd]].
  destruct (dmem_In data T' Hm') as [rows' [_ Hd']].
  destruct (name_sole sD data T T' rows rows' (sk_names _ _ _ _ _ _ HS) Hd Hd' Hn) as [-> _].
  apply dget_None_notin in Hnone. contradiction.
Qed.

(** X29. For a slice filter with one parent item whose enumerated
    values are pairwise distinct, hashable and true as conditions, over a
    record set with distinct table names where the slice-extra tables are
    present and not slice-indexed, child values that are true are parent
    values, and every slice holds a row of each mandatory table and at
    most one row of each unit-cardinality table: the one-pass partitioner
    returns, and its documents are, position by position, equal as
    dictionaries to those of one call of the per-tuple partitioner for each
    enumerated value. *)
Theorem X29_one_pass_agrees_on_single_key_slicings
  (sD : SchemaDefAccess) (data : DataById)
  (sliceFilter : string) (sliceIndex : SliceIndex) (p : PItem) (vs : list Value) :
  singleKeySlicing sD data sliceFilter sliceIndex p vs ->
  exists docs1 docsN,
    ReShape.onePassDocs sD data sliceFilter sliceIndex = Ok docs1 /\
    ReShape.naiveDocs sD data sliceFilter sliceIndex = Ok docsN /\
    Forall2 docEquiv docs1 docsN.
Proof.
  intros HS.
  destruct (onePassRetV_expected _ _ _ _ _ _ HS) as [retV [HV [Hk Hrep]]].
  pose proof (onePass_simulation sD data sliceFilter sliceIndex
                (namesApart_of_slicing _ _ _ _ _ _ HS)) as Hsim.
  unfold ReShape.onePassDocs, ReShape.sliceRowwiseByNameWithCardOnePass,
    ReShape.naiveDocs.
  rewrite (sk_values _ _ _ _ _ _ HS). cbn [bind].
  destruct (ReShape.onePassRetD sD data sliceFilter sliceIndex) as [[h retD]|e];
    [|congruence].
  cbn [bind fst snd] in *. rewrite HV in Hsim. injection Hsim as ->.
  eexists; eexists. split; [reflexivity|]. split; [reflexivity|].
  rewrite map_map.
  replace (map (ReShape.reifyDoc h) (dvalues retD))
    with (dvalues (ReShape.viewRet h retD))
    by (unfold dvalues, ReShape.viewRet; rewrite !map_map; reflexivity).
  apply (Forall2_map_right docEquiv
           (fun v => ReShape.sliceRowwiseByNameWithCard sD data sliceFilter [(p, v)]
                       sliceIndex)).
  rewrite <- Hk. eapply Forall2_impl; [|apply Forall2_items].
  intros doc v Hin n. cbn beta.
  assert (Hv : In v vs).
  { rewrite <- Hk. unfold dkeys. apply in_map_iff. exists (v, doc). now split. }
  destruct (Hrep v Hv) as [doc' [Hg Hn]].
  assert (Hnd : NoDup (dkeys (ReShape.viewRet h retD)))
    by (rewrite Hk; exact (sk_distinct _ _ _ _ _ _ HS)).
  rewrite (In_dget_NoDup _ _ _ Hnd Hin) in Hg. injection Hg as <-.
  rewrite Hn. symmetry. apply sliceRowwiseByNameWithCard_lookup.
  exact (sk_names _ _ _ _ _ _ HS).
Qed.

Lemma X29_one_pass_agrees_on_single_key_slicings_witness :
  singleKeySlicing Ex.sDmandatory Ex.dataFull "ENTITY" Ex.polyIndex Ex.entityId
    [VStr "1"; VStr "2"] /\
  exists docs1 docsN,
    ReShape.onePassDocs Ex.sDmandatory Ex.dataFull "ENTITY" Ex.polyIndex = Ok docs1 /\
    ReShape.naiveDocs Ex.sDmandatory Ex.dataFull "ENTITY" Ex.polyIndex = Ok docsN /\
    Forall2 docEquiv docs1 docsN.
Proof.
  assert (HS : singleKeySlicing Ex.sDmandatory Ex.dataFull "ENTITY" Ex.polyIndex
                 Ex.entityId [VStr "1"; VStr "2"]).
  { constructor.
    - reflexivity.
    - vm_compute. reflexivity.
    - discriminate.
    - constructor; [intros [H|[]]; discriminate H|].
      constructor; [intros []|constructor].
    - intros v [<-|[<-|[]]]; split; reflexivity.
    - vm_compute. constructor; [intros [H|[H|[]]]; discriminate H|].
      constructor; [intros [H|[]]; discriminate H|].
      constructor; [intros []|constructor].
    - constructor; [intros []|constructor].
    - intros T. split.
      + intros [<-|[]]. split; reflexivity.
      + intros [_ H]. change (Ex.among T ["ENTRY"] = true) in H.
        unfold Ex.among in H. simpl in H. rewrite orb_false_r in H.
        apply String.eqb_eq in H. left. symmetry. exact H.
    - intros T [<-|[]]. reflexivity.
    - intros T entry cAtIds HT Hp.
      change (dget T Ex.polyIndex)
        with (if String.eqb T "ENTITY_POLY"
              then Some [(Ex.entityId, ["ENTITY_ID"])] else None) in HT.
      destruct (String.eqb T "ENTITY_POLY") eqn:E; [|discriminate HT].
      apply String.eqb_eq in E. subst T. injection HT as <-.
      vm_compute in Hp. injection Hp as <-.
      intros iRowD [<-|[<-|[]]]; (split; [reflexivity|]);
        intros rv [<-|[]] _; simpl; auto.
    - intros T entry v HT Hm Hv.
      change (dget T Ex.polyIndex)
        with (if String.eqb T "ENTITY_POLY"
              then Some [(Ex.entityId, ["ENTITY_ID"])] else None) in HT.
      destruct (String.eqb T "ENTITY_POLY") eqn:E; [|discriminate HT].
      apply String.eqb_eq in E. subst T.
      destruct Hv as [<-|[<-|[]]]; cbv zeta; split; intros _; vm_compute;
        solve [discriminate | lia]. }
  split; [exact HS|].
  exact (X29_one_pass_agrees_on_single_key_slicings _ _ _ _ _ _ HS).
Defined.

(** C2. The one-pass partitioner does not return what the per-tuple
    partitioner returns.  Where the mandatory table ENTITY_POLY has no row
    for entity 2, the per-tuple partitioner stores the empty list under
    [entity_poly] in the partition of entity 2, as the slice-extra loop of
    the one-pass partitioner itself does for a mandatory table, but the
    one-pass partitioner stores nothing there.  Where a parent filter
    keeps the polymer entities only, the per-tuple partitioner returns the
    partition of entity 1, but the one-pass partitioner raises [KeyError]
    on the ENTITY_POLY row of entity 2, whose value is no key of [retD]. *)
Theorem C2_one_pass_diverges_from_per_tuple :
  (exists docs1 docsN,
     ReShape.onePassDocs Ex.sDmandatory Ex.data "ENTITY" Ex.polyIndex = Ok docs1 /\
     ReShape.naiveDocs Ex.sDmandatory Ex.data "ENTITY" Ex.polyIndex = Ok docsN /\
     nth_error docs1 1 = Some [("entry", SRow [("id", VStr "1ABC")])] /\
     nth_error docsN 1 = Some [("entry", SRow [("id", VStr "1ABC")]);
                               ("entity_poly", SRows [])] /\
     ~ Forall2 docEquiv docs1 docsN) /\
  ReShape.onePassDocs Ex.sDfiltered Ex.dataFull "ENTITY" Ex.polyIndex = Raise KeyError /\
  ReShape.applySlicedShape Ex.sDfiltered Ex.dataFull "rowwise_by_name_with_cardinality"
    (Some "ENTITY") = Raise KeyError /\
  ReShape.naiveDocs Ex.sDfiltered Ex.dataFull "ENTITY" Ex.polyIndex
  = Ok [[("entry", SRow [("id", VStr "1ABC")]);
         ("entity_poly", SRows [[("entity_id", VStr "1"); ("seq", VStr "ACD")]])]].
Proof.
  split; [|repeat split; vm_compute; reflexivity].
  eexists; eexists. split; [vm_compute; reflexivity|]. split; [vm_compute; reflexivity|].
  split; [reflexivity|]. split; [reflexivity|].
  intros HF. inversion HF as [|d1 dn l1 ln _ Ht]; subst.
  inversion Ht as [|d2 dn2 l2 ln2 H2 _]; subst.
  specialize (H2 "entity_poly"). vm_compute in H2. discriminate H2.
Qed.

(** ** The iterator protocol of [SliceValues] *)

Lemma pyIndex_nat {A : Type} (l : list A) (n : nat) :
  ReShape.pyIndex l (Z.of_nat n) = nth_error l n.
Proof.
  unfold ReShape.pyIndex.
  destruct (0 <=? Z.of_nat n)%Z eqn:E; [|apply Z.leb_gt in E; lia].
  now rewrite Nat2Z.id.
Qed.

Lemma forEach_from (data : list (list PVal)) (done rest : list (list PVal)) (fuel : nat) :
  data = done ++ rest -> length rest < fuel ->
  ReShape.forEach fuel {| ReShape.sv_data := data; ReShape.sv_index := Z.of_nat (length done) |}
  = Some (Ok rest, {| ReShape.sv_data := data; ReShape.sv_index := Z.of_nat (length data) |}).
Proof.
  revert done fuel. induction rest as [|x rest IH]; intros done fuel Hd Hf.
  - destruct fuel as [|fuel]; [simpl in Hf; lia|]. simpl.
    unfold ReShape.__next__. cbn [ReShape.sv_data ReShape.sv_index].
    rewrite pyIndex_nat. rewrite app_nil_r in Hd. subst done.
    rewrite (proj2 (nth_error_None data (length data))) by lia. reflexivity.
  - destruct fuel as [|fuel]; [simpl in Hf; lia|]. simpl in Hf.
    cbn [ReShape.forEach]. unfold ReShape.__next__ at 1.
    cbn [ReShape.sv_data ReShape.sv_index]. rewrite pyIndex_nat.
    assert (Hn : nth_error data (length done) = Some x).
    { subst data. rewrite nth_error_app2 by lia. now rewrite Nat.sub_diag. }
    rewrite Hn.
    replace (Z.of_nat (length done) + 1)%Z with (Z.of_nat (length (done ++ [x])))
      by (rewrite length_app; simpl; lia).
    rewrite (IH (done ++ [x]) fuel); [reflexivity | | lia].
    rewrite <- app_assoc. exact Hd.
Qed.

(** X1. A [for] loop over a new [SliceValues] object visits the
    enumerated tuples in order, each once, and ends; the object is then
    exhausted: a second loop over it visits nothing. *)
Theorem X1_for_loop_visits_data_once (data : list (list PVal)) (fuel : nat) :
  length data < fuel ->
  ReShape.forEach fuel (ReShape.newSliceValues data)
  = Some (Ok data, {| ReShape.sv_data := data; ReShape.sv_index := Z.of_nat (length data) |}) /\
  ReShape.forEach fuel {| ReShape.sv_data := data; ReShape.sv_index := Z.of_nat (length data) |}
  = Some (Ok [], {| ReShape.sv_data := data; ReShape.sv_index := Z.of_nat (length data) |}).
Proof.
  intros Hf. split.
  - apply (forEach_from data [] data fuel); [reflexivity | exact Hf].
  - apply (forEach_from data data [] fuel); [now rewrite app_nil_r | simpl; lia].
Qed.

Lemma X1_for_loop_visits_data_once_witness :
  ReShape.forEach 3 (ReShape.newSliceValues
                       [[(Ex.entityId, VStr "1")]; [(Ex.entityId, VStr "2")]])
  = Some (Ok [[(Ex.entityId, VStr "1")]; [(Ex.entityId, VStr "2")]],
          {| ReShape.sv_data := [[(Ex.entityId, VStr "1")]; [(Ex.entityId, VStr "2")]];
             ReShape.sv_index := 2 |}).
Proof.
  apply (X1_for_loop_visits_data_once
           [[(Ex.entityId, VStr "1")]; [(Ex.entityId, VStr "2")]] 3).
  simpl. lia.
Defined.

(** X2. With a non-negative index, [__prev__] undoes [__next__]: it
    returns the tuple [__next__] returned and puts the index back. *)
Theorem X2_prev_undoes_next (self self' : ReShape.SliceValuesObj) (x : list PVal) :
  (0 <= ReShape.sv_index self)%Z ->
  ReShape.__next__ self = (Ok x, self') ->
  ReShape.__prev__ self' = (Ok x, self).
Proof.
  intros Hi. unfold ReShape.__next__.
  destruct (ReShape.pyIndex (ReShape.sv_data self) (ReShape.sv_index self)) as [r|] eqn:E;
    [|discriminate].
  intros [= <- <-]. unfold ReShape.__prev__. cbn [ReShape.sv_data ReShape.sv_index].
  replace (ReShape.sv_index self + 1 - 1)%Z with (ReShape.sv_index self) by lia.
  destruct (ReShape.sv_index self <? 0)%Z eqn:El; [apply Z.ltb_lt in El; lia|].
  rewrite E. destruct self; reflexivity.
Qed.

Lemma X2_prev_undoes_next_witness :
  ReShape.__prev__ {| ReShape.sv_data := [[(Ex.entityId, VStr "1")]]; ReShape.sv_index := 1 |}
  = (Ok [(Ex.entityId, VStr "1")], ReShape.newSliceValues [[(Ex.entityId, VStr "1")]]).
Proof.
  apply (X2_prev_undoes_next (ReShape.newSliceValues [[(Ex.entityId, VStr "1")]])).
  - simpl. lia.
  - reflexivity.
Defined.

(** X3. [__prev__] on a new object raises [StopIteration] but leaves the
    index at -1, so the following [__next__] returns the last enumerated
    tuple, not the first. *)
Theorem X3_prev_at_start_wraps_around (data : list (list PVal)) (d : list PVal) :
  data <> [] ->
  ReShape.__prev__ (ReShape.newSliceValues data)
  = (Raise StopIteration, {| ReShape.sv_data := data; ReShape.sv_index := (-1)%Z |}) /\
  ReShape.__next__ {| ReShape.sv_data := data; ReShape.sv_index := (-1)%Z |}
  = (Ok (last data d), ReShape.newSliceValues data).
Proof.
  intros Hne. split; [reflexivity|].
  unfold ReShape.__next__, ReShape.pyIndex. cbn [ReShape.sv_data ReShape.sv_index].
  destruct (0 <=? -1)%Z eqn:E0; [apply Z.leb_le in E0; lia|].
  destruct (- Z.of_nat (length data) <=? -1)%Z eqn:E1.
  - replace (Z.to_nat (Z.of_nat (length data) + -1)) with (length data - 1) by lia.
    assert (Hl : nth_error data (length data - 1) = Some (last data d)).
    { destruct (exists_last Hne) as [front [x Hx]]. subst data.
      rewrite last_last, length_app. simpl.
      rewrite nth_error_app2 by lia.
      replace (length front + 1 - 1 - length front) with 0 by lia. reflexivity. }
    rewrite Hl. reflexivity.
  - apply Z.leb_gt in E1. destruct data; [congruence | simpl in E1; lia].
Qed.

Lemma X3_prev_at_start_wraps_around_witness :
  ReShape.__next__ {| ReShape.sv_data := [[(Ex.entityId, VStr "1")]; [(Ex.entityId, VStr "2")]];
                      ReShape.sv_index := (-1)%Z |}
  = (Ok [(Ex.entityId, VStr "2")],
     ReShape.newSliceValues [[(Ex.entityId, VStr "1")]; [(Ex.entityId, VStr "2")]]).
Proof.
  apply (X3_prev_at_start_wraps_around
           [[(Ex.entityId, VStr "1")]; [(Ex.entityId, VStr "2")]] []).
  discriminate.
Defined.

(** ** Edge cases of the enumeration *)

Lemma testFilter_foreign (rowD : Row) (catId : string) (filters : list ParentFilter)
  (f : ParentFilter) :
  In f filters -> pf_category f <> catId -> ReShape.testFilter rowD catId filters = false.
Proof.
  intros Hin Hne. induction filters as [|g rest IH]; [destruct Hin|]. simpl.
  destruct (String.eqb catId (pf_category g)) eqn:E; simpl; [|reflexivity].
  destruct Hin as [-> | Hin].
  - apply String.eqb_eq in E. congruence.
  - destruct (dget (pf_attribute g) rowD) as [v|]; [|reflexivity].
    destruct (existsb (value_eqb v) (pf_values g)); [now apply IH | reflexivity].
Qed.

Lemma parentVals_foreign (catId atId : string) (filters : list ParentFilter)
  (f : ParentFilter) (rows : list Row) :
  In f filters -> pf_category f <> catId ->
  ReShape.parentVals catId atId filters rows = Ok [].
Proof.
  intros Hin Hne. induction rows as [|rowD rest IH]; simpl; [reflexivity|].
  now rewrite (testFilter_foreign rowD catId filters f Hin Hne).
Qed.

Lemma parentValueDict_lookup (data : DataById) (filters : list ParentFilter)
  (P : PItem -> list PVal -> Prop) (items : list PItem) :
  (forall catId atId vals,
     match dget catId data with
     | Some rows => ReShape.parentVals catId atId filters rows
     | None => Ok []
     end = Ok vals -> P (catId, atId) vals) ->
  forall vD0 vD p,
    ReShape.parentValueDict data filters items vD0 = Ok vD ->
    In p items \/ (exists vals, dget p vD0 = Some vals /\ P p vals) ->
    exists vals, dget p vD = Some vals /\ P p vals.
Proof.
  intros HP. induction items as [|[catId atId] rest IH]; intros vD0 vD p; simpl.
  - intros [= <-] [[] | H]. exact H.
  - destruct (match dget catId data with
              | Some rows => ReShape.parentVals catId atId filters rows
              | None => Ok []
              end) as [vals|e] eqn:Ev; simpl; [|discriminate].
    intros Hrun Hp. apply (IH _ _ p Hrun).
    destruct (keqb p (catId, atId)) eqn:E.
    + apply keqb_eq in E. subst p. right. exists vals. split.
      * apply dget_dset_eq.
      * now apply HP.
    + destruct Hp as [[Heq | Hin] | [vals0 [Hg HP0]]].
      * subst p. rewrite keqb_refl in E. discriminate.
      * now left.
      * right. exists vals0. split; [|exact HP0].
        rewrite dget_dset, E. exact Hg.
Qed.

Lemma product_with_nil {A : Type} (ls : list (list A)) :
  In [] ls -> ReShape.product ls = [].
Proof.
  induction ls as [|l rest IH]; simpl; [tauto|].
  intros [-> | Hin]; [reflexivity|].
  rewrite (IH Hin). clear. induction l as [|x l IH]; simpl; auto.
Qed.

(** X4. A parent filter naming a category other than that of a parent
    item lets no row of that item take part, so the enumeration is empty
    whenever it is built: one such filter blocks slicing altogether. *)
Theorem X4_foreign_parent_filter_blocks_slicing (sD : SchemaDefAccess) (data : DataById)
  (sliceFilter : string) (p : PItem) (f : ParentFilter) (svs : list (list PVal)) :
  In p (getSliceParentItems sD sliceFilter) ->
  In f (getSliceParentFilters sD sliceFilter) ->
  pf_category f <> fst p ->
  ReShape.SliceValues sD data sliceFilter = Ok svs ->
  svs = [].
Proof.
  intros Hp Hf Hne. unfold ReShape.SliceValues.
  destruct (ReShape.parentValueDict data (getSliceParentFilters sD sliceFilter)
              (getSliceParentItems sD sliceFilter) []) as [vD|e] eqn:Ev; simpl;
    [|discriminate].
  intros [= <-].
  destruct (parentValueDict_lookup data (getSliceParentFilters sD sliceFilter)
              (fun q vals => In f (getSliceParentFilters sD sliceFilter) ->
                             pf_category f <> fst q -> vals = [])
              (getSliceParentItems sD sliceFilter)) with (vD0 := @nil (PItem * list PVal))
              (vD := vD) (p := p) as [vals [Hg Hvals]].
  - intros catId atId vals Hrun Hin Hcat. simpl in Hcat.
    destruct (dget catId data) as [rows|].
    + rewrite (parentVals_foreign catId atId _ f rows Hin Hcat) in Hrun. congruence.
    + congruence.
  - exact Ev.
  - now left.
  - rewrite (Hvals Hf Hne) in Hg. apply product_with_nil.
    apply dget_Some_In in Hg. unfold dvalues.
    change (@nil PVal) with (snd (p, @nil PVal)). now apply in_map.
Qed.

Lemma X4_foreign_parent_filter_blocks_slicing_witness :
  exists svs, ReShape.SliceValues Ex.sDforeign Ex.data "ENTITY" = Ok svs /\ svs = [].
Proof.
  exists []. split; [vm_compute; reflexivity|].
  apply (X4_foreign_parent_filter_blocks_slicing Ex.sDforeign Ex.data "ENTITY" Ex.entityId
           {| pf_category := "ENTRY"; pf_attribute := "ID"; pf_values := [VStr "1ABC"] |}).
  - simpl. auto.
  - simpl. auto.
  - simpl. discriminate.
  - vm_compute. reflexivity.
Defined.

(** X5. When the enumeration is empty (no row of a parent category takes
    part), [applySlicedShape] with a slice filter returns no partition for
    the per-tuple styles, and raises [StopIteration] for the style
    [rowwise_by_name_with_cardinality], whose one-pass partitioner reads
    the first tuple. *)
Theorem X5_empty_enumeration (sD : SchemaDefAccess) (data : DataById)
  (styleType sliceFilter : string) :
  String.eqb sliceFilter "" = false ->
  ReShape.SliceValues sD data sliceFilter = Ok [] ->
  ReShape.applySlicedShape sD data styleType (Some sliceFilter)
  = if String.eqb styleType "rowwise_by_name_with_cardinality"
    then Raise StopIteration else Ok [].
Proof.
  intros Hsf Hsv. unfold ReShape.applySlicedShape. rewrite Hsf, Hsv. cbn [bind].
  destruct (String.eqb styleType "rowwise_by_name_with_cardinality"); [|reflexivity].
  unfold ReShape.onePassDocs, ReShape.sliceRowwiseByNameWithCardOnePass,
    ReShape.onePassRetD.
  rewrite Hsv. reflexivity.
Qed.

Lemma X5_empty_enumeration_witness :
  ReShape.applySlicedShape Ex.sD Ex.dataNoParent "rowwise_by_name" (Some "ENTITY") = Ok [].
Proof.
  apply (X5_empty_enumeration Ex.sD Ex.dataNoParent "rowwise_by_name" "ENTITY").
  - reflexivity.
  - vm_compute. reflexivity.
Defined.

Lemma extraSteps_return (sD : SchemaDefAccess) (data : DataById) (sliceFilter : string)
  (extraL : list string) :
  (forall T, In T extraL -> dmem T data = true) ->
  forall st, exists st', foldM (ReShape.extraStep sD data sliceFilter) extraL st = Ok st'.
Proof.
  induction extraL as [|T rest IH]; intros Hm st; simpl; [eauto|].
  assert (Hstep : exists st1, ReShape.extraStep sD data sliceFilter st T = Ok st1).
  { unfold ReShape.extraStep, dindex.
    assert (HT : dmem T data = true) by (apply Hm; now left).
    unfold dmem in HT. destruct (dget T data) as [rows|]; [|discriminate]. cbn [bind].
    destruct (ReShape.allocRows (getSchemaObject sD T) rows (fst st)) as [refs h1].
    destruct ((length refs <? 1)%nat && negb (isMandatory (getSchemaObject sD T)));
      [eauto|].
    destruct refs as [|a [|b more]];
      try destruct (hasSliceUnitCardinality (getSchemaObject sD T) sliceFilter);
      unfold ReShape.alloc; eauto. }
  destruct Hstep as [st1 ->]. cbn [bind]. apply IH. intros T' HT'. apply Hm. now right.
Qed.

Lemma filter_all {A : Type} (f : A -> bool) (l : list A) :
  (forall x, In x l -> f x = true) -> filter f l = l.
Proof.
  induction l as [|x rest IH]; intros Hf; simpl; [reflexivity|].
  rewrite (Hf x) by now left. f_equal. apply IH. intros y Hy. apply Hf. now right.
Qed.

(** X6. A slice filter without parent items has the single empty tuple as
    its enumeration.  The per-tuple styles then return one partition, in
    which every slice-indexed table appears with all its rows; the
    one-pass partitioner of [rowwise_by_name_with_cardinality] returns no
    partition at all. *)
Theorem X6_no_parent_items (sD : SchemaDefAccess) (data : DataById) (sliceFilter : string) :
  String.eqb sliceFilter "" = false ->
  getSliceParentItems sD sliceFilter = [] ->
  (forall T, In T (getSliceExtraSchemaIds sD sliceFilter) -> dmem T data = true) ->
  ReShape.SliceValues sD data sliceFilter = Ok [[]] /\
  ReShape.applySlicedShape sD data "rowwise_by_name" (Some sliceFilter)
  = Ok [ReShape.sliceRowwiseByName sD data sliceFilter [] (getSliceIndex sD sliceFilter)] /\
  (forall T rows, dmem T (getSliceIndex sD sliceFilter) = true ->
     ReShape.slicedRows sD sliceFilter [] (getSliceIndex sD sliceFilter) T rows
     = map (ReShape.renameRow (getSchemaObject sD T)) rows) /\
  ReShape.applySlicedShape sD data "rowwise_by_name_with_cardinality" (Some sliceFilter)
  = Ok [].
Proof.
  intros Hsf Hitems Hextra.
  assert (Hsv : ReShape.SliceValues sD data sliceFilter = Ok [[]]).
  { unfold ReShape.SliceValues. rewrite Hitems. reflexivity. }
  split; [exact Hsv|]. split; [|split].
  - unfold ReShape.applySlicedShape. rewrite Hsf, Hsv. reflexivity.
  - intros T rows HT. unfold ReShape.slicedRows. f_equal. apply filter_all.
    intros r _. unfold ReShape.inSlice, dmem in *.
    destruct (dget T (getSliceIndex sD sliceFilter)); [|discriminate].
    apply orb_true_r.
  - unfold ReShape.applySlicedShape. rewrite Hsf, Hsv. cbn [bind String.eqb].
    replace (String.eqb "rowwise_by_name_with_cardinality" "rowwise_by_name_with_cardinality")
      with true by reflexivity.
    unfold ReShape.onePassDocs, ReShape.sliceRowwiseByNameWithCardOnePass,
      ReShape.onePassRetD.
    rewrite Hsv. cbn [bind ReShape.collectPVals forallb map app ReShape.next
                      ReShape.singleKeyAtD fold_left].
    destruct (getSliceExtraSchemaIds sD sliceFilter) as [|T0 more] eqn:El.
    + reflexivity.
    + destruct (extraSteps_return sD data sliceFilter (T0 :: more) Hextra ([], []))
        as [st' Hst].
      rewrite Hst. reflexivity.
Qed.

Lemma X6_no_parent_items_witness :
  ReShape.applySlicedShape Ex.sDnoItems Ex.data "rowwise_by_name_with_cardinality"
    (Some "ENTITY") = Ok [] /\
  ReShape.applySlicedShape Ex.sDnoItems Ex.data "rowwise_by_name" (Some "ENTITY")
  = Ok [[("entry", SRows [[("id", VStr "1ABC")]]);
         ("entity_poly", SRows [[("entity_id", VStr "1"); ("seq", VStr "ACD")]])]].
Proof.
  destruct (X6_no_parent_items Ex.sDnoItems Ex.data "ENTITY") as [_ [Hone [_ Hcard]]].
  - reflexivity.
  - reflexivity.
  - intros T [<- | []]. reflexivity.
  - split; [exact Hcard|]. rewrite Hone. vm_compute. reflexivity.
Defined.

(** ** The layouts *)

Lemma map_const_repeat {A B : Type} (y : B) (l : list A) :
  map (fun _ => y) l = repeat y (length l).
Proof. induction l as [|x rest IH]; simpl; [reflexivity | now rewrite IH]. Qed.

(** X7. For a style other than the three by-name styles
    ([rowwise_no_name], [rowwise_by_id], an unknown style) the slice
    filter only sets the number of documents: every partition returned by
    [applySlicedShape] is the reshaping of the whole record set. *)
Theorem X7_slices_of_other_styles_are_whole (sD : SchemaDefAccess) (data : DataById)
  (styleType sliceFilter : string) (svs : list (list PVal)) :
  String.eqb sliceFilter "" = false ->
  String.eqb styleType "rowwise_by_name" = false ->
  String.eqb styleType "rowwise_by_name_with_cardinality" = false ->
  String.eqb styleType "columnwise_by_name" = false ->
  ReShape.SliceValues sD data sliceFilter = Ok svs ->
  ReShape.applySlicedShape sD data styleType (Some sliceFilter)
  = Ok (repeat (ReShape.applyShape sD data styleType) (length svs)).
Proof.
  intros Hsf H1 H2 H3 Hsv. unfold ReShape.applySlicedShape.
  rewrite Hsf, Hsv, H2. cbn [bind]. f_equal.
  rewrite <- map_const_repeat. apply map_ext. intros sv.
  unfold ReShape.reshapeSlicedSchemaData, ReShape.applyShape, ReShape.reshapeSchemaData.
  rewrite H1, H2, H3. reflexivity.
Qed.

Lemma X7_slices_of_other_styles_are_whole_witness :
  ReShape.applySlicedShape Ex.sD Ex.data "rowwise_by_id" (Some "ENTITY")
  = Ok [asById Ex.data; asById Ex.data].
Proof.
  apply (X7_slices_of_other_styles_are_whole Ex.sD Ex.data "rowwise_by_id" "ENTITY"
           [[(Ex.entityId, VStr "1")]; [(Ex.entityId, VStr "2")]]);
    vm_compute; reflexivity.
Defined.

Lemma mapM_raises {A B : Type} (g : A -> Exc B) (l : list A) (x : A) :
  In x l -> (exists e, g x = Raise e) -> exists e, mapM g l = Raise e.
Proof.
  induction l as [|y rest IH]; intros Hin Hx; [destruct Hin|]. simpl.
  destruct Hin as [-> | Hin].
  - destruct Hx as [e ->]. simpl. eauto.
  - destruct (g y) as [b|e]; simpl; [|eauto].
    destruct (IH Hin Hx) as [e ->]. simpl. eauto.
Qed.

Lemma foldM_raises {A S : Type} (f : S -> A -> Exc S) (l : list A) (x : A) :
  In x l -> (forall s, exists e, f s x = Raise e) ->
  forall s, exists e, foldM f l s = Raise e.
Proof.
  induction l as [|y rest IH]; intros Hin Hx s; [destruct Hin|]. simpl.
  destruct Hin as [-> | Hin].
  - destruct (Hx s) as [e ->]. simpl. eauto.
  - destruct (f s y) as [s'|e]; simpl; [|eauto]. now apply IH.
Qed.

Lemma positionalRows_raises (atIdList : list string) (rows : list Row)
  (row : Row) (atId : string) :
  In row rows -> In atId atIdList -> dget atId row = None ->
  exists e, positionalRows atIdList rows = Raise e.
Proof.
  intros Hr Ha Hg. unfold positionalRows.
  apply (mapM_raises _ rows row Hr).
  apply (mapM_raises _ atIdList atId Ha).
  unfold dindex. rewrite Hg. eauto.
Qed.

(** X8. The layout [rowwise_no_name] reads every attribute of the
    table's attribute list from every row.  When one row of one table
    lacks one of them, the [KeyError] is caught and the reshaping,
    [applyShape] as well as the mapper's [__transformTableData], returns
    the whole input mapping as it was; no table is reshaped. *)
Theorem X8_no_name_falls_back_on_missing_attribute
  (sD : SchemaDefAccess) (pD : DataPrep.SchemaDef) (data : DataById)
  (schemaId : string) (rows : list Row) (row : Row) (atId : string) :
  In (schemaId, rows) data -> In row rows -> dget atId row = None ->
  (In atId (getAttributeIdList sD schemaId) ->
   ReShape.applyShape sD data "rowwise_no_name" = asById data) /\
  (In atId (DataPrep.getTableAttributeIdList pD schemaId) ->
   DataPrep.transformTableData pD data "rowwise_no_name" = asById data).
Proof.
  intros Hd Hr Hg. split; intros Ha.
  - unfold ReShape.applyShape, ReShape.reshapeSchemaData. cbn [String.eqb Ascii.eqb Bool.eqb].
    unfold ReShape.shapeRowwiseNoName.
    destruct (foldM_raises
                (fun rD (kv : string * list Row) =>
                   oRowList <- positionalRows (getAttributeIdList sD (fst kv)) (snd kv) ;;
                   Ok (dset (getSchemaName sD (fst kv))
                         (SNoName (getAttributeNameList sD (fst kv)) oRowList) rD))
                data (schemaId, rows) Hd) with (s := @nil (string * Shaped)) as [e He].
    + intros s. cbn [fst snd].
      destruct (positionalRows_raises _ rows row atId Hr Ha Hg) as [e ->]. simpl. eauto.
    + rewrite He. reflexivity.
  - unfold DataPrep.transformTableData. cbn [String.eqb Ascii.eqb Bool.eqb].
    destruct (foldM_raises
                (fun rD (kv : string * list Row) =>
                   oRowList <- positionalRows (DataPrep.getTableAttributeIdList pD (fst kv))
                                 (snd kv) ;;
                   Ok (dset (DataPrep.getTableName pD (fst kv))
                         (SNoName (DataPrep.getAttributeNameList pD (fst kv)) oRowList) rD))
                data (schemaId, rows) Hd) with (s := @nil (string * Shaped)) as [e He].
    + intros s. cbn [fst snd].
      destruct (positionalRows_raises _ rows row atId Hr Ha Hg) as [e ->]. simpl. eauto.
    + rewrite He. reflexivity.
Qed.

Lemma X8_no_name_falls_back_on_missing_attribute_witness :
  ReShape.applyShape Ex.sD Ex.data "rowwise_no_name" = asById Ex.data.
Proof.
  refine (proj1 (X8_no_name_falls_back_on_missing_attribute Ex.sD Ex.pD Ex.data
                   "ENTITY_POLY" Ex.polyRows [("ENTITY_ID", VStr "1"); ("SEQ", VStr "ACD")]
                   "ID" _ _ _) _).
  - simpl. auto.
  - simpl. auto.
  - reflexivity.
  - simpl. auto.
Defined.

Lemma foldM_pure {A S : Type} (f : S -> A -> Exc S) (g : S -> A -> S) (l : list A) :
  (forall s x, In x l -> f s x = Ok (g s x)) ->
  forall s, foldM f l s = Ok (fold_left g l s).
Proof.
  induction l as [|x rest IH]; intros Hf s; simpl; [reflexivity|].
  rewrite (Hf s x) by now left. simpl. apply IH. intros s' y Hy. apply Hf. now right.
Qed.

Lemma mapM_pure {A B : Type} (f : A -> Exc B) (g : A -> B) (l : list A) :
  (forall x, In x l -> f x = Ok (g x)) -> mapM f l = Ok (map g l).
Proof.
  induction l as [|x rest IH]; intros Hf; simpl; [reflexivity|].
  rewrite (Hf x) by now left. simpl. rewrite IH by (intros y Hy; apply Hf; now right).
  reflexivity.
Qed.

Lemma positionalRows_complete (atIdList : list string) (rows : list Row) :
  (forall row atId, In row rows -> In atId atIdList -> dmem atId row = true) ->
  positionalRows atIdList rows = Ok (map (cellsInOrder atIdList) rows).
Proof.
  intros Hc. unfold positionalRows. apply mapM_pure. intros row Hr.
  unfold cellsInOrder. apply mapM_pure. intros atId Ha.
  specialize (Hc row atId Hr Ha). unfold dmem, dindex in *.
  destruct (dget atId row); [reflexivity | discriminate].
Qed.

Lemma noName_loop (tname : string -> string) (idList nameList : string -> list string)
  (data : DataById) (T : string) (rows : list Row) :
  (forall T' rows' row atId, In (T', rows') data -> In row rows' -> In atId (idList T') ->
     dmem atId row = true) ->
  In (T, rows) data -> soleName tname data T rows ->
  exists rD,
    foldM (fun rD (kv : string * list Row) =>
             oRowList <- positionalRows (idList (fst kv)) (snd kv) ;;
             Ok (dset (tname (fst kv)) (SNoName (nameList (fst kv)) oRowList) rD))
      data [] = Ok rD /\
    dget (tname T) rD = Some (SNoName (nameList T) (map (cellsInOrder (idList T)) rows)).
Proof.
  intros Hc Hin Hsole. eexists. split.
  - apply (foldM_pure _
             (fun rD (kv : string * list Row) =>
                dset (tname (fst kv))
                  (SNoName (nameList (fst kv)) (map (cellsInOrder (idList (fst kv))) (snd kv)))
                  rD)).
    intros s [T' rows'] Hx. cbn [fst snd].
    rewrite positionalRows_complete; [reflexivity|].
    intros row atId Hr Ha. now apply (Hc T' rows' row atId).
  - rewrite dget_fold_dset, (soleName_find _ _ _ _ Hin Hsole). reflexivity.
Qed.

(** X9. When every row carries every attribute of its table's attribute
    list, the layout [rowwise_no_name] stores, for a table whose name no
    other table bears, the attribute names and one data row per input
    row, in order, holding that row's values in the order of the
    attribute list.  This holds for [applyShape] and for the mapper's
    [__transformTableData]. *)
Theorem X9_no_name_lists_cells_in_attribute_order
  (sD : SchemaDefAccess) (pD : DataPrep.SchemaDef) (data : DataById)
  (schemaId : string) (rows : list Row) :
  In (schemaId, rows) data ->
  ((forall T' rows' row atId, In (T', rows') data -> In row rows' ->
      In atId (getAttributeIdList sD T') -> dmem atId row = true) ->
   soleName (getSchemaName sD) data schemaId rows ->
   dget (getSchemaName sD schemaId) (ReShape.applyShape sD data "rowwise_no_name")
   = Some (SNoName (getAttributeNameList sD schemaId)
             (map (cellsInOrder (getAttributeIdList sD schemaId)) rows))) /\
  ((forall T' rows' row atId, In (T', rows') data -> In row rows' ->
      In atId (DataPrep.getTableAttributeIdList pD T') -> dmem atId row = true) ->
   soleName (DataPrep.getTableName pD) data schemaId rows ->
   dget (DataPrep.getTableName pD schemaId)
     (DataPrep.transformTableData pD data "rowwise_no_name")
   = Some (SNoName (DataPrep.getAttributeNameList pD schemaId)
             (map (cellsInOrder (DataPrep.getTableAttributeIdList pD schemaId)) rows))).
Proof.
  intros Hin. split; intros Hc Hsole.
  - destruct (noName_loop (getSchemaName sD) (getAttributeIdList sD)
                (getAttributeNameList sD) data schemaId rows Hc Hin Hsole) as [rD [Hrun Hg]].
    unfold ReShape.applyShape, ReShape.reshapeSchemaData, ReShape.shapeRowwiseNoName.
    cbn [String.eqb Ascii.eqb Bool.eqb]. rewrite Hrun. exact Hg.
  - destruct (noName_loop (DataPrep.getTableName pD) (DataPrep.getTableAttributeIdList pD)
                (DataPrep.getAttributeNameList pD) data schemaId rows Hc Hin Hsole)
      as [rD [Hrun Hg]].
    unfold DataPrep.transformTableData.
    cbn [String.eqb Ascii.eqb Bool.eqb]. rewrite Hrun. exact Hg.
Qed.

Lemma X9_no_name_lists_cells_in_attribute_order_witness :
  dget "entry" (ReShape.applyShape Ex.sD [("ENTRY", Ex.entryRows)] "rowwise_no_name")
  = Some (SNoName ["id"] [[VStr "1ABC"]]) /\
  dget "entity"
    (DataPrep.transformTableData Ex.pD
       [("ENTRY", [[("DATE", VStr "2018-03-19"); ("ID", VStr "1ABC")]]);
        ("ENTITY", Ex.entityRows)] "rowwise_no_name")
  = Some (SNoName ["id"; "type"]
            [[VStr "1"; VStr "polymer"]; [VStr "2"; VStr "water"]]).
Proof.
  split.
  - refine (proj1 (X9_no_name_lists_cells_in_attribute_order Ex.sD Ex.pD
                     [("ENTRY", Ex.entryRows)] "ENTRY" Ex.entryRows _) _ _).
    + simpl. auto.
    + intros T' rows' row atId [E | []] Hr Ha. injection E as <- <-.
      simpl in Hr, Ha. destruct Hr as [<- | []]. destruct Ha as [<- | []]. reflexivity.
    + intros id' rows' [E | []] _. injection E as <- <-. auto.
  - refine (proj2 (X9_no_name_lists_cells_in_attribute_order Ex.sD Ex.pD
                     [("ENTRY", [[("DATE", VStr "2018-03-19"); ("ID", VStr "1ABC")]]);
                      ("ENTITY", Ex.entityRows)] "ENTITY" Ex.entityRows _) _ _).
    + simpl. auto.
    + intros T' rows' row atId [E | [E | []]] Hr Ha; injection E as <- <-.
      * simpl in Hr, Ha. destruct Hr as [<- | []].
        destruct Ha as [<- | [<- | []]]; reflexivity.
      * simpl in Hr, Ha. destruct Hr as [<- | [<- | []]];
          destruct Ha as [<- | [<- | []]]; reflexivity.
    + intros id' rows' [E | [E | []]] Hn; injection E as <- <-.
      * vm_compute in Hn. discriminate Hn.
      * auto.
Defined.

Lemma appendColumns_lookup (name : string -> string) (c : string) (iRowD : Row) :
  forall colD : dict string (list Value),
    dget c (appendColumns name colD iRowD) =
    match map snd (filter (fun kv : string * Value => String.eqb (name (fst kv)) c) iRowD) with
    | [] => dget c colD
    | cells => Some (match dget c colD with Some vs => vs | None => [] end ++ cells)
    end.
Proof.
  unfold appendColumns. induction iRowD as [|[k v] rest IH]; intros colD; [reflexivity|].
  cbn [fold_left fst snd filter]. rewrite IH.
  assert (Hstep : dget c (match dget (name k) colD with
                          | Some vs => dset (name k) (vs ++ [v]) colD
                          | None => dset (name k) [v] colD
                          end)
                  = if String.eqb (name k) c
                    then Some (match dget c colD with Some vs => vs | None => [] end ++ [v])
                    else dget c colD).
  { destruct (String.eqb (name k) c) eqn:E.
    - apply String.eqb_eq in E. subst c.
      destruct (dget (name k) colD); now rewrite dget_dset_eq.
    - apply String.eqb_neq in E.
      destruct (dget (name k) colD); now rewrite dget_dset_neq. }
  rewrite Hstep. destruct (String.eqb (name k) c); cbn [map snd].
  - destruct (map snd (filter (fun kv : string * Value => String.eqb (name (fst kv)) c) rest));
      [reflexivity|].
    now rewrite <- app_assoc.
  - reflexivity.
Qed.

Lemma columns_lookup (name : string -> string) (c : string) (rows : list Row) :
  forall colD : dict string (list Value),
    dget c (fold_left (appendColumns name) rows colD) =
    match columnCells name c rows with
    | [] => dget c colD
    | cells => Some (match dget c colD with Some vs => vs | None => [] end ++ cells)
    end.
Proof.
  induction rows as [|iRowD rest IH]; intros colD; [reflexivity|].
  cbn [fold_left]. rewrite IH, appendColumns_lookup. unfold columnCells. cbn [flat_map].
  fold (columnCells name c rest).
  destruct (map snd (filter (fun kv : string * Value => String.eqb (name (fst kv)) c) iRowD))
    as [|x xs]; [reflexivity|].
  cbn [app]. destruct (columnCells name c rest) as [|y ys].
  - now rewrite app_nil_r.
  - rewrite <- app_assoc. reflexivity.
Qed.

Lemma columnsOf_fold (name : string -> string) (rows : list Row) :
  columnsOf name rows (fold_left (appendColumns name) rows []).
Proof.
  intros c. rewrite columns_lookup. cbn [dget].
  destruct (columnCells name c rows); reflexivity.
Qed.

(** X10. The layout [columnwise_by_name] stores, for a table whose name
    no other table bears, a column dictionary that holds under each
    attribute name the cells of that name of all rows, in row order; a
    name borne by no cell has no column, and rows with different
    attributes give columns of different lengths.  This holds for
    [applyShape] and for the mapper's [__transformTableData]. *)
Theorem X10_columnwise_gathers_cells_by_name
  (sD : SchemaDefAccess) (pD : DataPrep.SchemaDef) (data : DataById)
  (schemaId : string) (rows : list Row) :
  In (schemaId, rows) data ->
  (soleName (getSchemaName sD) data schemaId rows ->
   exists colD,
     dget (getSchemaName sD schemaId) (ReShape.applyShape sD data "columnwise_by_name")
     = Some (SCols colD) /\
     columnsOf (getAttributeName (getSchemaObject sD schemaId)) rows colD) /\
  (soleName (DataPrep.getTableName pD) data schemaId rows ->
   exists colD,
     dget (DataPrep.getTableName pD schemaId)
       (DataPrep.transformTableData pD data "columnwise_by_name")
     = Some (SCols colD) /\
     columnsOf (DataPrep.getAttributeName (DataPrep.getTable pD schemaId)) rows colD).
Proof.
  intros Hin. split; intros Hsole.
  - unfold ReShape.applyShape, ReShape.reshapeSchemaData, ReShape.shapeColumnwise.
    cbn [String.eqb Ascii.eqb Bool.eqb].
    rewrite (dget_fold_dset (fun kv : string * list Row => getSchemaName sD (fst kv))
               (fun kv => SCols (fold_left (ReShape.addColumns (getSchemaObject sD (fst kv)))
                                   (snd kv) []))).
    rewrite (soleName_find _ _ _ _ Hin Hsole). cbn [fst snd].
    eexists. split; [reflexivity|]. apply columnsOf_fold.
  - unfold DataPrep.transformTableData.
    cbn [String.eqb Ascii.eqb Bool.eqb].
    rewrite (dget_fold_dset (fun kv : string * list Row => DataPrep.getTableName pD (fst kv))
               (fun kv => SCols (fold_left
                                   (appendColumns
                                      (DataPrep.getAttributeName (DataPrep.getTable pD (fst kv))))
                                   (snd kv) []))).
    rewrite (soleName_find _ _ _ _ Hin Hsole). cbn [fst snd].
    eexists. split; [reflexivity|]. apply columnsOf_fold.
Qed.

Lemma X10_columnwise_gathers_cells_by_name_witness :
  exists colD,
    dget "entity" (ReShape.applyShape Ex.sD Ex.data "columnwise_by_name") = Some (SCols colD) /\
    columnsOf Ex.lower Ex.entityRows colD.
Proof.
  refine (proj1 (X10_columnwise_gathers_cells_by_name Ex.sD Ex.pD Ex.data "ENTITY"
                   Ex.entityRows _) _).
  - simpl. auto.
  - intros id' rows' Hi Hname. simpl in Hi.
    destruct Hi as [E | [E | [E | []]]]; inversion E; subst; auto; discriminate Hname.
Defined.

Lemma renameKeys_fresh (name : string -> string) (iRowD : Row) :
  forall acc : Row,
    NoDup (dkeys acc ++ map name (dkeys iRowD)) ->
    fold_left (fun oRowD (kv : string * Value) => dset (name (fst kv)) (snd kv) oRowD)
      iRowD acc
    = acc ++ map (fun kv : string * Value => (name (fst kv), snd kv)) iRowD.
Proof.
  induction iRowD as [|[k v] rest IH]; intros acc Hnd; simpl.
  - now rewrite app_nil_r.
  - assert (Hfresh : ~ In (name k) (dkeys acc)).
    { simpl in Hnd. apply NoDup_remove_2 in Hnd. intros Hi. apply Hnd.
      apply in_or_app. now left. }
    rewrite (dset_fresh _ _ _ Hfresh). rewrite IH.
    + rewrite <- app_assoc. reflexivity.
    + unfold dkeys in *. rewrite map_app. simpl. rewrite <- app_assoc. exact Hnd.
Qed.

(** X11. The renaming loop shared by all by-name layouts: under a name
    the renamed row holds the value of the last attribute of the input row
    that bears this name, so attributes with the same name collapse into
    one entry; when the names of the row's attributes are pairwise
    distinct the renamed row is the input row entry by entry, with the
    same values in the same order. *)
Theorem X11_renaming_keeps_values (name : string -> string) (iRowD : Row) :
  (forall n, dget n (renameKeys name iRowD)
             = match find (fun kv : string * Value => String.eqb (name (fst kv)) n)
                       (rev iRowD) with
               | Some kv => Some (snd kv)
               | None => None
               end) /\
  (NoDup (map name (dkeys iRowD)) ->
   renameKeys name iRowD = map (fun kv : string * Value => (name (fst kv), snd kv)) iRowD).
Proof.
  split.
  - intros n. unfold renameKeys.
    rewrite (dget_fold_dset (fun kv : string * Value => name (fst kv)) snd). reflexivity.
  - intros Hnd. unfold renameKeys. now rewrite renameKeys_fresh.
Qed.

Lemma X11_renaming_keeps_values_witness :
  renameKeys Ex.lower [("ENTITY_ID", VStr "1"); ("SEQ", VStr "ACD")]
  = [("entity_id", VStr "1"); ("seq", VStr "ACD")].
Proof.
  refine (proj2 (X11_renaming_keeps_values Ex.lower
                   [("ENTITY_ID", VStr "1"); ("SEQ", VStr "ACD")]) _).
  vm_compute. constructor; [intros [H | []]; discriminate H|].
  constructor; [intros []|constructor].
Defined.

(** ** The partitions of the one-pass partitioner *)

Lemma collectPVals_values (svs : list (list PVal)) (pVals : list Value) :
  ReShape.collectPVals svs = Ok pVals -> pVals = flat_map (map snd) svs.
Proof.
  revert pVals. induction svs as [|t rest IH]; intros pVals; simpl.
  - now intros [= <-].
  - match goal with |- context [forallb ?f t] => destruct (forallb f t) end;
      [|discriminate].
    destruct (ReShape.collectPVals rest) as [more|e]; simpl; [|discriminate].
    intros [= <-]. now rewrite (IH more eq_refl).
Qed.

Lemma dkeys_placeRow (name : string) (uFlag : bool) (rowRef : nat)
  (st st' : ReShape.Heap * ReShape.RetD) (rv : Value) :
  ReShape.placeRow name uFlag rowRef st rv = Ok st' -> dkeys (snd st') = dkeys (snd st).
Proof.
  unfold ReShape.placeRow. destruct (truthy rv); [|now intros [= <-]].
  unfold dindex. destruct (dget rv (snd st)) as [part|] eqn:Eg; simpl; [|discriminate].
  assert (Hm : forall p, dkeys (dset rv p (snd st)) = dkeys (snd st)).
  { intros p. rewrite dkeys_dset. unfold dmem. now rewrite Eg. }
  destruct uFlag; [intros [= <-]; simpl; apply Hm|].
  destruct (dget name part) as [l|].
  - destruct (nth_error (fst st) l) as [[r|refs]|]; try discriminate.
    now intros [= <-].
  - unfold ReShape.alloc. intros [= <-]. simpl. apply Hm.
Qed.

Lemma dkeys_sliceTable (sD : SchemaDefAccess) (data : DataById) (sliceFilter : string)
  (st st' : ReShape.Heap * ReShape.RetD) (entry : string * list string) :
  ReShape.sliceTable sD data sliceFilter st entry = Ok st' ->
  dkeys (snd st') = dkeys (snd st).
Proof.
  unfold ReShape.sliceTable. destruct (dindex (fst entry) data) as [rows|e]; simpl;
    [|discriminate].
  apply (foldM_invariant (fun s : ReShape.Heap * ReShape.RetD => dkeys (snd s) = dkeys (snd st)));
    [|reflexivity].
  intros s iRowD s' _ Hs. unfold ReShape.sliceRow, ReShape.alloc.
  destruct (ReShape.pySet _) as [rvS|e]; simpl; [|discriminate].
  apply (foldM_invariant (fun s0 : ReShape.Heap * ReShape.RetD => dkeys (snd s0) = dkeys (snd st)));
    [|exact Hs].
  intros s0 rv s0' _ Hs0 Hp. rewrite (dkeys_placeRow _ _ _ _ _ _ Hp). exact Hs0.
Qed.

Lemma same_members_same_length {A : Type} (l m : list A) :
  NoDup l -> NoDup m -> (forall x, In x l <-> In x m) -> length l = length m.
Proof.
  intros Hl Hm Hiff. apply Nat.le_antisymm; apply NoDup_incl_length; auto;
    intros x Hx; now apply Hiff.
Qed.

Lemma In_dkeys_fold_dset_const {K V : Type} `{EqKeyLaws K} (x : V) (l : list K) (k : K) :
  In k (dkeys (fold_left (fun d k => dset k x d) l [])) <-> In k l.
Proof.
  assert (Hgen : forall d, In k (dkeys (fold_left (fun d k => dset k x d) l d))
                           <-> In k l \/ In k (dkeys d)).
  { induction l as [|a rest IH]; intros d; simpl; [tauto|].
    rewrite IH, dkeys_dset_In. intuition (subst; auto). }
  rewrite Hgen. simpl. tauto.
Qed.

(** X12. When the one-pass partitioner returns, it returns one partition
    per distinct parent value of the enumeration: a value enumerated
    several times, or carried by several tuples, gives a single
    partition. *)
Theorem X12_one_partition_per_distinct_value (sD : SchemaDefAccess) (data : DataById)
  (sliceFilter : string) (sliceIndex : SliceIndex) (docs : list Doc) :
  ReShape.onePassDocs sD data sliceFilter sliceIndex = Ok docs ->
  exists svs,
    ReShape.SliceValues sD data sliceFilter = Ok svs /\
    length docs = length (ReShape.dedup (flat_map (map snd) svs)).
Proof.
  unfold ReShape.onePassDocs, ReShape.sliceRowwiseByNameWithCardOnePass,
    ReShape.onePassRetD.
  destruct (ReShape.SliceValues sD data sliceFilter) as [svs|e]; simpl; [|discriminate].
  destruct (ReShape.collectPVals svs) as [pVals|e] eqn:Ec; simpl; [|discriminate].
  destruct (ReShape.next svs) as [pvTupL|e]; simpl; [|discriminate].
  apply collectPVals_values in Ec.
  set (retD0 := fold_left (fun d k => dset k ([] : ReShape.PartRef) d) pVals []).
  assert (H0 : length (dkeys retD0) = length (ReShape.dedup pVals)).
  { apply same_members_same_length.
    - apply NoDup_fold_dset_const. constructor.
    - apply NoDup_dedup.
    - intros v. unfold retD0. rewrite In_dkeys_fold_dset_const, In_dedup_iff. tauto. }
  assert (Hloop : forall st1 st2,
            dkeys (snd st1) = dkeys retD0 ->
            foldM (ReShape.sliceTable sD data sliceFilter)
              (ReShape.singleKeyAtD data sliceIndex pvTupL) st1 = Ok st2 ->
            dkeys (snd st2) = dkeys retD0).
  { intros st1 st2 H1.
    apply (foldM_invariant (fun s : ReShape.Heap * ReShape.RetD => dkeys (snd s) = dkeys retD0));
      [|exact H1].
    intros s x s' _ Hs Hx. rewrite (dkeys_sliceTable _ _ _ _ _ _ Hx). exact Hs. }
  assert (Hfin : forall st1 st2,
            dkeys (snd st1) = dkeys retD0 ->
            foldM (ReShape.sliceTable sD data sliceFilter)
              (ReShape.singleKeyAtD data sliceIndex pvTupL) st1 = Ok st2 ->
            Ok (map (ReShape.reifyDoc (fst st2)) (dvalues (snd st2))) = Ok docs ->
            exists svs0, Ok svs = Ok svs0 /\
                         length docs = length (ReShape.dedup (flat_map (map snd) svs0))).
  { intros st1 st2 H1 Hrun [= <-]. exists svs. split; [reflexivity|].
    rewrite <- Ec, <- H0, <- (Hloop st1 st2 H1 Hrun).
    unfold dvalues, dkeys. now rewrite !length_map. }
  destruct (getSliceExtraSchemaIds sD sliceFilter) as [|T0 extraL].
  - cbn [bind].
    match goal with
    | |- context [foldM (ReShape.sliceTable sD data sliceFilter) ?l ?s] =>
        destruct (foldM (ReShape.sliceTable sD data sliceFilter) l s) as [st2|e] eqn:Er
    end; simpl; [|discriminate].
    eapply Hfin; [|exact Er]. reflexivity.
  - destruct (foldM (ReShape.extraStep sD data sliceFilter) (T0 :: extraL) ([], []))
      as [ex|e]; cbn [bind]; [|discriminate].
    match goal with
    | |- context [foldM (ReShape.sliceTable sD data sliceFilter) ?l ?s] =>
        destruct (foldM (ReShape.sliceTable sD data sliceFilter) l s) as [st2|e] eqn:Er
    end; simpl; [|discriminate].
    eapply Hfin; [|exact Er]. cbn [snd].
    apply dkeys_fold_dset_const_mem. intros k Hk. fold retD0.
    unfold retD0. apply In_dkeys_fold_dset_const. exact Hk.
Qed.

Lemma X12_one_partition_per_distinct_value_witness :
  exists svs,
    ReShape.SliceValues Ex.sD (("ENTRY", Ex.entryRows) :: Ex.dataTwice) "ENTITY" = Ok svs /\
    length [[("entry", SRow [("id", VStr "1ABC")])]]
    = length (ReShape.dedup (flat_map (map snd) svs)).
Proof.
  apply (X12_one_partition_per_distinct_value Ex.sD (("ENTRY", Ex.entryRows) :: Ex.dataTwice)
           "ENTITY" Ex.polyIndex).
  vm_compute. reflexivity.
Defined.

Lemma onePass_Inv (sD : SchemaDefAccess) (data : DataById)
  (sliceFilter : string) (sliceIndex : SliceIndex) (st : ReShape.Heap * ReShape.RetD) :
  namesApart sD data sliceFilter sliceIndex ->
  ReShape.onePassRetD sD data sliceFilter sliceIndex = Ok st ->
  exists E,
    Inv E (fst st) (snd st) /\
    forall n, In n E ->
      In n (map (getSchemaName sD) (getSliceExtraSchemaIds sD sliceFilter)).
Proof.
  intros Hapart. unfold ReShape.onePassRetD.
  destruct (ReShape.SliceValues sD data sliceFilter) as [svs|e]; simpl; [|discriminate].
  destruct (ReShape.collectPVals svs) as [pVals|e]; simpl; [|discriminate].
  destruct (ReShape.next svs) as [pvTupL|e]; simpl; [|discriminate].
  set (retD0 := fold_left (fun d k => dset k ([] : ReShape.PartRef) d) pVals []).
  set (skD := ReShape.singleKeyAtD data sliceIndex pvTupL).
  assert (Hret0 : forall v p, In (v, p) retD0 -> p = []).
  { intros v p Hi. unfold retD0 in Hi.
    destruct (In_fold_dset_const _ _ _ _ _ Hi) as [-> | []]. reflexivity. }
  assert (Hnd0 : NoDup (dkeys retD0)).
  { unfold retD0. apply NoDup_fold_dset_const. constructor. }
  assert (Hloop : forall E h retD,
            Inv E h retD ->
            (forall n, In n E -> In n (map (getSchemaName sD)
                                         (getSliceExtraSchemaIds sD sliceFilter))) ->
            foldM (ReShape.sliceTable sD data sliceFilter) skD (h, retD) = Ok st ->
            Inv E (fst st) (snd st)).
  { intros E h retD HI HE Hrun.
    pose proof (foldM_sim E (ReShape.sliceTable sD data sliceFilter)
                  (ReShape.sliceTableV sD data sliceFilter) skD) as Hs.
    assert (Hstep : forall x h0 retD1, In x skD -> Inv E h0 retD1 ->
              simulates (A:=unit) E (ReShape.sliceTable sD data sliceFilter (h0, retD1) x)
                (ReShape.sliceTableV sD data sliceFilter (ReShape.viewRet h0 retD1) x)
                (fun _ => True)).
    { intros x h0 retD1 Hx HI0. apply sliceTable_sim; [exact HI0|].
      intros Hin. apply HE in Hin. apply in_map_iff in Hin.
      destruct Hin as [T' [Hname HT']].
      assert (Hx' : In (fst x) (dkeys sliceIndex) /\ dmem (fst x) data = true).
      { apply (dkeys_singleKeyAtD data sliceIndex pvTupL).
        fold skD. unfold dkeys. now apply in_map. }
      destruct Hx' as [Hx1 Hx2].
      apply (Hapart (fst x) T'); [exact Hx1 | exact Hx2 | exact HT' | congruence]. }
    specialize (Hs Hstep h retD HI). unfold simulates in Hs.
    rewrite Hrun in Hs. destruct Hs as [Hs _]. exact Hs. }
  destruct (getSliceExtraSchemaIds sD sliceFilter) as [|T0 extraL] eqn:Eextra.
  - cbn [bind]. intros Hrun. exists []. split; [|intros n []].
    apply (Hloop [] [] retD0); [|intros n []|exact Hrun].
    constructor; auto.
    * intros v p Hv. rewrite (Hret0 v p Hv). constructor.
    * intros v p n a Hv Hn. rewrite (Hret0 v p Hv) in Hn. destruct Hn.
    * intros a refs Ha. destruct a; discriminate.
    * intros v p n a refs v' p' n' Hv Hn. rewrite (Hret0 v p Hv) in Hn. destruct Hn.
  - pose proof (extras_sim sD data sliceFilter (T0 :: extraL) [] []) as Hex.
    assert (Hok0 : extrasOk [] []).
    { split; [constructor|split].
      - intros n a [].
      - intros a refs Ha. destruct a; discriminate. }
    specialize (Hex Hok0).
    set (run := foldM (ReShape.extraStep sD data sliceFilter) (T0 :: extraL)
                  (@pair ReShape.Heap ReShape.PartRef [] [])) in Hex.
    match goal with
    | |- context C [@foldM string ?S (ReShape.extraStep sD data sliceFilter) ?l ?s] =>
        let G := context C [run] in change G
    end.
    destruct run as [[h1 rD]|e]; cbn beta iota in Hex; [|discriminate].
    destruct Hex as [[Hk [Hr Hi]] [_ Hkeys]].
    cbn [bind fst snd]. intros Hrun. exists (dkeys rD).
    assert (HE : forall n, In n (dkeys rD) ->
              In n (map (getSchemaName sD) (T0 :: extraL))).
    { intros n Hn. destruct (Hkeys n Hn) as [Hin | []]. exact Hin. }
    split; [|exact HE].
    apply (Hloop (dkeys rD) h1 (fold_left (fun d pv => dset pv rD d) pVals retD0));
      [|exact HE|exact Hrun].
    constructor.
    * apply NoDup_fold_dset_const. exact Hnd0.
    * intros v p Hv. destruct (In_fold_dset_const _ _ _ _ _ Hv) as [-> | Hold];
        [exact Hk | rewrite (Hret0 v p Hold); constructor].
    * intros v p n a Hv Hn. destruct (In_fold_dset_const _ _ _ _ _ Hv) as [-> | Hold];
        [eapply Hr; eauto | rewrite (Hret0 v p Hold) in Hn; destruct Hn].
    * exact Hi.
    * intros v p n a refs v' p' n' Hv Hn HnE. exfalso.
      destruct (In_fold_dset_const _ _ _ _ _ Hv) as [-> | Hold].
      -- apply HnE. unfold dkeys. change n with (fst (n, a)). now apply in_map.
      -- rewrite (Hret0 v p Hold) in Hn. destruct Hn.
Qed.

Lemma nth_error_dvalues {K V : Type} (d : dict K V) (i : nat) (x : V) :
  nth_error (dvalues d) i = Some x ->
  exists k, nth_error d i = Some (k, x) /\ nth_error (dkeys d) i = Some k.
Proof.
  unfold dvalues, dkeys. revert i. induction d as [|[k y] rest IH]; intros [|i]; simpl;
    try discriminate.
  - intros [= <-]. eauto.
  - apply IH.
Qed.

(** X13. In the partitions returned by the one-pass partitioner (no
    slice-indexed table sharing its name with a slice-extra table), the
    list stored under the name of a table that is not slice-extra belongs
    to one partition only: replacing its content, as [append] or [del]
    on [part[name]] do, leaves every other partition as it was. *)
Theorem X13_indexed_table_lists_are_not_shared (sD : SchemaDefAccess) (data : DataById)
  (sliceFilter : string) (sliceIndex : SliceIndex)
  (h : ReShape.Heap) (parts : list ReShape.PartRef) (i j : nat)
  (p p' : ReShape.PartRef) (n : string) (a : nat) (refs refs' : list nat) :
  namesApart sD data sliceFilter sliceIndex ->
  ReShape.sliceRowwiseByNameWithCardOnePass sD data sliceFilter sliceIndex = Ok (h, parts) ->
  nth_error parts i = Some p -> nth_error parts j = Some p' -> i <> j ->
  In (n, a) p ->
  ~ In n (map (getSchemaName sD) (getSliceExtraSchemaIds sD sliceFilter)) ->
  nth_error h a = Some (ReShape.OList refs) ->
  ReShape.reifyDoc (ReShape.heapSet h a (ReShape.OList refs')) p' = ReShape.reifyDoc h p'.
Proof.
  intros Hapart Hrun Hi Hj Hij Hn HnE Ha.
  unfold ReShape.sliceRowwiseByNameWithCardOnePass in Hrun.
  destruct (ReShape.onePassRetD sD data sliceFilter sliceIndex) as [[h0 retD]|e] eqn:Er;
    simpl in Hrun; [|discriminate].
  injection Hrun as -> <-.
  destruct (onePass_Inv sD data sliceFilter sliceIndex (h, retD) Hapart Er) as [E [HI HE]].
  cbn [fst snd] in HI.
  destruct (nth_error_dvalues retD i p Hi) as [v [Hvi Hki]].
  destruct (nth_error_dvalues retD j p' Hj) as [v' [Hvj Hkj]].
  assert (Hvv : v' <> v).
  { intros ->. apply Hij.
    apply (proj1 (NoDup_nth_error (dkeys retD)) (inv_keys E h retD HI)).
    - apply nth_error_Some. congruence.
    - congruence. }
  unfold ReShape.reifyDoc. apply map_ext_in. intros [n' a'] Hn'. cbn [fst snd]. f_equal.
  apply (reify_heapSet_other h a a' refs refs' Ha).
  intros ->. apply Hvv.
  apply (inv_own E h retD HI v p n a refs v' p' n').
  - eapply nth_error_In; eauto.
  - exact Hn.
  - intros HinE. apply HnE. now apply HE.
  - exact Ha.
  - eapply nth_error_In; eauto.
  - exact Hn'.
Qed.

Lemma X13_indexed_table_lists_are_not_shared_witness :
  exists (h : ReShape.Heap) (part0 part1 : ReShape.PartRef) (a : nat),
    ReShape.sliceRowwiseByNameWithCardOnePass Ex.sD Ex.dataFull "ENTITY" Ex.polyIndex
      = Ok (h, [part0; part1]) /\
    dget "entity_poly" part0 = Some a /\
    ReShape.reifyDoc (ReShape.heapSet h a (ReShape.OList [])) part1 = ReShape.reifyDoc h part1.
Proof.
  eexists _, _, _, _. split; [vm_compute; reflexivity|]. split; [vm_compute; reflexivity|].
  eapply (X13_indexed_table_lists_are_not_shared Ex.sD Ex.dataFull "ENTITY" Ex.polyIndex
            _ _ 0 1 _ _ "entity_poly" _ _ []).
  - intros T T' HT _ HT'. simpl in HT, HT'.
    destruct HT as [<- | []]. destruct HT' as [<- | []]. vm_compute. discriminate.
  - vm_compute. reflexivity.
  - reflexivity.
  - reflexivity.
  - discriminate.
  - simpl. right. left. reflexivity.
  - vm_compute. intros [H | []]. discriminate H.
  - vm_compute. reflexivity.
Defined.

(** ** The attribute mapper *)

Lemma length_substring_le (n : nat) (s : string) :
  String.length (substring 0 n s) <= n.
Proof.
  revert s. induction n as [|n IH]; intros [|c s]; simpl; try lia.
  specialize (IH s). lia.
Qed.

Lemma storeValue_other (tObj : DataPrep.TableDef) (parse : string -> option DateTime)
  (fl : DataPrep.Flags) (track : bool) (a val : string) (maxW : Z)
  (st : Row * DataPrep.OverWrite) (atId : string) :
  a <> atId ->
  dget atId (fst (DataPrep.storeValue parse tObj fl track a val maxW st)) = dget atId (fst st).
Proof.
  intros Hne. unfold DataPrep.storeValue, DataPrep.assignOrNull.
  repeat match goal with
         | |- context [if ?c then _ else _] => destruct c
         | |- context [match ?x with _ => _ end] => destruct x
         end; cbn [fst]; try reflexivity; now apply dget_dset_neq.
Qed.

Lemma storeValue_width (tObj : DataPrep.TableDef) (parse : string -> option DateTime)
  (fl : DataPrep.Flags) (track : bool) (atId val : string) (W : Z)
  (st : Row * DataPrep.OverWrite) :
  storedAsText tObj fl atId -> (0 < W)%Z ->
  (forall v, dget atId (fst st) = Some v -> withinWidth tObj atId W v) ->
  forall v, dget atId (fst (DataPrep.storeValue parse tObj fl track atId val W st)) = Some v ->
            withinWidth tObj atId W v.
Proof.
  intros [Hd Hi] HW Hst v. unfold DataPrep.storeValue. rewrite Hd, Hi. cbn [andb].
  destruct (DataPrep.dropEmptyFlag fl && DataPrep.isEmptyValue val); [apply Hst|].
  destruct (0 <? W)%Z eqn:E; [|apply Z.ltb_ge in E; lia].
  cbn [fst]. unfold DataPrep.assignOrNull.
  destruct (negb (DataPrep.isNullToken val)).
  - rewrite dget_dset_eq. intros [= <-]. right. eexists. split; [reflexivity|].
    pose proof (length_substring_le (Z.to_nat W) val). lia.
  - destruct (dget atId (DataPrep.getSqlNullValueDict tObj)) as [nv|] eqn:En; [|apply Hst].
    rewrite dget_dset_eq. intros [= <-]. now left.
Qed.

Lemma mapAttribute_width (tObj : DataPrep.TableDef) (parse : string -> option DateTime)
  (fl : DataPrep.Flags) (catObj : DataPrep.Category) (row : list string)
  (atId : string) (W : Z) (st : Row * DataPrep.OverWrite) (a : string) :
  DataPrep.skipMaxWidthFlag fl = false ->
  dget atId (DataPrep.getStringWidthDict tObj) = Some W -> (0 < W)%Z ->
  storedAsText tObj fl atId ->
  (forall v, dget atId (fst st) = Some v -> withinWidth tObj atId W v) ->
  forall v, dget atId (fst (DataPrep.mapAttribute parse tObj fl catObj row st a)) = Some v ->
            withinWidth tObj atId W v.
Proof.
  intros Hskip HW Hpos Htext Hst v. unfold DataPrep.mapAttribute.
  destruct (dget a (DataPrep.getMapAttributeDict tObj)) as [atName|]; [|apply Hst].
  destruct (dget atName (DataPrep.getAttributeIndexDict catObj)) as [idx|]; [|apply Hst].
  destruct (nth_error row idx) as [val|]; [|apply Hst].
  destruct (DataPrep.widthOf tObj fl a) as [maxW|] eqn:Ew; [|apply Hst].
  destruct (String.eqb a atId) eqn:E.
  - apply String.eqb_eq in E. subst a.
    unfold DataPrep.widthOf in Ew. rewrite Hskip, HW in Ew. injection Ew as <-.
    now apply storeValue_width.
  - apply String.eqb_neq in E. rewrite storeValue_other by exact E. apply Hst.
Qed.

Lemma mapAttributeMerge_width (tObj : DataPrep.TableDef) (parse : string -> option DateTime)
  (fl : DataPrep.Flags) (catObj : DataPrep.Category) (row : list string)
  (atId : string) (W : Z) (d : Row) (a : string) :
  DataPrep.skipMaxWidthFlag fl = false ->
  dget atId (DataPrep.getStringWidthDict tObj) = Some W -> (0 < W)%Z ->
  storedAsText tObj fl atId ->
  (forall v, dget atId d = Some v -> withinWidth tObj atId W v) ->
  forall v, dget atId (DataPrep.mapAttributeMerge parse tObj fl catObj row d a) = Some v ->
            withinWidth tObj atId W v.
Proof.
  intros Hskip HW Hpos Htext Hst v. unfold DataPrep.mapAttributeMerge.
  destruct (dget a (DataPrep.getMapAttributeDict tObj)) as [atName|]; [|apply Hst].
  destruct (dget atName (DataPrep.getAttributeIndexDict catObj)) as [idx|]; [|apply Hst].
  destruct (nth_error row idx) as [val|]; [|apply Hst].
  destruct (DataPrep.widthOf tObj fl a) as [maxW|] eqn:Ew; [|apply Hst].
  destruct (String.eqb a atId) eqn:E.
  - apply String.eqb_eq in E. subst a.
    unfold DataPrep.widthOf in Ew. rewrite Hskip, HW in Ew. injection Ew as <-.
    now apply (storeValue_width tObj parse fl false atId val W (d, [])).
  - apply String.eqb_neq in E.
    rewrite (storeValue_other tObj parse fl false a val maxW (d, []) atId E). apply Hst.
Qed.

Lemma fold_left_invariant {A S : Type} (I : S -> Prop) (f : S -> A -> S) (l : list A) :
  (forall s x, In x l -> I s -> I (f s x)) -> forall s, I s -> I (fold_left f l s).
Proof.
  induction l as [|x rest IH]; intros Hf s Hs; simpl; [exact Hs|].
  apply IH; [intros s' y Hy; apply Hf; now right | apply Hf; [now left | exact Hs]].
Qed.

Lemma initRow_null (tObj : DataPrep.TableDef) (fl : DataPrep.Flags) (d0 : Row)
  (atId : string) (v : Value) :
  DataPrep.initRow tObj fl = Ok d0 -> dget atId d0 = Some v ->
  dget atId (DataPrep.getSqlNullValueDict tObj) = Some v.
Proof.
  unfold DataPrep.initRow. destruct (DataPrep.dropEmptyFlag fl).
  - intros [= <-]. discriminate.
  - intros Hrun. revert v.
    refine (foldM_invariant
              (fun d : Row => forall v, dget atId d = Some v ->
                 dget atId (DataPrep.getSqlNullValueDict tObj) = Some v)
              _ _ _ [] d0 _ Hrun); [|intros v Hv; discriminate Hv].
    cbn beta. intros s x s' _ Hs Hstep. unfold dindex in Hstep.
    destruct (dget x (DataPrep.getSqlNullValueDict tObj)) as [nv|] eqn:En; [|discriminate].
    simpl in Hstep. injection Hstep as <-. intros v. rewrite dget_dset.
    destruct (keqb atId x) eqn:E; [|apply Hs].
    apply keqb_eq in E. subst x. now intros [= <-].
Qed.

Lemma dget_dupdate {K V : Type} `{EqKeyLaws K} (d e : dict K V) (k : K) :
  NoDup (dkeys e) ->
  dget k (dupdate d e) = match dget k e with Some v => Some v | None => dget k d end.
Proof.
  unfold dupdate. revert d. induction e as [|[k' v'] rest IH]; intros d Hnd; simpl;
    [reflexivity|].
  inversion Hnd as [|? ? Hni Hnd']; subst. rewrite (IH _ Hnd'), dget_dset.
  destruct (keqb k k') eqn:E; [|reflexivity].
  apply keqb_eq in E. subst k'.
  apply (proj2 (dget_None_notin k rest)) in Hni. now rewrite Hni.
Qed.

Lemma NoDup_initRow (tObj : DataPrep.TableDef) (fl : DataPrep.Flags) (d0 : Row) :
  DataPrep.initRow tObj fl = Ok d0 -> NoDup (dkeys d0).
Proof.
  unfold DataPrep.initRow. destruct (DataPrep.dropEmptyFlag fl).
  - intros [= <-]. constructor.
  - intros Hrun.
    refine (foldM_invariant (fun d : Row => NoDup (dkeys d)) _ _ _ [] d0 _ Hrun);
      [|constructor].
    cbn beta. intros s x s' _ Hs Hstep.
    destruct (dindex x (DataPrep.getSqlNullValueDict tObj)) as [nv|]; [|discriminate].
    simpl in Hstep. injection Hstep as <-. now apply NoDup_dkeys_dset.
Qed.

Lemma NoDup_storeValue (tObj : DataPrep.TableDef) (parse : string -> option DateTime)
  (fl : DataPrep.Flags) (track : bool) (a val : string) (maxW : Z)
  (st : Row * DataPrep.OverWrite) :
  NoDup (dkeys (fst st)) ->
  NoDup (dkeys (fst (DataPrep.storeValue parse tObj fl track a val maxW st))).
Proof.
  intros Hnd. unfold DataPrep.storeValue, DataPrep.assignOrNull.
  repeat match goal with
         | |- context [if ?c then _ else _] => destruct c
         | |- context [match ?x with _ => _ end] => destruct x
         end; cbn [fst]; try exact Hnd; now apply NoDup_dkeys_dset.
Qed.

Lemma NoDup_mapAttributeMerge (tObj : DataPrep.TableDef) (parse : string -> option DateTime)
  (fl : DataPrep.Flags) (catObj : DataPrep.Category) (row : list string) (d : Row)
  (a : string) :
  NoDup (dkeys d) ->
  NoDup (dkeys (DataPrep.mapAttributeMerge parse tObj fl catObj row d a)).
Proof.
  intros Hnd. unfold DataPrep.mapAttributeMerge.
  destruct (dget a (DataPrep.getMapAttributeDict tObj)) as [atName|]; [|exact Hnd].
  destruct (dget atName (DataPrep.getAttributeIndexDict catObj)) as [idx|]; [|exact Hnd].
  destruct (nth_error row idx) as [val|]; [|exact Hnd].
  destruct (DataPrep.widthOf tObj fl a) as [maxW|]; [|exact Hnd].
  now apply (NoDup_storeValue tObj parse fl false a val maxW (d, [])).
Qed.

Lemma mapInstanceCategory_rows (parse : string -> option DateTime)
  (tObj : DataPrep.TableDef) (categoryName : string) (myContainer : DataPrep.Container)
  (filterType : string) (ow ow' : DataPrep.OverWrite) (rows : list Row) (P : Row -> Prop) :
  (forall d0 catObj row st,
     DataPrep.initRow tObj (DataPrep.flagsOf filterType) = Ok d0 ->
     P (fst (fold_left (DataPrep.mapAttribute parse tObj (DataPrep.flagsOf filterType)
                          catObj row)
               (DataPrep.getMapInstanceAttributeIdList tObj categoryName) (d0, st)))) ->
  DataPrep.mapInstanceCategory parse tObj categoryName myContainer filterType ow
  = Ok (rows, ow') ->
  Forall P rows.
Proof.
  intros HP. unfold DataPrep.mapInstanceCategory.
  destruct (DataPrep.getObj myContainer categoryName) as [catObj|];
    [|intros [= <- _]; constructor].
  intros Hrun.
  refine (foldM_invariant (fun s : list Row * DataPrep.OverWrite => Forall P (fst s))
            _ _ _ ([], ow) (rows, ow') _ Hrun); [|constructor].
  cbn beta. intros s row s' _ Hs. unfold DataPrep.mapRow.
  destruct (DataPrep.initRow tObj (DataPrep.flagsOf filterType)) as [d0|] eqn:Ei;
    [|discriminate].
  cbn [bind]. intros [= <-]. cbn [fst]. apply Forall_app. split; [exact Hs|].
  constructor; [|constructor]. now apply HP.
Qed.

Lemma mapInstanceCategoryList_rows (parse : string -> option DateTime)
  (tObj : DataPrep.TableDef) (categoryNameList : list string)
  (myContainer : DataPrep.Container) (filterType : string) (rows : list Row)
  (P : Row -> Prop) :
  (forall d0 catObj categoryName row old,
     DataPrep.initRow tObj (DataPrep.flagsOf filterType) = Ok d0 ->
     P old ->
     P (dupdate old
          (fold_left (DataPrep.mapAttributeMerge parse tObj (DataPrep.flagsOf filterType)
                        catObj row)
             (DataPrep.getMapInstanceAttributeIdList tObj categoryName) d0))) ->
  P [] ->
  DataPrep.mapInstanceCategoryList parse tObj categoryNameList myContainer filterType
  = Ok rows ->
  Forall P rows.
Proof.
  intros HP Hnil. unfold DataPrep.mapInstanceCategoryList.
  destruct (foldM (DataPrep.mergeCategory parse tObj (DataPrep.flagsOf filterType)
                     myContainer) categoryNameList []) as [mD|] eqn:Hrun; [|discriminate].
  cbn [bind]. intros [= <-].
  assert (Hall : forall k r, In (k, r) mD -> P r).
  { refine (foldM_invariant
              (fun mD : dict (list string) Row => forall k r, In (k, r) mD -> P r)
              _ _ _ [] mD _ Hrun); [|intros k r []].
    cbn beta. intros s cat s' _ Hs. unfold DataPrep.mergeCategory.
    destruct (DataPrep.getObj myContainer cat) as [catObj|]; [|now intros [= <-]].
    intros Hcat.
    refine (foldM_invariant
              (fun mD : dict (list string) Row => forall k r, In (k, r) mD -> P r)
              _ _ _ s s' Hs Hcat).
    cbn beta. intros s0 row s0' _ Hs0. unfold DataPrep.mergeRow.
    destruct (DataPrep.initRow tObj (DataPrep.flagsOf filterType)) as [d0|] eqn:Ei;
      [|discriminate].
    cbn [bind].
    destruct (dget _ s0) as [old|] eqn:Eold; intros [= <-] k r Hin;
      destruct (In_dset _ _ _ _ _ Hin) as [E | Hin']; try (eapply Hs0; eassumption);
      injection E as _ ->; apply HP; auto.
    apply dget_Some_In in Eold. eapply Hs0; eassumption. }
  apply Forall_forall. intros r Hr. unfold dvalues in Hr. apply in_map_iff in Hr.
  destruct Hr as [[k r'] [<- Hin]]. eapply Hall; eassumption.
Qed.

(** X14. Without [skip-max-width], for an attribute of declared width
    [W > 0] that is stored as text (not read as a date, not split as an
    iterable), every row returned by the single-category mapper, and
    every row returned by the merging mapper, holds under that attribute
    the attribute's null value or a string of at most [W] characters. *)
Theorem X14_stored_text_fits_declared_width (parse : string -> option DateTime)
  (tObj : DataPrep.TableDef) (myContainer : DataPrep.Container) (filterType : string)
  (atId : string) (W : Z) :
  DataPrep.skipMaxWidthFlag (DataPrep.flagsOf filterType) = false ->
  dget atId (DataPrep.getStringWidthDict tObj) = Some W -> (0 < W)%Z ->
  storedAsText tObj (DataPrep.flagsOf filterType) atId ->
  (forall categoryName ow rows ow',
     DataPrep.mapInstanceCategory parse tObj categoryName myContainer filterType ow
     = Ok (rows, ow') ->
     forall d v, In d rows -> dget atId d = Some v -> withinWidth tObj atId W v) /\
  (forall categoryNameList rows,
     DataPrep.mapInstanceCategoryList parse tObj categoryNameList myContainer filterType
     = Ok rows ->
     forall d v, In d rows -> dget atId d = Some v -> withinWidth tObj atId W v).
Proof.
  intros Hskip HW Hpos Htext. split.
  - intros categoryName ow rows ow' Hrun d v Hd.
    pose proof (mapInstanceCategory_rows parse tObj categoryName myContainer filterType
                  ow ow' rows
                  (fun d => forall v, dget atId d = Some v -> withinWidth tObj atId W v)) as HF.
    cbn beta in HF. rewrite Forall_forall in HF. apply HF; [|exact Hrun|exact Hd].
    intros d0 catObj row st Hinit.
    apply (fold_left_invariant
             (fun s : Row * DataPrep.OverWrite =>
                forall v, dget atId (fst s) = Some v -> withinWidth tObj atId W v)).
    + intros s a _ Hs. now apply mapAttribute_width.
    + cbn [fst]. intros v0 Hv0. left. eapply initRow_null; eassumption.
  - intros categoryNameList rows Hrun d v Hd.
    pose proof (mapInstanceCategoryList_rows parse tObj categoryNameList myContainer
                  filterType rows
                  (fun d => forall v, dget atId d = Some v -> withinWidth tObj atId W v)) as HF.
    cbn beta in HF. rewrite Forall_forall in HF. apply HF; [| |exact Hrun|exact Hd].
    + intros d0 catObj categoryName row old Hinit Hold v0.
      rewrite dget_dupdate.
      * destruct (dget atId (fold_left _ _ d0)) as [x|] eqn:Ex; [|apply Hold].
        intros [= <-]. revert x Ex.
        apply (fold_left_invariant
                 (fun s : Row => forall v, dget atId s = Some v -> withinWidth tObj atId W v)).
        -- intros s a _ Hs. now apply mapAttributeMerge_width.
        -- intros v1 Hv1. left. eapply initRow_null; eassumption.
      * apply (fold_left_invariant (fun s : Row => NoDup (dkeys s))).
        -- intros s a _ Hs. now apply NoDup_mapAttributeMerge.
        -- eapply NoDup_initRow; eassumption.
    + intros v0 Hv0. discriminate Hv0.
Qed.

Lemma X14_stored_text_fits_declared_width_witness :
  withinWidth Ex.entityDef "TYPE" 5 (VStr "polym").
Proof.
  refine (proj1 (X14_stored_text_fits_declared_width Ex.isoParse Ex.entityDef Ex.container
                   "none" "TYPE" 5 _ _ _ _)
            "entity" [] [[("ID", VStr "1"); ("TYPE", VStr "polym")];
                         [("ID", VStr "2"); ("TYPE", VStr "water")]]
            [(("ENTITY", "TYPE"), 7)] _
            [("ID", VStr "1"); ("TYPE", VStr "polym")] (VStr "polym") _ _).
  - reflexivity.
  - reflexivity.
  - reflexivity.
  - split; reflexivity.
  - vm_compute. reflexivity.
  - simpl. auto.
  - reflexivity.
Defined.

(** ** The overflow accumulator *)

Lemma owGrows_refl (ow : DataPrep.OverWrite) : owGrows ow ow.
Proof. intros tup n Hn. eauto. Qed.

Lemma owGrows_trans (ow1 ow2 ow3 : DataPrep.OverWrite) :
  owGrows ow1 ow2 -> owGrows ow2 ow3 -> owGrows ow1 ow3.
Proof.
  intros H12 H23 tup n Hn. destruct (H12 tup n Hn) as [n2 [H2 Hle2]].
  destruct (H23 tup n2 H2) as [n3 [H3 Hle3]]. exists n3. split; [exact H3 | lia].
Qed.

Lemma recordOverflow_lookup (tup tup' : string * string) (lenVal : nat)
  (ow : DataPrep.OverWrite) :
  dget tup' (DataPrep.recordOverflow tup lenVal ow) =
  if keqb tup' tup
  then Some (match dget tup ow with Some old => Nat.max old lenVal | None => lenVal end)
  else dget tup' ow.
Proof.
  unfold DataPrep.recordOverflow. destruct (dget tup ow); apply dget_dset.
Qed.

Lemma recordOverflow_grows (tup : string * string) (lenVal : nat)
  (ow : DataPrep.OverWrite) :
  owGrows ow (DataPrep.recordOverflow tup lenVal ow).
Proof.
  intros tup' n Hn. rewrite recordOverflow_lookup.
  destruct (keqb tup' tup) eqn:E; [|eauto].
  apply keqb_eq in E. subst tup'. rewrite Hn. eexists. split; [reflexivity | lia].
Qed.

Lemma storeValue_ow (tObj : DataPrep.TableDef) (parse : string -> option DateTime)
  (fl : DataPrep.Flags) (track : bool) (a val : string) (maxW : Z)
  (st : Row * DataPrep.OverWrite) :
  snd (DataPrep.storeValue parse tObj fl track a val maxW st) = snd st \/
  (track = true /\ (0 < maxW)%Z /\ (maxW < Z.of_nat (String.length val))%Z /\
   snd (DataPrep.storeValue parse tObj fl track a val maxW st)
   = DataPrep.recordOverflow (DataPrep.getId tObj, a) (String.length val) (snd st)).
Proof.
  unfold DataPrep.storeValue.
  destruct (DataPrep.dropEmptyFlag fl && DataPrep.isEmptyValue val); [now left|].
  destruct (DataPrep.assignDateFlag fl && DataPrep.isAttributeDateType tObj a
            && negb (DataPrep.isEmptyValue val)); [now left|].
  destruct (DataPrep.convertIterables fl && DataPrep.isIterable tObj a
            && negb (DataPrep.isEmptyValue val)).
  { destruct (pySplit (DataPrep.getIterableSeparator tObj a) val); now left. }
  destruct (0 <? maxW)%Z eqn:E0; [|now left].
  destruct track; [|now left]. cbn [andb snd].
  destruct (maxW <? Z.of_nat (String.length val))%Z eqn:E1; [|now left].
  right. apply Z.ltb_lt in E0, E1. auto.
Qed.

Lemma mapAttribute_ow (tObj : DataPrep.TableDef) (parse : string -> option DateTime)
  (fl : DataPrep.Flags) (catObj : DataPrep.Category) (row : list string)
  (st : Row * DataPrep.OverWrite) (a : string) :
  snd (DataPrep.mapAttribute parse tObj fl catObj row st a) = snd st \/
  exists val W,
    rawValue tObj catObj row a val /\ DataPrep.widthOf tObj fl a = Some W /\
    (0 < W)%Z /\ (W < Z.of_nat (String.length val))%Z /\
    snd (DataPrep.mapAttribute parse tObj fl catObj row st a)
    = DataPrep.recordOverflow (DataPrep.getId tObj, a) (String.length val) (snd st).
Proof.
  unfold DataPrep.mapAttribute.
  destruct (dget a (DataPrep.getMapAttributeDict tObj)) as [atName|] eqn:E1; [|now left].
  destruct (dget atName (DataPrep.getAttributeIndexDict catObj)) as [idx|] eqn:E2;
    [|now left].
  destruct (nth_error row idx) as [val|] eqn:E3; [|now left].
  destruct (DataPrep.widthOf tObj fl a) as [maxW|] eqn:E4; [|now left].
  destruct (storeValue_ow tObj parse fl true a val maxW st) as [H | [_ [H0 [H1 H2]]]];
    [now left|].
  right. exists val, maxW. repeat split; auto. exists atName, idx. auto.
Qed.

Lemma mapAttribute_grows (tObj : DataPrep.TableDef) (parse : string -> option DateTime)
  (fl : DataPrep.Flags) (catObj : DataPrep.Category) (row : list string)
  (st : Row * DataPrep.OverWrite) (a : string) :
  owGrows (snd st) (snd (DataPrep.mapAttribute parse tObj fl catObj row st a)).
Proof.
  destruct (mapAttribute_ow tObj parse fl catObj row st a) as [-> | [val [W [_ [_ [_ [_ ->]]]]]]].
  - apply owGrows_refl.
  - apply recordOverflow_grows.
Qed.

Lemma mapInstanceCategory_ow (parse : string -> option DateTime)
  (tObj : DataPrep.TableDef) (categoryName : string) (myContainer : DataPrep.Container)
  (filterType : string) (ow ow' : DataPrep.OverWrite) (rows : list Row)
  (I : DataPrep.OverWrite -> Prop) :
  (forall catObj row st a,
     DataPrep.getObj myContainer categoryName = Some catObj ->
     In row (DataPrep.getRowList catObj) ->
     In a (DataPrep.getMapInstanceAttributeIdList tObj categoryName) ->
     I (snd st) ->
     I (snd (DataPrep.mapAttribute parse tObj (DataPrep.flagsOf filterType) catObj row st a))) ->
  I ow ->
  DataPrep.mapInstanceCategory parse tObj categoryName myContainer filterType ow
  = Ok (rows, ow') ->
  I ow'.
Proof.
  intros Hstep H0. unfold DataPrep.mapInstanceCategory.
  destruct (DataPrep.getObj myContainer categoryName) as [catObj|] eqn:Eo;
    [|now intros [= _ <-]].
  intros Hrun.
  refine (foldM_invariant (fun s : list Row * DataPrep.OverWrite => I (snd s))
            _ _ _ ([], ow) (rows, ow') H0 Hrun).
  cbn beta. intros s row s' Hrow Hs. unfold DataPrep.mapRow.
  destruct (DataPrep.initRow tObj (DataPrep.flagsOf filterType)) as [d0|]; [|discriminate].
  cbn [bind]. intros [= <-]. cbn [snd].
  apply (fold_left_invariant (fun r : Row * DataPrep.OverWrite => I (snd r)));
    [|exact Hs].
  intros r a Ha Hr. now apply (Hstep catObj row r a).
Qed.

Lemma mapInstanceCategory_grows (parse : string -> option DateTime)
  (tObj : DataPrep.TableDef) (categoryName : string) (myContainer : DataPrep.Container)
  (filterType : string) (ow ow' : DataPrep.OverWrite) (rows : list Row) :
  DataPrep.mapInstanceCategory parse tObj categoryName myContainer filterType ow
  = Ok (rows, ow') ->
  owGrows ow ow'.
Proof.
  apply (mapInstanceCategory_ow parse tObj categoryName myContainer filterType ow ow' rows
           (fun o => owGrows ow o)).
  - intros catObj row st a _ _ _ Hs. eapply owGrows_trans; [exact Hs|].
    apply mapAttribute_grows.
  - apply owGrows_refl.
Qed.

Lemma mapTable_grows (parse : string -> option DateTime) (sD : DataPrep.SchemaDef)
  (excluded : list string) (myContainer : DataPrep.Container) (filterType : string)
  (st st' : DataPrep.MapState) (tableId : string) :
  DataPrep.mapTable parse sD excluded myContainer filterType st tableId = Ok st' ->
  owGrows (DataPrep.ms_overWrite st) (DataPrep.ms_overWrite st').
Proof.
  unfold DataPrep.mapTable.
  destruct (existsb (String.eqb tableId) excluded);
    [intros [= <-]; apply owGrows_refl|].
  destruct (DataPrep.getMapInstanceCategoryList (DataPrep.getTable sD tableId))
    as [|c [|c2 more]].
  - cbn [bind fst snd]. destruct (DataPrep.ms_rowList st); [|discriminate].
    intros [= <-]. cbn [DataPrep.ms_overWrite]. apply owGrows_refl.
  - destruct (DataPrep.mapInstanceCategory parse (DataPrep.getTable sD tableId) c
                myContainer filterType (DataPrep.ms_overWrite st)) as [[rows ow1]|] eqn:Em;
      [|discriminate].
    cbn [bind fst snd DataPrep.allocAll]. intros [= <-]. cbn [DataPrep.ms_overWrite].
    eapply mapInstanceCategory_grows; eassumption.
  - destruct (DataPrep.mapInstanceCategoryList parse (DataPrep.getTable sD tableId)
                (c :: c2 :: more) myContainer filterType) as [rows|]; [|discriminate].
    cbn [bind fst snd DataPrep.allocAll]. intros [= <-]. cbn [DataPrep.ms_overWrite].
    apply owGrows_refl.
Qed.

Lemma mapData_grows (parse : string -> option DateTime) (sD : DataPrep.SchemaDef)
  (excluded : list string) (containerList : list DataPrep.Container)
  (tableIdList : list string) (filterType : string) (h : list Row)
  (tables : dict string (list nat)) (ow : DataPrep.OverWrite) (st : DataPrep.MapState) :
  DataPrep.mapData parse sD excluded containerList tableIdList filterType h tables ow
  = Ok st ->
  owGrows ow (DataPrep.ms_overWrite st).
Proof.
  unfold DataPrep.mapData. intros Hrun.
  refine (foldM_invariant (fun s : DataPrep.MapState => owGrows ow (DataPrep.ms_overWrite s))
            _ _ _ _ st _ Hrun); [|apply owGrows_refl].
  cbn beta. intros s c s' _ Hs Hc.
  refine (foldM_invariant (fun s0 : DataPrep.MapState => owGrows ow (DataPrep.ms_overWrite s0))
            _ _ _ s s' Hs Hc).
  cbn beta. intros s0 T s0' _ Hs0 HT. eapply owGrows_trans; [exact Hs0|].
  eapply mapTable_grows; eassumption.
Qed.

Lemma process_grows (parse : string -> option DateTime) (sD : DataPrep.SchemaDef)
  (excluded : list string) (containerList : list DataPrep.Container)
  (filterType : string) (contentSelectors : option (list string))
  (ow : DataPrep.OverWrite) (r : DataById * list string * DataPrep.OverWrite) :
  DataPrep.process_ parse sD excluded containerList filterType contentSelectors ow = Ok r ->
  owGrows ow (snd r).
Proof.
  unfold DataPrep.process_.
  destruct (DataPrep.mapData parse sD excluded _ _ filterType [] [] ow) as [st|] eqn:Em;
    [|discriminate].
  cbn [bind]. intros [= <-]. cbn [snd]. eapply mapData_grows; eassumption.
Qed.

Lemma fetch_grows (parse : string -> option DateTime) (sD : DataPrep.SchemaDef)
  (readFile : string -> list DataPrep.Container)
  (excluded : list string) (loadPathList : list string)
  (filterType : string) (contentSelectors : option (list string))
  (ow : DataPrep.OverWrite) (r : DataById * list string * DataPrep.OverWrite) :
  DataPrep.fetch_ parse sD readFile excluded loadPathList filterType contentSelectors ow
  = Ok r ->
  owGrows ow (snd r).
Proof.
  unfold DataPrep.fetch_.
  match goal with
  | |- bind ?m _ = _ -> _ => destruct m as [acc|] eqn:Em; [|discriminate]
  end.
  cbn [bind]. intros [= <-]. cbn [snd].
  refine (foldM_invariant
            (fun a : list Row * dict string (list nat) * list string * DataPrep.OverWrite =>
               owGrows ow (snd a)) _ _ _ _ acc _ Em); [|apply owGrows_refl].
  cbn beta. intros s lPath s' _ Hs.
  destruct (DataPrep.mapData parse sD excluded _ _ filterType _ _ (snd s)) as [st|] eqn:Ed;
    [|discriminate].
  cbn [bind]. intros [= <-]. cbn [snd]. eapply owGrows_trans; [exact Hs|].
  eapply mapData_grows; eassumption.
Qed.

(** X15. The overflow accumulator only grows over a mapping run: after
    [processDocuments], and after [fetchDocuments], every entry present
    before the call is still present with a length that is not
    smaller. *)
Theorem X15_overflow_marks_never_decrease (parse : string -> option DateTime)
  (sD : DataPrep.SchemaDef) (readFile : string -> list DataPrep.Container)
  (excluded : list string) (styleType filterType : string)
  (contentSelectors : option (list string)) (ow ow' : DataPrep.OverWrite)
  (docs : list Doc) (names : list string) :
  (forall containerList,
     DataPrep.processDocuments parse sD excluded containerList styleType filterType
       contentSelectors ow = Ok (docs, names, ow') ->
     owGrows ow ow') /\
  (forall inputPathList,
     DataPrep.fetchDocuments parse sD readFile excluded inputPathList styleType filterType
       contentSelectors ow = Ok (docs, names, ow') ->
     owGrows ow ow').
Proof.
  split.
  - intros containerList Hrun. unfold DataPrep.processDocuments in Hrun.
    refine (foldM_invariant
              (fun a : list Doc * list string * DataPrep.OverWrite => owGrows ow (snd a))
              _ _ _ _ (docs, names, ow') _ Hrun); [|apply owGrows_refl].
    cbn beta. intros s c s' _ Hs.
    match goal with
    | |- bind ?m _ = _ -> _ => destruct m as [r|] eqn:Ep; [|discriminate]
    end.
    cbn [bind]. intros [= <-]. cbn [snd]. eapply owGrows_trans; [exact Hs|].
    eapply process_grows; eassumption.
  - intros inputPathList Hrun. unfold DataPrep.fetchDocuments in Hrun.
    refine (foldM_invariant
              (fun a : list Doc * list string * DataPrep.OverWrite => owGrows ow (snd a))
              _ _ _ _ (docs, names, ow') _ Hrun); [|apply owGrows_refl].
    cbn beta. intros s p s' _ Hs.
    match goal with
    | |- bind ?m _ = _ -> _ => destruct m as [r|] eqn:Ep; [|discriminate]
    end.
    cbn [bind]. intros [= <-]. cbn [snd]. eapply owGrows_trans; [exact Hs|].
    eapply fetch_grows; eassumption.
Qed.

Lemma X15_overflow_marks_never_decrease_witness :
  owGrows [(("ENTITY", "TYPE"), 3)] [(("ENTITY", "TYPE"), 7)].
Proof.
  eapply (proj1 (X15_overflow_marks_never_decrease Ex.isoParse Ex.pD Ex.readFile []
                   "rowwise_by_id" "none" None [(("ENTITY", "TYPE"), 3)]
                   [(("ENTITY", "TYPE"), 7)] _ _) [Ex.container]).
  vm_compute. reflexivity.
Defined.

Lemma isEmptyValue_long (val : string) :
  2 <= String.length val -> DataPrep.isEmptyValue val = false.
Proof.
  intros Hlen. unfold DataPrep.isEmptyValue.
  destruct (Nat.eqb (String.length val) 0) eqn:E0; [apply Nat.eqb_eq in E0; lia|].
  destruct (String.eqb val "?") eqn:E1; [apply String.eqb_eq in E1; subst; simpl in Hlen; lia|].
  destruct (String.eqb val ".") eqn:E2; [apply String.eqb_eq in E2; subst; simpl in Hlen; lia|].
  reflexivity.
Qed.

Lemma mapAttribute_records (tObj : DataPrep.TableDef) (parse : string -> option DateTime)
  (fl : DataPrep.Flags) (catObj : DataPrep.Category) (row : list string)
  (st : Row * DataPrep.OverWrite) (atId val : string) (W : Z) :
  rawValue tObj catObj row atId val ->
  DataPrep.skipMaxWidthFlag fl = false ->
  dget atId (DataPrep.getStringWidthDict tObj) = Some W ->
  (0 < W)%Z -> (W < Z.of_nat (String.length val))%Z ->
  storedAsText tObj fl atId ->
  exists n', dget (DataPrep.getId tObj, atId)
               (snd (DataPrep.mapAttribute parse tObj fl catObj row st atId)) = Some n' /\
             String.length val <= n'.
Proof.
  intros [atName [idx [H1 [H2 H3]]]] Hskip HW Hpos Hlong [Hd Hi].
  unfold DataPrep.mapAttribute, DataPrep.widthOf. rewrite H1, H2, H3, Hskip, HW.
  unfold DataPrep.storeValue. rewrite Hd, Hi. cbn [andb].
  rewrite isEmptyValue_long by lia. rewrite andb_false_r.
  destruct (0 <? W)%Z eqn:E0; [|apply Z.ltb_ge in E0; lia].
  destruct (W <? Z.of_nat (String.length val))%Z eqn:E1; [|apply Z.ltb_ge in E1; lia].
  cbn [andb snd]. rewrite recordOverflow_lookup, keqb_refl.
  eexists. split; [reflexivity|].
  destruct (dget (DataPrep.getId tObj, atId) (snd st)); lia.
Qed.

Lemma fold_left_reaches {A S : Type} (f : S -> A -> S) (Q : S -> Prop) (l : list A)
  (x0 : A) :
  In x0 l -> (forall s, Q (f s x0)) -> (forall s x, Q s -> Q (f s x)) ->
  forall s, Q (fold_left f l s).
Proof.
  intros Hin Hx Hkeep. induction l as [|x rest IH]; [destruct Hin|]. intros s. simpl.
  destruct Hin as [-> | Hin].
  - apply fold_left_invariant; [intros; now apply Hkeep | apply Hx].
  - now apply IH.
Qed.

Lemma foldM_reaches {A S : Type} (f : S -> A -> Exc S) (Q : S -> Prop) (l : list A)
  (x0 : A) :
  In x0 l -> (forall s s', f s x0 = Ok s' -> Q s') ->
  (forall s x s', Q s -> f s x = Ok s' -> Q s') ->
  forall s s', foldM f l s = Ok s' -> Q s'.
Proof.
  intros Hin Hx Hkeep. induction l as [|x rest IH]; [destruct Hin|]. intros s s'. simpl.
  destruct (f s x) as [s1|] eqn:E; [|discriminate]. cbn [bind].
  destruct Hin as [-> | Hin].
  - apply (foldM_invariant Q); [intros; eapply Hkeep; eassumption | eapply Hx; eassumption].
  - now apply IH.
Qed.

(** X16. The single-category mapper keeps the overflow accumulator as a
    high-water mark.  Without [skip-max-width], a raw value longer than
    the positive width declared for its attribute (stored as text) leaves
    an entry for the table and the attribute that is at least the length
    of that value; and every entry of the accumulator after the call is
    an entry unchanged from before, or the length of a raw value of the
    category that exceeds the width of its attribute. *)
Theorem X16_single_category_records_high_water_mark (parse : string -> option DateTime)
  (tObj : DataPrep.TableDef) (categoryName : string) (myContainer : DataPrep.Container)
  (filterType : string) (ow ow' : DataPrep.OverWrite) (rows : list Row) :
  DataPrep.mapInstanceCategory parse tObj categoryName myContainer filterType ow
  = Ok (rows, ow') ->
  (forall catObj row atId val W,
     DataPrep.getObj myContainer categoryName = Some catObj ->
     In row (DataPrep.getRowList catObj) ->
     In atId (DataPrep.getMapInstanceAttributeIdList tObj categoryName) ->
     rawValue tObj catObj row atId val ->
     DataPrep.skipMaxWidthFlag (DataPrep.flagsOf filterType) = false ->
     dget atId (DataPrep.getStringWidthDict tObj) = Some W ->
     (0 < W)%Z -> (W < Z.of_nat (String.length val))%Z ->
     storedAsText tObj (DataPrep.flagsOf filterType) atId ->
     exists n', dget (DataPrep.getId tObj, atId) ow' = Some n' /\ String.length val <= n') /\
  (forall tup n', dget tup ow' = Some n' ->
     dget tup ow = Some n' \/
     exists catObj row val W,
       DataPrep.getObj myContainer categoryName = Some catObj /\
       In row (DataPrep.getRowList catObj) /\
       fst tup = DataPrep.getId tObj /\
       rawValue tObj catObj row (snd tup) val /\
       DataPrep.widthOf tObj (DataPrep.flagsOf filterType) (snd tup) = Some W /\
       (0 < W)%Z /\ (W < Z.of_nat (String.length val))%Z /\
       n' = String.length val).
Proof.
  intros Hrun. split.
  - intros catObj row atId val W Hobj Hrow Hat Hraw Hskip HW Hpos Hlong Htext.
    unfold DataPrep.mapInstanceCategory in Hrun. rewrite Hobj in Hrun.
    set (Q := fun o : DataPrep.OverWrite =>
                exists n', dget (DataPrep.getId tObj, atId) o = Some n' /\
                           String.length val <= n').
    assert (Hkeep : forall o o', Q o -> owGrows o o' -> Q o').
    { intros o o' [n [Hn Hle]] Hg. destruct (Hg _ _ Hn) as [n2 [Hn2 Hle2]].
      exists n2. split; [exact Hn2 | lia]. }
    refine (foldM_reaches _ (fun s : list Row * DataPrep.OverWrite => Q (snd s))
              _ row Hrow _ _ ([], ow) (rows, ow') Hrun).
    + intros s s'. unfold DataPrep.mapRow.
      destruct (DataPrep.initRow tObj (DataPrep.flagsOf filterType)) as [d0|];
        [|discriminate].
      cbn [bind]. intros [= <-]. cbn [snd].
      apply (fold_left_reaches _ (fun r : Row * DataPrep.OverWrite => Q (snd r)) _ atId Hat).
      * intros r. apply (mapAttribute_records tObj parse _ catObj row r atId val W); assumption.
      * intros r a Hr. eapply Hkeep; [exact Hr|]. apply mapAttribute_grows.
    + intros s r s' Hs. unfold DataPrep.mapRow.
      destruct (DataPrep.initRow tObj (DataPrep.flagsOf filterType)) as [d0|];
        [|discriminate].
      cbn [bind]. intros [= <-]. cbn [snd].
      apply (fold_left_invariant (fun r0 : Row * DataPrep.OverWrite => Q (snd r0)));
        [|exact Hs].
      intros r0 a _ Hr0. eapply Hkeep; [exact Hr0|]. apply mapAttribute_grows.
  - refine (mapInstanceCategory_ow parse tObj categoryName myContainer filterType ow ow' rows
              (fun o => forall tup n', dget tup o = Some n' -> dget tup ow = Some n' \/ _)
              _ _ Hrun); [|now left].
    intros catObj row st a Hobj Hrow Ha Hs tup n'.
    destruct (mapAttribute_ow tObj parse (DataPrep.flagsOf filterType) catObj row st a)
      as [-> | [val [W [Hraw [Hw [Hpos [Hlong ->]]]]]]]; [apply Hs|].
    rewrite recordOverflow_lookup. destruct (keqb tup (DataPrep.getId tObj, a)) eqn:E;
      [|apply Hs].
    apply keqb_eq in E. subst tup.
    assert (Hnew : exists catObj0 row0 val0 W0,
               DataPrep.getObj myContainer categoryName = Some catObj0 /\
               In row0 (DataPrep.getRowList catObj0) /\
               fst (DataPrep.getId tObj, a) = DataPrep.getId tObj /\
               rawValue tObj catObj0 row0 (snd (DataPrep.getId tObj, a)) val0 /\
               DataPrep.widthOf tObj (DataPrep.flagsOf filterType)
                 (snd (DataPrep.getId tObj, a)) = Some W0 /\
               (0 < W0)%Z /\ (W0 < Z.of_nat (String.length val0))%Z /\
               String.length val = String.length val0).
    { exists catObj, row, val, W. repeat split; auto. }
    destruct (dget (DataPrep.getId tObj, a) (snd st)) as [old|] eqn:Eold.
    + intros [= <-]. destruct (Nat.max_dec old (String.length val)) as [Em | Em];
        rewrite Em; [apply Hs; exact Eold | right; exact Hnew].
    + intros [= <-]. right. exact Hnew.
Qed.

Lemma X16_single_category_records_high_water_mark_witness :
  exists n', dget ("ENTITY", "TYPE") [(("ENTITY", "TYPE"), 7)] = Some n' /\
             String.length "polymer" <= n'.
Proof.
  refine (proj1 (X16_single_category_records_high_water_mark Ex.isoParse Ex.entityDef
                   "entity" Ex.container "none" []
                   [(("ENTITY", "TYPE"), 7)]
                   [[("ID", VStr "1"); ("TYPE", VStr "polym")];
                    [("ID", VStr "2"); ("TYPE", VStr "water")]] _)
            (Ex.category "entity" ["id"; "type"] [["1"; "polymer"]; ["2"; "water"]])
            ["1"; "polymer"] "TYPE" "polymer" 5%Z _ _ _ _ _ _ _ _ _).
  - vm_compute. reflexivity.
  - vm_compute. reflexivity.
  - simpl. auto.
  - vm_compute. auto.
  - exists "type", 1. repeat split; vm_compute; reflexivity.
  - reflexivity.
  - reflexivity.
  - reflexivity.
  - vm_compute. reflexivity.
  - split; reflexivity.
Defined.

(** ** Rows of the single-category mapper *)

Lemma storeValue_dmem (tObj : DataPrep.TableDef) (parse : string -> option DateTime)
  (fl : DataPrep.Flags) (track : bool) (a val : string) (maxW : Z)
  (st : Row * DataPrep.OverWrite) (k : string) :
  dmem k (fst st) = true ->
  dmem k (fst (DataPrep.storeValue parse tObj fl track a val maxW st)) = true.
Proof.
  intros Hk.
  assert (Hset : forall v, dmem k (dset a v (fst st)) = true).
  { intros v. unfold dmem in *. rewrite dget_dset. destruct (keqb k a); [reflexivity|].
    exact Hk. }
  unfold DataPrep.storeValue, DataPrep.assignOrNull.
  repeat match goal with
         | |- context [if ?c then _ else _] => destruct c
         | |- context [match ?x with _ => _ end] => destruct x
         end; cbn [fst]; try exact Hk; apply Hset.
Qed.

Lemma mapAttribute_dmem (tObj : DataPrep.TableDef) (parse : string -> option DateTime)
  (fl : DataPrep.Flags) (catObj : DataPrep.Category) (row : list string)
  (st : Row * DataPrep.OverWrite) (a k : string) :
  dmem k (fst st) = true ->
  dmem k (fst (DataPrep.mapAttribute parse tObj fl catObj row st a)) = true.
Proof.
  intros Hk. unfold DataPrep.mapAttribute.
  destruct (dget a (DataPrep.getMapAttributeDict tObj)) as [atName|]; [|exact Hk].
  destruct (dget atName (DataPrep.getAttributeIndexDict catObj)) as [idx|]; [|exact Hk].
  destruct (nth_error row idx) as [val|]; [|exact Hk].
  destruct (DataPrep.widthOf tObj fl a) as [maxW|]; [|exact Hk].
  now apply storeValue_dmem.
Qed.

Lemma initRow_returns (tObj : DataPrep.TableDef) (fl : DataPrep.Flags) :
  DataPrep.dropEmptyFlag fl = true \/
  (forall atId, In atId (DataPrep.getAttributeIdList tObj) ->
                dmem atId (DataPrep.getSqlNullValueDict tObj) = true) ->
  exists d0, DataPrep.initRow tObj fl = Ok d0.
Proof.
  unfold DataPrep.initRow. intros [-> | Hnull]; [eauto|].
  destruct (DataPrep.dropEmptyFlag fl); [eauto|].
  eexists. apply (foldM_pure _ (fun (d : Row) atId =>
                     dset atId (match dget atId (DataPrep.getSqlNullValueDict tObj) with
                                | Some nv => nv
                                | None => VNone
                                end) d)).
  intros s x Hx. specialize (Hnull x Hx). unfold dmem, dindex in *.
  destruct (dget x (DataPrep.getSqlNullValueDict tObj)); [reflexivity | discriminate].
Qed.

Lemma initRow_complete (tObj : DataPrep.TableDef) (fl : DataPrep.Flags) (d0 : Row)
  (atId : string) :
  DataPrep.dropEmptyFlag fl = false -> DataPrep.initRow tObj fl = Ok d0 ->
  In atId (DataPrep.getAttributeIdList tObj) -> dmem atId d0 = true.
Proof.
  unfold DataPrep.initRow. intros -> Hrun Hin.
  refine (foldM_reaches _ (fun d : Row => dmem atId d = true) _ atId Hin _ _ [] d0 Hrun).
  - intros s s'. destruct (dindex atId (DataPrep.getSqlNullValueDict tObj)) as [nv|];
      [|discriminate].
    cbn [bind]. intros [= <-]. unfold dmem. now rewrite dget_dset_eq.
  - intros s x s' Hs. destruct (dindex x (DataPrep.getSqlNullValueDict tObj)) as [nv|];
      [|discriminate].
    cbn [bind]. intros [= <-]. unfold dmem in *. rewrite dget_dset.
    destruct (keqb atId x); [reflexivity | exact Hs].
Qed.

Lemma mapRows_length (parse : string -> option DateTime) (tObj : DataPrep.TableDef)
  (fl : DataPrep.Flags) (catObj : DataPrep.Category) (categoryName : string)
  (d0 : Row) (l : list (list string)) :
  DataPrep.initRow tObj fl = Ok d0 ->
  forall st, exists rows ow',
    foldM (DataPrep.mapRow parse tObj fl catObj categoryName) l st = Ok (rows, ow') /\
    length rows = length (fst st) + length l.
Proof.
  intros Hinit. induction l as [|row rest IH]; intros st; simpl.
  - exists (fst st), (snd st). destruct st. split; [reflexivity | simpl; lia].
  - unfold DataPrep.mapRow at 1. rewrite Hinit. cbn [bind].
    match goal with
    | |- context [foldM _ rest ?s] => destruct (IH s) as [rows [ow' [Hrun Hlen]]]
    end.
    exists rows, ow'. split; [exact Hrun|].
    rewrite Hlen. cbn [fst]. rewrite length_app. simpl. lia.
Qed.

(** X17. When every attribute of the table has a null value (or under
    [drop-empty-attributes]) the single-category mapper returns, whatever
    the container holds: one output row per row of the category, none
    when the category is absent; and without [drop-empty-attributes]
    every output row carries every attribute of the table. *)
Theorem X17_one_row_per_category_row (parse : string -> option DateTime)
  (tObj : DataPrep.TableDef) (categoryName : string) (myContainer : DataPrep.Container)
  (filterType : string) (ow : DataPrep.OverWrite) :
  DataPrep.dropEmptyFlag (DataPrep.flagsOf filterType) = true \/
  (forall atId, In atId (DataPrep.getAttributeIdList tObj) ->
                dmem atId (DataPrep.getSqlNullValueDict tObj) = true) ->
  exists rows ow',
    DataPrep.mapInstanceCategory parse tObj categoryName myContainer filterType ow
    = Ok (rows, ow') /\
    length rows = match DataPrep.getObj myContainer categoryName with
                  | Some catObj => length (DataPrep.getRowList catObj)
                  | None => 0
                  end /\
    (DataPrep.dropEmptyFlag (DataPrep.flagsOf filterType) = false ->
     forall d atId, In d rows -> In atId (DataPrep.getAttributeIdList tObj) ->
                    dmem atId d = true).
Proof.
  intros Hnull. destruct (initRow_returns tObj (DataPrep.flagsOf filterType) Hnull)
    as [d0 Hinit].
  assert (Hrun : exists rows ow',
            DataPrep.mapInstanceCategory parse tObj categoryName myContainer filterType ow
            = Ok (rows, ow') /\
            length rows = match DataPrep.getObj myContainer categoryName with
                          | Some catObj => length (DataPrep.getRowList catObj)
                          | None => 0
                          end).
  { unfold DataPrep.mapInstanceCategory.
    destruct (DataPrep.getObj myContainer categoryName) as [catObj|]; [|eauto].
    destruct (mapRows_length parse tObj (DataPrep.flagsOf filterType) catObj categoryName d0
                (DataPrep.getRowList catObj) Hinit ([], ow)) as [rows [ow' [Hrun Hlen]]].
    exists rows, ow'. split; [exact Hrun | exact Hlen]. }
  destruct Hrun as [rows [ow' [Hrun Hlen]]]. exists rows, ow'.
  split; [exact Hrun|]. split; [exact Hlen|].
  intros Hdrop d atId Hd Hat.
  pose proof (mapInstanceCategory_rows parse tObj categoryName myContainer filterType
                ow ow' rows (fun d => dmem atId d = true)) as HF.
  rewrite Forall_forall in HF. apply HF; [|exact Hrun|exact Hd].
  intros d1 catObj row st Hinit1.
  apply (fold_left_invariant (fun s : Row * DataPrep.OverWrite => dmem atId (fst s) = true)).
  - intros s a _ Hs. now apply mapAttribute_dmem.
  - cbn [fst]. eapply initRow_complete; eassumption.
Qed.

Lemma X17_one_row_per_category_row_witness :
  exists rows ow',
    DataPrep.mapInstanceCategory Ex.isoParse Ex.entityDef "entity" Ex.container "none" []
    = Ok (rows, ow') /\
    length rows = 2 /\
    (DataPrep.dropEmptyFlag (DataPrep.flagsOf "none") = false ->
     forall d atId, In d rows -> In atId (DataPrep.getAttributeIdList Ex.entityDef) ->
                    dmem atId d = true).
Proof.
  apply (X17_one_row_per_category_row Ex.isoParse Ex.entityDef "entity" Ex.container
           "none" []).
  right. intros atId Hin. simpl in Hin.
  destruct Hin as [<- | [<- | []]]; reflexivity.
Defined.

Lemma foldM_raises_only {A S : Type} (f : S -> A -> Exc S) (l : list A) (x : A)
  (e0 : PyErr) :
  In x l -> (forall s, f s x = Raise e0) ->
  (forall s y e, f s y = Raise e -> e = e0) ->
  forall s, foldM f l s = Raise e0.
Proof.
  induction l as [|y rest IH]; intros Hin Hx Honly s; [destruct Hin|]. simpl.
  destruct (f s y) as [s'|e] eqn:E.
  - cbn [bind]. destruct Hin as [-> | Hin]; [rewrite Hx in E; discriminate|].
    now apply IH.
  - cbn [bind]. now rewrite (Honly s y e E).
Qed.

(** X18. The only exception of the single-category mapper: without
    [drop-empty-attributes], when an attribute of the table has no entry
    in the null-value dictionary, the initialisation of the first output
    row raises [KeyError], for every category that is present with at
    least one row. *)
Theorem X18_missing_null_value_raises (parse : string -> option DateTime)
  (tObj : DataPrep.TableDef) (categoryName : string) (myContainer : DataPrep.Container)
  (filterType : string) (ow : DataPrep.OverWrite) (catObj : DataPrep.Category)
  (atId : string) :
  DataPrep.dropEmptyFlag (DataPrep.flagsOf filterType) = false ->
  In atId (DataPrep.getAttributeIdList tObj) ->
  dget atId (DataPrep.getSqlNullValueDict tObj) = None ->
  DataPrep.getObj myContainer categoryName = Some catObj ->
  DataPrep.getRowList catObj <> [] ->
  DataPrep.mapInstanceCategory parse tObj categoryName myContainer filterType ow
  = Raise KeyError.
Proof.
  intros Hdrop Hat Hnull Hobj Hrows. unfold DataPrep.mapInstanceCategory. rewrite Hobj.
  destruct (DataPrep.getRowList catObj) as [|row rest]; [congruence|].
  cbn [foldM]. unfold DataPrep.mapRow at 1.
  assert (Hinit : DataPrep.initRow tObj (DataPrep.flagsOf filterType) = Raise KeyError).
  { unfold DataPrep.initRow. rewrite Hdrop.
    apply (foldM_raises_only _ _ atId KeyError Hat).
    - intros s. unfold dindex. now rewrite Hnull.
    - intros s y e. unfold dindex.
      destruct (dget y (DataPrep.getSqlNullValueDict tObj)); cbn [bind];
        [discriminate | now intros [= <-]]. }
  rewrite Hinit. reflexivity.
Qed.

Lemma X18_missing_null_value_raises_witness :
  DataPrep.mapInstanceCategory Ex.isoParse
    (Ex.withNullValues Ex.entityDef [("ID", Ex.nullValue)])
    "entity" Ex.container "none" []
  = Raise KeyError.
Proof.
  apply (X18_missing_null_value_raises Ex.isoParse _ "entity" Ex.container "none" []
           (Ex.category "entity" ["id"; "type"] [["1"; "polymer"]; ["2"; "water"]]) "TYPE").
  - reflexivity.
  - simpl. auto.
  - reflexivity.
  - reflexivity.
  - discriminate.
Defined.

(** ** The merging mapper *)

Lemma mapAttributeMerge_dmem (tObj : DataPrep.TableDef) (parse : string -> option DateTime)
  (fl : DataPrep.Flags) (catObj : DataPrep.Category) (row : list string)
  (d : Row) (a k : string) :
  dmem k d = true ->
  dmem k (DataPrep.mapAttributeMerge parse tObj fl catObj row d a) = true.
Proof.
  intros Hk. unfold DataPrep.mapAttributeMerge.
  destruct (dget a (DataPrep.getMapAttributeDict tObj)) as [atName|]; [|exact Hk].
  destruct (dget atName (DataPrep.getAttributeIndexDict catObj)) as [idx|]; [|exact Hk].
  destruct (nth_error row idx) as [val|]; [|exact Hk].
  destruct (DataPrep.widthOf tObj fl a) as [maxW|]; [|exact Hk].
  now apply (storeValue_dmem tObj parse fl false a val maxW (d, [])).
Qed.

(** X19. One turn of the merging loop is a dictionary update of the row
    stored under the merge key: the stored row takes every field of the
    dictionary built from the new input row and keeps an earlier field
    only where the new dictionary has none; rows under other keys are
    untouched.  Without [drop-empty-attributes] the new dictionary holds
    every attribute of the table, so every table attribute of the stored
    row is then that of the last input row alone. *)
Theorem X19_merge_is_update_by_last_row (parse : string -> option DateTime)
  (tObj : DataPrep.TableDef) (fl : DataPrep.Flags) (catObj : DataPrep.Category)
  (categoryName : string) (mD mD' : dict (list string) Row) (row : list string) :
  DataPrep.mergeRow parse tObj fl catObj categoryName mD row = Ok mD' ->
  exists d r',
    rowFields parse tObj fl catObj categoryName row = Ok d /\
    dget (DataPrep.mergeKey catObj (DataPrep.getMapMergeIndexAttributes tObj categoryName) row)
      mD' = Some r' /\
    (forall k,
       k <> DataPrep.mergeKey catObj (DataPrep.getMapMergeIndexAttributes tObj categoryName) row ->
       dget k mD' = dget k mD) /\
    (forall atId,
       dget atId r' =
       match dget atId d with
       | Some v => Some v
       | None =>
           match dget (DataPrep.mergeKey catObj
                         (DataPrep.getMapMergeIndexAttributes tObj categoryName) row) mD with
           | Some old => dget atId old
           | None => None
           end
       end) /\
    (DataPrep.dropEmptyFlag fl = false ->
     forall atId, In atId (DataPrep.getAttributeIdList tObj) ->
       dmem atId d = true /\ dget atId r' = dget atId d).
Proof.
  unfold DataPrep.mergeRow, rowFields.
  destruct (DataPrep.initRow tObj fl) as [d0|] eqn:Ei; [|discriminate]. cbn [bind].
  set (tk := DataPrep.mergeKey catObj (DataPrep.getMapMergeIndexAttributes tObj categoryName)
               row).
  set (d := fold_left (DataPrep.mapAttributeMerge parse tObj fl catObj row)
              (DataPrep.getMapInstanceAttributeIdList tObj categoryName) d0).
  assert (Hnd : NoDup (dkeys d)).
  { apply (fold_left_invariant (fun s : Row => NoDup (dkeys s))).
    - intros s a _ Hs. now apply NoDup_mapAttributeMerge.
    - eapply NoDup_initRow; eassumption. }
  assert (Hfull : DataPrep.dropEmptyFlag fl = false ->
                  forall atId, In atId (DataPrep.getAttributeIdList tObj) ->
                               dmem atId d = true).
  { intros Hdrop atId Hat.
    apply (fold_left_invariant (fun s : Row => dmem atId s = true)).
    - intros s a _ Hs. now apply mapAttributeMerge_dmem.
    - eapply initRow_complete; eassumption. }
  intros Hrun. exists d.
  exists (dupdate (match dget tk mD with Some old => old | None => [] end) d).
  split; [reflexivity|]. split; [|split; [|split]].
  - destruct (dget tk mD); injection Hrun as <-; apply dget_dset_eq.
  - intros k Hk. destruct (dget tk mD); injection Hrun as <-;
      apply dget_dset_neq; congruence.
  - intros atId. rewrite (dget_dupdate _ _ _ Hnd).
    destruct (dget atId d); [reflexivity|]. destruct (dget tk mD); reflexivity.
  - intros Hdrop atId Hat. split; [now apply Hfull|].
    rewrite (dget_dupdate _ _ _ Hnd). specialize (Hfull Hdrop atId Hat).
    unfold dmem in Hfull. destruct (dget atId d); [reflexivity | discriminate].
Qed.

Lemma X19_merge_is_update_by_last_row_witness :
  exists d r',
    rowFields Ex.isoParse Ex.mergedDef (DataPrep.flagsOf "none")
      (Ex.category "b" ["id"; "a2"; "a3"] [["1"; "r"; "stuvwx"]]) "b" ["1"; "r"; "stuvwx"]
    = Ok d /\
    r' = [("A1", Ex.nullValue); ("A2", VStr "r"); ("A3", VStr "stu")] /\
    dget "A1" r' = dget "A1" d.
Proof.
  destruct (X19_merge_is_update_by_last_row Ex.isoParse Ex.mergedDef (DataPrep.flagsOf "none")
              (Ex.category "b" ["id"; "a2"; "a3"] [["1"; "r"; "stuvwx"]]) "b"
              [(["1"], [("A1", VStr "p"); ("A2", VStr "q"); ("A3", Ex.nullValue)])]
              [(["1"], [("A1", Ex.nullValue); ("A2", VStr "r"); ("A3", VStr "stu")])]
              ["1"; "r"; "stuvwx"])
    as [d [r' [Hd [Hr [_ [_ Hlast]]]]]].
  - vm_compute. reflexivity.
  - exists d, r'. split; [exact Hd|]. split.
    + vm_compute in Hr. now injection Hr as <-.
    + apply Hlast; [reflexivity | simpl; auto].
Defined.

Lemma mergeRows_keys (parse : string -> option DateTime) (tObj : DataPrep.TableDef)
  (fl : DataPrep.Flags) (catObj : DataPrep.Category) (categoryName : string)
  (l : list (list string)) :
  forall mD mD',
    foldM (DataPrep.mergeRow parse tObj fl catObj categoryName) l mD = Ok mD' ->
    NoDup (dkeys mD) ->
    NoDup (dkeys mD') /\
    forall k, In k (dkeys mD') <->
              In k (dkeys mD) \/
              In k (map (DataPrep.mergeKey catObj
                           (DataPrep.getMapMergeIndexAttributes tObj categoryName)) l).
Proof.
  induction l as [|row rest IH]; intros mD mD'; simpl.
  - intros [= <-] Hnd. split; [exact Hnd | tauto].
  - destruct (DataPrep.mergeRow parse tObj fl catObj categoryName mD row) as [mD1|] eqn:E;
      [|discriminate].
    cbn [bind]. intros Hrun Hnd.
    assert (H1 : NoDup (dkeys mD1) /\
                 forall k, In k (dkeys mD1) <->
                   k = DataPrep.mergeKey catObj
                         (DataPrep.getMapMergeIndexAttributes tObj categoryName) row \/
                   In k (dkeys mD)).
    { unfold DataPrep.mergeRow in E.
      destruct (DataPrep.initRow tObj fl) as [d0|]; [|discriminate]. cbn [bind] in E.
      destruct (dget _ mD); injection E as <-;
        (split; [now apply NoDup_dkeys_dset | intros k; apply dkeys_dset_In]). }
    destruct H1 as [Hnd1 Hk1]. destruct (IH mD1 mD' Hrun Hnd1) as [Hnd' Hk'].
    split; [exact Hnd'|]. intros k. rewrite Hk', Hk1. intuition (subst; auto).
Qed.

Lemma mergeCategories_keys (parse : string -> option DateTime) (tObj : DataPrep.TableDef)
  (fl : DataPrep.Flags) (myContainer : DataPrep.Container) (cats : list string) :
  forall mD mD',
    foldM (DataPrep.mergeCategory parse tObj fl myContainer) cats mD = Ok mD' ->
    NoDup (dkeys mD) ->
    NoDup (dkeys mD') /\
    forall k, In k (dkeys mD') <-> In k (dkeys mD) \/ In k (mergeKeys tObj myContainer cats).
Proof.
  induction cats as [|c rest IH]; intros mD mD'; simpl.
  - intros [= <-] Hnd. split; [exact Hnd | unfold mergeKeys; simpl; tauto].
  - destruct (DataPrep.mergeCategory parse tObj fl myContainer mD c) as [mD1|] eqn:E;
      [|discriminate].
    cbn [bind]. intros Hrun Hnd.
    assert (H1 : NoDup (dkeys mD1) /\
                 forall k, In k (dkeys mD1) <->
                   In k (dkeys mD) \/ In k (mergeKeys tObj myContainer [c])).
    { unfold DataPrep.mergeCategory in E. unfold mergeKeys. cbn [flat_map].
      rewrite app_nil_r.
      destruct (DataPrep.getObj myContainer c) as [catObj|].
      - now apply (mergeRows_keys parse tObj fl catObj c _ mD mD1 E).
      - injection E as <-. split; [exact Hnd | simpl; tauto]. }
    destruct H1 as [Hnd1 Hk1]. destruct (IH mD1 mD' Hrun Hnd1) as [Hnd' Hk'].
    split; [exact Hnd'|]. intros k. rewrite Hk', Hk1.
    unfold mergeKeys. cbn [flat_map]. rewrite app_nil_r, in_app_iff. tauto.
Qed.

(** X20. The merging mapper returns one row per distinct merge key among
    the rows of the contributing categories.  A row whose category has no
    merge index attribute has the empty key, so when no contributing
    category has one, all rows collapse into at most one output row. *)
Theorem X20_one_merged_row_per_key (parse : string -> option DateTime)
  (tObj : DataPrep.TableDef) (categoryNameList : list string)
  (myContainer : DataPrep.Container) (filterType : string) (rows : list Row) :
  DataPrep.mapInstanceCategoryList parse tObj categoryNameList myContainer filterType
  = Ok rows ->
  (exists keys,
     NoDup keys /\
     (forall k, In k keys <-> In k (mergeKeys tObj myContainer categoryNameList)) /\
     length rows = length keys) /\
  ((forall categoryName, In categoryName categoryNameList ->
      DataPrep.getMapMergeIndexAttributes tObj categoryName = []) ->
   length rows <= 1).
Proof.
  unfold DataPrep.mapInstanceCategoryList.
  destruct (foldM (DataPrep.mergeCategory parse tObj (DataPrep.flagsOf filterType)
                     myContainer) categoryNameList []) as [mD|] eqn:Hrun; [|discriminate].
  cbn [bind]. intros [= <-].
  destruct (mergeCategories_keys parse tObj _ myContainer categoryNameList [] mD Hrun)
    as [Hnd Hk]; [constructor|].
  assert (Hlen : length (dvalues mD) = length (dkeys mD))
    by (unfold dvalues, dkeys; now rewrite !length_map).
  split.
  - exists (dkeys mD). split; [exact Hnd|]. split; [|exact Hlen].
    intros k. rewrite Hk. simpl. tauto.
  - intros Hempty. rewrite Hlen.
    assert (Hall : forall k, In k (dkeys mD) -> k = []).
    { intros k Hin. apply Hk in Hin. destruct Hin as [[] | Hin].
      unfold mergeKeys in Hin. apply in_flat_map in Hin. destruct Hin as [c [Hc Hin]].
      destruct (DataPrep.getObj myContainer c) as [catObj|]; [|destruct Hin].
      apply in_map_iff in Hin. destruct Hin as [row [<- _]].
      rewrite (Hempty c Hc). reflexivity. }
    destruct (dkeys mD) as [|k1 [|k2 more]]; simpl; try lia.
    exfalso. inversion Hnd as [|? ? Hni _]; subst. apply Hni.
    rewrite (Hall k1) by (simpl; auto). rewrite (Hall k2) by (simpl; auto). now left.
Qed.

Lemma X20_one_merged_row_per_key_witness :
  exists keys,
    NoDup keys /\
    (forall k, In k keys <-> In k (mergeKeys Ex.mergedDef Ex.container ["a"; "b"])) /\
    length [[("A1", Ex.nullValue); ("A2", VStr "r"); ("A3", VStr "stu")]] = length keys.
Proof.
  apply (X20_one_merged_row_per_key Ex.isoParse Ex.mergedDef ["a"; "b"] Ex.container "none").
  vm_compute. reflexivity.
Defined.

(** ** Computed attributes and dates *)

Lemma dset_twice {K V : Type} `{EqKeyLaws K} (k : K) (v : V) (d : dict K V) :
  dset k v (dset k v d) = dset k v d.
Proof.
  induction d as [|[k' v'] rest IH]; simpl.
  - now rewrite keqb_refl.
  - destruct (keqb k k') eqn:E; simpl; rewrite E; [reflexivity | now rewrite IH].
Qed.

Lemma rowHeapSet_lookup (h : list Row) (a b : nat) (atId : string) (v : Value) :
  nth_error (DataPrep.rowHeapSet h a atId v) b =
  match nth_error h b with
  | Some r => Some (if Nat.eqb a b then dset atId v r else r)
  | None => None
  end.
Proof.
  revert a b. induction h as [|r rest IH]; intros a b; simpl.
  - destruct b; reflexivity.
  - destruct a, b; simpl; try reflexivity.
    + destruct (nth_error rest b); reflexivity.
    + apply IH.
Qed.

Lemma length_rowHeapSet (h : list Row) (a : nat) (atId : string) (v : Value) :
  length (DataPrep.rowHeapSet h a atId v) = length h.
Proof.
  revert a. induction h as [|r rest IH]; intros [|a]; simpl; auto.
Qed.

(** X21. [__evalMapFunction] with the function [datablockid()] assigns the
    container name to the attribute in exactly the rows of [rowList]: the
    other attributes of these rows and all other rows are unchanged.  Any
    other function name changes nothing. *)
Theorem X21_datablockid_sets_container_name (dataContainer : DataPrep.Container)
  (rowList : list nat) (attributeId functionName : string) (h : list Row) :
  (functionName = "datablockid()" ->
   length (DataPrep.evalMapFunction dataContainer rowList attributeId functionName h)
   = length h /\
   forall a r, nth_error h a = Some r ->
     nth_error (DataPrep.evalMapFunction dataContainer rowList attributeId functionName h) a
     = Some (if existsb (Nat.eqb a) rowList
             then dset attributeId (VStr (DataPrep.getName dataContainer)) r
             else r)) /\
  (functionName <> "datablockid()" ->
   DataPrep.evalMapFunction dataContainer rowList attributeId functionName h = h).
Proof.
  unfold DataPrep.evalMapFunction. split.
  - intros ->. rewrite String.eqb_refl.
    revert h. induction rowList as [|b rest IH]; intros h; cbn [fold_left existsb].
    + split; [reflexivity|]. intros a r Ha. exact Ha.
    + destruct (IH (DataPrep.rowHeapSet h b attributeId
                      (VStr (DataPrep.getName dataContainer)))) as [Hlen Hget].
      split; [now rewrite Hlen, length_rowHeapSet|].
      intros a r Ha.
      rewrite (Hget a (if Nat.eqb b a
                       then dset attributeId (VStr (DataPrep.getName dataContainer)) r
                       else r))
        by (rewrite rowHeapSet_lookup, Ha; reflexivity).
      rewrite (Nat.eqb_sym a b).
      destruct (Nat.eqb b a); cbn [orb]; [|reflexivity].
      destruct (existsb (Nat.eqb a) rest); [now rewrite dset_twice | reflexivity].
  - intros Hne. apply String.eqb_neq in Hne. now rewrite Hne.
Qed.

Lemma X21_datablockid_sets_container_name_witness :
  nth_error (DataPrep.evalMapFunction Ex.container [0] "ENTRY_ID" "datablockid()"
               [[("ID", VStr "1")]; [("ID", VStr "2")]]) 0
  = Some [("ID", VStr "1"); ("ENTRY_ID", VStr "1ABC")].
Proof.
  refine (proj2 (proj1 (X21_datablockid_sets_container_name Ex.container [0] "ENTRY_ID"
                          "datablockid()" [[("ID", VStr "1")]; [("ID", VStr "2")]])
                   eq_refl) 0 [("ID", VStr "1")] eq_refl).
Defined.

Lemma strContains_colon (c : ascii) (rest : string) :
  strContains ":" (String c rest) = Ascii.eqb c ":"%char || strContains ":" rest.
Proof.
  cbn [strContains]. f_equal.
  change (String.prefix ":" (String c rest))
    with (match ascii_dec ":"%char c with
          | left _ => String.prefix "" rest
          | right _ => false
          end).
  destruct (ascii_dec ":"%char c) as [<- | Hne].
  - destruct rest; reflexivity.
  - symmetry. apply Ascii.eqb_neq. congruence.
Qed.

Lemma replaceFirstColon_none (s : string) :
  strContains ":" s = false -> replaceFirstColon s = s.
Proof.
  induction s as [|c rest IH]; [reflexivity|].
  rewrite strContains_colon. cbn [replaceFirstColon].
  destruct (Ascii.eqb c ":"%char); [discriminate|].
  cbn [orb]. intros H. now rewrite IH.
Qed.

Lemma replaceFirstColon_first (a b : string) :
  strContains ":" a = false ->
  replaceFirstColon (a ++ String ":"%char b) = (a ++ String " "%char b)%string.
Proof.
  induction a as [|c rest IH]; [reflexivity|].
  rewrite strContains_colon. cbn [replaceFirstColon String.append].
  destruct (Ascii.eqb c ":"%char); [discriminate|].
  cbn [orb]. intros H. now rewrite IH.
Qed.

(** X22. [__assignDateType] hands the value to the date parser with its
    first colon, and only the first, replaced by a space
    ([yyyy-mm-dd:hh:mm:ss] is read as [yyyy-mm-dd hh:mm:ss]).  A value
    without a colon reaches the parser as it is, and when the parser
    rejects it the attribute keeps the raw string unchanged. *)
Theorem X22_date_text_given_to_the_parser (parse : string -> option DateTime)
  (atId : string) :
  (forall a b, strContains ":" a = false ->
     DataPrep.assignDateType parse atId (a ++ String ":"%char b)
     = match parse (a ++ String " "%char b)%string with
       | Some d => VDate d
       | None => VStr (a ++ String " "%char b)
       end) /\
  (forall value, strContains ":" value = false ->
     DataPrep.assignDateType parse atId value
     = match parse value with
       | Some d => VDate d
       | None => VStr value
       end).
Proof.
  split.
  - intros a b Ha. unfold DataPrep.assignDateType. now rewrite replaceFirstColon_first.
  - intros value Hv. unfold DataPrep.assignDateType. now rewrite replaceFirstColon_none.
Qed.

Lemma X22_date_text_given_to_the_parser_witness :
  DataPrep.assignDateType Ex.isoParse "DATE" "2018-03-19:10:20:30"
  = VDate (mkDateTime 2018 3 19 10 20 30) /\
  DataPrep.assignDateType Ex.isoParse "DATE" "unknown" = VStr "unknown".
Proof.
  split.
  - exact (eq_trans (proj1 (X22_date_text_given_to_the_parser Ex.isoParse "DATE")
                       "2018-03-19" "10:20:30" eq_refl) eq_refl).
  - exact (eq_trans (proj2 (X22_date_text_given_to_the_parser Ex.isoParse "DATE")
                       "unknown" eq_refl) eq_refl).
Defined.

(** ** The mapping run *)

Lemma mapTable_excluded (parse : string -> option DateTime) (sD : DataPrep.SchemaDef)
  (excluded : list string) (c : DataPrep.Container) (filterType : string)
  (st : DataPrep.MapState) (T : string) :
  existsb (String.eqb T) excluded = true ->
  DataPrep.mapTable parse sD excluded c filterType st T = Ok st.
Proof. intros He. unfold DataPrep.mapTable. now rewrite He. Qed.

Lemma mapTables_excluded_prefix (parse : string -> option DateTime)
  (sD : DataPrep.SchemaDef) (excluded : list string) (c : DataPrep.Container)
  (filterType : string) (pre l : list string) (st : DataPrep.MapState) :
  (forall t, In t pre -> existsb (String.eqb t) excluded = true) ->
  foldM (DataPrep.mapTable parse sD excluded c filterType) (pre ++ l) st
  = foldM (DataPrep.mapTable parse sD excluded c filterType) l st.
Proof.
  induction pre as [|t rest IH]; intros Hex; simpl; [reflexivity|].
  rewrite mapTable_excluded by (apply Hex; now left). cbn [bind].
  apply IH. intros t' Ht'. apply Hex. now right.
Qed.

Lemma mapTable_unbound (parse : string -> option DateTime) (sD : DataPrep.SchemaDef)
  (excluded : list string) (c : DataPrep.Container) (filterType : string)
  (st : DataPrep.MapState) (T : string) :
  existsb (String.eqb T) excluded = false ->
  DataPrep.getMapInstanceCategoryList (DataPrep.getTable sD T) = [] ->
  DataPrep.ms_rowList st = None ->
  DataPrep.mapTable parse sD excluded c filterType st T = Raise UnboundLocalError.
Proof.
  intros He Hc Hr. unfold DataPrep.mapTable. rewrite He, Hc, Hr. reflexivity.
Qed.

Lemma mapData_unbound (parse : string -> option DateTime) (sD : DataPrep.SchemaDef)
  (excluded : list string) (cL : list DataPrep.Container) (filterType : string)
  (pre post : list string) (T : string) (h : list Row) (tables : dict string (list nat))
  (ow : DataPrep.OverWrite) :
  (forall t, In t pre -> existsb (String.eqb t) excluded = true) ->
  existsb (String.eqb T) excluded = false ->
  DataPrep.getMapInstanceCategoryList (DataPrep.getTable sD T) = [] ->
  cL <> [] ->
  DataPrep.mapData parse sD excluded cL (pre ++ T :: post) filterType h tables ow
  = Raise UnboundLocalError.
Proof.
  intros Hpre He Hc Hne. destruct cL as [|c rest]; [congruence|].
  unfold DataPrep.mapData. cbn [foldM].
  rewrite mapTables_excluded_prefix by exact Hpre. cbn [foldM].
  rewrite mapTable_unbound by auto. reflexivity.
Qed.

(** X23. When the first table of the schema's table list that is not
    excluded has no mapped category, the variable [rowList] of
    [__mapData] is read before any assignment: [process] raises
    [UnboundLocalError] as soon as one container passes the content
    selectors, and so does [processDocuments]. *)
Theorem X23_unmapped_first_table_raises (parse : string -> option DateTime)
  (sD : DataPrep.SchemaDef) (excluded : list string) (pre post : list string) (T : string)
  (containerList : list DataPrep.Container) (c : DataPrep.Container)
  (styleType filterType : string) (contentSelectors : option (list string))
  (ow : DataPrep.OverWrite) :
  DataPrep.getTableIdList sD = pre ++ T :: post ->
  (forall t, In t pre -> existsb (String.eqb t) excluded = true) ->
  existsb (String.eqb T) excluded = false ->
  DataPrep.getMapInstanceCategoryList (DataPrep.getTable sD T) = [] ->
  In c containerList ->
  DataPrep.testContentSelectors sD c contentSelectors = true ->
  DataPrep.process parse sD excluded containerList styleType filterType contentSelectors ow
  = Raise UnboundLocalError /\
  DataPrep.processDocuments parse sD excluded containerList styleType filterType
    contentSelectors ow
  = Raise UnboundLocalError.
Proof.
  intros Hids Hpre He Hc Hin Hsel.
  assert (Hproc : forall cl ow0,
            filter (fun c0 => DataPrep.testContentSelectors sD c0 contentSelectors) cl <> [] ->
            DataPrep.process_ parse sD excluded cl filterType contentSelectors ow0
            = Raise UnboundLocalError).
  { intros cl ow0 Hne. unfold DataPrep.process_. rewrite Hids.
    rewrite mapData_unbound by auto. reflexivity. }
  split.
  - unfold DataPrep.process. rewrite Hproc; [reflexivity|].
    intros Hnil. assert (Hc0 : In c (filter (fun c0 =>
                     DataPrep.testContentSelectors sD c0 contentSelectors) containerList))
      by (apply filter_In; auto).
    rewrite Hnil in Hc0. destruct Hc0.
  - unfold DataPrep.processDocuments.
    apply (foldM_raises_only _ _ c UnboundLocalError Hin).
    + intros s. rewrite Hproc; [reflexivity|]. simpl. rewrite Hsel. discriminate.
    + intros s y e.
      destruct (DataPrep.testContentSelectors sD y contentSelectors) eqn:Ey.
      * rewrite Hproc by (simpl; rewrite Ey; discriminate). cbn [bind]. now intros [= <-].
      * unfold DataPrep.process_. simpl filter. rewrite Ey.
        unfold DataPrep.mapData. cbn [foldM bind]. discriminate.
Qed.

Lemma filter_none {A : Type} (f : A -> bool) (l : list A) :
  (forall x, In x l -> f x = false) -> filter f l = [].
Proof.
  induction l as [|x rest IH]; intros Hf; simpl; [reflexivity|].
  rewrite (Hf x) by now left. apply IH. intros y Hy. apply Hf. now right.
Qed.

Lemma transformTableData_nil (sD : DataPrep.SchemaDef) (styleType : string) :
  DataPrep.transformTableData sD [] styleType = [].
Proof.
  unfold DataPrep.transformTableData.
  destruct (String.eqb styleType "rowwise_by_name"); [reflexivity|].
  destruct (String.eqb styleType "rowwise_by_name_with_cardinality"); [reflexivity|].
  destruct (String.eqb styleType "columnwise_by_name"); [reflexivity|].
  destruct (String.eqb styleType "rowwise_no_name"); reflexivity.
Qed.

Lemma dropEmptyTables_nil (filterType : string) : DataPrep.dropEmptyTables filterType [] = [].
Proof. unfold DataPrep.dropEmptyTables. now destruct (strContains _ _). Qed.

Lemma process_rejected (parse : string -> option DateTime) (sD : DataPrep.SchemaDef)
  (excluded : list string) (containerList : list DataPrep.Container)
  (filterType : string) (contentSelectors : option (list string))
  (ow : DataPrep.OverWrite) :
  (forall c, In c containerList -> DataPrep.testContentSelectors sD c contentSelectors = false) ->
  DataPrep.process_ parse sD excluded containerList filterType contentSelectors ow
  = Ok ([], map DataPrep.getName containerList, ow).
Proof.
  intros Hrej. unfold DataPrep.process_. rewrite filter_none by exact Hrej.
  unfold DataPrep.mapData. cbn [foldM bind DataPrep.ms_heap DataPrep.ms_tables
    DataPrep.ms_overWrite DataPrep.readTables map].
  now rewrite dropEmptyTables_nil.
Qed.

(** X27. Containers that the content selectors reject contribute no table:
    when every container is rejected, [process] returns the empty
    collection, and [processDocuments] still returns one document per
    container, holding nothing but the reserved key.  The name list names
    the rejected containers all the same and the overflow accumulator is
    unchanged. *)
Theorem X27_rejected_containers_give_empty_documents (parse : string -> option DateTime)
  (sD : DataPrep.SchemaDef) (excluded : list string)
  (containerList : list DataPrep.Container) (styleType filterType : string)
  (contentSelectors : option (list string)) (ow : DataPrep.OverWrite) :
  (forall c, In c containerList -> DataPrep.testContentSelectors sD c contentSelectors = false) ->
  DataPrep.process parse sD excluded containerList styleType filterType contentSelectors ow
  = Ok ([], map DataPrep.getName containerList, ow) /\
  DataPrep.processDocuments parse sD excluded containerList styleType filterType
    contentSelectors ow
  = Ok (map (fun c => [("__CONTAINER_NAME__", SText (DataPrep.getName c))]) containerList,
        map DataPrep.getName containerList, ow).
Proof.
  intros Hrej. split.
  - unfold DataPrep.process. rewrite process_rejected by exact Hrej.
    cbn [bind fst snd]. now rewrite transformTableData_nil.
  - unfold DataPrep.processDocuments.
    rewrite (foldM_pure _ (fun acc c =>
               (fst (fst acc) ++ [[("__CONTAINER_NAME__", SText (DataPrep.getName c))]],
                snd (fst acc) ++ [DataPrep.getName c], snd acc))).
    + f_equal.
      assert (Hgen : forall l docs names,
        fold_left (fun (acc : list Doc * list string * DataPrep.OverWrite) c =>
               (fst (fst acc) ++ [[("__CONTAINER_NAME__", SText (DataPrep.getName c))]],
                snd (fst acc) ++ [DataPrep.getName c], snd acc)) l (docs, names, ow)
        = (docs ++ map (fun c => [("__CONTAINER_NAME__", SText (DataPrep.getName c))]) l,
           names ++ map DataPrep.getName l, ow)).
      { induction l as [|c rest IH]; intros docs names; simpl.
        - now rewrite !app_nil_r.
        - rewrite IH. cbn [fst snd]. now rewrite <- !app_assoc. }
      apply Hgen.
    + intros acc c Hc.
      rewrite process_rejected
        by (intros c' [<- | []]; apply Hrej; exact Hc).
      cbn [bind fst snd map]. now rewrite transformTableData_nil.
Qed.

Lemma X23_unmapped_first_table_raises_witness :
  DataPrep.process Ex.isoParse
    (Ex.schemaOf [("ENTITY", Ex.entityDef); ("AUDIT", Ex.auditDef); ("ENTRY", Ex.entryDef)]
       (fun _ => []))
    ["ENTITY"] [Ex.container] "rowwise_by_name" "none" None []
  = Raise UnboundLocalError.
Proof.
  refine (proj1 (X23_unmapped_first_table_raises Ex.isoParse
                   (Ex.schemaOf [("ENTITY", Ex.entityDef); ("AUDIT", Ex.auditDef);
                                 ("ENTRY", Ex.entryDef)] (fun _ => []))
                   ["ENTITY"] ["ENTITY"] ["ENTRY"] "AUDIT" [Ex.container] Ex.container
                   "rowwise_by_name" "none" None [] eq_refl _ eq_refl eq_refl
                   (or_introl eq_refl) eq_refl)).
  intros t [<- | []]. reflexivity.
Defined.

Lemma X27_rejected_containers_give_empty_documents_witness :
  DataPrep.processDocuments Ex.isoParse
    (Ex.schemaOf [("ENTRY", Ex.entryDef)] (fun _ => [Ex.entrySelector]))
    [] [Ex.container] "rowwise_by_name" "none" (Some ["PDBX"]) []
  = Ok ([[("__CONTAINER_NAME__", SText "1ABC")]], ["1ABC"], []).
Proof.
  refine (proj2 (X27_rejected_containers_give_empty_documents Ex.isoParse
                   (Ex.schemaOf [("ENTRY", Ex.entryDef)] (fun _ => [Ex.entrySelector]))
                   [] [Ex.container] "rowwise_by_name" "none" (Some ["PDBX"]) [] _)).
  intros c [<- | []]. reflexivity.
Defined.

Lemma process_names (parse : string -> option DateTime) (sD : DataPrep.SchemaDef)
  (excluded : list string) (containerList : list DataPrep.Container)
  (filterType : string) (contentSelectors : option (list string))
  (ow : DataPrep.OverWrite) (r : DataById * list string * DataPrep.OverWrite) :
  DataPrep.process_ parse sD excluded containerList filterType contentSelectors ow = Ok r ->
  snd (fst r) = map DataPrep.getName containerList.
Proof.
  unfold DataPrep.process_.
  match goal with |- bind ?m _ = _ -> _ => destruct m as [st|]; [|discriminate] end.
  cbn [bind]. now intros [= <-].
Qed.

Lemma fetch_names_loop (parse : string -> option DateTime) (sD : DataPrep.SchemaDef)
  (readFile : string -> list DataPrep.Container) (excluded : list string)
  (filterType : string) (contentSelectors : option (list string))
  (loadPathList : list string)
  (acc r : list Row * dict string (list nat) * list string * DataPrep.OverWrite) :
  foldM (fun acc lPath =>
         st <- DataPrep.mapData parse sD excluded
                 (filter (fun c => DataPrep.testContentSelectors sD c contentSelectors)
                    (readFile lPath))
                 (DataPrep.getTableIdList sD) filterType
                 (fst (fst (fst acc))) (snd (fst (fst acc))) (snd acc) ;;
         Ok (DataPrep.ms_heap st, DataPrep.ms_tables st,
             snd (fst acc) ++ map DataPrep.getName (readFile lPath),
             DataPrep.ms_overWrite st))
       loadPathList acc = Ok r ->
  snd (fst r) = snd (fst acc) ++ flat_map (fun p => map DataPrep.getName (readFile p)) loadPathList.
Proof.
  revert acc. induction loadPathList as [|p rest IH]; intros acc; cbn [foldM flat_map].
  - intros [= <-]. now rewrite app_nil_r.
  - match goal with |- bind (bind ?m _) _ = _ -> _ => destruct m as [st|]; [|discriminate] end.
    cbn [bind]. intros Hrest. apply IH in Hrest. rewrite Hrest. cbn [fst snd].
    now rewrite app_assoc.
Qed.

Lemma fetch_names (parse : string -> option DateTime) (sD : DataPrep.SchemaDef)
  (readFile : string -> list DataPrep.Container) (excluded : list string)
  (loadPathList : list string) (filterType : string)
  (contentSelectors : option (list string)) (ow : DataPrep.OverWrite)
  (r : DataById * list string * DataPrep.OverWrite) :
  DataPrep.fetch_ parse sD readFile excluded loadPathList filterType contentSelectors ow = Ok r ->
  snd (fst r) = flat_map (fun p => map DataPrep.getName (readFile p)) loadPathList.
Proof.
  unfold DataPrep.fetch_.
  match goal with |- bind ?m _ = _ -> _ => destruct m as [a|] eqn:E; [|discriminate] end.
  cbn [bind]. intros [= <-]. cbn [fst snd].
  apply fetch_names_loop in E. exact E.
Qed.

(** X26. The name list that [processDocuments] returns names every input
    container, in order, and the one that [fetchDocuments] returns names
    every container of every file read, in order: a container that the
    content selectors reject is named as well. *)
Theorem X26_name_list_names_every_container (parse : string -> option DateTime)
  (sD : DataPrep.SchemaDef) (readFile : string -> list DataPrep.Container)
  (excluded : list string) (styleType filterType : string)
  (contentSelectors : option (list string)) (ow : DataPrep.OverWrite) :
  (forall containerList docs names ow',
     DataPrep.processDocuments parse sD excluded containerList styleType filterType
       contentSelectors ow = Ok (docs, names, ow') ->
     names = map DataPrep.getName containerList) /\
  (forall inputPathList docs names ow',
     DataPrep.fetchDocuments parse sD readFile excluded inputPathList styleType filterType
       contentSelectors ow = Ok (docs, names, ow') ->
     names = flat_map (fun p => map DataPrep.getName (readFile p)) inputPathList).
Proof.
  split.
  - intros containerList docs names ow' Hrun.
    assert (Hgen : forall l acc res,
      foldM (fun acc container =>
        r <- DataPrep.process_ parse sD excluded [container] filterType contentSelectors
               (snd acc) ;;
        Ok (fst (fst acc) ++
              [dset "__CONTAINER_NAME__" (SText (DataPrep.getName container))
                 (DataPrep.transformTableData sD (fst (fst r)) styleType)],
            snd (fst acc) ++ snd (fst r), snd r)) l acc = Ok res ->
      snd (fst res) = snd (fst acc) ++ map DataPrep.getName l).
    { induction l as [|c rest IH]; intros acc res; cbn [foldM map].
      - intros [= <-]. now rewrite app_nil_r.
      - destruct (DataPrep.process_ parse sD excluded [c] filterType contentSelectors
                    (snd acc)) as [r|] eqn:E; [|discriminate].
        cbn [bind]. intros Hrest. apply IH in Hrest. rewrite Hrest. cbn [fst snd].
        rewrite (process_names _ _ _ _ _ _ _ _ E). cbn [map]. now rewrite <- app_assoc. }
    exact (Hgen containerList _ _ Hrun).
  - intros inputPathList docs names ow' Hrun.
    assert (Hgen : forall l acc res,
      foldM (fun acc inputPath =>
        r <- DataPrep.fetch_ parse sD readFile excluded [inputPath] filterType
               contentSelectors (snd acc) ;;
        Ok (fst (fst acc) ++
              [dset "__INPUT_PATH__" (SText inputPath)
                 (DataPrep.transformTableData sD (fst (fst r)) styleType)],
            snd (fst acc) ++ snd (fst r), snd r)) l acc = Ok res ->
      snd (fst res) = snd (fst acc) ++ flat_map (fun p => map DataPrep.getName (readFile p)) l).
    { induction l as [|p rest IH]; intros acc res; cbn [foldM flat_map].
      - intros [= <-]. now rewrite app_nil_r.
      - destruct (DataPrep.fetch_ parse sD readFile excluded [p] filterType contentSelectors
                    (snd acc)) as [r|] eqn:E; [|discriminate].
        cbn [bind]. intros Hrest. apply IH in Hrest. rewrite Hrest. cbn [fst snd].
        rewrite (fetch_names _ _ _ _ _ _ _ _ _ E). cbn [flat_map]. rewrite app_nil_r.
        now rewrite <- app_assoc. }
    exact (Hgen inputPathList _ _ Hrun).
Qed.

Lemma X26_name_list_names_every_container_witness :
  exists docs ow',
    DataPrep.fetchDocuments Ex.isoParse
      (Ex.schemaOf [("ENTRY", Ex.entryDef)] (fun _ => [Ex.entrySelector]))
      Ex.readFiles [] ["both.cif"; "1abc.cif"] "rowwise_by_name" "none" (Some ["PDBX"]) []
    = Ok (docs, ["1ABC"; "2XYZ"; "1ABC"], ow').
Proof.
  destruct (DataPrep.fetchDocuments Ex.isoParse
      (Ex.schemaOf [("ENTRY", Ex.entryDef)] (fun _ => [Ex.entrySelector]))
      Ex.readFiles [] ["both.cif"; "1abc.cif"] "rowwise_by_name" "none" (Some ["PDBX"]) [])
    as [[[docs names] ow']|e] eqn:E; [|vm_compute in E; discriminate].
  exists docs, ow'.
  now rewrite (proj2 (X26_name_list_names_every_container Ex.isoParse
                 (Ex.schemaOf [("ENTRY", Ex.entryDef)] (fun _ => [Ex.entrySelector]))
                 Ex.readFiles [] "rowwise_by_name" "none" (Some ["PDBX"]) [])
               ["both.cif"; "1abc.cif"] docs names ow' E).
Defined.

(** ** Tables of the mapping run *)

Lemma mapTable_keys (parse : string -> option DateTime) (sD : DataPrep.SchemaDef)
  (excluded : list string) (c : DataPrep.Container) (filterType : string)
  (st st' : DataPrep.MapState) (T : string) :
  DataPrep.mapTable parse sD excluded c filterType st T = Ok st' ->
  forall k, In k (dkeys (DataPrep.ms_tables st')) <->
            In k (dkeys (DataPrep.ms_tables st)) \/
            (k = T /\ existsb (String.eqb k) excluded = false).
Proof.
  unfold DataPrep.mapTable. destruct (existsb (String.eqb T) excluded) eqn:He.
  - intros [= <-] k. split; [auto|]. intros [Hk | [-> Hk]]; [exact Hk | congruence].
  - match goal with |- bind ?m _ = _ -> _ => destruct m as [r|]; [|discriminate] end.
    cbn [bind]. destruct (snd (fst r)) as [rowList|]; [|discriminate].
    intros [= <-] k. cbn [DataPrep.ms_tables]. rewrite dkeys_dset_In.
    destruct (dmem T (DataPrep.ms_tables st)) eqn:Em.
    + split.
      * intros [-> | Hk]; [right; auto | left; exact Hk].
      * intros [Hk | [-> _]]; [right; exact Hk | left; reflexivity].
    + rewrite dkeys_dset_In. split.
      * intros [-> | [-> | Hk]]; [right; auto | right; auto | left; exact Hk].
      * intros [Hk | [-> _]]; [right; right; exact Hk | left; reflexivity].
Qed.

Lemma mapTables_keys (parse : string -> option DateTime) (sD : DataPrep.SchemaDef)
  (excluded : list string) (c : DataPrep.Container) (filterType : string)
  (tids : list string) (st st' : DataPrep.MapState) :
  foldM (DataPrep.mapTable parse sD excluded c filterType) tids st = Ok st' ->
  forall k, In k (dkeys (DataPrep.ms_tables st')) <->
            In k (dkeys (DataPrep.ms_tables st)) \/
            (In k tids /\ existsb (String.eqb k) excluded = false).
Proof.
  revert st. induction tids as [|T rest IH]; intros st; cbn [foldM].
  - intros [= <-] k. cbn [In]. tauto.
  - destruct (DataPrep.mapTable parse sD excluded c filterType st T) as [st1|] eqn:E;
      [|discriminate].
    cbn [bind]. intros Hrest k. rewrite (IH st1 Hrest k).
    rewrite (mapTable_keys _ _ _ _ _ _ _ _ E k). cbn [In].
    split.
    + intros [[Hk | [-> Hk]] | [Hk He]]; auto.
    + intros [Hk | [[<- | Hk] He]]; auto.
Qed.

Lemma mapData_keys (parse : string -> option DateTime) (sD : DataPrep.SchemaDef)
  (excluded : list string) (filterType : string) (tids : list string)
  (cL : list DataPrep.Container) (st st' : DataPrep.MapState) :
  foldM (fun st myContainer =>
           foldM (DataPrep.mapTable parse sD excluded myContainer filterType) tids st)
    cL st = Ok st' ->
  forall k, In k (dkeys (DataPrep.ms_tables st')) <->
            In k (dkeys (DataPrep.ms_tables st)) \/
            (cL <> [] /\ In k tids /\ existsb (String.eqb k) excluded = false).
Proof.
  revert st. induction cL as [|c rest IH]; intros st; cbn [foldM].
  - intros [= <-] k. split; [auto|]. intros [Hk | [Hne _]]; [exact Hk | congruence].
  - destruct (foldM (DataPrep.mapTable parse sD excluded c filterType) tids st)
      as [st1|] eqn:E; [|discriminate].
    cbn [bind]. intros Hrest k. rewrite (IH st1 Hrest k).
    rewrite (mapTables_keys _ _ _ _ _ _ _ _ E k).
    split.
    + intros [[Hk | Hk] | [_ Hk]]; auto; right; (split; [discriminate | exact Hk]).
    + intros [Hk | [_ Hk]]; auto.
Qed.

Lemma dkeys_readTables (h : list Row) (tables : dict string (list nat)) :
  dkeys (DataPrep.readTables h tables) = dkeys tables.
Proof. unfold DataPrep.readTables, dkeys. rewrite map_map. reflexivity. Qed.

(** X25. The table collection that [__process] returns is keyed by table
    ids of the schema that are not excluded.  With [drop-empty-tables] no
    returned table is empty; without it, as soon as one container passes
    the content selectors, every table of the schema that is not excluded
    is present, with or without rows. *)
Theorem X25_returned_tables_are_the_schema_tables (parse : string -> option DateTime)
  (sD : DataPrep.SchemaDef) (excluded : list string)
  (containerList : list DataPrep.Container) (filterType : string)
  (contentSelectors : option (list string)) (ow ow' : DataPrep.OverWrite)
  (d : DataById) (names : list string) :
  DataPrep.process_ parse sD excluded containerList filterType contentSelectors ow
  = Ok (d, names, ow') ->
  (forall k, In k (dkeys d) ->
     In k (DataPrep.getTableIdList sD) /\ existsb (String.eqb k) excluded = false) /\
  (strContains "drop-empty-tables" filterType = true ->
   forall k rows, In (k, rows) d -> rows <> []) /\
  (strContains "drop-empty-tables" filterType = false ->
   forall c, In c containerList ->
     DataPrep.testContentSelectors sD c contentSelectors = true ->
     forall k, In k (DataPrep.getTableIdList sD) ->
       existsb (String.eqb k) excluded = false -> In k (dkeys d)).
Proof.
  unfold DataPrep.process_, DataPrep.mapData.
  match goal with |- bind ?m _ = _ -> _ => destruct m as [st|] eqn:E; [|discriminate] end.
  cbn [bind]. intros [= <- _ _].
  pose proof (mapData_keys _ _ _ _ _ _ _ _ E) as Hkeys. cbn [DataPrep.ms_tables dkeys map] in Hkeys.
  unfold DataPrep.dropEmptyTables.
  assert (Hsub : forall k, In k (dkeys (DataPrep.ms_tables st)) ->
            In k (DataPrep.getTableIdList sD) /\ existsb (String.eqb k) excluded = false).
  { intros k Hk. apply Hkeys in Hk. destruct Hk as [[] | [_ Hk]]. exact Hk. }
  destruct (strContains "drop-empty-tables" filterType); (split; [|split]).
  - intros k Hk. unfold dkeys in Hk. apply in_map_iff in Hk.
    destruct Hk as [[k' rows] [<- Hin]]. apply filter_In in Hin. destruct Hin as [Hin _].
    apply Hsub. rewrite <- (dkeys_readTables (DataPrep.ms_heap st)).
    unfold dkeys. apply in_map_iff. exists (k', rows). auto.
  - intros _ k rows Hin. apply filter_In in Hin. destruct Hin as [_ Hlen].
    cbn [snd] in Hlen. destruct rows; discriminate.
  - discriminate.
  - intros k Hk. rewrite dkeys_readTables in Hk. now apply Hsub.
  - discriminate.
  - intros _ c Hc Hsel k Hk He. rewrite dkeys_readTables. apply Hkeys. right.
    repeat split; auto.
    intros Hnil. assert (Hc0 : In c (filter (fun c0 =>
                     DataPrep.testContentSelectors sD c0 contentSelectors) containerList))
      by (apply filter_In; auto).
    rewrite Hnil in Hc0. destruct Hc0.
Qed.

Lemma X25_returned_tables_are_the_schema_tables_witness :
  exists d names ow',
    DataPrep.process_ Ex.isoParse Ex.pD ["MERGED"] [Ex.container] "none" None []
    = Ok (d, names, ow') /\
    forall k, In k (dkeys d) ->
      In k (DataPrep.getTableIdList Ex.pD) /\ existsb (String.eqb k) ["MERGED"] = false.
Proof.
  destruct (DataPrep.process_ Ex.isoParse Ex.pD ["MERGED"] [Ex.container] "none" None [])
    as [[[d names] ow']|e] eqn:E; [|vm_compute in E; discriminate].
  exists d, names, ow'. split; [reflexivity|].
  exact (proj1 (X25_returned_tables_are_the_schema_tables Ex.isoParse Ex.pD ["MERGED"]
                  [Ex.container] "none" None [] ow' d names E)).
Defined.

Lemma dget_readTables (h : list Row) (tables : dict string (list nat)) (T : string) :
  dget T (DataPrep.readTables h tables) = option_map (rowsOfRefs h) (dget T tables).
Proof. exact (dget_map_values (rowsOfRefs h) T tables). Qed.

(** X24. A table with no mapped category that follows a table with mapped
    categories is extended by the very row objects that were just appended
    to that table: [rowList] still holds them.  Both tables end with the
    same rows, whatever the computed attributes of the second table wrote
    into them. *)
Theorem X24_unmapped_table_repeats_previous_rows (parse : string -> option DateTime)
  (sD : DataPrep.SchemaDef) (excluded : list string) (c : DataPrep.Container)
  (filterType : string) (st st1 : DataPrep.MapState) (T1 T2 : string) :
  existsb (String.eqb T1) excluded = false ->
  existsb (String.eqb T2) excluded = false ->
  T1 <> T2 ->
  DataPrep.getMapInstanceCategoryList (DataPrep.getTable sD T1) <> [] ->
  DataPrep.getMapInstanceCategoryList (DataPrep.getTable sD T2) = [] ->
  DataPrep.mapTable parse sD excluded c filterType st T1 = Ok st1 ->
  exists rowList st2,
    DataPrep.ms_rowList st1 = Some rowList /\
    DataPrep.mapTable parse sD excluded c filterType st1 T2 = Ok st2 /\
    DataPrep.ms_overWrite st2 = DataPrep.ms_overWrite st1 /\
    dget T1 (DataPrep.readTables (DataPrep.ms_heap st2) (DataPrep.ms_tables st2))
    = Some (rowsOfRefs (DataPrep.ms_heap st2) (tableRefs T1 st) ++
            rowsOfRefs (DataPrep.ms_heap st2) rowList) /\
    dget T2 (DataPrep.readTables (DataPrep.ms_heap st2) (DataPrep.ms_tables st2))
    = Some (rowsOfRefs (DataPrep.ms_heap st2) (tableRefs T2 st) ++
            rowsOfRefs (DataPrep.ms_heap st2) rowList).
Proof.
  intros He1 He2 Hne Hc1 Hc2 Hstep1.
  assert (H1 : exists rowList,
            DataPrep.ms_rowList st1 = Some rowList /\
            dget T1 (DataPrep.ms_tables st1) = Some (tableRefs T1 st ++ rowList) /\
            forall T, T <> T1 ->
              dget T (DataPrep.ms_tables st1) = dget T (DataPrep.ms_tables st)).
  { revert Hstep1. unfold DataPrep.mapTable. rewrite He1.
    match goal with |- bind ?m _ = _ -> _ => destruct m as [r|]; [|discriminate] end.
    cbn [bind]. destruct (snd (fst r)) as [rowList|]; [|discriminate].
    intros [= <-]. exists rowList. cbn [DataPrep.ms_rowList DataPrep.ms_tables].
    split; [reflexivity|]. split.
    - rewrite dget_dset_eq. unfold tableRefs, dmem.
      destruct (dget T1 (DataPrep.ms_tables st)) eqn:Eg; [now rewrite Eg|].
      now rewrite dget_dset_eq.
    - intros T HT. rewrite dget_dset_neq by congruence.
      destruct (dmem T1 (DataPrep.ms_tables st)); [reflexivity|].
      now rewrite dget_dset_neq by congruence. }
  destruct H1 as [rowList [Hrl [Hg1 Hother]]].
  exists rowList. unfold DataPrep.mapTable. rewrite He2, Hc2. cbn [bind fst snd].
  rewrite Hrl. eexists. split; [reflexivity|]. split; [reflexivity|].
  cbn [DataPrep.ms_overWrite DataPrep.ms_heap DataPrep.ms_tables].
  split; [reflexivity|].
  rewrite !dget_readTables. rewrite dget_dset_eq, dget_dset_neq by congruence.
  assert (Hold : match dget T2 (if dmem T2 (DataPrep.ms_tables st1)
                                then DataPrep.ms_tables st1
                                else dset T2 [] (DataPrep.ms_tables st1))
                 with Some l => l | None => [] end = tableRefs T2 st).
  { unfold tableRefs, dmem. rewrite <- (Hother T2) by congruence.
    destruct (dget T2 (DataPrep.ms_tables st1)) eqn:Eg; [now rewrite Eg|].
    now rewrite dget_dset_eq. }
  rewrite Hold.
  assert (Hg1' : dget T1 (if dmem T2 (DataPrep.ms_tables st1)
                          then DataPrep.ms_tables st1
                          else dset T2 [] (DataPrep.ms_tables st1))
                 = Some (tableRefs T1 st ++ rowList)).
  { destruct (dmem T2 (DataPrep.ms_tables st1)); [exact Hg1|].
    now rewrite dget_dset_neq by congruence. }
  rewrite Hg1'. cbn [option_map]. unfold rowsOfRefs. rewrite !flat_map_app. auto.
Qed.

Lemma X24_unmapped_table_repeats_previous_rows_witness :
  exists st1 rowList st2,
    DataPrep.mapTable Ex.isoParse
      (Ex.schemaOf [("ENTRY", Ex.entryDef);
                    ("AUDIT", Ex.withOtherAttributes Ex.auditDef ["ENTRY_ID"] "datablockid()")]
         (fun _ => []))
      [] Ex.container "none"
      {| DataPrep.ms_heap := []; DataPrep.ms_tables := []; DataPrep.ms_rowList := None;
         DataPrep.ms_overWrite := [] |} "ENTRY" = Ok st1 /\
    dget "ENTRY" (DataPrep.readTables (DataPrep.ms_heap st2) (DataPrep.ms_tables st2))
    = Some (rowsOfRefs (DataPrep.ms_heap st2) rowList) /\
    dget "AUDIT" (DataPrep.readTables (DataPrep.ms_heap st2) (DataPrep.ms_tables st2))
    = Some (rowsOfRefs (DataPrep.ms_heap st2) rowList).
Proof.
  destruct (DataPrep.mapTable Ex.isoParse
      (Ex.schemaOf [("ENTRY", Ex.entryDef);
                    ("AUDIT", Ex.withOtherAttributes Ex.auditDef ["ENTRY_ID"] "datablockid()")]
         (fun _ => []))
      [] Ex.container "none"
      {| DataPrep.ms_heap := []; DataPrep.ms_tables := []; DataPrep.ms_rowList := None;
         DataPrep.ms_overWrite := [] |} "ENTRY") as [st1|e] eqn:E;
    [|vm_compute in E; discriminate].
  destruct (X24_unmapped_table_repeats_previous_rows Ex.isoParse
      (Ex.schemaOf [("ENTRY", Ex.entryDef);
                    ("AUDIT", Ex.withOtherAttributes Ex.auditDef ["ENTRY_ID"] "datablockid()")]
         (fun _ => []))
      [] Ex.container "none"
      {| DataPrep.ms_heap := []; DataPrep.ms_tables := []; DataPrep.ms_rowList := None;
         DataPrep.ms_overWrite := [] |} st1 "ENTRY" "AUDIT" eq_refl eq_refl
      ltac:(discriminate) ltac:(discriminate) eq_refl E)
    as [rowList [st2 [_ [_ [_ [H1 H2]]]]]].
  exists st1, rowList, st2. split; [reflexivity|]. split; [exact H1 | exact H2].
Defined.

(** ** Several calls of [__mapData] and one *)

Lemma foldM_app {A S : Type} (f : S -> A -> Exc S) (l1 l2 : list A) (s : S) :
  foldM f (l1 ++ l2) s = bind (foldM f l1 s) (foldM f l2).
Proof.
  revert s. induction l1 as [|x rest IH]; intros s; cbn [app foldM bind]; [reflexivity|].
  destruct (f s x) as [s1|e]; cbn [bind]; [apply IH | reflexivity].
Qed.

Lemma sameOutcome_refl (r : Exc DataPrep.MapState) : sameOutcome r r.
Proof. destruct r; simpl; [repeat split | reflexivity]. Qed.

Lemma sameTables_forget (st : DataPrep.MapState) : sameTables st (forgetRowList st).
Proof. repeat split. Qed.

Lemma forgetRowList_fresh (st : DataPrep.MapState) :
  DataPrep.ms_rowList st = None -> forgetRowList st = st.
Proof. destruct st as [h t r o]. simpl. intros ->. reflexivity. Qed.

Lemma mapTable_mapped_independent (parse : string -> option DateTime)
  (sD : DataPrep.SchemaDef) (excluded : list string) (c : DataPrep.Container)
  (filterType : string) (st1 st2 : DataPrep.MapState) (T : string) :
  existsb (String.eqb T) excluded = false ->
  DataPrep.getMapInstanceCategoryList (DataPrep.getTable sD T) <> [] ->
  sameTables st1 st2 ->
  DataPrep.mapTable parse sD excluded c filterType st1 T
  = DataPrep.mapTable parse sD excluded c filterType st2 T.
Proof.
  intros He Hc [Hh [Ht Ho]]. unfold DataPrep.mapTable. rewrite He.
  destruct st1 as [h1 t1 r1 o1], st2 as [h2 t2 r2 o2].
  cbn [DataPrep.ms_heap DataPrep.ms_tables DataPrep.ms_overWrite DataPrep.ms_rowList] in *.
  subst h2 t2 o2.
  destruct (DataPrep.getMapInstanceCategoryList (DataPrep.getTable sD T)) as [|c1 [|c2 rest]];
    [contradiction | reflexivity | reflexivity].
Qed.

Lemma tableIdList_shape (sD : DataPrep.SchemaDef) (excluded tids : list string) :
  (forall t, In t tids -> existsb (String.eqb t) excluded = true) \/
  exists pre T post,
    tids = pre ++ T :: post /\
    (forall t, In t pre -> existsb (String.eqb t) excluded = true) /\
    existsb (String.eqb T) excluded = false.
Proof.
  induction tids as [|t rest IH]; [left; intros t []|].
  destruct (existsb (String.eqb t) excluded) eqn:E.
  - destruct IH as [Hall | [pre [T [post [-> [Hpre HT]]]]]].
    + left. intros t' [<- | Ht']; auto.
    + right. exists (t :: pre), T, post. split; [reflexivity|]. split; [|exact HT].
      intros t' [<- | Ht']; auto.
  - right. exists [], t, rest. split; [reflexivity|]. split; [|exact E]. intros t' [].
Qed.

Lemma mapTables_all_excluded (parse : string -> option DateTime)
  (sD : DataPrep.SchemaDef) (excluded : list string) (c : DataPrep.Container)
  (filterType : string) (tids : list string) (st : DataPrep.MapState) :
  (forall t, In t tids -> existsb (String.eqb t) excluded = true) ->
  foldM (DataPrep.mapTable parse sD excluded c filterType) tids st = Ok st.
Proof.
  intros Hall. rewrite <- (app_nil_r tids).
  now rewrite mapTables_excluded_prefix.
Qed.

(** A later call of [__mapData] starts with [rowList] unbound, a later
    turn of the container loop keeps it: the results differ in nothing
    else. *)
Lemma mapData_carried_or_fresh (parse : string -> option DateTime)
  (sD : DataPrep.SchemaDef) (excluded : list string) (filterType : string)
  (tids : list string) (cL1 cL2 : list DataPrep.Container) (st0 st : DataPrep.MapState) :
  DataPrep.ms_rowList st0 = None ->
  foldM (fun st myContainer =>
           foldM (DataPrep.mapTable parse sD excluded myContainer filterType) tids st)
    cL1 st0 = Ok st ->
  sameOutcome
    (foldM (fun st myContainer =>
              foldM (DataPrep.mapTable parse sD excluded myContainer filterType) tids st)
       cL2 st)
    (foldM (fun st myContainer =>
              foldM (DataPrep.mapTable parse sD excluded myContainer filterType) tids st)
       cL2 (forgetRowList st)).
Proof.
  intros Hnone Hrun.
  destruct (tableIdList_shape sD excluded tids) as [Hall | [pre [T [post [-> [Hpre HT]]]]]].
  - rewrite !(foldM_pure _ (fun s _ => s))
      by (intros s x _; now apply mapTables_all_excluded).
    assert (Hconst : forall (l : list DataPrep.Container) (s : DataPrep.MapState),
              fold_left (fun s0 _ => s0) l s = s)
      by (induction l as [|x rest IH]; intros s; simpl; auto).
    rewrite !Hconst. apply sameTables_forget.
  - destruct (DataPrep.getMapInstanceCategoryList (DataPrep.getTable sD T)) eqn:Ec.
    + destruct cL1 as [|c1 rest1].
      * cbn [foldM] in Hrun. injection Hrun as <-.
        rewrite forgetRowList_fresh by exact Hnone. apply sameOutcome_refl.
      * cbn [foldM] in Hrun. rewrite mapTables_excluded_prefix in Hrun by exact Hpre.
        cbn [foldM] in Hrun. rewrite mapTable_unbound in Hrun by auto. discriminate.
    + destruct cL2 as [|c2 rest2]; [apply sameTables_forget|].
      cbn [foldM]. rewrite !mapTables_excluded_prefix by exact Hpre. cbn [foldM].
      rewrite (mapTable_mapped_independent parse sD excluded c2 filterType st
                 (forgetRowList st) T HT)
        by (try rewrite Ec; try discriminate; apply sameTables_forget).
      apply sameOutcome_refl.
Qed.

Lemma fetch_loop (parse : string -> option DateTime) (sD : DataPrep.SchemaDef)
  (readFile : string -> list DataPrep.Container) (excluded : list string)
  (filterType : string) (contentSelectors : option (list string))
  (st0 : DataPrep.MapState) (loadPathList : list string) :
  DataPrep.ms_rowList st0 = None ->
  forall (done : list DataPrep.Container)
    (acc : list Row * dict string (list nat) * list string * DataPrep.OverWrite)
    (st : DataPrep.MapState),
  foldM (fun st myContainer =>
           foldM (DataPrep.mapTable parse sD excluded myContainer filterType)
             (DataPrep.getTableIdList sD) st)
    done st0 = Ok st ->
  fst (fst (fst acc)) = DataPrep.ms_heap st ->
  snd (fst (fst acc)) = DataPrep.ms_tables st ->
  snd acc = DataPrep.ms_overWrite st ->
  match
    foldM (fun acc lPath =>
         st <- DataPrep.mapData parse sD excluded
                 (filter (fun c => DataPrep.testContentSelectors sD c contentSelectors)
                    (readFile lPath))
                 (DataPrep.getTableIdList sD) filterType
                 (fst (fst (fst acc))) (snd (fst (fst acc))) (snd acc) ;;
         Ok (DataPrep.ms_heap st, DataPrep.ms_tables st,
             snd (fst acc) ++ map DataPrep.getName (readFile lPath),
             DataPrep.ms_overWrite st))
       loadPathList acc,
    foldM (fun st myContainer =>
             foldM (DataPrep.mapTable parse sD excluded myContainer filterType)
               (DataPrep.getTableIdList sD) st)
      (filter (fun c => DataPrep.testContentSelectors sD c contentSelectors)
         (flat_map readFile loadPathList)) st
  with
  | Ok acc', Ok st' =>
      fst (fst (fst acc')) = DataPrep.ms_heap st' /\
      snd (fst (fst acc')) = DataPrep.ms_tables st' /\
      snd acc' = DataPrep.ms_overWrite st' /\
      snd (fst acc') = snd (fst acc) ++ map DataPrep.getName (flat_map readFile loadPathList)
  | Raise e1, Raise e2 => e1 = e2
  | _, _ => False
  end.
Proof.
  intros Hnone. induction loadPathList as [|p rest IH]; intros done acc st Hdone Hh Ht Ho.
  - cbn [foldM flat_map filter map]. rewrite app_nil_r. auto.
  - cbn [foldM flat_map]. rewrite filter_app, foldM_app, map_app.
    pose proof (mapData_carried_or_fresh parse sD excluded filterType
                  (DataPrep.getTableIdList sD) done
                  (filter (fun c => DataPrep.testContentSelectors sD c contentSelectors)
                     (readFile p)) st0 st Hnone Hdone) as Hsame.
    unfold DataPrep.mapData at 1. rewrite Hh, Ht, Ho.
    change {| DataPrep.ms_heap := DataPrep.ms_heap st;
              DataPrep.ms_tables := DataPrep.ms_tables st;
              DataPrep.ms_rowList := None;
              DataPrep.ms_overWrite := DataPrep.ms_overWrite st |}
      with (forgetRowList st).
    destruct (foldM (fun st myContainer =>
                       foldM (DataPrep.mapTable parse sD excluded myContainer filterType)
                         (DataPrep.getTableIdList sD) st)
                (filter (fun c => DataPrep.testContentSelectors sD c contentSelectors)
                   (readFile p)) st) as [s1|e1] eqn:E1;
    destruct (foldM (fun st myContainer =>
                       foldM (DataPrep.mapTable parse sD excluded myContainer filterType)
                         (DataPrep.getTableIdList sD) st)
                (filter (fun c => DataPrep.testContentSelectors sD c contentSelectors)
                   (readFile p)) (forgetRowList st)) as [s2|e2] eqn:E2;
    cbn [sameOutcome] in Hsame; try contradiction; cbn [bind].
    + destruct Hsame as [Sh [St So]].
      assert (Hdone' : foldM (fun st myContainer =>
                 foldM (DataPrep.mapTable parse sD excluded myContainer filterType)
                   (DataPrep.getTableIdList sD) st)
                (done ++ filter (fun c => DataPrep.testContentSelectors sD c contentSelectors)
                           (readFile p)) st0 = Ok s1)
        by (rewrite foldM_app, Hdone; exact E1).
      specialize (IH _ (DataPrep.ms_heap s2, DataPrep.ms_tables s2,
                        snd (fst acc) ++ map DataPrep.getName (readFile p),
                        DataPrep.ms_overWrite s2) s1 Hdone'
                    (eq_sym Sh) (eq_sym St) (eq_sym So)).
      cbn [fst snd] in IH. rewrite <- app_assoc in IH. exact IH.
    + exact (eq_sym Hsame).
Qed.

(** X28. Fetching a list of files is processing the containers of these
    files, in order, as one container list: [__fetch] calls [__mapData]
    once per file and [__process] once in all, and the results, the name
    lists, the overflow accumulators and the exceptions are the same.  The
    same holds for [fetch] and [process]. *)
Theorem X28_fetch_is_process_of_the_files (parse : string -> option DateTime)
  (sD : DataPrep.SchemaDef) (readFile : string -> list DataPrep.Container)
  (excluded : list string) (inputPathList : list string) (styleType filterType : string)
  (contentSelectors : option (list string)) (ow : DataPrep.OverWrite) :
  DataPrep.fetch_ parse sD readFile excluded inputPathList filterType contentSelectors ow
  = DataPrep.process_ parse sD excluded (flat_map readFile inputPathList) filterType
      contentSelectors ow /\
  DataPrep.fetch parse sD readFile excluded inputPathList styleType filterType
    contentSelectors ow
  = DataPrep.process parse sD excluded (flat_map readFile inputPathList) styleType
      filterType contentSelectors ow.
Proof.
  assert (Hinner :
    DataPrep.fetch_ parse sD readFile excluded inputPathList filterType contentSelectors ow
    = DataPrep.process_ parse sD excluded (flat_map readFile inputPathList) filterType
        contentSelectors ow).
  { unfold DataPrep.fetch_, DataPrep.process_, DataPrep.mapData at 2.
    pose proof (fetch_loop parse sD readFile excluded filterType contentSelectors
                  {| DataPrep.ms_heap := []; DataPrep.ms_tables := [];
                     DataPrep.ms_rowList := None; DataPrep.ms_overWrite := ow |}
                  inputPathList eq_refl [] ([], [], [], ow) _ eq_refl eq_refl eq_refl eq_refl)
      as Hloop.
    cbv zeta. revert Hloop.
    match goal with
    | |- _ -> bind ?a _ = bind ?b _ =>
        destruct a as [acc'|e1]; destruct b as [st'|e2]; intros Hloop; try contradiction
    end.
    - destruct Hloop as [Hh [Ht [Ho Hn]]]. cbn [bind]. cbn [fst snd app] in Hn.
      now rewrite Hh, Ht, Ho, Hn.
    - cbn [bind]. now rewrite Hloop. }
  split; [exact Hinner|]. unfold DataPrep.fetch, DataPrep.process. now rewrite Hinner.
Qed.
